(* ===== verification/_CoqProject ===== *)
-Q . S2P
Prelude.v
JsNumber.v
JsString.v
Uri.v
JsText.v
JsDate.v
View.v
Ui.v
Presets.v
Format.v
Sort.v
ApiTypes.v
Csv.v
Keys.v
Series.v
Session.v
Stores.v
KeyHooks.v
Modals.v
DateRange.v
Catalog.v
Panels.v
Kpi.v
Stats.v
Frame.v
Gateways.v
Dashboard.v
Console.v
Json.v
HowTo.v
Site.v
