(* ===== verification/Prelude.v ===== *)
(** * The alitellm-auth console: a verification library (root file)

    The repository holds an authentication service and gateway (Python, Go) and its
    console, a single-page TypeScript application under src/ui/src.  This library
    models the console: what it sends, what it keeps, what it shows and what it lets
    a user do.  Paths below are relative to src/ui/src.

    ** Parts, and how they interact

    The shell (App.tsx) loads the session (stores/session.ts) and the configuration
    (stores/config.ts) through the fetch wrapper (lib/api.ts), decides with
    lib/resolve-state.ts which of five screens to show, and leaves for the login
    address when a session endpoint answers 401.  Once signed in it mounts the frame
    (components/layout) around one of six pages (routes).  Pages read the backend
    through query hooks and change keys through mutation hooks (hooks); they own the
    state they share between their components, and pass callbacks down.  Formatting,
    sorting, validation and date arithmetic are pure functions (lib).

    A component with state is a record with one definition per handler, a [step] on
    an inductive type of events (what the user does, and what the outside answers)
    and a [run] over lists of events.  A component's rendered tree is a value
    (View.v): elements, attributes, text, and the event each handler raises, so that
    what a page offers ([enabled_events]) can be related to what its state machine
    accepts.  A container wraps the events of its parts ([map_node]).

    ** The language (no file of the repository)

    - Prelude: tactics and hint databases, list lemmas, [Array.prototype.sort] as a
      stable sort with its uniqueness, and the class [Comparator] of the comparators
      for which the language fixes its result.
    - JsNumber: numbers are IEEE binary64 ([spec_float] at precision 53), with
      rounding kept; integers are recognised by [is_int], order by [scaled].
    - JsString, JsText, Uri, JsDate: strings of UTF-16 units, numbers as text and
      back, percent encoding, the calendar and [Date.parse].  [Unicode] and [Engine]
      are classes: what the language leaves to the host (case mapping and collation
      outside ASCII, dates in other formats, the time zone) is a parameter, with
      instances to run examples.
    - Json: template literals, and a reader of JSON documents.

    ** Components

    - Presets: lib/stats-presets.ts.  DateRange: components/stats/DateRange.tsx.
    - Format: lib/format.ts, relative-time.ts, budget.ts, spend-projection.ts,
      team-color.ts, urls.ts.  Sort: lib/sort.ts and components/ui/data-table.tsx.
      ApiTypes: lib/api-types.ts.  Csv: lib/csv.ts and the export button.
    - Keys: lib/keys.ts, lib/key-validation.ts, components/keys/KeysTable.tsx.
    - Series: lib/stats-series.ts, lib/top-keys.ts, components/stats/UsageDonut.tsx.
    - Session: lib/api.ts, lib/on-unauthorized.ts, lib/resolve-state.ts,
      stores/session.ts, stores/config.ts, App.tsx.
    - Stores: theme, toasts, copy feedback, fresh secrets, the create dialog's flag.
    - KeyHooks: the hooks of every query and mutation.
    - Modals: components/keys/CreateKeyModal.tsx and DeleteKeyModal.tsx.
    - Catalog: routes/Models.tsx, components/models/ModelFilters.tsx,
      lib/model-classify.ts, the search box, placeholder and usage-type filter.
    - Panels, Kpi: the panels, cards, charts and budgets of components/stats.
    - Stats, Dashboard, Gateways, HowTo: the pages routes/Stats.tsx, Dashboard.tsx,
      Mcp.tsx and A2a.tsx, HowTo.tsx.  Frame: components/layout, the provider chips
      and routes/Login.tsx.
    - Console: the signed-in application as a whole.  App.tsx mounts the frame or not,
      the frame mounts the create dialog and the toaster, the route mounts the
      dashboard with its table and revoke dialog; the calls of the mutation hooks
      are in flight between them, and outlive the component that made them.
      An address without a page leaves the shell's route and comes back to it: the
      shell is mounted anew ([Console.navigate]).
    - Site: the same with every page in the outlet, mounted and unmounted by the route
      and the session; it contains the console and adds the pages' own state.
    - Ui: the styling components of components/ui, lib/ui.ts and lib/utils.ts.  The
      trees of the other files keep them as they are written; [Ui.lower] renders a
      tree down to elements and primitives.

    ** What the theorems show

    - Dates and ranges: presets name the days they say, in order and within the cap
      (C1); the month grid shows each day in its column (C28), and over every sequence
      of clicks the date control reports exactly what a reference that only keeps the
      picked days reports (C29).
    - Text: currency within half a cent (C3), staleness against the relative time
      (C5), exports that a strict reader of the format parses back, when it can, with
      no field that starts a formula (C12), legends that keep models apart (C15),
      snippets that are valid JSON for the live gateway without a key (C30).
    - Tables and lists: the stable sort with missing values last (C7), the rows and
      menus of the rendered keys table (C10), merged and ranked keys (C14, C34: the
      order for each of the four columns), slices and outcomes with exact sums (C35,
      C36: where the two outcome panels differ, and by how much), the catalogue's
      chips, filters and search (C31, C32), the servers and agents (C21).
    - Keys: expiry in any time zone (C9), form validation (C11), requests addressed
      to one key (C22) and settled once (C23), the two dialogs on every run (C24,
      C25, C27), and the dashboard on every run on which the user does only what it
      offers (C6).
    - Session: the shell's safety (C16), and that loading ends (C39).
    - The whole application: what it sends (C2); that it refines a ledger of calls,
      secrets and owed re-reads, whatever was unmounted meanwhile (C8); that each
      part is exactly what it becomes alone on what it is told, with what it is told
      spelled out (C4); what a lost session leaves behind (C17);
      that its states stay well formed (C18); and that rendering through the styling
      components changes nothing of it (C13).  With every page in the outlet it is
      still that application (C19), one page at a time, each with its own life, by the
      six addresses (C33).
    - Client state: toasts with their timers (C20), the tabs and copy buttons of the
      how-to page (C26).
    - Pages: the usage page refines a range selector (C38), the budget displays
      (C37), and the links of the frame and the landing page (C40).

    Theorems about runs hold for every list of events, or for every list of events
    the rendered component offered where they say so.

    ** Bounds and fuel

    - The digits of an integer take its binary length as fuel, which is enough
      ([fuel_enough]); the digits of a number try at most the 17 significant digits
      a binary64 needs.
    - [Json.Json.read] runs on twice the number of tokens, as each call consumes a
      token or enters a value; every document claimed to parse is shown to.
    - Theorems on dates ask for days within some hundred thousand years, where the
      clip of the language's dates plays no part.

    ** Not modelled

    - The Python and Go services, deployment and build files: another language; the
      answers of the services are inputs of the models.
    - Libraries the code calls: the query cache (a query reports pending, failed or
      loaded, an invalidation is recorded), the router beyond its table of routes (its
      normal form of a path, its history; built again when the configuration arrives,
      it is taken to keep what is mounted), the chart
      library's drawing (a chart is its rows and the elements it is given), the
      dialog, menu and tabs primitives (they raise the callbacks they are given).
    - How class names merge is a parameter; fixed styling classes and icons of the pages
      are left out of their trees.  What the query library does with its settings
      (lib/query-client.ts) is an input: whether a failed query is tried again.
    - Browser effects behind a call: writing the clipboard, downloading a file,
      scrolling, leaving the application; the call is an event or an output, its
      outcome an input.  An update of the React state is atomic: a run is a sequence of
      handlers, as the runtime schedules them. *)

From Stdlib Require Export ZArith Lia List.
From stdpp Require Export base list numbers sorting strings gmap relations.
Export ListNotations.
#[global] Open Scope Z_scope.

(** ** Tactics and hint databases *)

Create HintDb js discriminated.
Create Rewrite HintDb js.

(** Turn boolean tests in the hypotheses and the goal into propositions. *)
Ltac bool_to_prop :=
  repeat match goal with
  | H : andb _ _ = true |- _ => apply andb_true_iff in H; destruct H
  | H : orb _ _ = false |- _ => apply orb_false_iff in H; destruct H
  | H : negb _ = true |- _ => apply negb_true_iff in H
  | H : negb _ = false |- _ => apply negb_false_iff in H
  | H : (_ <? _) = true |- _ => apply Z.ltb_lt in H
  | H : (_ <? _) = false |- _ => apply Z.ltb_ge in H
  | H : (_ <=? _) = true |- _ => apply Z.leb_le in H
  | H : (_ <=? _) = false |- _ => apply Z.leb_gt in H
  | H : (_ =? _) = true |- _ => apply Z.eqb_eq in H
  | H : (_ =? _) = false |- _ => apply Z.eqb_neq in H
  end.

(** Case analysis on every boolean test of the goal, keeping the equations. *)
Ltac split_tests :=
  repeat match goal with
  | |- context [if ?b then _ else _] => let E := fresh "Htest" in destruct b eqn:E
  end; bool_to_prop.

(** Linear arithmetic with division and remainder by constants. *)
Ltac zlia := Z.to_euclidean_division_equations; lia.

(** Reduce the option monad and pairs, and nothing else. *)
Ltac opt_simpl :=
  cbn [mbind option_bind fmap option_fmap option_map mret option_ret mjoin option_join
       default from_option fst snd andb orb negb].
Tactic Notation "opt_simpl" "in" hyp(H) :=
  cbn [mbind option_bind fmap option_fmap option_map mret option_ret mjoin option_join
       default from_option fst snd andb orb negb] in H.

(** ** Lists *)

(** Induction by groups of three elements, the last group kept whole. *)
Lemma list_ind_groups {A} (P : list A → Prop) :
  P [] → (∀ a, P [a]) → (∀ a b, P [a; b]) → (∀ a b c, P [a; b; c]) →
  (∀ a b c d l, P (d :: l) → P (a :: b :: c :: d :: l)) → ∀ l, P l.
Proof.
  intros H0 H1 H2 H3 H4 l. remember (length l) as n eqn:Hn. revert l Hn.
  induction (lt_wf n) as [n _ IH]. intros [|a [|b [|c [|d l]]]] ->; auto.
  apply H4. eapply IH; [|done]. simpl. lia.
Qed.

Lemma filter_none {A} (P : A → Prop) `{∀ x, Decision (P x)} l :
  Forall (λ x, ¬ P x) l → filter P l = [].
Proof. induction 1; [done|]. rewrite filter_cons. by case_decide. Qed.

Lemma filter_all {A} (P : A → Prop) `{∀ x, Decision (P x)} l : Forall P l → filter P l = l.
Proof. induction 1 as [|x l Hx Hl IH]; [done|]. rewrite filter_cons, IH. by case_decide. Qed.

Lemma filter_none_iff {A} (P : A → Prop) `{∀ x, Decision (P x)} l :
  filter P l = [] ↔ Forall (λ x, ¬ P x) l.
Proof.
  split; [|apply filter_none]. intros E. apply Forall_forall. intros x Hx HP.
  by apply (filter_nil_not_elem_of _ _ x E HP).
Qed.

Lemma StronglySorted_weaken {A} (R R' : A → A → Prop) l :
  (∀ a b, R a b → R' a b) → StronglySorted R l → StronglySorted R' l.
Proof.
  intros HR. induction 1 as [|x l Hl IH Hx]; constructor; [done|].
  eapply Forall_impl; [exact Hx|]. auto.
Qed.

(** ** Comparator functions and [Array.prototype.sort]

    A JavaScript comparator returns a number of which only the sign matters.
    ECMAScript (2019 on) makes [sort] stable, and fixes its result when the
    comparator is consistent: that is what [Comparator] says. *)

Class Comparator {A} (cmp : A → A → Z) : Prop := {
  cmp_antisym a b : Z.sgn (cmp a b) = - Z.sgn (cmp b a);
  cmp_trans a b c : cmp a b ≤ 0 → cmp b c ≤ 0 → cmp a c ≤ 0
}.

Section array_sort.
Context {A : Type} (cmp : A → A → Z).

(** [x] goes before the first element that does not compare below it, so an
    element met earlier in the array stays before its equals. *)
Fixpoint sort_insert (x : A) (l : list A) : list A :=
  match l with
  | [] => [x]
  | y :: l' => if cmp x y <=? 0 then x :: l else y :: sort_insert x l'
  end.

Definition array_sort (l : list A) : list A := foldr sort_insert [] l.

Definition cmp_le (a b : A) : Prop := cmp a b ≤ 0.

Lemma sort_insert_perm x l : sort_insert x l ≡ₚ x :: l.
Proof.
  induction l as [|y l IH]; simpl; [done|].
  destruct (cmp x y <=? 0); [done|].
  rewrite IH. apply Permutation_swap.
Qed.

Lemma array_sort_perm l : array_sort l ≡ₚ l.
Proof. induction l as [|x l IH]; simpl; [done|]. by rewrite sort_insert_perm, IH. Qed.

Lemma array_sort_length l : length (array_sort l) = length l.
Proof. by rewrite array_sort_perm. Qed.

Lemma elem_of_array_sort x l : x ∈ array_sort l ↔ x ∈ l.
Proof. by rewrite array_sort_perm. Qed.

(** An array in comparator order is left as it is, whatever the comparator. *)
Lemma array_sort_id l : StronglySorted cmp_le l → array_sort l = l.
Proof.
  induction 1 as [|x l Hl IH Hx]; simpl; [done|]. rewrite IH.
  destruct l as [|y l]; simpl; [done|].
  apply Forall_inv in Hx. unfold cmp_le in Hx.
  by rewrite (proj2 (Z.leb_le _ _) Hx).
Qed.

Context `{!Comparator cmp}.

Lemma cmp_refl a : cmp a a = 0.
Proof. pose proof (cmp_antisym a a). lia. Qed.

Lemma cmp_total a b : cmp a b ≤ 0 ∨ cmp b a ≤ 0.
Proof. pose proof (cmp_antisym a b). lia. Qed.

Lemma cmp_eq_sym a b : cmp a b = 0 → cmp b a = 0.
Proof. pose proof (cmp_antisym a b). lia. Qed.

Lemma cmp_eq_le_l a b c : cmp a b = 0 → cmp b c ≤ 0 → cmp a c ≤ 0.
Proof. intros. apply (cmp_trans a b c); lia. Qed.

Lemma sort_insert_sorted x l :
  StronglySorted cmp_le l → StronglySorted cmp_le (sort_insert x l).
Proof.
  induction 1 as [|y l Hl IH Hy]; simpl; [by repeat constructor|].
  destruct (cmp x y <=? 0) eqn:E; bool_to_prop.
  - constructor; [by constructor|]. constructor; [done|].
    eapply Forall_impl; [exact Hy|]. intros z Hz. by apply (cmp_trans x y z).
  - constructor; [done|].
    assert (cmp_le y x) as Hyx by (destruct (cmp_total x y); unfold cmp_le; lia).
    rewrite sort_insert_perm. by constructor.
Qed.

Lemma array_sort_sorted l : StronglySorted cmp_le (array_sort l).
Proof.
  induction l as [|x l IH]; simpl; [constructor|]. by apply sort_insert_sorted.
Qed.

(** Elements that compare equal to [a], in the order they appear. *)
Definition equals_of (a : A) (l : list A) : list A := filter (λ b, cmp a b = 0) l.

Lemma sort_insert_equals a x l : equals_of a (sort_insert x l) = equals_of a (x :: l).
Proof.
  unfold equals_of. induction l as [|y l IH]; [done|]. simpl sort_insert.
  destruct (cmp x y <=? 0) eqn:E; [done|]. bool_to_prop.
  rewrite filter_cons, IH, !(filter_cons _ x), (filter_cons _ y).
  repeat case_decide; try done. exfalso.
  pose proof (cmp_eq_le_l x a y (cmp_eq_sym _ _ ltac:(done))). lia.
Qed.

(** Stability: rows that compare equal keep their relative order. *)
Lemma array_sort_stable a l : equals_of a (array_sort l) = equals_of a l.
Proof.
  induction l as [|x l IH]; simpl; [done|].
  rewrite sort_insert_equals. unfold equals_of in *. rewrite !filter_cons.
  by case_decide; rewrite IH.
Qed.
End array_sort.

Arguments sort_insert {_} _ _ !_ /.
#[export] Hint Resolve array_sort_perm array_sort_sorted : js.

(** Two arrays with the same elements, both in the order of a comparator that
    tells distinct elements apart, are the same array. *)
Lemma sorted_unique {A} (cmp : A → A → Z) (l1 l2 : list A) :
  (∀ a b, a ∈ l1 → b ∈ l1 → cmp a b ≤ 0 → cmp b a ≤ 0 → a = b) →
  StronglySorted (cmp_le cmp) l1 → StronglySorted (cmp_le cmp) l2 →
  l1 ≡ₚ l2 → l1 = l2.
Proof.
  intros Hanti Hl1. revert l2 Hanti. induction Hl1 as [|x l1 Hl1 IH Hx]; intros l2 Hanti Hl2 Hp.
  { by apply Permutation_nil in Hp. }
  destruct l2 as [|y l2]; [by symmetry in Hp; apply Permutation_nil in Hp|].
  assert (x = y) as ->.
  { apply StronglySorted_cons in Hl2 as [Hy Hl2].
    assert (y ∈ x :: l1) as Hyin by (rewrite Hp; left).
    assert (x ∈ y :: l2) as Hxin by (rewrite <-Hp; left).
    apply elem_of_cons in Hyin as [->|Hyin]; [done|].
    apply elem_of_cons in Hxin as [->|Hxin]; [done|].
    rewrite Forall_forall in Hx, Hy.
    apply Hanti; [left|by right|by apply Hx|by apply Hy]. }
  f_equal. apply IH; [|by apply StronglySorted_cons in Hl2 as []|by apply Permutation_cons_inv in Hp].
  intros a b Ha Hb. apply Hanti; by right.
Qed.

(** Elements of a list without duplicate images are told apart by their images. *)
Lemma NoDup_fmap_eq {A B} (f : A → B) l x y : NoDup (f <$> l) → x ∈ l → y ∈ l → f x = f y → x = y.
Proof.
  intros Hd (i & Hi)%list_elem_of_lookup (j & Hj)%list_elem_of_lookup E.
  assert (i = j) as <-; [|congruence].
  eapply NoDup_lookup; [exact Hd| |]; rewrite list_lookup_fmap, ?Hi, ?Hj; simpl; by rewrite ?E.
Qed.

Lemma filter_false {A} (f : A → bool) l : Forall (λ x, f x = false) l → List.filter f l = [].
Proof. induction 1 as [|x l Hx _ IH]; [done|]. simpl. by rewrite Hx. Qed.

Lemma filter_true {A} (f : A → bool) l : Forall (λ x, f x = true) l → List.filter f l = l.
Proof. induction 1 as [|x l Hx _ IH]; [done|]. simpl. by rewrite Hx, IH. Qed.

(** A filtered sorted list, sorted by any order the elements kept are in. *)
Lemma StronglySorted_filter {A} (R R' : A → A → Prop) (f : A → bool) l :
  StronglySorted R l → (∀ a b, R a b → f a = true → f b = true → R' a b) →
  StronglySorted R' (List.filter f l).
Proof.
  intros Hs HR. induction Hs as [|x l Hs IH Hx]; [constructor|]. simpl. destruct (f x) eqn:E; [|done].
  constructor; [done|]. apply Forall_forall. intros y Hy%list_elem_of_In%filter_In.
  destruct Hy as [Hy Hfy]. rewrite Forall_forall in Hx. apply HR; [|done..]. by apply Hx, list_elem_of_In.
Qed.

(** A sorted list whose order never goes back into a class starts with that class. *)
Lemma sorted_partition {A} (R : A → A → Prop) (f : A → bool) l :
  StronglySorted R l → (∀ a b, R a b → f a = false → f b = false) →
  l = List.filter f l ++ List.filter (λ x, negb (f x)) l.
Proof.
  intros Hs HR. induction Hs as [|x l Hs IH Hx]; [done|]. simpl. destruct (f x) eqn:E; simpl.
  - by rewrite <-IH.
  - assert (Forall (λ y, f y = false) l) as Hl by (eapply Forall_impl; [exact Hx|]; eauto).
    rewrite filter_false by done. simpl. f_equal. symmetry. apply filter_true.
    eapply Forall_impl; [exact Hl|]. intros y Hy. by rewrite Hy.
Qed.
