(* ===== verification/JsNumber.v ===== *)
(** * JavaScript numbers

    A JavaScript [number] is an IEEE 754 binary64.  The model is the Standard
    Library's [spec_float] at precision 53 and exponent bound 1024: the
    operations below are those of the language, executable and without axioms. *)

From Stdlib Require Import SpecFloat.
From S2P Require Import Prelude.

Abbreviation number := spec_float.

Definition prec : Z := 53.
Definition emax : Z := 1024.

Definition num_add (x y : number) : number := SFadd prec emax x y.
Definition num_sub (x y : number) : number := SFsub prec emax x y.
Definition num_mul (x y : number) : number := SFmul prec emax x y.
Definition num_div (x y : number) : number := SFdiv prec emax x y.
Definition num_opp (x : number) : number := SFopp x.
Definition num_abs (x : number) : number := SFabs x.
Definition num_ltb (x y : number) : bool := SFltb x y.
Definition num_leb (x y : number) : bool := SFleb x y.
(** [===] on numbers: [+0 === -0], and [NaN] differs from everything. *)
Definition num_eqb (x y : number) : bool := SFeqb x y.

(** The number nearest to an integer (exact below [2^53]). *)
Definition num_of_Z (z : Z) : number := binary_normalize prec emax z 0 false.
Definition num_zero : number := S754_zero false.
Definition num_nan : number := S754_nan.

Definition is_nan (x : number) : bool := match x with S754_nan => true | _ => false end.

(** [Number.isFinite]. *)
Definition is_finite (x : number) : bool :=
  match x with S754_zero _ | S754_finite _ _ _ => true | _ => false end.

(** Truthiness of a number: everything but [0], [-0] and [NaN]. *)
Definition num_truthy (x : number) : bool :=
  match x with S754_zero _ | S754_nan => false | _ => true end.

Definition num_neg_zero (x : number) : bool :=
  match x with S754_zero true => true | _ => false end.

(** [Math.max] and [Math.min] of two numbers: [NaN] is contagious and [-0] is
    below [+0]. *)
Definition num_max (x y : number) : number :=
  if is_nan x || is_nan y then num_nan
  else if num_ltb x y then y
  else if num_ltb y x then x
  else if num_neg_zero x then y else x.

Definition num_min (x y : number) : number :=
  if is_nan x || is_nan y then num_nan
  else if num_ltb x y then x
  else if num_ltb y x then y
  else if num_neg_zero x then x else y.

(** The sign of a comparator's result, [NaN] read as [+0]. *)
Definition num_sgn (x : number) : Z :=
  match x with
  | S754_infinity s | S754_finite s _ _ => if s then -1 else 1
  | _ => 0
  end.

(** ** Decimal values

    [num_of_ratio n d] is the number nearest to [n / d], the way a decimal
    literal is read. *)

Definition num_of_ratio (n : Z) (d : positive) : number :=
  match n with
  | Z0 => num_zero
  | Zpos p =>
      let '(q, e, l) := SFdiv_core_binary prec emax (Zpos p) 0 (Zpos d) 0 in
      binary_round_aux prec emax false q e l
  | Zneg p =>
      let '(q, e, l) := SFdiv_core_binary prec emax (Zpos p) 0 (Zpos d) 0 in
      binary_round_aux prec emax true q e l
  end.

(** The number nearest to [n * 10 ^ k]. *)
Definition num_of_dec (n k : Z) : number :=
  if 0 <=? k then num_of_Z (n * 10 ^ k) else num_of_ratio n (Z.to_pos (10 ^ (- k))).

(** The magnitude of a finite number as a fraction. *)
Definition num_fraction (x : number) : Z * Z :=
  match x with
  | S754_finite _ m e => (Zpos m * 2 ^ Z.max 0 e, 2 ^ Z.max 0 (- e))
  | _ => (0, 1)
  end.

Definition num_negative (x : number) : bool :=
  match x with S754_finite s _ _ | S754_zero s | S754_infinity s => s | S754_nan => false end.

(** The integer nearest to [|x| * 10 ^ k], halves away from zero. *)
Definition round_scaled (x : number) (k : Z) : Z :=
  let '(n, d) := num_fraction x in (2 * n * 10 ^ k + d) / (2 * d).

(** [Math.floor] and [Math.round] of a finite number, as integers. *)
Definition floor_Z (x : number) : Z :=
  let '(n, d) := num_fraction x in if num_negative x then - ((n + d - 1) / d) else n / d.

Definition round_Z (x : number) : Z :=
  let '(n, d) := num_fraction x in
  if num_negative x then (d - 2 * n) / (2 * d) else (2 * n + d) / (2 * d).

Definition num_floor (x : number) : number :=
  match x with S754_finite _ _ _ => num_of_Z (floor_Z x) | _ => x end.

Definition num_round (x : number) : number :=
  match x with
  | S754_finite s _ _ => let z := round_Z x in if (z =? 0) && s then S754_zero true else num_of_Z z
  | _ => x
  end.

(** ** Exact values

    A finite number is an integer multiple of [2^-1074]: [scaled] is that
    integer, so that comparisons of numbers become comparisons in [Z]. *)

Definition scaled (x : number) : Z :=
  match x with
  | S754_finite s m e => cond_Zopp s (Zpos m * 2 ^ (e + 1074))
  | _ => 0
  end.

(** Numbers the machine can hold: canonical mantissas within the exponent range. *)
Definition num_wf (x : number) : Prop := valid_binary prec emax x = true.

(** [x] is finite and its value is exactly the integer [z]. *)
Definition is_int (x : number) (z : Z) : Prop :=
  num_wf x ∧ is_finite x = true ∧ scaled x = z * 2 ^ 1074.

Lemma digits2_pos_spec m :
  2 ^ (Zpos (digits2_pos m) - 1) ≤ Zpos m < 2 ^ Zpos (digits2_pos m).
Proof.
  induction m as [m IH|m IH|]; simpl digits2_pos.
  - rewrite Pos2Z.inj_succ. replace (Z.succ _ - 1) with (Z.pos (digits2_pos m)) by lia.
    replace (2 ^ Z.succ (Z.pos (digits2_pos m))) with (2 * 2 ^ Z.pos (digits2_pos m))
      by (rewrite <-Z.pow_succ_r; lia).
    replace (2 ^ Z.pos (digits2_pos m)) with (2 * 2 ^ (Z.pos (digits2_pos m) - 1)) in IH |- *
      by (rewrite <-Z.pow_succ_r by lia; f_equal; lia). lia.
  - rewrite Pos2Z.inj_succ. replace (Z.succ _ - 1) with (Z.pos (digits2_pos m)) by lia.
    replace (2 ^ Z.succ (Z.pos (digits2_pos m))) with (2 * 2 ^ Z.pos (digits2_pos m))
      by (rewrite <-Z.pow_succ_r; lia).
    replace (2 ^ Z.pos (digits2_pos m)) with (2 * 2 ^ (Z.pos (digits2_pos m) - 1)) in IH |- *
      by (rewrite <-Z.pow_succ_r by lia; f_equal; lia). lia.
  - simpl. lia.
Qed.

(** Digit counts are determined by the power-of-two bracket. *)
Lemma digits2_pos_unique m d :
  0 < d → 2 ^ (d - 1) ≤ Zpos m < 2 ^ d → Zpos (digits2_pos m) = d.
Proof.
  intros Hd [Hlo Hhi]. destruct (digits2_pos_spec m) as [Hlo' Hhi'].
  destruct (Z.lt_trichotomy (Zpos (digits2_pos m)) d) as [H|[H|H]]; [|done|].
  - assert (2 ^ Zpos (digits2_pos m) ≤ 2 ^ (d - 1)) by (apply Z.pow_le_mono_r; lia). lia.
  - assert (2 ^ d ≤ 2 ^ (Zpos (digits2_pos m) - 1)) by (apply Z.pow_le_mono_r; lia). lia.
Qed.

Lemma num_wf_finite s m e :
  num_wf (S754_finite s m e) ↔
  fexp prec emax (Zpos (digits2_pos m) + e) = e ∧ e ≤ 971.
Proof.
  unfold num_wf, valid_binary, bounded, canonical_mantissa.
  rewrite andb_true_iff, Z.eqb_eq, Z.leb_le. unfold emax, prec. split; intros []; split; lia.
Qed.

(** ** Comparison *)

Lemma canonical_lt m1 e1 m2 e2 :
  fexp prec emax (Zpos (digits2_pos m1) + e1) = e1 →
  fexp prec emax (Zpos (digits2_pos m2) + e2) = e2 →
  e1 < e2 → Zpos m1 * 2 ^ (e1 + 1074) < Zpos m2 * 2 ^ (e2 + 1074).
Proof.
  unfold fexp, emin, prec, emax. intros H1 H2 He.
  pose proof (digits2_pos_spec m1) as [_ Hm1]. pose proof (digits2_pos_spec m2) as [Hm2 _].
  assert (Zpos (digits2_pos m2) = 53) as Hd2 by lia. rewrite Hd2 in Hm2.
  assert (2 ^ Z.pos (digits2_pos m1) ≤ 2 ^ 53) by (apply Z.pow_le_mono_r; lia).
  replace (e2 + 1074) with ((e1 + 1074) + 1 + (e2 - e1 - 1)) by lia.
  rewrite (Z.pow_add_r 2 (e1 + 1074 + 1)), (Z.pow_add_r 2 (e1 + 1074) 1) by lia.
  assert (0 < 2 ^ (e1 + 1074)) by (apply Z.pow_pos_nonneg; lia).
  assert (0 < 2 ^ (e2 - e1 - 1)) by (apply Z.pow_pos_nonneg; lia).
  change (2 ^ 53) with (2 * 2 ^ 52) in *. change (2 ^ (53 - 1)) with (2 ^ 52) in *.
  change (2 ^ 1) with 2.
  apply Z.lt_le_trans with (2 * 2 ^ 52 * 2 ^ (e1 + 1074)); [apply Z.mul_lt_mono_pos_r; lia|].
  transitivity (Zpos m2 * (2 ^ (e1 + 1074) * 2)); [nia|].
  apply Z.mul_le_mono_nonneg_l; [lia|]. nia.
Qed.

Lemma scaled_pos s m e :
  num_wf (S754_finite s m e) → 0 < Zpos m * 2 ^ (e + 1074).
Proof.
  intros [Hw ?]%num_wf_finite. unfold fexp, emin, prec, emax in Hw.
  apply Z.mul_pos_pos; [lia|]. apply Z.pow_pos_nonneg; lia.
Qed.

Lemma num_compare_scaled x y :
  num_wf x → num_wf y → is_finite x = true → is_finite y = true →
  SFcompare x y = Some (scaled x ?= scaled y).
Proof.
  destruct x as [sx| | |sx mx ex]; destruct y as [sy| | |sy my ey];
    intros Hx Hy Hfx Hfy; try done; unfold scaled.
  - pose proof (scaled_pos _ _ _ Hy). destruct sy; simpl cond_Zopp; simpl SFcompare; f_equal; symmetry;
      [apply Z.compare_gt_iff|apply Z.compare_lt_iff]; lia.
  - pose proof (scaled_pos _ _ _ Hx). destruct sx; simpl cond_Zopp; simpl SFcompare; f_equal; symmetry;
      [apply Z.compare_lt_iff|apply Z.compare_gt_iff]; lia.
  - apply num_wf_finite in Hx as [Hx ?]. apply num_wf_finite in Hy as [Hy ?].
    assert (-1074 ≤ ex ∧ -1074 ≤ ey) as [] by (unfold fexp, emin, prec, emax in *; lia).
    assert (0 < 2 ^ (ex + 1074)) by (apply Z.pow_pos_nonneg; lia).
    assert (0 < 2 ^ (ey + 1074)) by (apply Z.pow_pos_nonneg; lia).
    simpl SFcompare. fold (Pos.compare mx my).
    assert ((Z.pos mx * 2 ^ (ex + 1074) ?= Z.pos my * 2 ^ (ey + 1074)) =
      match ex ?= ey with Lt => Lt | Gt => Gt | Eq => (mx ?= my)%positive end) as Hc.
    { destruct (Z.compare_spec ex ey) as [->|Hlt|Hlt].
      - change (mx ?= my)%positive with (Zpos mx ?= Zpos my).
        destruct (Z.compare_spec (Zpos mx) (Zpos my)) as [->|?|?];
          [apply Z.compare_refl|apply Z.compare_lt_iff|apply Z.compare_gt_iff]; nia.
      - apply Z.compare_lt_iff. by apply canonical_lt.
      - apply Z.compare_gt_iff. by apply canonical_lt. }
    destruct sx, sy; simpl cond_Zopp; f_equal.
    + rewrite Z.compare_opp, (Z.compare_antisym (Zpos mx * _)), Hc.
      destruct (ex ?= ey); [by destruct (mx ?= my)%positive|done|done].
    + symmetry. apply Z.compare_lt_iff. nia.
    + symmetry. apply Z.compare_gt_iff. nia.
    + rewrite Hc. destruct (ex ?= ey); done.
Qed.

(** ** Rounding

    What [binary_round] does to a mantissa that needs no rounding, and the sign
    of what it does to any other. *)

Lemma fexp_bounds d : -1074 ≤ fexp prec emax d.
Proof. unfold fexp, emin, prec, emax. lia. Qed.

Lemma shr_1_spec m r s : 0 ≤ m → shr_m (shr_1 (Build_shr_record m r s)) = m / 2.
Proof.
  intros Hm. destruct m as [|[p|p|]|p]; simpl; try done; try lia.
  - rewrite Pos2Z.inj_xI. apply (Z.div_unique _ 2 _ 1); lia.
  - rewrite Pos2Z.inj_xO. apply (Z.div_unique _ 2 _ 0); lia.
Qed.

Lemma shr_1_even m : 0 ≤ m → m mod 2 = 0 →
  shr_1 (Build_shr_record m false false) = Build_shr_record (m / 2) false false.
Proof.
  intros Hm He. destruct m as [|[p|p|]|p]; simpl; try done; try lia.
  - rewrite Pos2Z.inj_xI in He. replace (2 * Z.pos p + 1) with (1 + Z.pos p * 2) in He by lia.
    rewrite Z.mod_add in He by lia. done.
  - f_equal. rewrite Pos2Z.inj_xO. symmetry. rewrite Z.mul_comm. apply Z.div_mul. lia.
Qed.

Lemma iter_pos_iter {B} (f : B → B) n x : SpecFloat.iter_pos f n x = Pos.iter f x n.
Proof.
  revert x. induction n as [n IH|n IH|]; intros x; simpl; [| |done].
  - rewrite !IH. by rewrite <-!Pos.iter_swap.
  - by rewrite !IH.
Qed.

Lemma iter_shr_1_spec n mrs : 0 ≤ shr_m mrs →
  shr_m (SpecFloat.iter_pos shr_1 n mrs) = shr_m mrs / 2 ^ Zpos n.
Proof.
  rewrite iter_pos_iter. intros Hm. revert n. apply Pos.peano_ind.
  - destruct mrs. cbn [Pos.iter]. by rewrite shr_1_spec.
  - intros n IH. rewrite Pos.iter_succ, Pos2Z.inj_succ, Z.pow_succ_r by lia.
    destruct (Pos.iter shr_1 mrs n) as [m r s]. simpl in IH. rewrite shr_1_spec, IH.
    + rewrite Z.div_div by (try apply Z.pow_pos_nonneg; lia). f_equal. lia.
    + rewrite IH. apply Z.div_pos; [done|]. apply Z.pow_pos_nonneg; lia.
Qed.

Lemma iter_shr_1_exact n m k : 0 ≤ k → m = k * 2 ^ Zpos n →
  SpecFloat.iter_pos shr_1 n (Build_shr_record m false false) = Build_shr_record k false false.
Proof.
  rewrite iter_pos_iter. intros Hk. revert n m. refine (Pos.peano_ind _ _ _).
  - intros m ->. change (2 ^ 1) with 2. cbn [Pos.iter]. rewrite shr_1_even.
    + f_equal. apply Z.div_mul. lia.
    + lia.
    + apply Z.mod_mul. lia.
  - intros n IH m ->. rewrite Pos.iter_succ_r, Pos2Z.inj_succ, Z.pow_succ_r by lia.
    assert (0 < 2 ^ Zpos n) by (apply Z.pow_pos_nonneg; lia).
    rewrite shr_1_even; [|nia|].
    + apply IH. replace (k * (2 * 2 ^ Z.pos n)) with (k * 2 ^ Z.pos n * 2) by lia.
      apply Z.div_mul. lia.
    + replace (k * (2 * 2 ^ Z.pos n)) with (k * 2 ^ Z.pos n * 2) by lia.
      apply Z.mod_mul. lia.
Qed.

Lemma digits2_pos_mul_pow m k n : 0 ≤ n →
  Zpos m = Zpos k * 2 ^ n → Zpos (digits2_pos m) = Zpos (digits2_pos k) + n.
Proof.
  intros Hn Hm. pose proof (digits2_pos_spec k) as [].
  assert (0 < 2 ^ n) by (apply Z.pow_pos_nonneg; lia).
  apply digits2_pos_unique; [lia|]. rewrite Hm.
  replace (Z.pos (digits2_pos k) + n - 1) with (Z.pos (digits2_pos k) - 1 + n) by lia.
  rewrite !Z.pow_add_r by lia. split; [nia|]. by apply Z.mul_lt_mono_pos_r.
Qed.

Lemma shr_fexp_exact m e k : let t := fexp prec emax (Zpos (digits2_pos m) + e) in
  e ≤ t → Zpos m = Zpos k * 2 ^ (t - e) →
  shr_fexp prec emax (Zpos m) e loc_Exact = (Build_shr_record (Zpos k) false false, t).
Proof.
  intros t He Hm. unfold shr_fexp. simpl Zdigits2. fold t. unfold shr_record_of_loc, shr.
  destruct (t - e) as [|n|n] eqn:En; try lia.
  - f_equal; [|lia]. f_equal. lia.
  - f_equal; [|lia]. apply iter_shr_1_exact; [lia|done].
Qed.

Lemma binary_round_aux_exact s m e k : let t := fexp prec emax (Zpos (digits2_pos m) + e) in
  e ≤ t → Zpos m = Zpos k * 2 ^ (t - e) → t ≤ 971 →
  binary_round_aux prec emax s (Zpos m) e loc_Exact = S754_finite s k t ∧
  fexp prec emax (Zpos (digits2_pos k) + t) = t.
Proof.
  intros t He Hm Ht. unfold binary_round_aux.
  rewrite (shr_fexp_exact m e k) by done. fold t. simpl.
  assert (fexp prec emax (Zpos (digits2_pos k) + t) = t) as Hk.
  { unfold t at 2. f_equal. rewrite (digits2_pos_mul_pow m k (t - e)) by (done || lia). lia. }
  rewrite (shr_fexp_exact k t k); rewrite ?Hk; [|lia|rewrite Z.sub_diag; lia].
  simpl. unfold emax, prec. by rewrite (proj2 (Z.leb_le _ _)) by lia.
Qed.

Lemma shl_iter_xO m d : Zpos (Pos.iter xO m d) = Zpos m * 2 ^ Zpos d.
Proof.
  revert d. apply Pos.peano_ind; [cbn [Pos.iter]; lia|].
  intros d IH. rewrite Pos.iter_succ, Pos2Z.inj_xO, IH, Pos2Z.inj_succ, Z.pow_succ_r; lia.
Qed.

Lemma shl_align_spec m e t : t ≤ e →
  Zpos (fst (shl_align m e t)) = Zpos m * 2 ^ (e - t) ∧ snd (shl_align m e t) = t.
Proof.
  intros Ht. unfold shl_align. destruct (t - e) as [|n|n] eqn:En; try lia; simpl.
  - replace (e - t) with 0 by lia. lia.
  - rewrite shl_iter_xO. replace (e - t) with (Zpos n) by lia. done.
Qed.

(** A mantissa whose excess bits are zero is rounded to itself. *)
Lemma binary_round_exact s m e : let t := fexp prec emax (Zpos (digits2_pos m) + e) in
  -1074 ≤ e → (∃ k, Zpos m = k * 2 ^ Z.max 0 (t - e)) → t ≤ 971 →
  ∃ k, binary_round prec emax s m e = S754_finite s k t ∧
       num_wf (S754_finite s k t) ∧ Zpos k * 2 ^ (t + 1074) = Zpos m * 2 ^ (e + 1074).
Proof.
  intros t He [k Hk] Ht. unfold binary_round. fold t.
  pose proof (fexp_bounds (Zpos (digits2_pos m) + e)) as Ht'. fold t in Ht'.
  destruct (Z.le_gt_cases t e) as [Hte|Hte].
  - pose proof (shl_align_spec m e t Hte) as [Hm Hs].
    destruct (shl_align m e t) as [mz ez]. simpl in *. subst ez.
    assert (fexp prec emax (Zpos (digits2_pos mz) + t) = t) as Hz.
    { unfold t at 2. f_equal. rewrite (digits2_pos_mul_pow mz m (e - t)) by (done || lia). lia. }
    destruct (binary_round_aux_exact s mz t mz) as [-> Hc]; rewrite ?Hz; try lia;
      [rewrite Z.sub_diag; lia|].
    eexists; split; [done|]. split; [apply num_wf_finite; lia|].
    rewrite Hm, <-Z.mul_assoc, <-Z.pow_add_r by lia. do 2 f_equal. lia.
  - assert (shl_align m e t = (m, e)) as ->.
    { unfold shl_align. destruct (t - e) eqn:?; try lia; done. }
    rewrite Z.max_r in Hk by lia.
    assert (0 < 2 ^ (t - e)) by (apply Z.pow_pos_nonneg; lia).
    destruct k as [|k|k]; [lia| |nia].
    destruct (binary_round_aux_exact s m e k) as [-> Hc]; try (done || lia).
    fold t. eexists; split; [done|]. split; [apply num_wf_finite; fold t in Hc; lia|].
    rewrite Hk, <-Z.mul_assoc, <-Z.pow_add_r by lia. do 2 f_equal. lia.
Qed.

Lemma shr_m_shr mrs e n : 0 ≤ shr_m mrs →
  shr_m (fst (shr mrs e n)) = shr_m mrs / 2 ^ Z.max 0 n.
Proof.
  intros Hm. destruct n as [|n|n]; simpl; rewrite ?Z.div_1_r; [done| |done].
  by rewrite iter_shr_1_spec.
Qed.

Lemma shr_m_fexp m e l : 0 ≤ m →
  shr_m (fst (shr_fexp prec emax m e l)) =
  m / 2 ^ Z.max 0 (fexp prec emax (Zdigits2 m + e) - e).
Proof.
  intros Hm. unfold shr_fexp. rewrite shr_m_shr; by destruct l as [|[]].
Qed.

Lemma round_nearest_even_ge m l : m ≤ round_nearest_even m l.
Proof. destruct l as [|[]]; simpl; try destruct (Z.even m); lia. Qed.

Lemma binary_round_aux_sgn s m e l : -1074 ≤ e →
  2 ^ Z.max 0 (fexp prec emax (Zpos (digits2_pos m) + e) - e) ≤ Zpos m →
  num_sgn (binary_round_aux prec emax s (Zpos m) e l) = if s then -1 else 1.
Proof.
  intros He Hb. unfold binary_round_aux.
  pose proof (shr_m_fexp (Zpos m) e l ltac:(lia)) as H1. simpl Zdigits2 in H1.
  set (n := Z.max 0 _) in *.
  assert (0 < 2 ^ n) by (apply Z.pow_pos_nonneg; lia).
  assert (-1074 ≤ snd (shr_fexp prec emax (Z.pos m) e l)) as He'.
  { unfold shr_fexp, shr. destruct (_ - e); simpl; lia. }
  destruct (shr_fexp prec emax (Z.pos m) e l) as [mrs e']. simpl in H1, He'.
  assert (1 ≤ shr_m mrs) as H2 by (rewrite H1; apply Z.div_le_lower_bound; lia).
  pose proof (round_nearest_even_ge (shr_m mrs) (loc_of_shr_record mrs)) as H3.
  set (r := round_nearest_even _ _) in *.
  pose proof (shr_m_fexp r e' loc_Exact ltac:(lia)) as H4.
  destruct (shr_fexp prec emax r e' loc_Exact) as [mrs2 e2]. simpl in H4.
  assert (1 ≤ shr_m mrs2) as H5.
  { rewrite H4. assert (1 ≤ r) as Hr1 by lia. clearbody r.
    destruct r as [|p|p]; try lia. simpl Zdigits2.
    pose proof (digits2_pos_spec p) as [Hr _].
    set (t := fexp prec emax (Zpos (digits2_pos p) + e') - e').
    assert (0 < 2 ^ Z.max 0 t) by (apply Z.pow_pos_nonneg; lia).
    apply Z.div_le_lower_bound; [done|]. rewrite Z.mul_1_r. etransitivity; [|exact Hr].
    apply Z.pow_le_mono_r; [lia|]. unfold t. revert He'. unfold fexp, emin, prec, emax. lia. }
  destruct (shr_m mrs2); try lia. by destruct (_ <=? _).
Qed.

(** Rounding never changes the sign, and never turns a non-zero mantissa at a
    representable exponent into zero. *)
Lemma binary_round_sgn s m e : -1074 ≤ e →
  num_sgn (binary_round prec emax s m e) = if s then -1 else 1.
Proof.
  intros He. unfold binary_round.
  set (t := fexp prec emax (Zpos (digits2_pos m) + e)).
  pose proof (fexp_bounds (Zpos (digits2_pos m) + e)) as Ht'. fold t in Ht'.
  assert (∃ mz ez, shl_align m e t = (mz, ez) ∧
    2 ^ Z.max 0 (fexp prec emax (Zpos (digits2_pos mz) + ez) - ez) ≤ Zpos mz) as (mz & ez & Hal & Hb).
  { pose proof (digits2_pos_spec m) as [Hm _]. destruct (Z.le_gt_cases t e) as [Hte|Hte].
    - pose proof (shl_align_spec m e t Hte) as [Hmz Hs].
      destruct (shl_align m e t) as [mz ez]. simpl in *. subst ez. eexists _, _; split; [done|].
      rewrite (digits2_pos_mul_pow mz m (e - t)) by (done || lia).
      replace (Z.pos (digits2_pos m) + (e - t) + t) with (Z.pos (digits2_pos m) + e) by lia.
      fold t. rewrite Z.sub_diag. change (2 ^ Z.max 0 0) with 1. lia.
    - eexists m, e. split; [unfold shl_align; destruct (t - e) eqn:?; try lia; done|].
      fold t. rewrite Z.max_r by lia. etransitivity; [|exact Hm]. apply Z.pow_le_mono_r; [lia|].
      unfold t, fexp, emin, prec, emax in *. lia. }
  rewrite Hal. apply binary_round_aux_sgn; [|done].
  pose proof (f_equal snd Hal) as Hez. unfold shl_align in Hez. clearbody t. destruct (t - e); simpl in Hez; lia.
Qed.

(** ** Sums and differences *)

Lemma num_wf_exp s m e : num_wf (S754_finite s m e) → -1074 ≤ e ≤ 971.
Proof.
  intros [H ?]%num_wf_finite. pose proof (fexp_bounds (Zpos (digits2_pos m) + e)). lia.
Qed.

Lemma cond_Zopp_mul b m k : cond_Zopp b (m * k) = cond_Zopp b m * k.
Proof. destruct b; simpl; lia. Qed.

Lemma aligned_scaled s m e ez : -1074 ≤ ez ≤ e →
  cond_Zopp s (Zpos (fst (shl_align m e ez))) * 2 ^ (ez + 1074) = scaled (S754_finite s m e).
Proof.
  intros [Hez1 Hez2]. destruct (shl_align_spec m e ez Hez2) as [-> _]. simpl.
  rewrite <-cond_Zopp_mul, <-Z.mul_assoc, <-Z.pow_add_r by lia.
  do 3 f_equal. lia.
Qed.

Lemma num_sgn_normalize d e sz : -1074 ≤ e →
  num_sgn (binary_normalize prec emax d e sz) = Z.sgn d.
Proof.
  intros He. destruct d; simpl; [done| |];
    by rewrite binary_round_sgn.
Qed.

Lemma Z_sgn_mul_pow d k : 0 ≤ k → Z.sgn (d * 2 ^ k) = Z.sgn d.
Proof.
  intros Hk. rewrite Z.sgn_mul.
  assert (0 < 2 ^ k) as H by (apply Z.pow_pos_nonneg; lia).
  rewrite (proj2 (Z.sgn_pos_iff _) H). lia.
Qed.

(** The difference of two finite numbers has the sign of the comparison: a
    comparator [(a, b) => a - b] orders finite numbers by value. *)
Lemma num_sgn_sub x y :
  num_wf x → num_wf y → is_finite x = true → is_finite y = true →
  num_sgn (num_sub x y) = Z.sgn (scaled x - scaled y).
Proof.
  destruct x as [sx| | |sx mx ex]; destruct y as [sy| | |sy my ey];
    intros Hx Hy Hfx Hfy; try done; unfold num_sub; simpl SFsub.
  - by destruct sx, sy.
  - pose proof (scaled_pos _ _ _ Hy) as Hp. simpl scaled. destruct sy; simpl cond_Zopp; simpl.
    + symmetry. apply Z.sgn_pos_iff. lia.
    + symmetry. apply Z.sgn_neg_iff. lia.
  - pose proof (scaled_pos _ _ _ Hx) as Hp. simpl scaled. destruct sx; simpl cond_Zopp; simpl;
      rewrite Z.sub_0_r; symmetry; [apply Z.sgn_neg_iff|apply Z.sgn_pos_iff]; lia.
  - apply num_wf_exp in Hx, Hy. rewrite num_sgn_normalize by lia.
    rewrite <-(aligned_scaled sx mx ex (Z.min ex ey)), <-(aligned_scaled sy my ey (Z.min ex ey)) by lia.
    rewrite <-Z.mul_sub_distr_r, Z_sgn_mul_pow by lia. done.
Qed.

(** An integer mantissa below [2^53] survives normalisation. *)
Lemma normalize_int d e z sz : -1074 ≤ e → Z.abs z < 2 ^ 53 →
  d * 2 ^ (e + 1074) = z * 2 ^ 1074 →
  is_int (binary_normalize prec emax d e sz) z.
Proof.
  intros He Hz Hd. unfold is_int.
  assert (0 < 2 ^ (e + 1074)) as Hpe by (apply Z.pow_pos_nonneg; lia).
  assert (0 < 2 ^ 1074) as Hp by (apply Z.pow_pos_nonneg; lia).
  assert (∀ s m, Zpos m * 2 ^ (e + 1074) = Z.abs z * 2 ^ 1074 →
    ∃ k, binary_round prec emax s m e = k ∧ num_wf k ∧ is_finite k = true ∧
         scaled k = cond_Zopp s (Z.abs z * 2 ^ 1074)) as Hpos.
  { clear d Hd. intros s m Hm.
    set (t := fexp prec emax (Zpos (digits2_pos m) + e)).
    pose proof (digits2_pos_spec m) as [Hlo _].
    assert (Zpos (digits2_pos m) + e ≤ 53) as Hdig.
    { destruct (Z.le_gt_cases (Zpos (digits2_pos m) + e) 53) as [|Hgt]; [done|exfalso].
      assert (2 ^ 53 * 2 ^ 1074 ≤ Zpos m * 2 ^ (e + 1074)); [|nia].
      transitivity (2 ^ (Z.pos (digits2_pos m) - 1) * 2 ^ (e + 1074)); [|nia].
      rewrite <-!Z.pow_add_r by lia. apply Z.pow_le_mono_r; lia. }
    assert (-1074 ≤ t ≤ 0) as Ht by (unfold t, fexp, emin, prec, emax; lia).
    destruct (binary_round_exact s m e) as (k & -> & Hwf & Hk); fold t; [done| |lia|].
    - destruct (Z.le_gt_cases t e) as [|Hte].
      { exists (Zpos m). rewrite Z.max_l by lia. simpl. lia. }
      exists (Z.abs z * 2 ^ (- t)). rewrite Z.max_r by lia.
      rewrite <-Z.mul_assoc, <-Z.pow_add_r by lia.
      apply (Z.mul_reg_r _ _ (2 ^ (e + 1074))); [lia|].
      rewrite Hm, <-Z.mul_assoc, <-Z.pow_add_r by lia. do 2 f_equal. lia.
    - eexists; split; [done|]. split; [done|]. split; [done|].
      fold t in Hk. unfold scaled. by rewrite Hk, Hm. }
  destruct d as [|m|m].
  - assert (z = 0) as -> by nia. done.
  - simpl. destruct (Hpos false m) as (k & -> & ? & ? & Hs); [nia|]. rewrite Hs. simpl.
    repeat split; [done..|]. nia.
  - simpl. destruct (Hpos true m) as (k & -> & ? & ? & Hs); [nia|]. rewrite Hs. simpl.
    repeat split; [done..|]. nia.
Qed.

Lemma is_int_of_Z z : Z.abs z < 2 ^ 53 → is_int (num_of_Z z) z.
Proof. intros. apply normalize_int; [lia|done|]. done. Qed.

Lemma is_int_zero s : is_int (S754_zero s) 0.
Proof. done. Qed.

(** Integer sums and differences below [2^53] are exact. *)
Lemma is_int_sub x y a b : is_int x a → is_int y b → Z.abs (a - b) < 2 ^ 53 →
  is_int (num_sub x y) (a - b).
Proof.
  destruct x as [sx| | |sx mx ex]; destruct y as [sy| | |sy my ey];
    intros (Hx & Hfx & Hsx) (Hy & Hfy & Hsy) Hab; try done; unfold num_sub; simpl SFsub.
  - simpl in Hsx, Hsy. assert (a = 0) as -> by lia. assert (b = 0) as -> by lia. by destruct sx, sy.
  - simpl in Hsx. assert (a = 0) as -> by lia. split; [done|]. split; [done|].
    rewrite Z.mul_sub_distr_r, <-Hsy. simpl. destruct sy; simpl; lia.
  - simpl in Hsy. assert (b = 0) as -> by lia. by rewrite Z.sub_0_r.
  - apply num_wf_exp in Hx, Hy. apply normalize_int; [lia|done|].
    rewrite !Z.mul_sub_distr_r, !aligned_scaled by lia. by rewrite Hsx, Hsy.
Qed.

Lemma is_int_add x y a b : is_int x a → is_int y b → Z.abs (a + b) < 2 ^ 53 →
  is_int (num_add x y) (a + b).
Proof.
  destruct x as [sx| | |sx mx ex]; destruct y as [sy| | |sy my ey];
    intros (Hx & Hfx & Hsx) (Hy & Hfy & Hsy) Hab; try done; unfold num_add; simpl SFadd.
  - simpl in Hsx, Hsy. assert (a = 0) as -> by lia. assert (b = 0) as -> by lia. by destruct sx, sy.
  - simpl in Hsx. assert (a = 0) as -> by lia. by rewrite Z.add_0_l.
  - simpl in Hsy. assert (b = 0) as -> by lia. by rewrite Z.add_0_r.
  - apply num_wf_exp in Hx, Hy. apply normalize_int; [lia|done|].
    rewrite !Z.mul_add_distr_r, !aligned_scaled by lia. by rewrite Hsx, Hsy.
Qed.

(** ** Comparison and choice on integer values *)

Lemma is_int_compare x y a b : is_int x a → is_int y b → SFcompare x y = Some (a ?= b).
Proof.
  intros (Hx & Hfx & Hsx) (Hy & Hfy & Hsy). rewrite num_compare_scaled by done.
  rewrite Hsx, Hsy. f_equal. symmetry. apply Zmult_compare_compat_r.
  apply Z.lt_gt, Z.pow_pos_nonneg; lia.
Qed.

Lemma is_int_ltb x y a b : is_int x a → is_int y b → num_ltb x y = (a <? b).
Proof.
  intros Hx Hy. unfold num_ltb, SFltb. rewrite (is_int_compare _ _ _ _ Hx Hy).
  unfold Z.ltb. by destruct (a ?= b).
Qed.

Lemma is_int_leb x y a b : is_int x a → is_int y b → num_leb x y = (a <=? b).
Proof.
  intros Hx Hy. unfold num_leb, SFleb. rewrite (is_int_compare _ _ _ _ Hx Hy).
  unfold Z.leb. by destruct (a ?= b).
Qed.

Lemma is_int_eqb x y a b : is_int x a → is_int y b → num_eqb x y = (a =? b).
Proof.
  intros Hx Hy. unfold num_eqb, SFeqb. rewrite (is_int_compare _ _ _ _ Hx Hy).
  rewrite Z.eqb_compare. by destruct (a ?= b).
Qed.

Lemma finite_not_nan x : is_finite x = true → is_nan x = false.
Proof. by destruct x. Qed.

Lemma is_int_not_nan x a : is_int x a → is_nan x = false.
Proof. intros (_ & H & _). by apply finite_not_nan. Qed.

Lemma is_int_max x y a b : is_int x a → is_int y b → is_int (num_max x y) (Z.max a b).
Proof.
  intros Hx Hy. unfold num_max.
  rewrite (is_int_not_nan _ _ Hx), (is_int_not_nan _ _ Hy). simpl.
  rewrite (is_int_ltb _ _ _ _ Hx Hy), (is_int_ltb _ _ _ _ Hy Hx).
  destruct (a <? b) eqn:E1; [|destruct (b <? a) eqn:E2]; bool_to_prop;
    [by rewrite Z.max_r by lia|by rewrite Z.max_l by lia|].
  assert (a = b) as -> by lia. rewrite Z.max_id. by destruct (num_neg_zero x).
Qed.

Lemma is_int_min x y a b : is_int x a → is_int y b → is_int (num_min x y) (Z.min a b).
Proof.
  intros Hx Hy. unfold num_min.
  rewrite (is_int_not_nan _ _ Hx), (is_int_not_nan _ _ Hy). simpl.
  rewrite (is_int_ltb _ _ _ _ Hx Hy), (is_int_ltb _ _ _ _ Hy Hx).
  destruct (a <? b) eqn:E1; [|destruct (b <? a) eqn:E2]; bool_to_prop;
    [by rewrite Z.min_l by lia|by rewrite Z.min_r by lia|].
  assert (a = b) as -> by lia. rewrite Z.min_id. by destruct (num_neg_zero x).
Qed.

Lemma num_ltb_scaled x y :
  num_wf x → num_wf y → is_finite x = true → is_finite y = true →
  num_ltb x y = (scaled x <? scaled y).
Proof.
  intros. unfold num_ltb, SFltb. rewrite num_compare_scaled by done.
  unfold Z.ltb. by destruct (_ ?= _).
Qed.

(** ** Signs, and clamping to a range *)

(** A number that is not [NaN] and has the sign [s]; zeros and infinities count. *)
Definition has_sign (s : bool) (x : number) : Prop :=
  match x with S754_nan => False | S754_zero s' | S754_infinity s' | S754_finite s' _ _ => s' = s end.

Lemma has_sign_not_nan s x : has_sign s x → is_nan x = false.
Proof. by destruct x. Qed.

Lemma binary_round_aux_sign s m e l : 0 ≤ m → has_sign s (binary_round_aux prec emax s m e l).
Proof.
  intros Hm. unfold binary_round_aux.
  pose proof (shr_m_fexp m e l Hm) as H1. destruct (shr_fexp prec emax m e l) as [mrs e']. simpl in H1.
  assert (0 ≤ shr_m mrs) as H2 by (rewrite H1; apply Z.div_pos; [done|apply Z.pow_pos_nonneg; lia]).
  pose proof (round_nearest_even_ge (shr_m mrs) (loc_of_shr_record mrs)) as H3.
  set (r := round_nearest_even _ _) in *. assert (0 ≤ r) as Hr by lia.
  pose proof (shr_m_fexp r e' loc_Exact Hr) as H4.
  destruct (shr_fexp prec emax r e' loc_Exact) as [mrs2 e2]. simpl in H4.
  assert (0 ≤ shr_m mrs2) as H5 by (rewrite H4; apply Z.div_pos; [done|apply Z.pow_pos_nonneg; lia]).
  destruct (shr_m mrs2); [done| |lia]. by destruct (_ <=? _).
Qed.

(** The sign bit of a number that is not [NaN]. *)
Definition sign_of (x : number) : bool :=
  match x with S754_nan => false | S754_zero s | S754_infinity s | S754_finite s _ _ => s end.

(** A finite number divided by a non-zero one is a number, of the quotient's sign. *)
Lemma num_div_sign x y : is_finite x = true → is_nan y = false → num_eqb y num_zero = false →
  has_sign (xorb (sign_of x) (sign_of y)) (num_div x y).
Proof.
  destruct x as [sx| | |sx mx ex], y as [sy|sy| |sy my ey]; try done. intros _ _ _.
  unfold num_div, SFdiv, SFdiv_core_binary. cbn zeta.
  set (m' := match _ - _ - _ with 0 => _ | _ => _ end).
  assert (0 ≤ m') as Hm by (unfold m'; destruct (_ - _ - _) as [|p|p]; [done|by apply Z.shiftl_nonneg|done]).
  pose proof (Z.div_pos m' (Zpos my) Hm eq_refl) as Hq. unfold Z.div in Hq.
  destruct (Z.div_eucl m' (Zpos my)) as [q r]. by apply binary_round_aux_sign.
Qed.

Lemma SFcompare_antisym x y : SFcompare y x = CompOpp <$> SFcompare x y.
Proof.
  destruct x as [[]|[]| |[] mx ex], y as [[]|[]| |[] my ey]; try done; simpl;
    rewrite (Z.compare_antisym ex ey); destruct (Z.compare ex ey); try done; simpl;
    unfold option_map; f_equal; change (Pos.compare_cont Eq my mx) with (my ?= mx)%positive;
    change (Pos.compare_cont Eq mx my) with (mx ?= my)%positive;
    rewrite (Pos.compare_antisym mx my); by destruct (mx ?= my)%positive.
Qed.

Lemma SFcompare_some x y : is_nan x = false → is_nan y = false → ∃ c, SFcompare x y = Some c.
Proof. destruct x, y; simpl; try done; eauto. Qed.

(** Numbers that are not [NaN] are totally ordered. *)
Lemma num_leb_ltb x y : is_nan x = false → is_nan y = false → num_leb x y = negb (num_ltb y x).
Proof.
  intros Hx Hy. unfold num_leb, num_ltb, SFleb, SFltb. rewrite (SFcompare_antisym x y).
  destruct (SFcompare_some x y Hx Hy) as [[] ->]; done.
Qed.

Lemma num_leb_refl x : is_nan x = false → num_leb x x = true.
Proof.
  intros Hx. rewrite num_leb_ltb by done. unfold num_ltb, SFltb. pose proof (SFcompare_antisym x x) as E.
  destruct (SFcompare_some x x Hx Hx) as [c Ec]. rewrite Ec in E |- *. by destruct c.
Qed.

Lemma num_max_r x y : is_nan x = false → is_nan y = false → num_ltb x y = true → num_max x y = y.
Proof. intros Hx Hy E. unfold num_max. by rewrite Hx, Hy, E. Qed.

Lemma num_max_not_nan x y : is_nan x = false → is_nan y = false → is_nan (num_max x y) = false.
Proof. intros Hx Hy. unfold num_max. rewrite Hx, Hy. simpl. by repeat case_match. Qed.

Lemma num_min_not_nan x y : is_nan x = false → is_nan y = false → is_nan (num_min x y) = false.
Proof. intros Hx Hy. unfold num_min. rewrite Hx, Hy. simpl. by repeat case_match. Qed.

Lemma num_max_ge_l x y : is_nan x = false → is_nan y = false → num_leb x (num_max x y) = true.
Proof.
  intros Hx Hy. unfold num_max. rewrite Hx, Hy. simpl.
  destruct (num_ltb x y) eqn:E1; [|destruct (num_ltb y x) eqn:E2; [by apply num_leb_refl|]].
  - revert E1. unfold num_leb, num_ltb, SFleb, SFltb. by destruct (SFcompare x y) as [[]|].
  - destruct (num_neg_zero x); [|by apply num_leb_refl]. by rewrite num_leb_ltb, E2.
Qed.

Lemma num_min_le_l x y : is_nan x = false → is_nan y = false → num_leb (num_min x y) x = true.
Proof.
  intros Hx Hy. unfold num_min. rewrite Hx, Hy. simpl.
  destruct (num_ltb x y) eqn:E1; [by apply num_leb_refl|destruct (num_ltb y x) eqn:E2].
  - revert E2. unfold num_leb, num_ltb, SFleb, SFltb. by destruct (SFcompare y x) as [[]|].
  - destruct (num_neg_zero x); [by apply num_leb_refl|]. by rewrite num_leb_ltb, E1.
Qed.

(** [Math.max(lo, Math.min(hi, x))] lies between the bounds. *)
Lemma num_clamp_bounds lo hi x : is_nan lo = false → is_nan hi = false → is_nan x = false →
  num_leb lo hi = true →
  num_leb lo (num_max lo (num_min hi x)) = true ∧ num_leb (num_max lo (num_min hi x)) hi = true.
Proof.
  intros Hlo Hhi Hx Hle. pose proof (num_min_not_nan hi x Hhi Hx) as Hm. split; [by apply num_max_ge_l|].
  pose proof (num_min_le_l hi x Hhi Hx) as Hl. unfold num_max. rewrite Hlo, Hm. simpl. by repeat case_match.
Qed.

#[export] Hint Resolve is_int_of_Z is_int_zero is_int_add is_int_sub is_int_max is_int_min : js.
