(* ===== verification/JsString.v ===== *)
(** * JavaScript strings

    A string is its sequence of UTF-16 code units.  [js "..."] reads a literal
    of the source (UTF-8 text) as such a sequence, so that [length] and [slice]
    count what JavaScript counts. *)

From Stdlib Require Import Ascii String.
From S2P Require Import Prelude.

Abbreviation jsstr := (list Z).

(** ** Literals *)

(** Split a code point above the BMP into a surrogate pair. *)
Definition code_point_units (c : Z) : jsstr :=
  if c <? 65536 then [c]
  else [55296 + (c - 65536) / 1024; 56320 + (c - 65536) mod 1024].

Definition byte_of (a : ascii) : Z := Z.of_N (N_of_ascii a).

Fixpoint utf16_of_utf8 (s : string) : jsstr :=
  match s with
  | EmptyString => []
  | String a s1 =>
      let b := byte_of a in
      if b <? 128 then b :: utf16_of_utf8 s1
      else match s1 with
      | EmptyString => []
      | String a2 s2 =>
          let b2 := byte_of a2 - 128 in
          if b <? 224 then (b - 192) * 64 + b2 :: utf16_of_utf8 s2
          else match s2 with
          | EmptyString => []
          | String a3 s3 =>
              let b3 := byte_of a3 - 128 in
              if b <? 240 then (b - 224) * 4096 + b2 * 64 + b3 :: utf16_of_utf8 s3
              else match s3 with
              | EmptyString => []
              | String a4 s4 =>
                  code_point_units
                    ((b - 240) * 262144 + b2 * 4096 + b3 * 64 + (byte_of a4 - 128))
                    ++ utf16_of_utf8 s4
              end
          end
      end
  end.

Definition js (s : string) : jsstr := utf16_of_utf8 s.
Arguments js : simpl never.

(** A one-unit literal, as its code unit. *)
Definition chr (s : string) : Z := match js s with c :: _ => c | [] => 0 end.
Arguments chr : simpl never.

(** ** The string operations the source uses *)

Definition js_len (s : jsstr) : Z := Z.of_nat (length s).

Definition js_eqb (s t : jsstr) : bool := bool_decide (s = t).

(** A relative index of [slice], clamped to the string. *)
Definition slice_index (i len : Z) : Z := if i <? 0 then Z.max 0 (len + i) else Z.min i len.

Definition js_slice (s : jsstr) (from to : Z) : jsstr :=
  let a := slice_index from (js_len s) in
  let b := slice_index to (js_len s) in
  take (Z.to_nat (b - a)) (drop (Z.to_nat a) s).

Definition js_slice_from (s : jsstr) (from : Z) : jsstr := js_slice s from (js_len s).

Fixpoint starts_with (p s : jsstr) : bool :=
  match p, s with
  | [], _ => true
  | c :: p', d :: s' => (c =? d) && starts_with p' s'
  | _ :: _, [] => false
  end.

Definition ends_with (p s : jsstr) : bool := starts_with (reverse p) (reverse s).

(** [indexOf], with [None] for [-1]. *)
Fixpoint index_of (p s : jsstr) : option nat :=
  if starts_with p s then Some O
  else match s with [] => None | _ :: s' => S <$> index_of p s' end.

Definition includes (p s : jsstr) : bool := if index_of p s is Some _ then true else false.

Definition is_digit (c : Z) : bool := (48 <=? c) && (c <=? 57).

(** WhiteSpace and LineTerminator of the language. *)
Definition is_space (c : Z) : bool :=
  ((9 <=? c) && (c <=? 13)) || (c =? 32) || (c =? 160) || (c =? 5760) ||
  ((8192 <=? c) && (c <=? 8202)) || (c =? 8232) || (c =? 8233) || (c =? 8239) ||
  (c =? 8287) || (c =? 12288) || (c =? 65279).

Fixpoint trim_start (s : jsstr) : jsstr :=
  match s with c :: s' => if is_space c then trim_start s' else s | [] => [] end.

Definition js_trim (s : jsstr) : jsstr := reverse (trim_start (reverse (trim_start s))).

Definition pad_start (n : nat) (c : Z) (s : jsstr) : jsstr := replicate (n - length s) c ++ s.

(** [replace] with a string pattern: the first occurrence only. *)
Definition replace_first (p r s : jsstr) : jsstr :=
  match index_of p s with
  | Some i => take i s ++ r ++ drop (i + length p) s
  | None => s
  end.

(** [replace] with a one-character global pattern. *)
Definition replace_char (c : Z) (r : jsstr) (s : jsstr) : jsstr :=
  flat_map (λ d, if d =? c then r else [d]) s.

(** [Array.prototype.join]. *)
Fixpoint js_join (sep : jsstr) (l : list jsstr) : jsstr :=
  match l with [] => [] | [s] => s | s :: l' => s ++ sep ++ js_join sep l' end.

(** [split(/[...]+/).filter(Boolean)]: the maximal runs outside the separators. *)
Fixpoint js_words_go (sep : Z → bool) (cur : jsstr) (s : jsstr) : list jsstr :=
  match s with
  | [] => match cur with [] => [] | _ => [reverse cur] end
  | c :: s' =>
      if sep c then match cur with [] => js_words_go sep [] s'
                                 | _ => reverse cur :: js_words_go sep [] s' end
      else js_words_go sep (c :: cur) s'
  end.

Definition js_words (sep : Z → bool) (s : jsstr) : list jsstr := js_words_go sep [] s.

(** The code points of a string, as a regular expression with the [u] flag reads it, and as URI encoding does. *)
Fixpoint code_points (s : jsstr) : list Z :=
  match s with
  | h :: ((l :: s') as t) =>
      if (55296 <=? h) && (h <=? 56319) && (56320 <=? l) && (l <=? 57343)
      then 65536 + (h - 55296) * 1024 + (l - 56320) :: code_points s'
      else h :: code_points t
  | _ => s
  end.

(** ** Decimal integers *)

Fixpoint dec_digits (fuel : nat) (n : Z) (acc : jsstr) : jsstr :=
  match fuel with
  | O => acc
  | S fuel' =>
      let acc' := 48 + n mod 10 :: acc in
      if n <? 10 then acc' else dec_digits fuel' (n / 10) acc'
  end.

(** The decimal digits of a non-negative integer; [log2] bounds their number. *)
Definition nat_to_js (n : Z) : jsstr := dec_digits (S (Z.to_nat (Z.log2 n))) n [].

(** [String(z)] of an integer. *)
Definition Z_to_js (z : Z) : jsstr := if z <? 0 then 45 :: nat_to_js (- z) else nat_to_js z.

Fixpoint digits_value (acc : Z) (s : jsstr) : option Z :=
  match s with
  | [] => Some acc
  | c :: s' => if is_digit c then digits_value (10 * acc + (c - 48)) s' else None
  end.

(** ** Truthiness *)

Definition str_truthy (s : jsstr) : bool := match s with [] => false | _ => true end.

(** A value that may be [null] or [undefined] is truthy when it is a non-empty string. *)
Definition ostr_truthy (s : option jsstr) : bool :=
  match s with Some s => str_truthy s | None => false end.

(** [a || b] on strings. *)
Definition str_or (a : option jsstr) (b : jsstr) : jsstr :=
  match a with Some ((_ :: _) as s) => s | _ => b end.

(** ** Unicode

    Case mapping, letter and number classes, and collation come from the Unicode
    tables and the locale of the engine: an interface, whose laws state what the
    standard fixes. *)

Definition ascii_lower (c : Z) : Z := if (65 <=? c) && (c <=? 90) then c + 32 else c.
Definition ascii_upper (c : Z) : Z := if (97 <=? c) && (c <=? 122) then c - 32 else c.
Definition ascii_alnum (c : Z) : bool :=
  is_digit c || ((65 <=? c) && (c <=? 90)) || ((97 <=? c) && (c <=? 122)).

Class Unicode := {
  to_lower : jsstr → jsstr;
  to_upper : jsstr → jsstr;
  (** Whether a code point is in [\p{L}] or [\p{N}]. *)
  letter_or_number : Z → bool;
  (** [localeCompare], and [localeCompare] with [numeric: true]. *)
  locale_compare : jsstr → jsstr → Z;
  locale_compare_numeric : jsstr → jsstr → Z
}.

Definition is_ascii (s : jsstr) : Prop := Forall (λ c, 0 ≤ c < 128) s.

Class UnicodeLaws (U : Unicode) : Prop := {
  to_lower_ascii s : is_ascii s → to_lower s = map ascii_lower s;
  to_upper_ascii s : is_ascii s → to_upper s = map ascii_upper s;
  letter_or_number_ascii c : 0 ≤ c < 128 → letter_or_number c = ascii_alnum c;
  locale_compare_ok :: Comparator locale_compare;
  locale_compare_numeric_ok :: Comparator locale_compare_numeric
}.

(** The tables restricted to ASCII, with code-unit order for collation: the
    smallest instance of the interface, used to run examples. *)

Fixpoint code_unit_compare (s t : jsstr) : Z :=
  match s, t with
  | [], [] => 0
  | [], _ :: _ => -1
  | _ :: _, [] => 1
  | c :: s', d :: t' => if c <? d then -1 else if d <? c then 1 else code_unit_compare s' t'
  end.

Definition ascii_unicode : Unicode := {|
  to_lower := map ascii_lower;
  to_upper := map ascii_upper;
  letter_or_number := ascii_alnum;
  locale_compare := code_unit_compare;
  locale_compare_numeric := code_unit_compare
|}.

(** ** Lemmas *)

Lemma code_unit_compare_antisym s t : code_unit_compare s t = - code_unit_compare t s.
Proof.
  revert t. induction s as [|c s IH]; intros [|d t]; simpl; try done.
  split_tests; try done; try lia.
Qed.

Lemma code_unit_compare_trans s t u :
  code_unit_compare s t ≤ 0 → code_unit_compare t u ≤ 0 → code_unit_compare s u ≤ 0.
Proof.
  revert t u. induction s as [|c s IH]; intros [|d t] [|e u]; simpl; try lia.
  split_tests; try lia. apply IH.
Qed.

#[export] Instance code_unit_compare_comparator : Comparator code_unit_compare.
Proof.
  split; [|exact code_unit_compare_trans].
  intros a b. rewrite code_unit_compare_antisym. lia.
Qed.

#[export] Instance ascii_unicode_laws : UnicodeLaws ascii_unicode.
Proof. split; try done; exact code_unit_compare_comparator. Qed.

Lemma starts_with_spec p s : starts_with p s = true ↔ ∃ t, s = p ++ t.
Proof.
  revert s. induction p as [|c p IH]; intros s; simpl; [by split; eauto|].
  destruct s as [|d s]; [split; [done|by intros []]|].
  rewrite andb_true_iff, Z.eqb_eq, IH. split.
  - intros [-> [t ->]]. by exists t.
  - intros [t [= -> ->]]. eauto.
Qed.

Lemma ends_with_spec p s : ends_with p s = true ↔ ∃ t, s = t ++ p.
Proof.
  unfold ends_with. rewrite starts_with_spec. split; intros [t Ht].
  - exists (reverse t). apply (f_equal reverse) in Ht.
    by rewrite reverse_involutive, reverse_app, reverse_involutive in Ht.
  - exists (reverse t). by rewrite Ht, reverse_app.
Qed.

Lemma index_of_spec p s i : index_of p s = Some i → s = take i s ++ p ++ drop (i + length p) s.
Proof.
  revert i. induction s as [|c s IH]; intros i; simpl.
  - destruct (starts_with p []) eqn:E; [|done]. intros [= <-].
    apply starts_with_spec in E as [t Ht]. symmetry in Ht. apply app_eq_nil in Ht as [-> ->]. done.
  - destruct (starts_with p (c :: s)) eqn:E.
    + intros [= <-]. apply starts_with_spec in E as [t Ht]. rewrite Ht. simpl.
      by rewrite drop_app_length.
    + intros (j & Hj & ->)%fmap_Some. simpl. by rewrite <-(IH j Hj).
Qed.

Lemma js_len_nonneg s : 0 ≤ js_len s.
Proof. unfold js_len. lia. Qed.

Lemma slice_prefix s n : 0 ≤ n ≤ js_len s → js_slice s 0 n = take (Z.to_nat n) s.
Proof.
  intros Hn. unfold js_slice, slice_index. rewrite (proj2 (Z.ltb_ge _ _)) by lia.
  rewrite (proj2 (Z.ltb_ge _ _)) by lia. rewrite !Z.min_l by lia. by rewrite Z.sub_0_r.
Qed.

Lemma slice_suffix s n : 0 < n ≤ js_len s →
  js_slice_from s (- n) = drop (length s - Z.to_nat n) s.
Proof.
  intros Hn. unfold js_slice_from, js_slice, slice_index, js_len in *.
  rewrite (proj2 (Z.ltb_lt (- n) 0)) by lia. rewrite (proj2 (Z.ltb_ge (Z.of_nat _) 0)) by lia.
  rewrite Z.min_id, Z.max_r by lia.
  rewrite firstn_all2 by (rewrite length_drop; lia). f_equal. lia.
Qed.

Lemma slice_from_nonneg s n : 0 ≤ n ≤ js_len s → js_slice_from s n = drop (Z.to_nat n) s.
Proof.
  intros Hn. unfold js_slice_from, js_slice, slice_index, js_len in *.
  rewrite !(proj2 (Z.ltb_ge _ _)) by lia. rewrite Z.min_id, Z.min_l by lia.
  apply firstn_all2. rewrite length_drop. lia.
Qed.

Lemma is_digit_spec c : is_digit c = true ↔ 48 ≤ c ≤ 57.
Proof. unfold is_digit. rewrite andb_true_iff, !Z.leb_le. done. Qed.

Lemma dec_digits_app fuel n acc : dec_digits fuel n acc = dec_digits fuel n [] ++ acc.
Proof.
  revert n acc. induction fuel as [|fuel IH]; intros n acc; simpl; [done|].
  destruct (n <? 10); [done|]. rewrite IH, (IH _ [_]). by rewrite <-app_assoc.
Qed.

Lemma digits_value_app acc s t v : digits_value acc s = Some v →
  digits_value acc (s ++ t) = digits_value v t.
Proof.
  revert acc. induction s as [|c s IH]; intros acc; simpl; [by intros [= ->]|].
  destruct (is_digit c); [apply IH|done].
Qed.

Lemma dec_digits_value fuel n : 0 ≤ n < 10 ^ Z.of_nat fuel → (0 < fuel)%nat →
  digits_value 0 (dec_digits fuel n []) = Some n.
Proof.
  revert n. induction fuel as [|fuel IH]; intros n Hn Hf; [lia|]. simpl.
  assert (is_digit (48 + n mod 10) = true) as Hd.
  { apply is_digit_spec. pose proof (Z.mod_pos_bound n 10). lia. }
  destruct (n <? 10) eqn:E; bool_to_prop.
  - simpl. rewrite Hd, Z.mod_small by lia. f_equal. lia.
  - rewrite Nat2Z.inj_succ, Z.pow_succ_r in Hn by lia.
    rewrite dec_digits_app. rewrite (digits_value_app _ _ _ (n / 10)).
    + simpl. rewrite Hd. f_equal. pose proof (Z.div_mod n 10). lia.
    + assert (0 < fuel)%nat by (destruct fuel; simpl in Hn; lia).
      apply IH; [|done]. split; [apply Z.div_pos; lia|]. apply Z.div_lt_upper_bound; lia.
Qed.

Lemma fuel_enough n : 0 ≤ n → n < 10 ^ Z.of_nat (S (Z.to_nat (Z.log2 n))).
Proof.
  intros Hn. rewrite Nat2Z.inj_succ, Z2Nat.id by apply Z.log2_nonneg.
  destruct (decide (n = 0)) as [->|]; [done|].
  pose proof (Z.log2_spec n ltac:(lia)) as [_ H].
  eapply Z.lt_le_trans; [exact H|]. apply Z.pow_le_mono_l.
  pose proof (Z.log2_nonneg n). lia.
Qed.

(** Printing an integer and reading its digits gives it back. *)
Lemma digits_value_nat_to_js n : 0 ≤ n → digits_value 0 (nat_to_js n) = Some n.
Proof.
  intros Hn. unfold nat_to_js. apply dec_digits_value; [|lia].
  split; [done|]. by apply fuel_enough.
Qed.

Lemma nat_to_js_inj m n : 0 ≤ m → 0 ≤ n → nat_to_js m = nat_to_js n → m = n.
Proof.
  intros Hm Hn H. apply digits_value_nat_to_js in Hm, Hn. rewrite H in Hm. congruence.
Qed.

Lemma dec_digits_digits fuel n : 0 ≤ n → Forall (λ c, is_digit c = true) (dec_digits fuel n []).
Proof.
  revert n. induction fuel as [|fuel IH]; intros n Hn; simpl; [constructor|].
  assert (is_digit (48 + n mod 10) = true).
  { apply is_digit_spec. pose proof (Z.mod_pos_bound n 10). lia. }
  destruct (n <? 10); [by repeat constructor|].
  rewrite dec_digits_app, Forall_app. split; [|by repeat constructor].
  apply IH, Z.div_pos; lia.
Qed.

Lemma nat_to_js_digits n : 0 ≤ n → Forall (λ c, is_digit c = true) (nat_to_js n).
Proof. apply dec_digits_digits. Qed.

Lemma dec_digits_length fuel n k : 0 ≤ n < 10 ^ Z.of_nat k → (0 < k)%nat →
  (length (dec_digits fuel n []) ≤ k)%nat.
Proof.
  revert n k. induction fuel as [|fuel IH]; intros n k Hn Hk; simpl; [lia|].
  destruct (n <? 10) eqn:E; [simpl; lia|]. bool_to_prop.
  rewrite dec_digits_app, length_app. simpl.
  destruct k as [|k]; [lia|]. rewrite Nat2Z.inj_succ, Z.pow_succ_r in Hn by lia.
  assert (0 < k)%nat by (destruct k; simpl in Hn; lia).
  enough (length (dec_digits fuel (n / 10) []) ≤ k)%nat by lia. apply IH; [|done].
  split; [apply Z.div_pos; lia|apply Z.div_lt_upper_bound; lia].
Qed.

Lemma nat_to_js_length n k : 0 ≤ n < 10 ^ Z.of_nat k → (0 < k)%nat →
  (length (nat_to_js n) ≤ k)%nat.
Proof. apply dec_digits_length. Qed.

Lemma nat_to_js_nonempty n : nat_to_js n ≠ [].
Proof.
  unfold nat_to_js. simpl. destruct (n <? 10); [done|].
  rewrite dec_digits_app. by destruct (dec_digits _ _ _).
Qed.

Lemma digits_value_zeros k s : digits_value 0 (replicate k 48 ++ s) = digits_value 0 s.
Proof. by induction k. Qed.

Lemma Z_to_js_inj m n : 0 ≤ m → 0 ≤ n → Z_to_js m = Z_to_js n → m = n.
Proof.
  intros Hm Hn. unfold Z_to_js. rewrite !(proj2 (Z.ltb_ge _ _)) by lia. by apply nat_to_js_inj.
Qed.

Lemma digits_value_nonneg_acc s a v : 0 ≤ a → digits_value a s = Some v → 0 ≤ v.
Proof.
  revert a. induction s as [|c s IH]; intros a Ha; [by intros [= <-]|]. simpl.
  destruct (is_digit c) eqn:E; [|done]. apply is_digit_spec in E. apply IH. lia.
Qed.

Lemma digits_value_nonneg s v : digits_value 0 s = Some v → 0 ≤ v.
Proof. by apply digits_value_nonneg_acc. Qed.

Lemma digits_value_bound_acc s a v : 0 ≤ a → digits_value a s = Some v →
  v < (a + 1) * 10 ^ Z.of_nat (length s).
Proof.
  revert a. induction s as [|c s IH]; intros a Ha; [by intros [= <-]; simpl; lia|]. simpl.
  destruct (is_digit c) eqn:E; [|done]. apply is_digit_spec in E. intros Hv%IH; [|lia].
  rewrite Nat2Z.inj_succ, Z.pow_succ_r by lia.
  eapply Z.lt_le_trans; [exact Hv|]. generalize (Z.pow_nonneg 10 (Z.of_nat (length s))).
  generalize (10 ^ Z.of_nat (length s)). intros p Hp.
  replace ((a + 1) * (10 * p)) with (10 * (a + 1) * p) by lia.
  apply Z.mul_le_mono_nonneg_r; lia.
Qed.

Lemma digits_value_bound s v : digits_value 0 s = Some v → v < 10 ^ Z.of_nat (length s).
Proof. intros Hv. apply digits_value_bound_acc in Hv; lia. Qed.

(** ** Zero-padded fields, as dates are printed *)

Definition pad_num (n : nat) (v : Z) : jsstr := pad_start n 48 (Z_to_js v).

Lemma pad_num_length n v : (0 < n)%nat → 0 ≤ v < 10 ^ Z.of_nat n → length (pad_num n v) = n.
Proof.
  intros Hn Hv. unfold pad_num, pad_start, Z_to_js. rewrite (proj2 (Z.ltb_ge _ _)) by lia.
  rewrite length_app, length_replicate.
  pose proof (nat_to_js_length v n Hv Hn). lia.
Qed.

Lemma pad_num_value n v : 0 ≤ v → digits_value 0 (pad_num n v) = Some v.
Proof.
  intros Hv. unfold pad_num, pad_start, Z_to_js. rewrite (proj2 (Z.ltb_ge _ _)) by lia.
  rewrite digits_value_zeros. by apply digits_value_nat_to_js.
Qed.

Lemma pad_num_digits n v : 0 ≤ v → Forall (λ c, is_digit c = true) (pad_num n v).
Proof.
  intros Hv. unfold pad_num, pad_start, Z_to_js. rewrite (proj2 (Z.ltb_ge _ _)) by lia.
  apply Forall_app. split; [|by apply nat_to_js_digits].
  by apply Forall_replicate.
Qed.

(** A number with all its digits needs no padding. *)
Lemma pad_num_full n v : 10 ^ Z.of_nat n ≤ v < 10 ^ Z.of_nat (S n) → Z_to_js v = pad_num (S n) v.
Proof.
  intros Hv. unfold pad_num, pad_start, Z_to_js.
  assert (0 < 10 ^ Z.of_nat n) by (apply Z.pow_pos_nonneg; lia).
  rewrite (proj2 (Z.ltb_ge _ _)) by lia.
  enough (n < length (nat_to_js v))%nat as Hl.
  { by replace (S n - length (nat_to_js v))%nat with 0%nat by lia. }
  apply Nat.lt_nge. intros Hle. apply (Z.lt_irrefl v). eapply Z.lt_le_trans; [|apply Hv].
  eapply Z.lt_le_trans; [apply (digits_value_bound (nat_to_js v) v), digits_value_nat_to_js; lia|].
  apply Z.pow_le_mono_r; lia.
Qed.

(** Searching for one code unit. *)
Lemma index_of_char c p r : Forall (λ d, d ≠ c) p → index_of [c] (p ++ c :: r) = Some (length p).
Proof.
  induction 1 as [|d p Hd Hp IH]; simpl; [by rewrite Z.eqb_refl|].
  rewrite (proj2 (Z.eqb_neq c d)) by congruence. simpl. by rewrite IH.
Qed.

Lemma index_of_char_none c p : Forall (λ d, d ≠ c) p → index_of [c] p = None.
Proof.
  induction 1 as [|d p Hd Hp IH]; simpl; [done|].
  rewrite (proj2 (Z.eqb_neq c d)) by congruence. simpl. by rewrite IH.
Qed.

(** A string whose ends are not white space is its own [trim]. *)
Lemma trim_start_id c s : is_space c = false → trim_start (c :: s) = c :: s.
Proof. intros Hc. simpl. by rewrite Hc. Qed.

Lemma js_trim_id c s t : is_space c = false → t ≠ [] → Forall (λ d, is_space d = false) t →
  js_trim (c :: s ++ t) = c :: s ++ t.
Proof.
  intros Hc Ht Hsp. unfold js_trim. rewrite trim_start_id by done.
  rewrite app_comm_cons, reverse_app.
  destruct (reverse t) as [|e u] eqn:E.
  { apply (f_equal reverse) in E. by rewrite reverse_involutive in E. }
  assert (is_space e = false) as He.
  { assert (Forall (λ d, is_space d = false) (reverse t)) as H by (by apply Forall_reverse).
    rewrite E in H. by apply Forall_inv in H. }
  rewrite <-app_comm_cons, trim_start_id by done.
  by rewrite app_comm_cons, <-E, <-reverse_app, reverse_involutive.
Qed.

Lemma digit_not_space c : is_digit c = true → is_space c = false.
Proof.
  intros Hc%is_digit_spec. unfold is_space.
  repeat (rewrite (proj2 (Z.eqb_neq c _)) by lia). rewrite (proj2 (Z.leb_gt c 13)), (proj2 (Z.leb_gt 8192 c)) by lia.
  by rewrite andb_false_r.
Qed.

(** Code points of text without surrogates are its code units. *)
Lemma code_points_bmp s : Forall (λ c, 0 ≤ c < 55296) s → code_points s = s.
Proof.
  induction s as [|h s IH]; intros Hs; [done|]. apply Forall_cons in Hs as [Hh Hs].
  destruct s as [|l s]; [done|].
  change (code_points (h :: l :: s)) with
    (if (55296 <=? h) && (h <=? 56319) && (56320 <=? l) && (l <=? 57343)
     then 65536 + (h - 55296) * 1024 + (l - 56320) :: code_points s
     else h :: code_points (l :: s)).
  rewrite (proj2 (Z.leb_gt 55296 h)) by lia. cbn [andb]. by rewrite IH.
Qed.

#[export] Hint Resolve js_len_nonneg digit_not_space : js.
