(* ===== verification/Uri.v ===== *)
(** * Text in requests

    The language's [encodeURIComponent] and [URLSearchParams] serialization, and
    [JSON.stringify] of strings, as the hooks use them to address the backend. *)

From S2P Require Import Prelude JsString.

(** ** UTF-8 *)

Definition utf8 (c : Z) : list Z :=
  if c <? 128 then [c]
  else if c <? 2048 then [192 + c / 64; 128 + c mod 64]
  else if c <? 65536 then [224 + c / 4096; 128 + c / 64 mod 64; 128 + c mod 64]
  else [240 + c / 262144; 128 + c / 4096 mod 64; 128 + c / 64 mod 64; 128 + c mod 64].

Definition is_surrogate (c : Z) : bool := (55296 <=? c) && (c <=? 57343).

(** Decode valid UTF-8. *)
Fixpoint utf8_decode (s : list Z) : list Z :=
  match s with
  | [] => []
  | b :: s1 =>
      if b <? 128 then b :: utf8_decode s1
      else match s1 with
      | [] => []
      | b1 :: s2 =>
          if b <? 224 then (b - 192) * 64 + (b1 - 128) :: utf8_decode s2
          else match s2 with
          | [] => []
          | b2 :: s3 =>
              if b <? 240 then (b - 224) * 4096 + (b1 - 128) * 64 + (b2 - 128) :: utf8_decode s3
              else match s3 with
              | [] => []
              | b3 :: s4 =>
                  (b - 240) * 262144 + (b1 - 128) * 4096 + (b2 - 128) * 64 + (b3 - 128) :: utf8_decode s4
              end
          end
      end
  end.

(** ** Percent encoding *)

Definition hex_upper (d : Z) : Z := if d <? 10 then 48 + d else 55 + d.

Definition percent (b : Z) : jsstr := [37; hex_upper (b / 16); hex_upper (b mod 16)].

(** Letters, digits and [- _ . ! ~ * ' ( )] are left as they are. *)
Definition unreserved (c : Z) : bool :=
  ascii_alnum c || (c =? 45) || (c =? 95) || (c =? 46) || (c =? 33) || (c =? 126) ||
  (c =? 42) || (c =? 39) || (c =? 40) || (c =? 41).

(** A lone surrogate is a [URIError]. *)
Definition encodeURIComponent (s : jsstr) : option jsstr :=
  let cps := code_points s in
  if existsb is_surrogate cps then None
  else Some (flat_map (λ c, if unreserved c then [c] else flat_map percent (utf8 c)) cps).

Definition hex_value (c : Z) : option Z :=
  if is_digit c then Some (c - 48) else if (65 <=? c) && (c <=? 70) then Some (c - 55) else None.

(** Undo percent encoding, giving bytes. *)
Fixpoint percent_decode (s : jsstr) : option (list Z) :=
  match s with
  | [] => Some []
  | c :: s' =>
      if c =? 37 then
        match s' with
        | h :: l :: s'' => h ← hex_value h; l ← hex_value l; r ← percent_decode s''; Some (16 * h + l :: r)
        | _ => None
        end
      else r ← percent_decode s'; Some (c :: r)
  end.

(** What a server reads back from a path segment. *)
Definition decodeURIComponent (s : jsstr) : option jsstr :=
  b ← percent_decode s; Some (flat_map code_point_units (utf8_decode b)).

(** application/x-www-form-urlencoded, as [URLSearchParams.toString] writes it: a
    lone surrogate is replaced, a space is a plus. *)
Definition form_safe (c : Z) : bool :=
  ascii_alnum c || (c =? 42) || (c =? 45) || (c =? 46) || (c =? 95).

Definition form_encode (s : jsstr) : jsstr :=
  flat_map (λ c, if c =? 32 then [43] else if form_safe c then [c]
                 else flat_map percent (utf8 (if is_surrogate c then 65533 else c))) (code_points s).

Definition search_params (l : list (jsstr * jsstr)) : jsstr :=
  js_join (js "&") (map (λ '(k, v), form_encode k ++ chr "=" :: form_encode v) l).

(** ** JSON strings *)

Definition hex_lower (d : Z) : Z := if d <? 10 then 48 + d else 87 + d.

Definition unicode_escape (c : Z) : jsstr :=
  [92; 117; hex_lower (c / 4096); hex_lower (c / 256 mod 16); hex_lower (c / 16 mod 16); hex_lower (c mod 16)].

Definition json_char (c : Z) : jsstr :=
  if c =? 34 then [92; 34] else if c =? 92 then [92; 92]
  else if c =? 8 then [92; 98] else if c =? 9 then [92; 116] else if c =? 10 then [92; 110]
  else if c =? 12 then [92; 102] else if c =? 13 then [92; 114]
  else if (c <? 32) || is_surrogate c then unicode_escape c
  else code_point_units c.

Definition json_string (s : jsstr) : jsstr := 34 :: flat_map json_char (code_points s) ++ [34].

(** An object with string members; the names are identifiers. *)
Definition json_object (l : list (jsstr * jsstr)) : jsstr :=
  chr "{" :: js_join (js ",") (map (λ '(k, v), json_string k ++ chr ":" :: v) l) ++ js "}".

(** ** Lemmas *)

(** UTF-16 units read back as the code points they were split into. *)
Lemma units_of_code_points s : Forall (λ c, 0 ≤ c < 65536) s → flat_map code_point_units (code_points s) = s.
Proof.
  remember (length s) as n eqn:Hn. revert s Hn. induction (lt_wf n) as [n _ IH].
  intros s -> Hs. destruct s as [|h [|l s]]; [done| |].
  - apply Forall_cons in Hs as [Hh _]. simpl. unfold code_point_units.
    by rewrite (proj2 (Z.ltb_lt _ _)) by lia.
  - apply Forall_cons in Hs as [Hh Hs].
    change (code_points (h :: l :: s)) with
      (if (55296 <=? h) && (h <=? 56319) && (56320 <=? l) && (l <=? 57343)
       then 65536 + (h - 55296) * 1024 + (l - 56320) :: code_points s
       else h :: code_points (l :: s)).
    destruct (_ && (l <=? 57343)) eqn:E.
    + bool_to_prop. cbn [flat_map]. rewrite (IH (length s)); [|simpl; lia|done|by apply Forall_cons in Hs as []].
      unfold code_point_units. rewrite (proj2 (Z.ltb_ge _ _)) by lia.
      replace (65536 + (h - 55296) * 1024 + (l - 56320) - 65536) with ((h - 55296) * 1024 + (l - 56320)) by lia.
      rewrite Z.div_add_l, Z.div_small by lia.
      rewrite Z.add_comm, (Z.add_comm ((h - 55296) * 1024)), Z.mod_add, Z.mod_small by lia.
      cbn [app]. f_equal; [lia|]. f_equal. lia.
    + cbn [flat_map]. rewrite (IH (length (l :: s))); [|simpl; lia|done|done].
      unfold code_point_units. by rewrite (proj2 (Z.ltb_lt _ _)) by lia.
Qed.

Lemma code_points_bounds s : Forall (λ c, 0 ≤ c < 65536) s → Forall (λ c, 0 ≤ c < 1114112) (code_points s).
Proof.
  remember (length s) as n eqn:Hn. revert s Hn. induction (lt_wf n) as [n _ IH].
  intros s -> Hs. destruct s as [|h [|l s]]; [constructor| |].
  - apply Forall_cons in Hs as [Hh _]. constructor; [lia|constructor].
  - apply Forall_cons in Hs as [Hh Hs].
    change (code_points (h :: l :: s)) with
      (if (55296 <=? h) && (h <=? 56319) && (56320 <=? l) && (l <=? 57343)
       then 65536 + (h - 55296) * 1024 + (l - 56320) :: code_points s
       else h :: code_points (l :: s)).
    destruct (_ && (l <=? 57343)) eqn:E.
    + bool_to_prop. constructor; [lia|]. eapply IH; [|done|by apply Forall_cons in Hs as []]. simpl. lia.
    + constructor; [lia|]. eapply IH; [|done|done]. simpl. lia.
Qed.

Lemma utf8_bytes c : 0 ≤ c < 1114112 → Forall (λ b, 0 ≤ b < 256) (utf8 c).
Proof. intros Hc. unfold utf8. split_tests; repeat (constructor; [zlia|]); constructor. Qed.

Lemma utf8_decode_utf8 c r : 0 ≤ c < 1114112 → utf8_decode (utf8 c ++ r) = c :: utf8_decode r.
Proof.
  intros Hc. unfold utf8. destruct (c <? 128) eqn:E1; [|destruct (c <? 2048) eqn:E2; [|destruct (c <? 65536) eqn:E3]];
    bool_to_prop; cbn [app utf8_decode].
  - by rewrite (proj2 (Z.ltb_lt c 128)) by lia.
  - rewrite (proj2 (Z.ltb_ge _ 128)), (proj2 (Z.ltb_lt _ 224)) by zlia. f_equal. zlia.
  - rewrite (proj2 (Z.ltb_ge _ 128)), (proj2 (Z.ltb_ge _ 224)), (proj2 (Z.ltb_lt _ 240)) by zlia. f_equal. zlia.
  - rewrite (proj2 (Z.ltb_ge _ 128)), (proj2 (Z.ltb_ge _ 224)), (proj2 (Z.ltb_ge _ 240)) by zlia. f_equal. zlia.
Qed.

Lemma utf8_ascii c : 0 ≤ c < 128 → utf8 c = [c].
Proof. intros Hc. unfold utf8. by rewrite (proj2 (Z.ltb_lt _ _)) by lia. Qed.

Lemma utf8_decode_all l : Forall (λ c, 0 ≤ c < 1114112) l → utf8_decode (flat_map utf8 l) = l.
Proof. induction 1 as [|c l Hc Hl IH]; [done|]. cbn [flat_map]. by rewrite utf8_decode_utf8, IH. Qed.

Lemma hex_value_upper d : 0 ≤ d < 16 → hex_value (hex_upper d) = Some d.
Proof.
  intros Hd. unfold hex_value, hex_upper, is_digit. destruct (d <? 10) eqn:E; bool_to_prop.
  - rewrite !(proj2 (Z.leb_le _ _)) by lia. cbn. f_equal. lia.
  - rewrite (proj2 (Z.leb_gt (55 + d) 57)), andb_false_r by lia.
    rewrite !(proj2 (Z.leb_le _ _)) by lia. cbn. f_equal. lia.
Qed.

Lemma percent_decode_percent b r : 0 ≤ b < 256 →
  percent_decode (percent b ++ r) = (λ l, b :: l) <$> percent_decode r.
Proof.
  intros Hb. unfold percent. cbn [app percent_decode].
  rewrite !hex_value_upper by zlia. opt_simpl.
  destruct (percent_decode r); opt_simpl; [|done]. do 2 f_equal. zlia.
Qed.

Lemma percent_decode_bytes bs r : Forall (λ b, 0 ≤ b < 256) bs →
  percent_decode (flat_map percent bs ++ r) = (λ l, bs ++ l) <$> percent_decode r.
Proof.
  induction 1 as [|b bs Hb Hbs IH]; [simpl; by destruct (percent_decode r)|].
  cbn [flat_map]. rewrite <-app_assoc, percent_decode_percent, IH by done. by destruct (percent_decode r).
Qed.

Lemma unreserved_spec c : unreserved c = true → 0 ≤ c < 128 ∧ c ≠ 37 ∧ c ≠ 47 ∧ c ≠ 63 ∧ c ≠ 35.
Proof.
  unfold unreserved, ascii_alnum, is_digit. rewrite !orb_true_iff, !andb_true_iff, !Z.leb_le, !Z.eqb_eq. lia.
Qed.

(** What is left by the encoding can stand in one path segment. *)
Definition segment_char (c : Z) : bool := unreserved c || (c =? 37).

Lemma percent_segment b : 0 ≤ b < 256 → Forall (λ c, segment_char c = true) (percent b).
Proof.
  assert (∀ d, 0 ≤ d < 16 → segment_char (hex_upper d) = true) as H.
  { intros d Hd. assert (Forall (λ d, segment_char (hex_upper d) = true) (seqZ 0 16)) as Hall
      by (apply (bool_decide_eq_true_1 _); reflexivity).
    rewrite Forall_forall in Hall. apply Hall, elem_of_seqZ. lia. }
  intros Hb. unfold percent. constructor; [done|]. constructor; [apply H; zlia|].
  constructor; [apply H; zlia|]. constructor.
Qed.

(** Encoding and reading back. *)
Lemma encodeURIComponent_spec s e : Forall (λ c, 0 ≤ c < 65536) s → encodeURIComponent s = Some e →
  decodeURIComponent e = Some s ∧ Forall (λ c, segment_char c = true) e.
Proof.
  intros Hs. unfold encodeURIComponent. destruct (existsb _ _); [done|]. intros [= <-].
  pose proof (code_points_bounds s Hs) as Hb. split.
  - unfold decodeURIComponent.
    assert (percent_decode (flat_map (λ c, if unreserved c then [c] else flat_map percent (utf8 c)) (code_points s)) =
      Some (flat_map utf8 (code_points s))) as ->.
    { clear Hs. induction Hb as [|c l Hc Hl IH]; [done|]. cbn [flat_map].
      destruct (unreserved c) eqn:E.
      - apply unreserved_spec in E. rewrite (utf8_ascii c) by lia.
        cbn [app percent_decode]. rewrite (proj2 (Z.eqb_neq c 37)) by lia. by rewrite IH.
      - rewrite percent_decode_bytes by (by apply utf8_bytes). by rewrite IH. }
    opt_simpl. by rewrite utf8_decode_all, units_of_code_points.
  - clear Hs. induction Hb as [|c l Hc Hl IH]; [constructor|]. cbn [flat_map]. apply Forall_app. split; [|done].
    destruct (unreserved c) eqn:E; [constructor; [unfold segment_char; by rewrite E|constructor]|].
    pose proof (utf8_bytes c Hc) as Hu. induction Hu as [|b bs Hb Hbs IHb]; [constructor|].
    cbn [flat_map]. apply Forall_app. split; [by apply percent_segment|done].
Qed.

(** None of the characters that delimit a URL is left. *)
Lemma segment_char_safe c : segment_char c = true → c ≠ chr "/" ∧ c ≠ chr "?" ∧ c ≠ chr "#".
Proof.
  unfold segment_char. intros [H|H]%orb_true_iff.
  - apply unreserved_spec in H. change (chr "/") with 47. change (chr "?") with 63. change (chr "#") with 35. lia.
  - apply Z.eqb_eq in H as ->. done.
Qed.
