(* ===== verification/JsText.v ===== *)
(** * Numbers as text

    [Number.prototype.toString] and [toFixed], [Number(string)] and [parseFloat],
    and the en-US formats of [Intl.NumberFormat] the console uses.  All work on the
    exact value of the binary64, as the language (and ECMA-402) defines them. *)

From Stdlib Require Import SpecFloat.
From S2P Require Import Prelude JsNumber JsString.

(** A value of type [number | string | null | undefined]. *)
Inductive jsval := JNull | JUndefined | JNumber (x : number) | JString (s : jsstr).

(** ** Decimal literals *)

(** The digits of a decimal literal read so far: mantissa and exponent of ten. *)
Fixpoint read_digits (acc : Z) (s : jsstr) : Z * Z * jsstr :=
  match s with
  | c :: s' =>
      if is_digit c then
        let '(v, n, r) := read_digits (10 * acc + (c - 48)) s' in (v, n + 1, r)
      else (acc, 0, s)
  | [] => (acc, 0, [])
  end.

(** An exponent part, if one follows; otherwise nothing is consumed. *)
Definition read_exponent (s : jsstr) : Z * jsstr :=
  match s with
  | c :: s1 =>
      if (c =? chr "e") || (c =? chr "E") then
        let '(sg, s2) := match s1 with
          | d :: s2 => if d =? chr "-" then (-1, s2) else if d =? chr "+" then (1, s2) else (1, s1)
          | [] => (1, s1)
          end in
        let '(v, n, r) := read_digits 0 s2 in
        if n =? 0 then (0, s) else (sg * v, r)
      else (0, s)
  | [] => (0, s)
  end.

(** The longest unsigned decimal literal at the start of a string. *)
Definition read_unsigned (s : jsstr) : option (number * jsstr) :=
  if starts_with (js "Infinity") s then Some (S754_infinity false, drop 8 s) else
  let '(i, ni, r1) := read_digits 0 s in
  let '(m, nf, r2) := match r1 with
    | c :: r => if c =? chr "." then
                  let '(m, nf, r2) := read_digits i r in
                  if (ni =? 0) && (nf =? 0) then (i, 0, r1) else (m, nf, r2)
                else (i, 0, r1)
    | [] => (i, 0, r1)
    end in
  if (ni =? 0) && (nf =? 0) then None
  else let '(e, r3) := read_exponent r2 in Some (num_of_dec m (e - nf), r3).

Definition read_decimal (s : jsstr) : option (number * jsstr) :=
  match s with
  | c :: s' =>
      if c =? chr "-" then '(x, r) ← read_unsigned s'; Some (num_opp x, r)
      else if c =? chr "+" then read_unsigned s' else read_unsigned s
  | [] => None
  end.

Definition parseFloat (s : jsstr) : number :=
  match read_decimal (trim_start s) with Some (x, _) => x | None => num_nan end.

(** The value of a digit in a base up to 16. *)
Definition hex_digit (c : Z) : option Z :=
  if is_digit c then Some (c - 48)
  else let l := ascii_lower c in if (97 <=? l) && (l <=? 102) then Some (l - 87) else None.

Fixpoint radix_value (base acc : Z) (s : jsstr) : option Z :=
  match s with
  | [] => Some acc
  | c :: s' => d ← hex_digit c; if d <? base then radix_value base (base * acc + d) s' else None
  end.

Definition read_radix (base : Z) (s : jsstr) : number :=
  match s with
  | [] => num_nan
  | _ => match radix_value base 0 s with Some z => num_of_Z z | None => num_nan end
  end.

(** [Number(s)] of a string. *)
Definition Number_of_string (s : jsstr) : number :=
  let s := js_trim s in
  match s with
  | [] => num_zero
  | 48 :: c :: r =>
      let l := ascii_lower c in
      if l =? chr "x" then read_radix 16 r else if l =? chr "o" then read_radix 8 r
      else if l =? chr "b" then read_radix 2 r
      else match read_decimal s with Some (x, []) => x | _ => num_nan end
  | _ => match read_decimal s with Some (x, []) => x | _ => num_nan end
  end.

(** ** Printing *)

(** The position of the decimal point of [n / d > 0]: the [p] with
    [10 ^ (p - 1) <= n / d < 10 ^ p], searched from a binary estimate. *)
Fixpoint point_from (fuel : nat) (n d p : Z) : Z :=
  match fuel with
  | O => p
  | S fuel' =>
      if n * 10 ^ Z.max 0 (- p) <? d * 10 ^ Z.max 0 p then p else point_from fuel' n d (p + 1)
  end.

Definition decimal_point (n d : Z) : Z :=
  point_from 5 n d ((Z.log2 n - Z.log2 d - 1) * 30103 / 100000 - 1).

(** Decimal digits (as an integer of [k] digits) that read back as [x]. *)
Definition digits_for (x : number) (n d p : Z) (k : Z) : option Z :=
  let e := k - p in
  let num := n * 10 ^ Z.max 0 e in
  let den := d * 10 ^ Z.max 0 (- e) in
  let q := num / den in
  let ok m := num_eqb (num_of_dec m (- e)) x in
  if ok q && ok (q + 1) then Some (if 2 * (num - q * den) <=? den then q else q + 1)
  else if ok q then Some q else if ok (q + 1) then Some (q + 1) else None.

(** The shortest such digits. *)
Fixpoint shortest (fuel : nat) (x : number) (n d p : Z) (k : Z) : Z * Z :=
  match fuel with
  | O => (n * 10 ^ Z.max 0 (k - p) / (d * 10 ^ Z.max 0 (p - k)), k)
  | S fuel' => match digits_for x n d p k with Some m => (m, k) | None => shortest fuel' x n d p (k + 1) end
  end.

(** Digits [s] with the decimal point after the [p]-th, in the language's layouts. *)
Definition layout (s : jsstr) (p : Z) : jsstr :=
  let k := Z.of_nat (length s) in
  if (k <=? p) && (p <=? 21) then s ++ replicate (Z.to_nat (p - k)) 48
  else if (0 <? p) && (p <=? 21) then take (Z.to_nat p) s ++ chr "." :: drop (Z.to_nat p) s
  else if (-6 <? p) && (p <=? 0) then js "0." ++ replicate (Z.to_nat (- p)) 48 ++ s
  else
    let e := (if p - 1 <? 0 then chr "-" else chr "+") :: nat_to_js (Z.abs (p - 1)) in
    match s with
    | [c] => c :: chr "e" :: e
    | c :: s' => c :: chr "." :: s' ++ chr "e" :: e
    | [] => []
    end.

(** [String(x)]. *)
Definition num_to_string (x : number) : jsstr :=
  match x with
  | S754_nan => js "NaN"
  | S754_zero _ => js "0"
  | S754_infinity s => if s then js "-Infinity" else js "Infinity"
  | S754_finite s _ _ =>
      let '(n, d) := num_fraction x in
      let p := decimal_point n d in
      let '(m, k) := shortest 17 (num_abs x) n d p 1 in
      (* a candidate may round up to the next power of ten *)
      let '(m, p) := if m =? 10 ^ k then (1, p + 1) else (m, p) in
      (if s then [chr "-"] else []) ++ layout (nat_to_js m) p
  end.

(** The digits of a scaled magnitude with [k > 0] of them after the point. *)
Definition fixed_digits (k : nat) (q : Z) : jsstr :=
  nat_to_js (q / 10 ^ Z.of_nat k) ++ chr "." :: pad_num k (q mod 10 ^ Z.of_nat k).

(** [x.toFixed(k)] for [k > 0]: of two candidates equally near, the larger;
    a negative number is printed from its magnitude, and [-0] as [0]. *)
Definition toFixed (k : nat) (x : number) : jsstr :=
  match x with
  | S754_nan => js "NaN"
  | S754_infinity _ => num_to_string x
  | _ =>
      if num_leb (num_of_Z (10 ^ 21)) (num_abs x) then num_to_string x
      else (if num_ltb x num_zero then [chr "-"] else []) ++ fixed_digits k (round_scaled x (Z.of_nat k))
  end.

(** ** [Intl.NumberFormat], locale en-US *)

(** Insert a comma before every group of three digits, from the right. *)
Fixpoint group_rev (s : jsstr) : jsstr :=
  match s with
  | a :: b :: c :: ((_ :: _) as s') => a :: b :: c :: chr "," :: group_rev s'
  | _ => s
  end.

Definition group_digits (s : jsstr) : jsstr := reverse (group_rev (reverse s)).

Definition ungroup (s : jsstr) : jsstr := List.filter (λ c, negb (c =? chr ",")) s.

Definition intl_sign (x : number) : jsstr := if num_negative x then [chr "-"] else [].

(** {style: 'currency', currency: 'USD', two fraction digits}, of a finite number. *)
Definition intl_currency (x : number) : jsstr :=
  match x with
  | S754_nan => js "$NaN"
  | S754_infinity _ => intl_sign x ++ js "$∞"
  | _ =>
      let q := round_scaled x 2 in
      intl_sign x ++ chr "$" :: group_digits (nat_to_js (q / 100)) ++ chr "." :: pad_num 2 (q mod 100)
  end.

(** {maximumFractionDigits: 0}. *)
Definition intl_int (x : number) : jsstr :=
  match x with
  | S754_nan => js "NaN"
  | S754_infinity _ => intl_sign x ++ js "∞"
  | _ => intl_sign x ++ group_digits (nat_to_js (round_scaled x 0))
  end.

(** ** Lemmas *)

Lemma group_rev_ungroup s : Forall (λ c, is_digit c = true) s → ungroup (group_rev s) = s.
Proof.
  assert (∀ c l, is_digit c = true → ungroup (c :: l) = c :: ungroup l) as Hd.
  { intros c l Hc%is_digit_spec. unfold ungroup. cbn [List.filter].
    rewrite (proj2 (Z.eqb_neq c (chr ","))) by (vm_compute (chr ","); lia). done. }
  induction s as [|a|a b|a b c|a b c d s IH] using list_ind_groups; intros H; [done|..].
  1-3: cbn [group_rev]; repeat (apply Forall_cons in H as [? H]; rewrite Hd by done); done.
  apply Forall_cons in H as [Ha H]. apply Forall_cons in H as [Hb H]. apply Forall_cons in H as [Hc H].
  cbn [group_rev]. rewrite !Hd by done. do 3 f_equal.
  change (ungroup (group_rev (d :: s)) = d :: s). by apply IH.
Qed.

Lemma ungroup_app s t : ungroup (s ++ t) = ungroup s ++ ungroup t.
Proof. unfold ungroup. induction s as [|c s IH]; simpl; [done|]. destruct (negb _); simpl; by rewrite IH. Qed.

Lemma ungroup_reverse s : ungroup (reverse s) = reverse (ungroup s).
Proof.
  induction s as [|c s IH]; [done|].
  rewrite reverse_cons, ungroup_app, IH. unfold ungroup at 2 3. simpl.
  destruct (negb _); simpl; by rewrite ?reverse_cons, ?app_nil_r.
Qed.

(** Grouping only adds separators: the digits are unchanged. *)
Lemma ungroup_group_digits s : Forall (λ c, is_digit c = true) s → ungroup (group_digits s) = s.
Proof.
  intros Hs. unfold group_digits. rewrite ungroup_reverse, group_rev_ungroup, reverse_involutive; [done|].
  by apply Forall_reverse.
Qed.

(** Groups, from the right: all of three digits but the last, of one to three. *)
Inductive grouped_rev : jsstr → Prop :=
| grouped_one a : grouped_rev [a]
| grouped_two a b : grouped_rev [a; b]
| grouped_three a b c : grouped_rev [a; b; c]
| grouped_more a b c s : grouped_rev s → grouped_rev (a :: b :: c :: chr "," :: s).

Lemma group_rev_grouped s : s ≠ [] → grouped_rev (group_rev s).
Proof.
  induction s as [|a|a b|a b c|a b c d s IH] using list_ind_groups; intros H; [done|constructor..|].
  apply grouped_more. by apply IH.
Qed.

Lemma group_digits_grouped s : s ≠ [] → grouped_rev (reverse (group_digits s)).
Proof.
  intros Hs. unfold group_digits. rewrite reverse_involutive. apply group_rev_grouped.
  intros E. apply Hs. apply (f_equal reverse) in E. by rewrite reverse_involutive in E.
Qed.
