(* ===== verification/JsDate.v ===== *)
(** * JavaScript dates

    A [Date] is a time value: milliseconds from the epoch, or [NaN].  The UTC
    accessors, [Date.UTC] and the ISO reading of [Date.parse] follow the
    language's calendar (proleptic Gregorian, every day 86400 s). *)

From S2P Require Import Prelude JsString.

(** ** The calendar *)

Definition ms_per_day : Z := 86400000.

Definition day_of (t : Z) : Z := t / ms_per_day.
Definition ms_in_day (t : Z) : Z := t mod ms_per_day.

Definition is_leap (y : Z) : bool :=
  ((y mod 4 =? 0) && negb (y mod 100 =? 0)) || (y mod 400 =? 0).

Definition days_in_year (y : Z) : Z := if is_leap y then 366 else 365.

(** The day number of January 1st. *)
Definition day_from_year (y : Z) : Z :=
  365 * (y - 1970) + (y - 1969) / 4 - (y - 1901) / 100 + (y - 1601) / 400.

(** The year a day is in: the estimate by mean year length is off by at most one. *)
Definition year_of_day (d : Z) : Z :=
  let y := 1970 + (400 * d) / 146097 in
  if d <? day_from_year y then y - 1
  else if day_from_year (y + 1) <=? d then y + 1 else y.

(** Days of the year before the month [m] (0..11, and 12 for the whole year). *)
Definition month_start (leap : bool) (m : Z) : Z :=
  let l := if leap then 1 else 0 in
  if m <=? 0 then 0 else if m =? 1 then 31 else
  l + (if m =? 2 then 59 else if m =? 3 then 90 else if m =? 4 then 120
       else if m =? 5 then 151 else if m =? 6 then 181 else if m =? 7 then 212
       else if m =? 8 then 243 else if m =? 9 then 273 else if m =? 10 then 304
       else if m =? 11 then 334 else 365).

Definition days_in_month (y m : Z) : Z :=
  month_start (is_leap y) (m + 1) - month_start (is_leap y) m.

Definition day_in_year (d : Z) : Z := d - day_from_year (year_of_day d).

(** The month whose span contains the day of the year. *)
Definition month_in_year (leap : bool) (n : Z) : Z :=
  if n <? month_start leap 1 then 0 else if n <? month_start leap 2 then 1
  else if n <? month_start leap 3 then 2 else if n <? month_start leap 4 then 3
  else if n <? month_start leap 5 then 4 else if n <? month_start leap 6 then 5
  else if n <? month_start leap 7 then 6 else if n <? month_start leap 8 then 7
  else if n <? month_start leap 9 then 8 else if n <? month_start leap 10 then 9
  else if n <? month_start leap 11 then 10 else 11.

Definition month_of_day (d : Z) : Z := month_in_year (is_leap (year_of_day d)) (day_in_year d).

Definition date_of_day (d : Z) : Z :=
  day_in_year d - month_start (is_leap (year_of_day d)) (month_of_day d) + 1.

Definition weekday_of_day (d : Z) : Z := (d + 4) mod 7.

(** [MakeDay]: months and days out of range carry over. *)
Definition make_day (y m dt : Z) : Z :=
  let ym := y + m / 12 in
  day_from_year ym + month_start (is_leap ym) (m mod 12) + dt - 1.

(** ** The Date object *)

Definition max_time : Z := 8640000000000000.

Definition time_clip (t : Z) : option Z := if Z.abs t <=? max_time then Some t else None.

(** [Date.UTC] and [new Date(Date.UTC(...))]: two-digit years are in the 1900s. *)
Definition date_utc (y m dt : Z) : option Z :=
  let yr := if (0 <=? y) && (y <=? 99) then 1900 + y else y in
  time_clip (make_day yr m dt * ms_per_day).

Definition getUTCFullYear (t : Z) : Z := year_of_day (day_of t).
Definition getUTCMonth (t : Z) : Z := month_of_day (day_of t).
Definition getUTCDate (t : Z) : Z := date_of_day (day_of t).
Definition getUTCDay (t : Z) : Z := weekday_of_day (day_of t).

(** ** Lemmas: years *)

Lemma div_step y k n : 0 < n → (y - k * n) / n = (y - 1 - k * n) / n + (if y mod n =? 0 then 1 else 0).
Proof.
  intros Hn. replace (y - k * n) with (y + (- k) * n) by lia.
  replace (y - 1 - k * n) with (y - 1 + (- k) * n) by lia. rewrite !Z.div_add by lia.
  destruct (y mod n =? 0) eqn:E; bool_to_prop.
  - pose proof (Z.div_mod y n ltac:(lia)). rewrite E in H.
    rewrite <-(Z.div_unique (y - 1) n (y / n - 1) (n - 1)); lia.
  - pose proof (Z.div_mod y n ltac:(lia)). pose proof (Z.mod_pos_bound y n ltac:(lia)).
    rewrite <-(Z.div_unique (y - 1) n (y / n) (y mod n - 1)); lia.
Qed.

Lemma day_from_year_succ y : day_from_year (y + 1) = day_from_year y + days_in_year y.
Proof.
  unfold days_in_year, is_leap, day_from_year.
  pose proof (div_step y 492 4 ltac:(lia)). pose proof (div_step y 19 100 ltac:(lia)).
  pose proof (div_step y 4 400 ltac:(lia)).
  replace (y + 1 - 1969) with (y - 492 * 4) by lia. replace (y - 1969) with (y - 1 - 492 * 4) by lia.
  replace (y + 1 - 1901) with (y - 19 * 100) by lia. replace (y - 1901) with (y - 1 - 19 * 100) by lia.
  replace (y + 1 - 1601) with (y - 4 * 400) by lia. replace (y - 1601) with (y - 1 - 4 * 400) by lia.
  destruct (y mod 4 =? 0) eqn:E4, (y mod 100 =? 0) eqn:E100, (y mod 400 =? 0) eqn:E400;
    cbn [andb orb negb]; bool_to_prop; zlia.
Qed.

Lemma days_in_year_bounds y : 365 ≤ days_in_year y ≤ 366.
Proof. unfold days_in_year. destruct (is_leap y); lia. Qed.

Lemma day_from_year_mono y1 y2 : y1 < y2 → day_from_year y1 + 365 ≤ day_from_year y2.
Proof.
  intros Hy. replace y2 with (y1 + 1 + (y2 - y1 - 1)) by lia.
  assert (0 ≤ y2 - y1 - 1) as Hk by lia. revert Hk. generalize (y2 - y1 - 1). clear Hy y2.
  apply (natlike_ind (λ k, day_from_year y1 + 365 ≤ day_from_year (y1 + 1 + k))).
  - rewrite Z.add_0_r, day_from_year_succ. pose proof (days_in_year_bounds y1). lia.
  - intros k Hk IH. replace (y1 + 1 + Z.succ k) with (y1 + 1 + k + 1) by lia.
    rewrite day_from_year_succ. pose proof (days_in_year_bounds (y1 + 1 + k)). lia.
Qed.

Lemma year_of_day_spec d :
  day_from_year (year_of_day d) ≤ d < day_from_year (year_of_day d + 1).
Proof.
  unfold year_of_day. set (y := 1970 + 400 * d / 146097).
  assert (day_from_year (y - 1) ≤ d < day_from_year (y + 2)).
  { unfold y, day_from_year. zlia. }
  destruct (d <? day_from_year y) eqn:E1; [|destruct (day_from_year (y + 1) <=? d) eqn:E2];
    bool_to_prop.
  - replace (y - 1 + 1) with y by lia. lia.
  - replace (y + 1 + 1) with (y + 2) by lia. lia.
  - lia.
Qed.

Lemma year_of_day_unique d y :
  day_from_year y ≤ d < day_from_year (y + 1) → year_of_day d = y.
Proof.
  intros H. pose proof (year_of_day_spec d) as H'.
  destruct (Z.lt_trichotomy (year_of_day d) y) as [Hlt|[|Hlt]]; [|done|].
  - destruct (decide (year_of_day d + 1 = y)) as [E|]; [rewrite E in H'; lia|].
    pose proof (day_from_year_mono (year_of_day d + 1) y). lia.
  - destruct (decide (y + 1 = year_of_day d)) as [E|]; [rewrite E in H; lia|].
    pose proof (day_from_year_mono (y + 1) (year_of_day d)). lia.
Qed.

Lemma day_in_year_bounds d : 0 ≤ day_in_year d < days_in_year (year_of_day d).
Proof.
  unfold day_in_year. pose proof (year_of_day_spec d) as H.
  rewrite day_from_year_succ in H. lia.
Qed.

(** ** Lemmas: months *)

Lemma month_cases m : 0 ≤ m < 12 → m = 0 ∨ m = 1 ∨ m = 2 ∨ m = 3 ∨ m = 4 ∨ m = 5 ∨
  m = 6 ∨ m = 7 ∨ m = 8 ∨ m = 9 ∨ m = 10 ∨ m = 11.
Proof. lia. Qed.

Ltac month_cases m H :=
  let C := fresh in pose proof (month_cases m H) as C;
  repeat match type of C with _ ∨ _ => destruct C as [C|C] end; subst m.

(** Evaluate the entries of the month table. *)
Ltac month_table :=
  repeat match goal with
  | |- context [month_start ?b ?k] =>
      let v := eval vm_compute in (month_start b k) in change (month_start b k) with v
  | H : context [month_start ?b ?k] |- _ =>
      let v := eval vm_compute in (month_start b k) in change (month_start b k) with v in H
  end.

Lemma month_in_year_spec (leap : bool) n : 0 ≤ n < 365 + (if leap then 1 else 0) →
  0 ≤ month_in_year leap n < 12 ∧
  month_start leap (month_in_year leap n) ≤ n < month_start leap (month_in_year leap n + 1).
Proof.
  intros Hn. unfold month_in_year. destruct leap; split_tests; month_table; lia.
Qed.

Lemma month_in_year_unique leap m n : 0 ≤ m < 12 →
  month_start leap m ≤ n < month_start leap (m + 1) → month_in_year leap n = m.
Proof.
  intros Hm Hn. month_cases m Hm; destruct leap; unfold month_in_year;
    month_table; split_tests; lia.
Qed.

Lemma days_in_month_bounds y m : 0 ≤ m < 12 → 28 ≤ days_in_month y m ≤ 31.
Proof. intros Hm. unfold days_in_month. month_cases m Hm; destruct (is_leap y); month_table; lia. Qed.

Lemma month_start_bounds (leap : bool) m : 0 ≤ m < 12 →
  0 ≤ month_start leap m ∧ month_start leap (m + 1) ≤ 365 + (if leap then 1 else 0).
Proof. intros Hm. month_cases m Hm; destruct leap; month_table; lia. Qed.

(** ** The calendar is a bijection between days and dates *)

Lemma make_day_of d : make_day (year_of_day d) (month_of_day d) (date_of_day d) = d.
Proof.
  pose proof (day_in_year_bounds d) as Hd. unfold days_in_year in Hd.
  destruct (month_in_year_spec (is_leap (year_of_day d)) (day_in_year d)) as [Hm _].
  { destruct (is_leap _); lia. }
  unfold make_day. fold (month_of_day d) in Hm.
  rewrite Z.div_small, Z.mod_small by lia. rewrite Z.add_0_r.
  unfold date_of_day, day_in_year. lia.
Qed.

Lemma make_day_fields y m dt : 0 ≤ m < 12 → 1 ≤ dt ≤ days_in_month y m →
  year_of_day (make_day y m dt) = y ∧ month_of_day (make_day y m dt) = m ∧
  date_of_day (make_day y m dt) = dt.
Proof.
  intros Hm Hdt. unfold days_in_month in Hdt.
  assert (make_day y m dt = day_from_year y + month_start (is_leap y) m + dt - 1) as Hmd.
  { unfold make_day. by rewrite Z.div_small, Z.mod_small, Z.add_0_r by lia. }
  pose proof (month_start_bounds (is_leap y) m Hm) as Hb.
  assert (year_of_day (make_day y m dt) = y) as Hy.
  { apply year_of_day_unique. rewrite Hmd, day_from_year_succ. unfold days_in_year.
    destruct (is_leap y); lia. }
  assert (day_in_year (make_day y m dt) = month_start (is_leap y) m + dt - 1) as Hn.
  { unfold day_in_year. rewrite Hy, Hmd. lia. }
  assert (month_of_day (make_day y m dt) = m) as Hmo.
  { unfold month_of_day. rewrite Hy, Hn. apply month_in_year_unique; [done|]. lia. }
  split_and!; [done..|]. unfold date_of_day. rewrite Hy, Hmo, Hn. lia.
Qed.

Lemma month_of_day_bounds d : 0 ≤ month_of_day d < 12.
Proof.
  pose proof (day_in_year_bounds d) as Hd. unfold days_in_year in Hd.
  apply month_in_year_spec. destruct (is_leap _); lia.
Qed.

Lemma date_of_day_bounds d : 1 ≤ date_of_day d ≤ days_in_month (year_of_day d) (month_of_day d).
Proof.
  pose proof (day_in_year_bounds d) as Hd. unfold days_in_year in Hd.
  destruct (month_in_year_spec (is_leap (year_of_day d)) (day_in_year d)) as [_ Hn];
    [destruct (is_leap _); lia|].
  unfold date_of_day, days_in_month, month_of_day. lia.
Qed.

(** The first of a month, and the last day of the previous one. *)
Lemma make_day_shift y m dt : make_day y m dt = make_day y m 1 + dt - 1.
Proof. unfold make_day. lia. Qed.

Lemma make_day_next_month y m : make_day y (m + 1) 1 = make_day y m 1 + days_in_month (y + m / 12) (m mod 12).
Proof.
  unfold make_day, days_in_month.
  pose proof (Z.mod_pos_bound m 12 ltac:(lia)).
  destruct (decide (m mod 12 = 11)) as [He|Hne].
  - replace ((m + 1) / 12) with (m / 12 + 1) by zlia. replace ((m + 1) mod 12) with 0 by zlia.
    rewrite He, Z.add_assoc, day_from_year_succ. unfold days_in_year.
    destruct (is_leap (y + m / 12)), (is_leap (y + m / 12 + 1)); month_table; lia.
  - replace ((m + 1) / 12) with (m / 12) by zlia. replace ((m + 1) mod 12) with (m mod 12 + 1) by zlia.
    lia.
Qed.

Lemma day_of_midnight d : day_of (d * ms_per_day) = d.
Proof. unfold day_of, ms_per_day. zlia. Qed.

#[export] Hint Rewrite day_of_midnight make_day_of : js.

(** ** Days of ordinary years *)

(** Instants whose calendar fields are far from the ends of the time range. *)
Definition ordinary (t : Z) : Prop := 101 ≤ getUTCFullYear t ≤ 200000.

Lemma day_range y1 y2 d : y1 ≤ year_of_day d ≤ y2 →
  day_from_year y1 ≤ d < day_from_year (y2 + 1).
Proof.
  intros Hy. pose proof (year_of_day_spec d) as [Hlo Hhi]. split.
  - destruct (decide (y1 = year_of_day d)) as [->|]; [done|].
    pose proof (day_from_year_mono y1 (year_of_day d)). lia.
  - destruct (decide (year_of_day d = y2)) as [<-|]; [done|].
    pose proof (day_from_year_mono (year_of_day d + 1) (y2 + 1)). lia.
Qed.

Lemma ordinary_days t : ordinary t → -700000 ≤ day_of t ≤ 73000000.
Proof.
  intros Ht. pose proof (day_range 101 200000 (day_of t) Ht) as H.
  vm_compute (day_from_year _) in H. lia.
Qed.

Lemma time_clip_day d : -720000 ≤ d ≤ 80000000 → time_clip (d * ms_per_day) = Some (d * ms_per_day).
Proof.
  intros Hd. unfold time_clip, max_time, ms_per_day. by rewrite (proj2 (Z.leb_le _ _)) by lia.
Qed.

Lemma date_utc_day y m dt : 100 ≤ y → -720000 ≤ make_day y m dt ≤ 80000000 →
  date_utc y m dt = Some (make_day y m dt * ms_per_day).
Proof.
  intros Hy Hd. unfold date_utc. rewrite (proj2 (Z.leb_gt y 99)), andb_false_r by lia.
  by apply time_clip_day.
Qed.

(** The first of the month of a day, of the month before, and of the year. *)
Lemma first_of_month_bounds d : let f := make_day (year_of_day d) (month_of_day d) 1 in
  day_from_year (year_of_day d) ≤ f ≤ d ∧ d < f + 31.
Proof.
  intros f. pose proof (make_day_of d) as H. rewrite make_day_shift in H. fold f in H.
  pose proof (date_of_day_bounds d). pose proof (month_of_day_bounds d) as Hm.
  pose proof (days_in_month_bounds (year_of_day d) (month_of_day d) Hm).
  pose proof (month_start_bounds (is_leap (year_of_day d)) (month_of_day d) Hm).
  assert (day_from_year (year_of_day d) ≤ f); [|lia].
  unfold f, make_day. rewrite Z.div_small, Z.mod_small, Z.add_0_r by lia. lia.
Qed.

Lemma prev_month d : let f := make_day (year_of_day d) (month_of_day d) 1 in
  make_day (year_of_day (f - 1)) (month_of_day (f - 1)) 1 =
    make_day (year_of_day d) (month_of_day d - 1) 1 ∧
  f - 31 ≤ make_day (year_of_day d) (month_of_day d - 1) 1 < f.
Proof.
  intros f. set (y := year_of_day d). set (m := month_of_day d). fold y m in f.
  pose proof (month_of_day_bounds d) as Hm. fold m in Hm.
  pose proof (make_day_next_month y (m - 1)) as Hn.
  replace (m - 1 + 1) with m in Hn by lia. fold f in Hn.
  set (y' := y + (m - 1) / 12) in *. set (m' := (m - 1) mod 12) in *.
  assert (0 ≤ m' < 12) as Hm' by (apply Z.mod_pos_bound; lia).
  pose proof (days_in_month_bounds y' m' Hm') as Hb.
  assert (make_day y (m - 1) 1 = make_day y' m' 1) as He.
  { unfold make_day. rewrite (Z.div_small m'), (Z.mod_small m'), Z.add_0_r by lia. done. }
  assert (f - 1 = make_day y' m' (days_in_month y' m')) as Hf.
  { rewrite make_day_shift, Hn, <-He. lia. }
  destruct (make_day_fields y' m' (days_in_month y' m') Hm' ltac:(lia)) as (Hy1 & Hm1 & _).
  rewrite Hf at 1 2. rewrite Hy1, Hm1. split; [done|lia].
Qed.

Lemma year_start_bounds d : day_from_year (year_of_day d) ≤ d < day_from_year (year_of_day d) + 366.
Proof.
  pose proof (year_of_day_spec d) as H. rewrite day_from_year_succ in H.
  pose proof (days_in_year_bounds (year_of_day d)). lia.
Qed.

Lemma first_of_year y : make_day y 0 1 = day_from_year y.
Proof.
  unfold make_day. change (0 / 12) with 0. change (0 mod 12) with 0. cbv zeta.
  rewrite (Z.add_0_r y). replace (month_start (is_leap y) 0) with 0 by (by destruct (is_leap y)). lia.
Qed.

(** ** [Date.parse]

    The date-time string format of the language.  Strings outside it, and the
    offset of local time, are the engine's: an interface. *)

Class Engine := {
  (** What the engine makes of a string that is not in the language's format. *)
  legacy_date : jsstr → option Z;
  (** UTC time of a local time, in the engine's time zone. *)
  local_to_utc : Z → Z
}.

(** An engine in UTC: and no formats beyond the language's. *)
Definition utc_engine : Engine := {| legacy_date := λ _, None; local_to_utc := λ t, t |}.

(** A [Date] object is a time value, or [None] when invalid. *)
Abbreviation jsdate := (option Z).

Definition take_digits (n : nat) (s : jsstr) : option (Z * jsstr) :=
  if (length (take n s) =? n)%nat
  then v ← digits_value 0 (take n s); Some (v, drop n s) else None.

Definition expect (c : Z) (s : jsstr) : option jsstr :=
  match s with d :: s' => if c =? d then Some s' else None | [] => None end.

(** [YYYY], [YYYY-MM] or [YYYY-MM-DD], and what follows. *)
Definition iso_date (s : jsstr) : option (Z * Z * Z * jsstr) :=
  '(y, s1) ← take_digits 4 s;
  match expect (chr "-") s1 with
  | None => Some (y, 1, 1, s1)
  | Some s2 =>
      '(m, s3) ← take_digits 2 s2;
      match expect (chr "-") s3 with
      | None => Some (y, m, 1, s3)
      | Some s4 => '(d, s5) ← take_digits 2 s4; Some (y, m, d, s5)
      end
  end.

(** The leading digits of a string. *)
Fixpoint digit_run (s : jsstr) : jsstr * jsstr :=
  match s with
  | c :: s' => if is_digit c then let '(d, r) := digit_run s' in (c :: d, r) else ([], s)
  | [] => ([], [])
  end.

(** A fraction of a second: at least one digit, of which three count. *)
Definition iso_fraction (s : jsstr) : option (Z * jsstr) :=
  match expect (chr ".") s with
  | None => Some (0, s)
  | Some s1 =>
      let '(d, r) := digit_run s1 in
      match d with
      | [] => None
      | _ => v ← digits_value 0 (take 3 (d ++ [48; 48])); Some (v, r)
      end
  end.

(** [HH:mm], [HH:mm:ss] or [HH:mm:ss.sss], in milliseconds of the day. *)
Definition iso_time (s : jsstr) : option (Z * jsstr) :=
  '(h, s1) ← take_digits 2 s;
  s2 ← expect (chr ":") s1;
  '(mi, s3) ← take_digits 2 s2;
  '(sec, ms, r) ← match expect (chr ":") s3 with
    | None => Some (0, 0, s3)
    | Some s4 => '(sec, s5) ← take_digits 2 s4; '(ms, s6) ← iso_fraction s5; Some (sec, ms, s6)
    end;
  if (((h <=? 23) || ((h =? 24) && (mi =? 0) && (sec =? 0) && (ms =? 0))) && (mi <=? 59) && (sec <=? 59))%bool
  then Some (((h * 60 + mi) * 60 + sec) * 1000 + ms, r) else None.

(** The zone designator: an offset in minutes, or [None] for local time. *)
Definition iso_zone (s : jsstr) : option (option Z) :=
  match s with
  | [] => Some None
  | c :: s' =>
      if c =? chr "Z" then (if js_eqb s' [] then Some (Some 0) else None)
      else if (c =? chr "+") || (c =? chr "-") then
        '(h, s1) ← take_digits 2 s';
        s2 ← expect (chr ":") s1;
        '(mi, s3) ← take_digits 2 s2;
        if (h <=? 23) && (mi <=? 59) && js_eqb s3 []
        then Some (Some ((if c =? chr "-" then -1 else 1) * (h * 60 + mi))) else None
      else None
  end.

Definition valid_month_day (m d : Z) : bool :=
  (1 <=? m) && (m <=? 12) && (1 <=? d) && (d <=? 31).

(** The time value of a string of the format, when its fields are legal. *)
Definition iso_parse (to_utc : Z → Z) (s : jsstr) : option Z :=
  '(y, m, d, r) ← iso_date s;
  if valid_month_day m d then
    let midnight := make_day y (m - 1) d * ms_per_day in
    match r with
    | [] => Some midnight
    | _ =>
        r1 ← expect (chr "T") r;
        '(ms, r2) ← iso_time r1;
        zone ← iso_zone r2;
        match zone with
        | Some off => Some (midnight + ms - off * 60000)
        | None => Some (to_utc (midnight + ms))
        end
    end
  else None.

Definition date_parse `{Engine} (s : jsstr) : option Z :=
  match iso_parse local_to_utc s with
  | Some t => time_clip t
  | None => legacy_date s
  end.

(** ** Lemmas: reading back printed fields *)

Lemma take_digits_pad n v r : (0 < n)%nat → 0 ≤ v < 10 ^ Z.of_nat n →
  take_digits n (pad_num n v ++ r) = Some (v, r).
Proof.
  intros Hn Hv. unfold take_digits. pose proof (pad_num_length n v Hn Hv) as Hl.
  rewrite take_app_le, firstn_all2, Hl, Nat.eqb_refl by lia.
  rewrite pad_num_value by lia. simpl. by rewrite drop_app_length' by done.
Qed.

Lemma expect_cons c s : expect c (c :: s) = Some s.
Proof. simpl. by rewrite Z.eqb_refl. Qed.

Lemma iso_date_full y m d r : 0 ≤ y < 10000 → 0 ≤ m < 100 → 0 ≤ d < 100 →
  iso_date (pad_num 4 y ++ chr "-" :: pad_num 2 m ++ chr "-" :: pad_num 2 d ++ r) =
  Some (y, m, d, r).
Proof.
  intros. unfold iso_date. rewrite take_digits_pad by lia. simpl.
  rewrite take_digits_pad by lia. simpl. by rewrite take_digits_pad by lia.
Qed.

(** A fraction of a second as printed: its digits, and the milliseconds it reads as. *)
Definition frac_text (ds : jsstr) : jsstr := match ds with [] => [] | _ => chr "." :: ds end.
Definition frac_ms (ds : jsstr) : Z := default 0 (digits_value 0 (take 3 (ds ++ [48; 48]))).

Lemma digit_run_app ds r : Forall (λ c, is_digit c = true) ds → digit_run r = ([], r) →
  digit_run (ds ++ r) = (ds, r).
Proof. induction 1 as [|d ds Hd Hds IH]; intros Hr; simpl; [done|]. by rewrite Hd, IH. Qed.

Lemma digits_value_some acc ds : Forall (λ c, is_digit c = true) ds → ∃ v, digits_value acc ds = Some v.
Proof. intros H. revert acc. induction H as [|d ds Hd Hds IH]; intros acc; simpl; [eauto|]. by rewrite Hd. Qed.

Lemma frac_ms_bounds ds : Forall (λ c, is_digit c = true) ds → 0 ≤ frac_ms ds < 1000.
Proof.
  intros Hds. unfold frac_ms.
  assert (Forall (λ c, is_digit c = true) (take 3 (ds ++ [48; 48]))) as Hd.
  { apply Forall_take, Forall_app. split; [done|by repeat constructor]. }
  destruct (digits_value_some 0 _ Hd) as [v Hv]. rewrite Hv. simpl. split.
  - by apply digits_value_nonneg in Hv.
  - apply digits_value_bound in Hv. eapply Z.lt_le_trans; [exact Hv|].
    change 1000 with (10 ^ 3). apply Z.pow_le_mono_r; [lia|]. rewrite length_take. lia.
Qed.

Lemma iso_time_full h mi s ds r : 0 ≤ h ≤ 23 → 0 ≤ mi ≤ 59 → 0 ≤ s ≤ 59 →
  Forall (λ c, is_digit c = true) ds → expect (chr ".") r = None → digit_run r = ([], r) →
  iso_time (pad_num 2 h ++ chr ":" :: pad_num 2 mi ++ chr ":" :: pad_num 2 s ++ frac_text ds ++ r) =
  Some (((h * 60 + mi) * 60 + s) * 1000 + frac_ms ds, r).
Proof.
  intros Hh Hmi Hs Hds Hr Hd. unfold iso_time. rewrite take_digits_pad by lia. simpl.
  rewrite take_digits_pad by lia. simpl.
  rewrite take_digits_pad by lia. simpl.
  assert (iso_fraction (frac_text ds ++ r) = Some (frac_ms ds, r)) as ->.
  { unfold iso_fraction, frac_text. destruct ds as [|d ds]; [by simpl; rewrite Hr|].
    rewrite <-app_comm_cons, expect_cons, digit_run_app by done.
    unfold frac_ms. destruct (digits_value_some 0 (take 3 ((d :: ds) ++ [48; 48]))) as [v Hv].
    { apply Forall_take, Forall_app. split; [done|by repeat constructor]. }
    cbn [app] in *. by rewrite Hv. }
  simpl. rewrite !(proj2 (Z.leb_le _ _)) by lia. done.
Qed.
