(* ===== verification/View.v ===== *)
(** * Rendered trees

    What a component returns: elements with their attributes, event handlers and
    children.  An attribute keeps its value when it depends on state or carries
    meaning (text, disabled, href, aria and data attributes); fixed styling
    classes are left out.  A handler is the event of the component's model it
    raises.  [null], [false] and fragments are lists of nodes. *)

From Stdlib Require Import String.
From S2P Require Import Prelude JsNumber JsString.

Inductive aval := AStr (s : jsstr) | ABool (b : bool) | ANum (x : number) | AInt (z : Z).

#[warnings="-register-all"]
Inductive node (E : Type) :=
| Text (s : jsstr)
| El (tag : string) (attrs : list (string * aval)) (on : list (string * E)) (children : list (node E)).
Arguments Text {_} _.
Arguments El {_} _ _ _ _.

(** [cond && node] and [cond ? node : null]. *)
Definition when {E} (c : bool) (l : list (node E)) : list (node E) := if c then l else [].

(** A node for a value that is present. *)
Definition for_some {A E} (o : option A) (f : A → list (node E)) : list (node E) :=
  match o with Some a => f a | None => [] end.

(** An attribute left [undefined] is absent. *)
Definition attr_some (n : string) (o : option aval) : list (string * aval) :=
  match o with Some v => [(n, v)] | None => [] end.

(** The text content of a tree. *)
Fixpoint text_content {E} (n : node E) : jsstr :=
  match n with Text s => s | El _ _ _ l => flat_map text_content l end.

(** Every element of a tree, with its attributes, in document order. *)
Fixpoint elements {E} (n : node E) : list (string * list (string * aval) * list (string * E)) :=
  match n with Text _ => [] | El t a on l => (t, a, on) :: flat_map elements l end.

Definition all_elements {E} (l : list (node E)) := flat_map elements l.

Definition attribute (n : string) (a : list (string * aval)) : option aval :=
  snd <$> List.find (λ p, String.eqb p.1 n) a.

(** The events a user can raise: handlers of elements that are not disabled. *)
Definition enabled_events {E} (l : list (node E)) : list E :=
  flat_map (λ '(_, a, on),
    match attribute "disabled" a with Some (ABool true) => [] | _ => map snd on end)
    (all_elements l).

(** A component's tree inside its container: the container receives each event
    wrapped. *)
Fixpoint map_node {A B} (f : A → B) (n : node A) : node B :=
  match n with
  | Text s => Text s
  | El t a on l => El t a (map (λ p, (p.1, f p.2)) on) (map (map_node f) l)
  end.

(** The targets of links. *)
Definition hrefs {E} (l : list (node E)) : list jsstr :=
  flat_map (λ '(_, a, _), match attribute "href" a with Some (AStr s) => [s] | _ => [] end)
    (all_elements l).

(** [cn(...)]: class names that are present and not empty, separated by spaces. *)
Definition cls (l : list (option jsstr)) : aval := AStr (js_join (js " ") (List.filter str_truthy (omap id l))).

Lemma all_elements_app {E} (l1 l2 : list (node E)) :
  all_elements (l1 ++ l2) = all_elements l1 ++ all_elements l2.
Proof. apply flat_map_app. Qed.

Lemma enabled_events_app {E} (l1 l2 : list (node E)) :
  enabled_events (l1 ++ l2) = enabled_events l1 ++ enabled_events l2.
Proof. unfold enabled_events. by rewrite all_elements_app, flat_map_app. Qed.

Lemma hrefs_app {E} (l1 l2 : list (node E)) : hrefs (l1 ++ l2) = hrefs l1 ++ hrefs l2.
Proof. unfold hrefs. by rewrite all_elements_app, flat_map_app. Qed.

#[export] Hint Rewrite @all_elements_app @enabled_events_app @hrefs_app : js.

Lemma enabled_events_cons {E} (n : node E) l : enabled_events (n :: l) = enabled_events [n] ++ enabled_events l.
Proof. change (n :: l) with ([n] ++ l). apply enabled_events_app. Qed.

Lemma enabled_events_Text {E} s : enabled_events [Text (E := E) s] = [].
Proof. done. Qed.

Lemma enabled_events_El {E} t a (on : list (string * E)) l :
  enabled_events [El t a on l] =
  match attribute "disabled" a with Some (ABool true) => [] | _ => map snd on end ++ enabled_events l.
Proof. unfold enabled_events, all_elements. cbn [flat_map elements]. by rewrite app_nil_r. Qed.

(** An element without handlers offers what is inside it. *)
Lemma enabled_events_plain {E} t a (l : list (node E)) : enabled_events [El t a [] l] = enabled_events l.
Proof. rewrite enabled_events_El. by destruct (attribute "disabled" a) as [[|[]| |]|]. Qed.

(** What a component offers inside its container. *)
Lemma enabled_events_map_node {A B} (f : A → B) (n : node A) :
  enabled_events [map_node f n] = map f (enabled_events [n]).
Proof.
  revert n. fix IH 1. intros [s|t a on l]; [done|]. cbn [map_node]. rewrite !enabled_events_El, map_app. f_equal.
  - destruct (attribute "disabled" a) as [[|[]| |]|]; simpl; rewrite ?map_map; done.
  - induction l as [|m l IHl]; [done|]. cbn [map].
    rewrite (enabled_events_cons (map_node f m)), (enabled_events_cons m), map_app, IH. by f_equal.
Qed.

Lemma elem_of_enabled_map {A E} (f : A → node E) (l : list A) e :
  e ∈ enabled_events (map f l) ↔ ∃ x, x ∈ l ∧ e ∈ enabled_events [f x].
Proof.
  induction l as [|x l IH]; cbn [map].
  - split; [by intros ?%elem_of_nil|by intros (? & ?%elem_of_nil & _)].
  - rewrite enabled_events_cons, elem_of_app, IH. setoid_rewrite elem_of_cons. naive_solver.
Qed.

Lemma elem_of_enabled_imap {A E} (f : nat → A → node E) (l : list A) e :
  e ∈ enabled_events (imap f l) → ∃ i x, x ∈ l ∧ e ∈ enabled_events [f i x].
Proof.
  revert f. induction l as [|x l IH]; intros f; cbn [imap]; [by intros ?%elem_of_nil|].
  rewrite enabled_events_cons, elem_of_app. intros [He|(i & y & Hy & He)%IH].
  - exists 0%nat, x. split; [left|done].
  - exists (S i), y. split; [by right|done].
Qed.

Lemma elem_of_enabled {E} (l : list (node E)) e : e ∈ enabled_events l ↔ Exists (λ n, e ∈ enabled_events [n]) l.
Proof.
  induction l as [|n l IH]; [split; [by intros ?%elem_of_nil|by intros ?%Exists_nil]|].
  by rewrite enabled_events_cons, elem_of_app, Exists_cons, IH.
Qed.

(** A list of nodes that offers nothing. *)
Lemma enabled_events_silent {E} (l : list (node E)) : Forall (λ n, enabled_events [n] = []) l → enabled_events l = [].
Proof. induction 1 as [|n l Hn _ IH]; [done|]. by rewrite enabled_events_cons, Hn. Qed.

(** Compute what concrete elements offer. *)
Ltac simpl_events :=
  repeat first [rewrite enabled_events_plain | rewrite enabled_events_El | rewrite enabled_events_Text | rewrite enabled_events_app];
  cbn [attribute List.find fmap option_fmap option_map map app String.eqb Ascii.eqb Bool.eqb fst snd].
Tactic Notation "simpl_events" "in" hyp(H) :=
  repeat first [rewrite enabled_events_plain in H | rewrite enabled_events_El in H | rewrite enabled_events_Text in H | rewrite enabled_events_app in H];
  cbn [attribute List.find fmap option_fmap option_map map app String.eqb Ascii.eqb Bool.eqb fst snd] in H.

(** The same, down lists of elements. *)
Ltac split_events :=
  repeat first [rewrite enabled_events_plain | rewrite enabled_events_El | rewrite enabled_events_Text | rewrite enabled_events_app
    | match goal with |- context [enabled_events (?n :: ?m :: ?l)] => rewrite (enabled_events_cons n (m :: l)) end];
  cbn [attribute List.find fmap option_fmap option_map map app String.eqb Ascii.eqb Bool.eqb fst snd].
