(* ===== verification/Ui.v ===== *)
(** * Styling primitives (src/ui/src/components/ui: button, badge, input, card, tabs, tooltip, dropdown-menu, dialog, alert-dialog; lib/ui.ts, lib/utils.ts)

    The wrappers the pages are written with: each takes props and children and renders
    an element, or a primitive of the component library, with its own attributes and
    classes, the caller's props spread over them.  The trees of the other files keep
    the wrappers; here they are rendered down, and nothing a user can do or read is
    lost on the way. *)

From Stdlib Require Import String.
From S2P Require Import Prelude JsNumber JsString View.

Module Ui.

Abbreviation props := (list (string * aval)).

(** A component: props, handlers, children. *)
Abbreviation component E := (props → list (string * E) → list (node E) → node E).

(** ** Props *)

(** The props a component takes out of [...props]. *)
Definition without (own : list string) (a : props) : props := filter (λ p, p.1 ∉ own) a.

(** [<X {...fixed} {...rest} />]: what comes last wins. *)
Definition spread (fixed rest : props) : props := rest ++ filter (λ p, p.1 ∉ map fst rest) fixed.

Definition str_prop (k : string) (a : props) : option jsstr :=
  match attribute k a with Some (AStr s) => Some s | _ => None end.

Definition flag_prop (k : string) (a : props) : bool :=
  match attribute k a with Some (ABool b) => b | _ => false end.

(** ** lib/ui.ts *)

Definition PILL_BASE : jsstr :=
  js "inline-flex cursor-pointer items-center justify-center rounded-lg border bg-transparent transition-colors".

Definition PILL_IDLE : jsstr :=
  js "border-border bg-surface text-text-secondary hover:border-text-tertiary hover:text-text-primary".

Definition PILL_ACTIVE : jsstr :=
  js "border-primary bg-primary/10 text-primary".

Definition TAB_PILL : jsstr :=
  js "flex-none cursor-pointer rounded-lg border border-border bg-transparent px-3 py-1 font-sans text-sm font-medium text-text-secondary shadow-none transition-colors hover:border-text-tertiary hover:text-text-primary data-[state=active]:border-primary data-[state=active]:bg-primary/10 data-[state=active]:text-primary data-[state=active]:shadow-none dark:data-[state=active]:border-primary dark:data-[state=active]:bg-primary/10 dark:data-[state=active]:text-primary".

Definition TAB_PILL_LIST : jsstr :=
  js "h-auto gap-2 bg-transparent p-0".

(** ** Variants (class-variance-authority) *)

(** The argument of [cva]: base classes, classes of each value of each variant,
    default values. *)
Record cva_config := {
  cva_base : jsstr;
  cva_variants : list (string * list (string * jsstr));
  cva_defaults : list (string * string)
}.

Definition buttonVariants_config : cva_config := {|
  cva_base := js "inline-flex cursor-pointer items-center justify-center gap-2 whitespace-nowrap rounded-md text-sm font-medium transition-all disabled:pointer-events-none disabled:opacity-50 [&_svg]:pointer-events-none [&_svg:not([class*='size-'])]:size-4 shrink-0 [&_svg]:shrink-0 outline-none focus-visible:border-ring focus-visible:ring-ring/50 focus-visible:ring-[3px] aria-invalid:ring-destructive/20 dark:aria-invalid:ring-destructive/40 aria-invalid:border-destructive";
  cva_variants :=
    [("variant",
       [("default", js "bg-primary text-primary-foreground hover:bg-primary/90");
        ("destructive", js "bg-destructive text-white hover:bg-destructive/90 focus-visible:ring-destructive/20 dark:focus-visible:ring-destructive/40 dark:bg-destructive/60");
        ("outline", js "border bg-background shadow-xs hover:bg-accent hover:text-accent-foreground dark:bg-input/30 dark:border-input dark:hover:bg-input/50");
        ("secondary", js "bg-secondary text-secondary-foreground hover:bg-secondary/80");
        ("ghost", js "hover:bg-accent hover:text-accent-foreground dark:hover:bg-accent/50");
        ("link", js "text-primary underline-offset-4 hover:underline")]);
     ("size",
       [("default", js "h-9 px-4 py-2 has-[>svg]:px-3");
        ("xs", js "h-6 gap-1 rounded-md px-2 text-xs has-[>svg]:px-1.5 [&_svg:not([class*='size-'])]:size-3");
        ("sm", js "h-8 rounded-md gap-1.5 px-3 has-[>svg]:px-2.5");
        ("lg", js "h-10 rounded-md px-6 has-[>svg]:px-4");
        ("icon", js "size-9");
        ("icon-xs", js "size-6 rounded-md [&_svg:not([class*='size-'])]:size-3");
        ("icon-sm", js "size-8");
        ("icon-lg", js "size-10")])];
  cva_defaults := [("variant", "default"); ("size", "default")]
|}.

Definition badgeVariants_config : cva_config := {|
  cva_base := js "inline-flex items-center justify-center rounded-full border border-transparent px-2 py-0.5 text-xs font-medium w-fit whitespace-nowrap shrink-0 [&>svg]:size-3 gap-1 [&>svg]:pointer-events-none focus-visible:border-ring focus-visible:ring-ring/50 focus-visible:ring-[3px] aria-invalid:ring-destructive/20 dark:aria-invalid:ring-destructive/40 aria-invalid:border-destructive transition-[color,box-shadow] overflow-hidden";
  cva_variants :=
    [("variant",
       [("default", js "bg-primary text-primary-foreground [a&]:hover:bg-primary/90");
        ("secondary", js "bg-secondary text-secondary-foreground [a&]:hover:bg-secondary/90");
        ("destructive", js "bg-destructive text-white [a&]:hover:bg-destructive/90 focus-visible:ring-destructive/20 dark:focus-visible:ring-destructive/40 dark:bg-destructive/60");
        ("outline", js "border-border text-foreground [a&]:hover:bg-accent [a&]:hover:text-accent-foreground");
        ("ghost", js "[a&]:hover:bg-accent [a&]:hover:text-accent-foreground");
        ("link", js "text-primary underline-offset-4 [a&]:hover:underline")])];
  cva_defaults := [("variant", "default")]
|}.

Definition tabsListVariants_config : cva_config := {|
  cva_base := js "rounded-lg p-[3px] group-data-[orientation=horizontal]/tabs:h-9 data-[variant=line]:rounded-none group/tabs-list text-muted-foreground inline-flex w-fit items-center justify-center group-data-[orientation=vertical]/tabs:h-fit group-data-[orientation=vertical]/tabs:flex-col";
  cva_variants :=
    [("variant",
       [("default", js "bg-muted");
        ("line", js "gap-1 bg-transparent")])];
  cva_defaults := [("variant", "default")]
|}.

(** ** The components *)

(** What the code calls: [clsx] joins class names, [twMerge] drops classes that a later
    one overrides, [cva(config)(props)] chooses the classes of a variant. *)
Section components.
Context (clsx : list (option jsstr) → jsstr) (twMerge : jsstr → jsstr) (cva : cva_config → list (string * jsstr) → jsstr).

Definition cn (inputs : list (option jsstr)) : aval := AStr (twMerge (clsx inputs)).

Context {E : Type}.

(** The common shape: a fixed element, fixed attributes, and the caller's classes
    merged after the component's. *)
Definition primitive (tag : string) (fixed : props) (classes : list jsstr) : component E := λ a on l,
  El tag (spread (fixed ++ [("className", cn (map Some classes ++ [str_prop "className" a]))]) (without ["className"] a)) on l.

(** *** button.tsx *)

Definition variant_of (k d : string) (a : props) : jsstr := default (js d) (str_prop k a).

Definition buttonVariants (p : list (string * jsstr)) : jsstr := cva buttonVariants_config p.

Definition Button : component E := λ a on l,
  let variant := variant_of "variant" "default" a in
  let size := variant_of "size" "default" a in
  let Comp := if flag_prop "asChild" a then "Slot.Root" else "button" in
  El Comp
    (spread [("data-slot", AStr (js "button")); ("data-variant", AStr variant); ("data-size", AStr size);
             ("className", cn [Some (buttonVariants ([("variant", variant); ("size", size)] ++
                match str_prop "className" a with Some c => [("className", c)] | None => [] end))])]
       (without ["className"; "variant"; "size"; "asChild"] a)) on l.

(** *** badge.tsx *)

Definition badgeVariants (p : list (string * jsstr)) : jsstr := cva badgeVariants_config p.

Definition Badge : component E := λ a on l,
  let variant := variant_of "variant" "default" a in
  let Comp := if flag_prop "asChild" a then "Slot.Root" else "span" in
  El Comp
    (spread [("data-slot", AStr (js "badge")); ("data-variant", AStr variant);
             ("className", cn [Some (badgeVariants [("variant", variant)]); str_prop "className" a])]
       (without ["className"; "variant"; "asChild"] a)) on l.

(** *** input.tsx *)

Definition Input : component E :=
  primitive "input" [("data-slot", AStr (js "input"))]
    [js "file:text-foreground placeholder:text-muted-foreground selection:bg-primary selection:text-primary-foreground dark:bg-input/30 border-input h-9 w-full min-w-0 rounded-md border bg-transparent px-3 py-1 text-base shadow-xs transition-[color,box-shadow] outline-none file:inline-flex file:h-7 file:border-0 file:bg-transparent file:text-sm file:font-medium disabled:pointer-events-none disabled:cursor-not-allowed disabled:opacity-50 md:text-sm";
     js "focus-visible:border-ring focus-visible:ring-ring/50 focus-visible:ring-[3px]";
     js "aria-invalid:ring-destructive/20 dark:aria-invalid:ring-destructive/40 aria-invalid:border-destructive"].

(** *** card.tsx *)

Definition Card : component E :=
  primitive "div" [("data-slot", AStr (js "card"))]
    [js "bg-card text-card-foreground flex flex-col gap-6 rounded-xl border py-6 shadow-sm"].

Definition CardHeader : component E :=
  primitive "div" [("data-slot", AStr (js "card-header"))]
    [js "@container/card-header grid auto-rows-min grid-rows-[auto_auto] items-start gap-2 px-6 has-data-[slot=card-action]:grid-cols-[1fr_auto] [.border-b]:pb-6"].

Definition CardTitle : component E :=
  primitive "div" [("data-slot", AStr (js "card-title"))]
    [js "leading-none font-semibold"].

Definition CardDescription : component E :=
  primitive "div" [("data-slot", AStr (js "card-description"))]
    [js "text-muted-foreground text-sm"].

Definition CardAction : component E :=
  primitive "div" [("data-slot", AStr (js "card-action"))]
    [js "col-start-2 row-span-2 row-start-1 self-start justify-self-end"].

Definition CardContent : component E :=
  primitive "div" [("data-slot", AStr (js "card-content"))]
    [js "px-6"].

Definition CardFooter : component E :=
  primitive "div" [("data-slot", AStr (js "card-footer"))]
    [js "flex items-center px-6 [.border-t]:pt-6"].

(** *** tabs.tsx *)

Definition Tabs : component E := λ a on l,
  let orientation := variant_of "orientation" "horizontal" a in
  El "TabsPrimitive.Root"
    (spread [("data-slot", AStr (js "tabs")); ("data-orientation", AStr orientation); ("orientation", AStr orientation);
             ("className", cn [Some (js "group/tabs flex gap-2 data-[orientation=horizontal]:flex-col"); str_prop "className" a])]
       (without ["className"; "orientation"] a)) on l.

Definition tabsListVariants (p : list (string * jsstr)) : jsstr := cva tabsListVariants_config p.

Definition TabsList : component E := λ a on l,
  let variant := variant_of "variant" "default" a in
  El "TabsPrimitive.List"
    (spread [("data-slot", AStr (js "tabs-list")); ("data-variant", AStr variant);
             ("className", cn [Some (tabsListVariants [("variant", variant)]); str_prop "className" a])]
       (without ["className"; "variant"] a)) on l.

Definition TabsTrigger : component E :=
  primitive "TabsPrimitive.Trigger" [("data-slot", AStr (js "tabs-trigger"))]
    [js "focus-visible:border-ring focus-visible:ring-ring/50 focus-visible:outline-ring text-foreground/60 hover:text-foreground dark:text-muted-foreground dark:hover:text-foreground relative inline-flex h-[calc(100%-1px)] flex-1 cursor-pointer items-center justify-center gap-1.5 rounded-md border border-transparent px-2 py-1 text-sm font-medium whitespace-nowrap transition-all group-data-[orientation=vertical]/tabs:w-full group-data-[orientation=vertical]/tabs:justify-start focus-visible:ring-[3px] focus-visible:outline-1 disabled:pointer-events-none disabled:cursor-not-allowed disabled:opacity-50 group-data-[variant=default]/tabs-list:data-[state=active]:shadow-sm group-data-[variant=line]/tabs-list:data-[state=active]:shadow-none [&_svg]:pointer-events-none [&_svg]:shrink-0 [&_svg:not([class*='size-'])]:size-4";
     js "group-data-[variant=line]/tabs-list:bg-transparent group-data-[variant=line]/tabs-list:data-[state=active]:bg-transparent dark:group-data-[variant=line]/tabs-list:data-[state=active]:border-transparent dark:group-data-[variant=line]/tabs-list:data-[state=active]:bg-transparent";
     js "group-data-[variant=line]/tabs-list:data-[state=active]:text-primary dark:group-data-[variant=line]/tabs-list:data-[state=active]:text-primary";
     js "data-[state=active]:bg-background dark:data-[state=active]:text-foreground dark:data-[state=active]:border-input dark:data-[state=active]:bg-input/30 data-[state=active]:text-foreground";
     js "after:bg-primary after:absolute after:opacity-0 after:transition-opacity group-data-[orientation=horizontal]/tabs:after:inset-x-0 group-data-[orientation=horizontal]/tabs:after:bottom-[-5px] group-data-[orientation=horizontal]/tabs:after:h-0.5 group-data-[orientation=vertical]/tabs:after:inset-y-0 group-data-[orientation=vertical]/tabs:after:-right-1 group-data-[orientation=vertical]/tabs:after:w-0.5 group-data-[variant=line]/tabs-list:data-[state=active]:after:opacity-100"].

Definition TabsContent : component E :=
  primitive "TabsPrimitive.Content" [("data-slot", AStr (js "tabs-content"))]
    [js "flex-1 outline-none"].

(** *** tooltip.tsx *)

Definition TooltipProvider : component E := λ a on l,
  El "TooltipPrimitive.Provider" (spread [("data-slot", AStr (js "tooltip-provider")); ("delayDuration", AInt 0)] (without [] a)) on l.

Definition Tooltip : component E := λ a on l,
  El "TooltipPrimitive.Root" (spread [("data-slot", AStr (js "tooltip"))] (without [] a)) on l.

Definition TooltipTrigger : component E := λ a on l,
  El "TooltipPrimitive.Trigger" (spread [("data-slot", AStr (js "tooltip-trigger"))] (without [] a)) on l.

Definition TooltipContent : component E := λ a on l,
  El "TooltipPrimitive.Portal" [] []
    [primitive "TooltipPrimitive.Content" [("data-slot", AStr (js "tooltip-content")); ("sideOffset", AInt 0)]
       [js "bg-foreground text-background animate-in fade-in-0 zoom-in-95 data-[state=closed]:animate-out data-[state=closed]:fade-out-0 data-[state=closed]:zoom-out-95 data-[side=bottom]:slide-in-from-top-2 data-[side=left]:slide-in-from-right-2 data-[side=right]:slide-in-from-left-2 data-[side=top]:slide-in-from-bottom-2 z-50 w-fit origin-(--radix-tooltip-content-transform-origin) rounded-md px-3 py-1.5 text-xs text-balance"] a on
       (l ++ [El "TooltipPrimitive.Arrow"
                [("className", AStr (js "bg-foreground fill-foreground z-50 size-2.5 translate-y-[calc(-50%_-_2px)] rotate-45 rounded-[2px]"))] [] []])].

(** *** dropdown-menu.tsx *)

Definition DropdownMenuContent : component E := λ a on l,
  El "DropdownMenuPrimitive.Portal" [] []
    [primitive "DropdownMenuPrimitive.Content" [("sideOffset", AInt 4); ("align", AStr (js "end"))]
       [js "z-50 min-w-[10rem] overflow-hidden rounded-md border border-border bg-popover p-1 text-popover-foreground shadow-md";
        js "data-[state=open]:animate-in data-[state=closed]:animate-out data-[state=closed]:fade-out-0 data-[state=open]:fade-in-0 data-[state=closed]:zoom-out-95 data-[state=open]:zoom-in-95"] a on l].

Definition DropdownMenuItem : component E :=
  primitive "DropdownMenuPrimitive.Item" []
    [js "relative flex cursor-pointer items-center gap-2 rounded-sm px-2 py-1.5 text-sm outline-none transition-colors select-none";
     js "focus:bg-accent focus:text-accent-foreground";
     js "data-[disabled]:pointer-events-none data-[disabled]:opacity-50";
     js "[&_svg]:size-4 [&_svg]:shrink-0"].

Definition DropdownMenuSeparator : component E :=
  primitive "DropdownMenuPrimitive.Separator" []
    [js "-mx-1 my-1 h-px bg-border"].

(** *** dialog.tsx *)

Definition DialogOverlay : component E :=
  primitive "DialogPrimitive.Overlay" []
    [js "fixed inset-0 z-50 bg-black/80 data-[state=open]:animate-in data-[state=closed]:animate-out data-[state=closed]:fade-out-0 data-[state=open]:fade-in-0"].

Definition DialogContent : component E := λ a on l,
  El "DialogPortal" [] []
    [DialogOverlay [] [] [];
     primitive "DialogPrimitive.Content" []
       [js "fixed left-[50%] top-[50%] z-50 grid w-full max-w-3xl translate-x-[-50%] translate-y-[-50%] gap-4 border border-border bg-surface-elevated p-6 shadow-lg duration-200 data-[state=open]:animate-in data-[state=closed]:animate-out data-[state=closed]:fade-out-0 data-[state=open]:fade-in-0 data-[state=closed]:zoom-out-95 data-[state=open]:zoom-in-95 data-[state=closed]:slide-out-to-left-1/2 data-[state=closed]:slide-out-to-top-[48%] data-[state=open]:slide-in-from-left-1/2 data-[state=open]:slide-in-from-top-[48%] sm:rounded-lg"] a on l].

Definition DialogHeader : component E :=
  primitive "div" []
    [js "flex flex-col space-y-1.5 text-center sm:text-left"].

Definition DialogTitle : component E :=
  primitive "DialogPrimitive.Title" []
    [js "text-lg font-semibold leading-none tracking-tight text-text-primary"].

Definition DialogDescription : component E :=
  primitive "DialogPrimitive.Description" []
    [js "text-sm text-text-secondary"].

(** *** alert-dialog.tsx *)

Definition AlertDialogOverlay : component E :=
  primitive "AlertDialogPrimitive.Overlay" []
    [js "fixed inset-0 z-50 bg-black/80 data-[state=open]:animate-in data-[state=closed]:animate-out data-[state=closed]:fade-out-0 data-[state=open]:fade-in-0"].

Definition AlertDialogContent : component E := λ a on l,
  El "AlertDialogPortal" [] []
    [AlertDialogOverlay [] [] [];
     primitive "AlertDialogPrimitive.Content" []
       [js "fixed left-[50%] top-[50%] z-50 grid w-full max-w-lg translate-x-[-50%] translate-y-[-50%] gap-4 border border-border bg-surface-elevated p-6 shadow-lg duration-200 data-[state=open]:animate-in data-[state=closed]:animate-out data-[state=closed]:fade-out-0 data-[state=open]:fade-in-0 data-[state=closed]:zoom-out-95 data-[state=open]:zoom-in-95 data-[state=closed]:slide-out-to-left-1/2 data-[state=closed]:slide-out-to-top-[48%] data-[state=open]:slide-in-from-left-1/2 data-[state=open]:slide-in-from-top-[48%] sm:rounded-lg"] a on l].

Definition AlertDialogHeader : component E :=
  primitive "div" []
    [js "flex flex-col space-y-2 text-center sm:text-left"].

Definition AlertDialogFooter : component E :=
  primitive "div" []
    [js "flex flex-col-reverse sm:flex-row sm:justify-end sm:space-x-2"].

Definition AlertDialogTitle : component E :=
  primitive "AlertDialogPrimitive.Title" []
    [js "text-lg font-semibold text-text-primary"].

Definition AlertDialogDescription : component E :=
  primitive "AlertDialogPrimitive.Description" []
    [js "text-sm text-text-secondary"].

Definition AlertDialogAction : component E := λ a on l,
  El "AlertDialogPrimitive.Action"
    (spread [("className", cn [Some (buttonVariants [("variant", js "destructive")]); str_prop "className" a])]
       (without ["className"] a)) on l.

Definition AlertDialogCancel : component E := λ a on l,
  El "AlertDialogPrimitive.Cancel"
    (spread [("className", cn [Some (buttonVariants [("variant", js "outline")]); Some (js "mt-2 sm:mt-0"); str_prop "className" a])]
       (without ["className"] a)) on l.

(** ** Rendering a page's tree down *)

(** The components by the name the trees give them; the others (roots, triggers and
    portals of the dialogs and menus) are the library's own. *)
Definition ui_table : list (string * component E) :=
  [("Button", Button); ("Badge", Badge); ("Input", Input);
   ("Card", Card); ("CardHeader", CardHeader); ("CardTitle", CardTitle);
   ("CardDescription", CardDescription); ("CardAction", CardAction); ("CardContent", CardContent);
   ("CardFooter", CardFooter); ("Tabs", Tabs); ("TabsList", TabsList);
   ("TabsTrigger", TabsTrigger); ("TabsContent", TabsContent); ("TooltipProvider", TooltipProvider);
   ("Tooltip", Tooltip); ("TooltipTrigger", TooltipTrigger); ("TooltipContent", TooltipContent);
   ("DropdownMenuContent", DropdownMenuContent); ("DropdownMenuItem", DropdownMenuItem); ("DropdownMenuSeparator", DropdownMenuSeparator);
   ("DialogOverlay", DialogOverlay); ("DialogContent", DialogContent); ("DialogHeader", DialogHeader);
   ("DialogTitle", DialogTitle); ("DialogDescription", DialogDescription); ("AlertDialogOverlay", AlertDialogOverlay);
   ("AlertDialogContent", AlertDialogContent); ("AlertDialogHeader", AlertDialogHeader); ("AlertDialogFooter", AlertDialogFooter);
   ("AlertDialogTitle", AlertDialogTitle); ("AlertDialogDescription", AlertDialogDescription); ("AlertDialogAction", AlertDialogAction);
   ("AlertDialogCancel", AlertDialogCancel)].

Definition ui (tag : string) : option (component E) := snd <$> List.find (λ p, String.eqb p.1 tag) ui_table.

Fixpoint lower (n : node E) : node E :=
  match n with
  | Text s => Text s
  | El t a on l =>
      match ui t with
      | Some c => c a on (map lower l)
      | None => El t a on (map lower l)
      end
  end.

(** ** What a wrapper keeps *)

(** The props the components consume. *)
Definition OWN : list string := ["className"; "variant"; "size"; "asChild"; "orientation"].

Definition handlers (a : props) (on : list (string * E)) : list E :=
  match attribute "disabled" a with Some (ABool true) => [] | _ => map snd on end.

Definition link_of (a : props) : list jsstr :=
  match attribute "href" a with Some (AStr s) => [s] | _ => [] end.

Class Transparent (c : component E) : Prop := {
  tr_events a on l : enabled_events [c a on l] = handlers a on ++ enabled_events l;
  tr_text a on l : text_content (c a on l) = flat_map text_content l;
  tr_links a on l : hrefs [c a on l] = link_of a ++ hrefs l;
  tr_props k v a on l : k ∉ OWN → attribute k a = Some v →
    ∃ t b, (t, b, on) ∈ elements (c a on l) ∧ attribute k b = Some v
}.

Lemma attribute_nil k : attribute k [] = None.
Proof. done. Qed.

Lemma attribute_cons k p (a : props) : attribute k (p :: a) = if String.eqb p.1 k then Some p.2 else attribute k a.
Proof. unfold attribute. cbn [List.find]. by destruct (String.eqb p.1 k). Qed.

Lemma attribute_app k (a b : props) : attribute k (a ++ b) = match attribute k a with Some v => Some v | None => attribute k b end.
Proof. induction a as [|p a IH]; [done|]. cbn [app]. rewrite !attribute_cons. by destruct (String.eqb p.1 k). Qed.

Lemma attribute_none k (a : props) : attribute k a = None → k ∉ map fst a.
Proof.
  induction a as [|p a IH]; [intros _; apply not_elem_of_nil|]. rewrite attribute_cons. cbn [map].
  destruct (String.eqb_spec p.1 k) as [|Hne]; [done|]. intros Ha. apply not_elem_of_cons. split; [congruence|auto].
Qed.

Lemma attribute_filter k (P : string * aval → Prop) `{∀ p, Decision (P p)} (a : props) : (∀ v, P (k, v)) →
  attribute k (filter P a) = attribute k a.
Proof.
  intros HP. induction a as [|[k' v] a IH]; [done|]. rewrite filter_cons, (attribute_cons k (k', v)). cbn [fst snd].
  destruct (String.eqb_spec k' k) as [->|Hne].
  - rewrite decide_True by apply HP. rewrite attribute_cons. cbn [fst]. by rewrite String.eqb_refl.
  - destruct (decide _); [|done]. rewrite attribute_cons. cbn [fst]. by rewrite (proj2 (String.eqb_neq k' k) Hne).
Qed.

Lemma attribute_without k own a : k ∉ own → attribute k (without own a) = attribute k a.
Proof. intros Hk. by apply attribute_filter. Qed.

(** The caller's props win. *)
Lemma attribute_spread k fixed rest : attribute k (spread fixed rest) =
  match attribute k rest with Some v => Some v | None => attribute k fixed end.
Proof.
  unfold spread. rewrite attribute_app. destruct (attribute k rest) eqn:Ek; [done|].
  apply attribute_filter. intros v. by apply attribute_none.
Qed.

Lemma hrefs_El t a (on : list (string * E)) l : hrefs [El t a on l] = link_of a ++ hrefs l.
Proof. unfold hrefs, all_elements. cbn [flat_map elements]. by rewrite app_nil_r. Qed.

Lemma hrefs_cons (n : node E) l : hrefs (n :: l) = hrefs [n] ++ hrefs l.
Proof. change (n :: l) with ([n] ++ l). apply hrefs_app. Qed.

Lemma kept_props : ("disabled" ∉ OWN) ∧ ("href" ∉ OWN).
Proof. unfold OWN. rewrite !not_elem_of_cons. split_and!; try discriminate; apply not_elem_of_nil. Qed.

(** One element with the caller's props spread over its own. *)
Lemma element_transparent (tag : props → string) (fixed : props → props) (own : list string) :
  own ⊆ OWN → (∀ a, attribute "disabled" (fixed a) = None ∧ attribute "href" (fixed a) = None) →
  Transparent (λ a on l, El (tag a) (spread (fixed a) (without own a)) on l).
Proof.
  intros Hown Hf.
  assert (∀ k a, k ∉ OWN → attribute k (without own a) = attribute k a) as Hw by (intros k a Hk; apply attribute_without; set_solver).
  assert (∀ k a, k ∉ OWN → attribute k (fixed a) = None → attribute k (spread (fixed a) (without own a)) = attribute k a) as Hs.
  { intros k a Hk Ha. rewrite attribute_spread, Hw, Ha by done. by destruct (attribute k a). }
  split.
  - intros a on l. rewrite enabled_events_El. unfold handlers. rewrite (Hs "disabled"); [done|apply kept_props|apply Hf].
  - done.
  - intros a on l. rewrite hrefs_El. unfold link_of. rewrite (Hs "href"); [done|apply kept_props|apply Hf].
  - intros k v a on l Hk Ha. eexists _, _. split; [cbn [elements]; left|]. by rewrite attribute_spread, Hw, Ha.
Qed.

(** A wrapper inside a portal, after something that holds nothing. *)
Lemma portal_transparent tag (n : list (node E)) c : enabled_events n = [] → flat_map text_content n = [] → hrefs n = [] →
  Transparent c → Transparent (λ a on l, El tag [] [] (n ++ [c a on l])).
Proof.
  intros H1 H2 H3 Hc. split.
  - intros a on l. by rewrite enabled_events_plain, enabled_events_app, H1, tr_events.
  - intros a on l. cbn [text_content]. rewrite flat_map_app, H2. cbn. by rewrite app_nil_r, tr_text.
  - intros a on l. by rewrite hrefs_El, hrefs_app, H3, tr_links.
  - intros k v a on l Hk Ha. destruct (tr_props k v a on l Hk Ha) as (t & b & Hin & Hb). exists t, b. split; [|done].
    cbn [elements]. right. rewrite flat_map_app. apply elem_of_app. right. cbn. by rewrite app_nil_r.
Qed.

Lemma primitive_transparent tag fixed classes : attribute "disabled" fixed = None → attribute "href" fixed = None →
  Transparent (primitive tag fixed classes).
Proof.
  intros Hd Hh. apply (element_transparent (λ _, tag)
    (λ a, fixed ++ [("className", cn (map Some classes ++ [str_prop "className" a]))]) ["className"]); [set_solver|].
  intros a. by rewrite !attribute_app, Hd, Hh.
Qed.

Ltac transparent :=
  first [by apply primitive_transparent
        |refine (element_transparent (λ a, _) (λ a, _) _ _ _); [unfold OWN; set_solver|done]].

#[local] Instance TooltipContent_transparent : Transparent TooltipContent.
Proof.
  assert (∀ tag fixed classes a on (l : list (node E)) n, attribute "disabled" fixed = None → attribute "href" fixed = None →
    enabled_events [n] = [] → text_content n = [] → hrefs [n] = [] →
    enabled_events [primitive tag fixed classes a on (l ++ [n])] = handlers a on ++ enabled_events l ∧
    text_content (primitive tag fixed classes a on (l ++ [n])) = flat_map text_content l ∧
    hrefs [primitive tag fixed classes a on (l ++ [n])] = link_of a ++ hrefs l) as H.
  { intros tag fixed classes a on l n Hd Hh H1 H2 H3. pose proof (primitive_transparent tag fixed classes Hd Hh) as Ht.
    rewrite (tr_events a on (l ++ [n])), (tr_text a on (l ++ [n])), (tr_links a on (l ++ [n])).
    rewrite enabled_events_app, hrefs_app, flat_map_app, H1, H3. cbn. by rewrite H2, !app_nil_r. }
  split.
  - intros a on l. unfold TooltipContent. rewrite enabled_events_plain. by apply H.
  - intros a on l. unfold TooltipContent. cbn [text_content flat_map]. rewrite app_nil_r. by apply H.
  - intros a on l. unfold TooltipContent. rewrite hrefs_El. by apply H.
  - intros k v a on l Hk Ha. unfold TooltipContent. cbn [elements flat_map]. setoid_rewrite app_nil_r.
    match goal with |- context [primitive ?t ?f ?c a on ?l'] =>
      destruct (@tr_props _ (primitive_transparent t f c eq_refl eq_refl) k v a on l' Hk Ha) as (t' & b & Hin & Hb) end.
    exists t', b. split; [by right|done].
Qed.

Lemma table_transparent : Forall (λ p, Transparent p.2) ui_table.
Proof.
  unfold ui_table. repeat (apply Forall_cons; split); try apply Forall_nil_2; cbn [snd]; try transparent; try apply _.
  - by apply (portal_transparent "DropdownMenuPrimitive.Portal" []); try transparent.
  - by apply (portal_transparent "DialogPortal" [DialogOverlay [] [] []]); try transparent.
  - by apply (portal_transparent "AlertDialogPortal" [AlertDialogOverlay [] [] []]); try transparent.
Qed.

Lemma ui_transparent t c : ui t = Some c → Transparent c.
Proof.
  unfold ui. intros (p & Hp & ->)%fmap_Some. apply List.find_some in Hp as [Hp _].
  pose proof table_transparent as Ht. rewrite Forall_forall in Ht. apply Ht. by apply list_elem_of_In.
Qed.

(** Induction on trees. *)
Lemma node_ind' (P : node E → Prop) : (∀ s, P (Text s)) → (∀ t a on l, Forall P l → P (El t a on l)) → ∀ n, P n.
Proof.
  intros HT HE. fix IH 1. intros [s|t a on l]; [apply HT|]. apply HE.
  induction l as [|n l IHl]; constructor; [apply IH|exact IHl].
Qed.

Lemma lower_events n : enabled_events [lower n] = enabled_events [n].
Proof.
  induction n as [s|t a on l IH] using node_ind'; [done|].
  assert (enabled_events (map lower l) = enabled_events l) as Hl.
  { induction IH as [|n l Hn _ IH]; [done|]. cbn [map]. by rewrite enabled_events_cons, Hn, IH, <-enabled_events_cons. }
  cbn [lower]. destruct (ui t) as [c|] eqn:Hc.
  - pose proof (ui_transparent t c Hc). by rewrite tr_events, Hl, enabled_events_El.
  - by rewrite !enabled_events_El, Hl.
Qed.

Lemma lower_text n : text_content (lower n) = text_content n.
Proof.
  induction n as [s|t a on l IH] using node_ind'; [done|].
  assert (flat_map text_content (map lower l) = flat_map text_content l) as Hl.
  { induction IH as [|n l Hn _ IH]; [done|]. cbn [map flat_map]. by rewrite Hn, IH. }
  cbn [lower]. destruct (ui t) as [c|] eqn:Hc; [|done].
  pose proof (ui_transparent t c Hc). by rewrite tr_text, Hl.
Qed.

Lemma lower_links n : hrefs [lower n] = hrefs [n].
Proof.
  induction n as [s|t a on l IH] using node_ind'; [done|].
  assert (hrefs (map lower l) = hrefs l) as Hl.
  { induction IH as [|n l Hn _ IH]; [done|]. cbn [map]. by rewrite hrefs_cons, Hn, IH, <-hrefs_cons. }
  cbn [lower]. destruct (ui t) as [c|] eqn:Hc.
  - pose proof (ui_transparent t c Hc). by rewrite tr_links, Hl, hrefs_El.
  - by rewrite !hrefs_El, Hl.
Qed.

End components.
End Ui.
