(* ===== verification/Presets.v ===== *)
(** * Date-range presets (src/ui/src/lib/stats-presets.ts)

    The date arithmetic of the Usage & Spend page: every preset becomes a pair of
    UTC calendar days, never wider than the server's cap. *)

From S2P Require Import Prelude JsString JsDate.

Module Presets.

(** [new Date(ms)]. *)
Definition new_date (ms : option Z) : jsdate := ms ≫= time_clip.

(** [new Date(Date.UTC(y, m, d))] of accessor results. *)
Definition date_UTC (y m d : option Z) : jsdate :=
  y ← y; m ← m; d ← d; date_utc y m d.

(** [String(n)] of an accessor result. *)
Definition num_str (z : option Z) : jsstr :=
  match z with Some z => Z_to_js z | None => js "NaN" end.

(** {start, end} as the page submits them. *)
Record date_range := DateRange { start : jsstr; end_ : jsstr }.

Definition PRESETS : list jsstr :=
  [js "7d"; js "30d"; js "90d"; js "This month"; js "Last month"; js "This year"; js "Custom"].

Definition MAX_RANGE_DAYS : Z := 366.
Definition MS_PER_DAY : Z := 86400000.

Definition toUTCDateString (d : jsdate) : jsstr :=
  let year := num_str (getUTCFullYear <$> d) in
  let month := pad_start 2 (chr "0") (num_str ((λ m, m + 1) <$> (getUTCMonth <$> d))) in
  let day := pad_start 2 (chr "0") (num_str (getUTCDate <$> d)) in
  year ++ chr "-" :: month ++ chr "-" :: day.

Definition utcMidnight (d : jsdate) : jsdate :=
  date_UTC (getUTCFullYear <$> d) (getUTCMonth <$> d) (getUTCDate <$> d).

(** [Math.round(ms / MS_PER_DAY)]. *)
Definition round_days (ms : Z) : Z := (2 * ms + MS_PER_DAY) / (2 * MS_PER_DAY).

Definition inclusiveSpan (startDate endDate : jsdate) : option Z :=
  s ← startDate; e ← endDate; Some (round_days (e - s) + 1).

(** A comparison with [NaN] is false. *)
Definition over_cap (span : option Z) : bool :=
  match span with Some n => MAX_RANGE_DAYS <? n | None => false end.

Definition clampRange (startDate endDate : jsdate) : date_range :=
  if over_cap (inclusiveSpan startDate endDate) then
    let clampedStart := new_date ((λ e, e - (MAX_RANGE_DAYS - 1) * MS_PER_DAY) <$> endDate) in
    DateRange (toUTCDateString clampedStart) (toUTCDateString endDate)
  else DateRange (toUTCDateString startDate) (toUTCDateString endDate).

Definition rollingDays (n : Z) (today : jsdate) : date_range :=
  let start := new_date ((λ t, t - (n - 1) * MS_PER_DAY) <$> today) in
  clampRange start today.

Definition presetToRange (preset : jsstr) (now : jsdate) : date_range :=
  let today := utcMidnight now in
  if js_eqb preset (js "7d") then rollingDays 7 today
  else if js_eqb preset (js "30d") then rollingDays 30 today
  else if js_eqb preset (js "90d") then rollingDays 90 today
  else if js_eqb preset (js "This month") then
    let start := date_UTC (getUTCFullYear <$> today) (getUTCMonth <$> today) (Some 1) in
    clampRange start today
  else if js_eqb preset (js "Last month") then
    let firstOfThisMonth :=
      date_UTC (getUTCFullYear <$> today) (getUTCMonth <$> today) (Some 1) in
    let lastOfPrevMonth := new_date ((λ t, t - MS_PER_DAY) <$> firstOfThisMonth) in
    let firstOfPrevMonth :=
      date_UTC (getUTCFullYear <$> lastOfPrevMonth) (getUTCMonth <$> lastOfPrevMonth) (Some 1) in
    clampRange firstOfPrevMonth lastOfPrevMonth
  else if js_eqb preset (js "This year") then
    let start := date_UTC (getUTCFullYear <$> today) (Some 0) (Some 1) in
    clampRange start today
  else rollingDays 30 today.

(** The render mode of a panel. A capability missing from the map counts as
    available: only an explicit [false] is "coming soon". *)
Inductive render_mode := Ready | ComingSoon | Empty.

Definition capabilityRenderMode (capabilities : option (gmap (list Z) bool)) (figureKey : jsstr)
    (hasData : bool) : render_mode :=
  let caps := default ∅ capabilities in
  match caps !! figureKey with
  | Some false => ComingSoon
  | _ => if hasData then Ready else Empty
  end.

(** ** Specification: presets as day intervals *)

(** The range of two day numbers. *)
Definition range_of_days (s e : Z) : date_range :=
  DateRange (toUTCDateString (Some (s * ms_per_day))) (toUTCDateString (Some (e * ms_per_day))).

(** What each preset means, in day numbers. *)
Definition preset_days (preset : jsstr) (today : Z) : Z * Z :=
  let first_of_month := make_day (year_of_day today) (month_of_day today) 1 in
  if js_eqb preset (js "7d") then (today - 6, today)
  else if js_eqb preset (js "90d") then (today - 89, today)
  else if js_eqb preset (js "This month") then (first_of_month, today)
  else if js_eqb preset (js "Last month") then
    (make_day (year_of_day today) (month_of_day today - 1) 1, first_of_month - 1)
  else if js_eqb preset (js "This year") then (day_from_year (year_of_day today), today)
  else (today - 29, today).

(** ** Lemmas *)

Lemma utcMidnight_day t : ordinary t → utcMidnight (Some t) = Some (day_of t * ms_per_day).
Proof.
  intros Ht. pose proof (ordinary_days t Ht). unfold ordinary in Ht.
  unfold utcMidnight, date_UTC. simpl.
  unfold getUTCFullYear, getUTCMonth, getUTCDate in *.
  by rewrite date_utc_day; rewrite ?make_day_of; try lia.
Qed.

Lemma clampRange_days s e : s ≤ e → -719000 ≤ e ≤ 73000000 → 
  clampRange (Some (s * ms_per_day)) (Some (e * ms_per_day)) = range_of_days (Z.max s (e - 365)) e.
Proof.
  intros Hse He. unfold clampRange, inclusiveSpan. simpl.
  replace (e * ms_per_day - s * ms_per_day) with ((e - s) * ms_per_day) by lia.
  replace (round_days ((e - s) * ms_per_day)) with (e - s)
    by (unfold round_days, MS_PER_DAY, ms_per_day; zlia).
  unfold MAX_RANGE_DAYS. destruct (366 <? e - s + 1) eqn:E; bool_to_prop.
  - unfold new_date. simpl.
    replace (e * ms_per_day - (366 - 1) * MS_PER_DAY) with ((e - 365) * ms_per_day)
      by (unfold MS_PER_DAY, ms_per_day; lia).
    rewrite time_clip_day by lia. by rewrite Z.max_r by lia.
  - by rewrite Z.max_l by lia.
Qed.

Lemma rollingDays_days n d : 1 ≤ n ≤ 366 → -700000 ≤ d ≤ 73000000 →
  rollingDays n (Some (d * ms_per_day)) = range_of_days (d - (n - 1)) d.
Proof.
  intros Hn Hd. unfold rollingDays, new_date. simpl.
  replace (d * ms_per_day - (n - 1) * MS_PER_DAY) with ((d - (n - 1)) * ms_per_day)
    by (unfold MS_PER_DAY, ms_per_day; lia).
  rewrite time_clip_day, clampRange_days by lia. by rewrite Z.max_l by lia.
Qed.


(** A printed date of a four-digit year reads back as the midnight it prints. *)
Lemma toUTCDateString_parse `{Engine} d : 1000 ≤ year_of_day d ≤ 9999 →
  date_parse (toUTCDateString (Some (d * ms_per_day))) = Some (d * ms_per_day).
Proof.
  intros Hy. pose proof (month_of_day_bounds d) as Hm. pose proof (date_of_day_bounds d) as Hd.
  pose proof (days_in_month_bounds (year_of_day d) (month_of_day d) Hm).
  pose proof (day_range 1000 9999 d Hy) as Hr. vm_compute (day_from_year _) in Hr.
  unfold toUTCDateString. opt_simpl. unfold getUTCFullYear, getUTCMonth, getUTCDate.
  rewrite !day_of_midnight. cbn [num_str]. rewrite (pad_num_full 3) by lia.
  change (pad_start 2 (chr "0")) with (pad_start 2 48). fold (pad_num 2 (month_of_day d + 1)).
  fold (pad_num 2 (date_of_day d)). unfold date_parse, iso_parse.
  rewrite <-(app_nil_r (pad_num 2 (date_of_day d))), iso_date_full by lia. opt_simpl.
  unfold valid_month_day. rewrite !(proj2 (Z.leb_le _ _)) by lia. opt_simpl.
  replace (month_of_day d + 1 - 1) with (month_of_day d) by lia.
  rewrite make_day_of. apply time_clip_day. lia.
Qed.

(** The named range is never empty, ends by today, and spans at most a year. *)
Lemma preset_days_bounds preset d : let '(s, e) := preset_days preset d in
  s ≤ e ≤ d ∧ e - s < 366 ∧ d - 92 ≤ e ∧ d - 365 ≤ s.
Proof.
  pose proof (first_of_month_bounds d) as Hf. pose proof (prev_month d) as [_ Hp].
  pose proof (year_start_bounds d) as Hy. cbv zeta in Hf, Hp. unfold preset_days.
  split_tests; lia.
Qed.

(** Dates of days of four-digit years stay four-digit one year back. *)
Lemma four_digit_year d0 d : 1001 ≤ year_of_day d0 ≤ 9999 → d0 - 365 ≤ d ≤ d0 →
  1000 ≤ year_of_day d ≤ 9999.
Proof.
  intros Hy Hd. pose proof (day_range 1001 9999 d0 Hy) as Hr. vm_compute (day_from_year _) in Hr.
  pose proof (year_of_day_spec d) as Hs. split.
  - apply Z.le_ngt. intros Hlt. pose proof (day_from_year_mono (year_of_day d + 1) 1001) as Hm.
    pose proof (year_of_day_spec d0) as Hs0.
    destruct (decide (year_of_day d0 = 1001)) as [E|].
    + rewrite E in Hs0. vm_compute (day_from_year 1001) in *.
      pose proof (day_from_year_mono (year_of_day d + 1) 1000) as Hm2.
      destruct (decide (year_of_day d + 1 = 1000)) as [E2|]; [rewrite E2 in Hs|];
        vm_compute (day_from_year 1000) in *; lia.
    + pose proof (day_from_year_mono 1001 (year_of_day d0)). lia.
  - apply Z.le_ngt. intros Hlt. pose proof (day_from_year_mono 9999 (year_of_day d)) as Hm.
    destruct (decide (year_of_day d = 10000)) as [E|].
    + rewrite E in Hs. vm_compute (day_from_year 10000) in *. lia.
    + pose proof (day_from_year_mono 10000 (year_of_day d)). vm_compute (day_from_year 10000) in *. lia.
Qed.

(** For any instant with an ordinary calendar year, every preset prints the
    interval [preset_days], whatever the time of day. *)
Lemma presetToRange_days preset now : ordinary now →
  presetToRange preset (Some now) =
    range_of_days (preset_days preset (day_of now)).1 (preset_days preset (day_of now)).2.
Proof.
  intros Hnow. pose proof (ordinary_days now Hnow) as Hd.
  unfold presetToRange, preset_days. rewrite utcMidnight_day by done.
  unfold ordinary, getUTCFullYear in Hnow. set (d := day_of now) in *.
  pose proof (first_of_month_bounds d) as Hf. pose proof (prev_month d) as [Hp1 Hp2].
  pose proof (year_start_bounds d) as Hy. cbv zeta in Hf, Hp1, Hp2.
  unfold date_UTC, new_date. opt_simpl. unfold getUTCFullYear, getUTCMonth.
  rewrite !day_of_midnight.
  destruct (js_eqb preset (js "7d")); [by rewrite rollingDays_days by lia|].
  destruct (js_eqb preset (js "30d")) eqn:E30.
  { apply bool_decide_eq_true in E30 as ->. by rewrite rollingDays_days by lia. }
  destruct (js_eqb preset (js "90d")); [by rewrite rollingDays_days by lia|].
  rewrite (date_utc_day _ _ 1), (date_utc_day _ 0 1), first_of_year by (rewrite ?first_of_year; lia).
  destruct (js_eqb preset (js "This month")).
  { rewrite clampRange_days by lia. by rewrite Z.max_l by lia. }
  destruct (js_eqb preset (js "Last month")).
  { opt_simpl. set (f := make_day (year_of_day d) (month_of_day d) 1) in *.
    replace (f * ms_per_day - MS_PER_DAY) with ((f - 1) * ms_per_day)
      by (unfold MS_PER_DAY, ms_per_day; lia).
    rewrite time_clip_day by lia. opt_simpl. rewrite !day_of_midnight, date_utc_day.
    - rewrite Hp1, clampRange_days by lia. by rewrite Z.max_l by lia.
    - pose proof (day_range 101 200000 d Hnow) as Hr. vm_compute (day_from_year _) in Hr.
      apply Z.le_ngt. intros Hlt. pose proof (year_of_day_spec (f - 1)) as Hs.
      pose proof (day_from_year_mono (year_of_day (f - 1) + 1) 101) as Hm.
      pose proof (day_from_year_mono 100 (year_of_day d)) as Hm'.
      vm_compute (day_from_year 100) in *; vm_compute (day_from_year 101) in *. lia.
    - lia. }
  destruct (js_eqb preset (js "This year")).
  { rewrite clampRange_days by lia. by rewrite Z.max_l by lia. }
  by rewrite rollingDays_days by lia.
Qed.


(** ** Properties *)

(** C1. Every preset resolves to the days it names (a rolling window, month or
    year to date, the whole previous month; 30 days for any other string),
    whatever the time of day, and the range is one the server accepts: both ends
    are printed so that they read back as UTC midnights, in order, ending no later
    than today, spanning at most MAX_RANGE_DAYS days. *)
Theorem presetToRange_correct `{Engine} preset now : 1001 ≤ getUTCFullYear now ≤ 9999 →
  let r := presetToRange preset (Some now) in
  let '(s, e) := preset_days preset (day_of now) in
  date_parse (start r) = Some (s * ms_per_day) ∧ date_parse (end_ r) = Some (e * ms_per_day) ∧
  s ≤ e ∧ e * ms_per_day ≤ now ∧
  inclusiveSpan (Some (s * ms_per_day)) (Some (e * ms_per_day)) = Some (e - s + 1) ∧
  e - s + 1 ≤ MAX_RANGE_DAYS.
Proof.
  intros Hy r. unfold getUTCFullYear in Hy. set (d := day_of now) in *.
  pose proof (preset_days_bounds preset d) as Hb.
  assert (r = range_of_days (preset_days preset d).1 (preset_days preset d).2) as Hr.
  { apply presetToRange_days. unfold ordinary, getUTCFullYear. fold d. lia. }
  clearbody r. subst r. destruct (preset_days preset d) as [s e]. opt_simpl.
  split_and!; try (apply toUTCDateString_parse, (four_digit_year d); lia).
  - lia.
  - assert (d * ms_per_day ≤ now) by (unfold d, day_of, ms_per_day; zlia).
    unfold ms_per_day in *. lia.
  - unfold inclusiveSpan. opt_simpl. f_equal. unfold round_days, MS_PER_DAY, ms_per_day. zlia.
  - unfold MAX_RANGE_DAYS. lia.
Qed.

(** The last evening of February 2024: "Last month" is the 31 days of January. *)
Lemma presetToRange_correct_witness :
  let r := presetToRange (js "Last month") (Some 1709164799999) in
  let '(s, e) := preset_days (js "Last month") (day_of 1709164799999) in
  @date_parse utc_engine (start r) = Some (s * ms_per_day) ∧
  @date_parse utc_engine (end_ r) = Some (e * ms_per_day) ∧
  s ≤ e ∧ e * ms_per_day ≤ 1709164799999 ∧
  inclusiveSpan (Some (s * ms_per_day)) (Some (e * ms_per_day)) = Some (e - s + 1) ∧
  e - s + 1 ≤ MAX_RANGE_DAYS.
Proof.
  apply (@presetToRange_correct utc_engine (js "Last month") 1709164799999).
  vm_compute; split; discriminate.
Defined.

(** [clampRange] preserves the end of an over-long span and moves its start
    to exactly MAX_RANGE_DAYS inclusive days before; a span within the cap is
    printed as it is. *)
Theorem clampRange_correct s e : s ≤ e → -719000 ≤ e ≤ 73000000 →
  clampRange (Some (s * ms_per_day)) (Some (e * ms_per_day)) =
    range_of_days (if e - s + 1 <=? MAX_RANGE_DAYS then s else e - MAX_RANGE_DAYS + 1) e.
Proof.
  intros Hse He. rewrite clampRange_days by done. unfold MAX_RANGE_DAYS.
  f_equal. destruct (e - s + 1 <=? 366) eqn:E; bool_to_prop; lia.
Qed.

Lemma clampRange_correct_witness :
  clampRange (Some (19000 * ms_per_day)) (Some (19723 * ms_per_day)) =
    DateRange (js "2023-01-01") (js "2024-01-01").
Proof.
  refine (eq_trans (clampRange_correct 19000 19723 ltac:(lia) ltac:(lia)) _). vm_compute. reflexivity.
Defined.

End Presets.
