(* ===== verification/Format.v ===== *)
(** * Display formatters (src/ui/src/lib)

    [format.ts], [relative-time.ts], [budget.ts], [spend-projection.ts],
    [team-color.ts] and [urls.ts]: pure functions from API values to text. *)

From S2P Require Import Prelude JsNumber JsString JsText JsDate Presets.

Module Format.

Definition EM_DASH : jsstr := js "—".
Definition ELLIPSIS : jsstr := js "…".

(** ** format.ts *)

Definition asNumber (n : jsval) : option number :=
  match n with
  | JNull | JUndefined => None
  | JNumber num => if is_finite num then Some num else None
  | JString s => let num := Number_of_string s in if is_finite num then Some num else None
  end.

Definition formatCurrency (n : jsval) : jsstr :=
  match asNumber n with None => EM_DASH | Some num => intl_currency num end.

Definition formatInt (n : jsval) : jsstr :=
  match asNumber n with None => EM_DASH | Some num => intl_int num end.

(** The loop over {value, suffix} units: the first unit reached scales the number. *)
Fixpoint abbreviate_units (abs num : number) (units : list (number * jsstr)) : option jsstr :=
  match units with
  | [] => None
  | (value, suffix) :: units' =>
      if num_leb value abs then
        let scaled := num_div num value in
        let trimmed := parseFloat (toFixed 2 scaled) in
        Some (num_to_string trimmed ++ suffix)
      else abbreviate_units abs num units'
  end.

Definition units : list (number * jsstr) :=
  [(num_of_Z 1000000000, js "B"); (num_of_Z 1000000, js "M"); (num_of_Z 1000, js "K")].

Definition abbreviate (n : jsval) : jsstr :=
  match asNumber n with
  | None => EM_DASH
  | Some num =>
      match abbreviate_units (num_abs num) num units with
      | Some s => s
      | None => num_to_string (parseFloat (toFixed 2 num))
      end
  end.

Definition formatPricePerMillion (costPerToken : jsval) : jsstr :=
  match asNumber costPerToken with
  | None => EM_DASH
  | Some num => intl_currency (num_mul num (num_of_Z 1000000))
  end.

Definition MONTHS : list jsstr :=
  [js "Jan"; js "Feb"; js "Mar"; js "Apr"; js "May"; js "Jun";
   js "Jul"; js "Aug"; js "Sep"; js "Oct"; js "Nov"; js "Dec"].

(** [new Date(s)] of a string that may be [null] or [undefined]; the callers
    below test for that first. *)
Definition formatDate `{Engine} (iso : option jsstr) : jsstr :=
  match iso with
  | None => EM_DASH
  | Some iso =>
      match date_parse iso with
      | None => EM_DASH
      | Some d =>
          let month := default (js "undefined") (MONTHS !! Z.to_nat (getUTCMonth d)) in
          let day := pad_start 2 (chr "0") (Z_to_js (getUTCDate d)) in
          let year := Z_to_js (getUTCFullYear d) in
          month ++ chr " " :: day ++ js ", " ++ year
      end
  end.

Definition maskKey (s : option jsstr) : jsstr :=
  match s with
  | None => EM_DASH
  | Some str =>
      if js_len str <=? 8 then str
      else js_slice str 0 4 ++ ELLIPSIS ++ js_slice_from str (-4)
  end.

(** ** relative-time.ts *)

Definition MIN : Z := 60000.
Definition HOUR : Z := 60 * MIN.
Definition DAY : Z := 24 * HOUR.

Definition relativeTime `{Engine} (iso : option jsstr) (now : Z) : jsstr :=
  match iso with
  | None => js "Never used"
  | Some iso =>
      match date_parse iso with
      | None => EM_DASH
      | Some then_ =>
          let delta := Z.max 0 (now - then_) in
          if delta <? MIN then js "just now"
          else if delta <? HOUR then Z_to_js (delta / MIN) ++ js "m ago"
          else if delta <? DAY then Z_to_js (delta / HOUR) ++ js "h ago"
          else let days := delta / DAY in
               if days =? 1 then js "1 day ago" else Z_to_js days ++ js " days ago"
      end
  end.

Definition isStale `{Engine} (iso : option jsstr) (now : Z) (days : Z) : bool :=
  match iso with
  | None => true
  | Some iso =>
      match date_parse iso with
      | None => false
      | Some then_ => days * DAY <=? now - then_
      end
  end.

(** ** budget.ts

    The argument is [number | null | undefined]. *)

Definition num_0_9 : number := num_of_dec 9 (-1).
Definition num_0_8 : number := num_of_dec 8 (-1).

Definition budgetFillClass (ratio : option number) : jsstr :=
  match ratio with
  | Some r =>
      if is_finite r then
        if num_leb num_0_9 r then js "bg-destructive"
        else if num_leb num_0_8 r then js "bg-warning"
        else js "bg-text-secondary"
      else js "bg-text-secondary"
  | None => js "bg-text-secondary"
  end.

(** ** spend-projection.ts *)

Definition isMonthlyDuration `{Unicode} (d : option jsstr) : bool :=
  if ostr_truthy d then
    let s := to_lower (default [] d) in
    js_eqb s (js "30d") || js_eqb s (js "1mo") || js_eqb s (js "monthly") || js_eqb s (js "1month")
  else false.

(** [now] is a valid date at every call site. *)
Definition projectMonthEnd (currentSpend : number) (now : Z) : number :=
  let day := getUTCDate now in
  let daysInMonth := match date_utc (getUTCFullYear now) (getUTCMonth now + 1) 0 with
    | Some t => num_of_Z (getUTCDate t)
    | None => num_nan
    end in
  if day <=? 0 then currentSpend
  else num_mul (num_div currentSpend (num_of_Z day)) daysInMonth.

Definition budgetPctLabel (current : number) (maxBudget : option number) : option jsstr :=
  match maxBudget with
  | None => None
  | Some m =>
      if num_leb m num_zero then None
      else Some (num_to_string (num_round (num_mul (num_div current m) (num_of_Z 100))) ++ js "% used")
  end.

(** ** team-color.ts *)

Definition CAT_VARS : list jsstr :=
  [js "var(--cat-1)"; js "var(--cat-2)"; js "var(--cat-3)"; js "var(--cat-4)"; js "var(--cat-5)"].

Definition teamColorVar (index : Z) : jsstr :=
  if index <? 0 then js "var(--text-tertiary)"
  else default (js "undefined") (CAT_VARS !! Z.to_nat (index mod Z.of_nat (length CAT_VARS))).

(** ** urls.ts

    [URL] is the host's: [parse_url] gives the protocol and hostname of a
    valid absolute URL, or fails. *)

Definition deriveSubdomainUrl (parse_url : jsstr → option (jsstr * jsstr))
    (endpoint : option jsstr) (sub : jsstr) : jsstr :=
  match parse_url (default [] endpoint) with
  | Some (protocol, hostname) =>
      let baseHost := if starts_with (js "api.") hostname then drop 4 hostname else hostname in
      protocol ++ js "//" ++ sub ++ chr "." :: baseHost
  | None => js "https://" ++ sub ++ js ".your-domain.example"
  end.

(** ** Lemmas *)

Lemma round_scaled_nonneg x k : 0 ≤ k → 0 ≤ round_scaled x k.
Proof.
  intros Hk. unfold round_scaled. destruct (num_fraction x) as [n d] eqn:E.
  assert (0 ≤ n ∧ 0 < d) as [? ?].
  { destruct x; simplify_eq/=; split; try lia. }
  apply Z.div_pos; [|lia]. pose proof (Z.pow_nonneg 10 k). nia.
Qed.

Lemma round_scaled_near x k : 0 ≤ k → let '(n, d) := num_fraction x in
  2 * Z.abs (round_scaled x k * d - n * 10 ^ k) ≤ d.
Proof.
  intros Hk. unfold round_scaled. destruct (num_fraction x) as [n d] eqn:E.
  assert (0 < d) as Hd by (destruct x; simplify_eq/=; try lia; apply Z.pow_pos_nonneg; lia).
  rewrite <-Z.mul_assoc. generalize (n * 10 ^ k). intros m.
  pose proof (Z.div_mod (2 * m + d) (2 * d) ltac:(lia)) as Hq.
  pose proof (Z.mod_pos_bound (2 * m + d) (2 * d) ltac:(lia)). nia.
Qed.

(** A finite amount is printed as sign, grouped dollars, and two-digit cents. *)
Lemma intl_currency_finite x : is_finite x = true →
  intl_currency x = intl_sign x ++ chr "$" :: group_digits (nat_to_js (round_scaled x 2 / 100)) ++
                    chr "." :: pad_num 2 (round_scaled x 2 mod 100).
Proof. by destruct x. Qed.

Lemma asNumber_finite v x : asNumber v = Some x → is_finite x = true.
Proof. destruct v; simpl; try done; destruct (is_finite _) eqn:E; congruence. Qed.

(** The text of a bucket of [relativeTime]. *)
Lemma relativeTime_days `{Engine} iso t now : date_parse iso = Some t → DAY ≤ now - t →
  relativeTime (Some iso) now =
    Z_to_js ((now - t) / DAY) ++ (if (now - t) / DAY =? 1 then js " day ago" else js " days ago").
Proof.
  intros Ht Hd. unfold relativeTime. rewrite Ht. rewrite Z.max_r by (unfold DAY, HOUR, MIN in *; lia).
  rewrite !(proj2 (Z.ltb_ge _ _)) by (unfold DAY, HOUR, MIN in *; lia).
  destruct (_ =? 1) eqn:E; [|done]. apply Z.eqb_eq in E as ->. done.
Qed.

Lemma nat_to_js_suffix (s t p q : jsstr) : length p = length q → s ++ p = t ++ q → s = t ∧ p = q.
Proof. intros Hl H. by apply app_inj_2 in H. Qed.

(** An age in days: its last five characters, and its number. *)
Definition age_text (n : Z) : jsstr := Z_to_js n ++ (if n =? 1 then js " day ago" else js " days ago").

Lemma age_text_end n s p : length p = 5%nat → age_text n = s ++ p →
  p = if n =? 1 then js "y ago" else js "s ago".
Proof.
  intros Hp H. unfold age_text in H. destruct (n =? 1);
    [change (js " day ago") with (js " da" ++ js "y ago") in H
    |change (js " days ago") with (js " day" ++ js "s ago") in H];
    rewrite app_assoc in H; apply app_inj_2 in H as [_ H]; try done; by rewrite Hp.
Qed.

Lemma age_text_other n s p : length p = 5%nat → p ≠ js "y ago" → p ≠ js "s ago" → s ++ p ≠ age_text n.
Proof. intros Hp Hy Hs H. symmetry in H. apply age_text_end in H; [|done]. by destruct (n =? 1). Qed.

Lemma age_text_inj m n : 0 ≤ m → 0 ≤ n → age_text m = age_text n → m = n.
Proof.
  intros Hm Hn H. assert ((if m =? 1 then js "y ago" else js "s ago") = if n =? 1 then js "y ago" else js "s ago") as He.
  { assert (∃ s p, age_text m = s ++ p ∧ length p = 5%nat) as (s & p & Hs & Hp).
    { unfold age_text. destruct (m =? 1);
        [exists (Z_to_js m ++ js " da"), (js "y ago")|exists (Z_to_js m ++ js " day"), (js "s ago")];
        by rewrite <-app_assoc. }
    pose proof (age_text_end m s p Hp Hs) as E1. rewrite H in Hs.
    pose proof (age_text_end n s p Hp Hs) as E2. congruence. }
  unfold age_text in H. destruct (m =? 1) eqn:Em, (n =? 1) eqn:En; try discriminate He; bool_to_prop; [lia|].
  apply app_inv_tail in H. by apply Z_to_js_inj in H.
Qed.

(** ** Properties *)

(** C3. Currency: a value that is not a finite number prints as the dash; a
    finite amount [x] prints as an optional minus sign, a dollar sign, a whole part
    correctly grouped by thousands, and two digits of cents, and the amount read
    back from those digits is within half a cent of [|x|]. *)
Theorem formatCurrency_correct v :
  match asNumber v with
  | None => formatCurrency v = EM_DASH
  | Some x => ∃ dollars cents q,
      formatCurrency v = (if num_negative x then [chr "-"] else []) ++
                         chr "$" :: dollars ++ chr "." :: cents ∧
      grouped_rev (reverse dollars) ∧ length cents = 2%nat ∧
      digits_value 0 (ungroup dollars) = Some (q / 100) ∧
      digits_value 0 cents = Some (q mod 100) ∧
      let '(n, d) := num_fraction x in 2 * Z.abs (q * d - n * 100) ≤ d
  end.
Proof.
  unfold formatCurrency. destruct (asNumber v) as [x|] eqn:E; [|done].
  set (q := round_scaled x 2).
  pose proof (round_scaled_nonneg x 2 ltac:(lia)) as Hq. fold q in Hq.
  assert (0 ≤ q mod 100 < 100) by (apply Z.mod_pos_bound; lia).
  assert (0 ≤ q / 100) by (apply Z.div_pos; lia).
  exists (group_digits (nat_to_js (q / 100))), (pad_num 2 (q mod 100)), q. split_and!.
  - rewrite intl_currency_finite by eauto using asNumber_finite. done.
  - apply group_digits_grouped, nat_to_js_nonempty.
  - apply pad_num_length; lia.
  - rewrite ungroup_group_digits by (by apply nat_to_js_digits). by apply digits_value_nat_to_js.
  - apply pad_num_value. lia.
  - exact (round_scaled_near x 2 ltac:(lia)).
Qed.

(** Masking hides all but eight characters: two keys longer than eight that
    share their first and last four characters print the same, as nine
    characters; a null key is the dash and a key of at most eight is unchanged. *)
Theorem maskKey_hides s t : 8 < js_len s → 8 < js_len t →
  take 4 s = take 4 t → drop (length s - 4) s = drop (length t - 4) t →
  maskKey (Some s) = maskKey (Some t) ∧ js_len (maskKey (Some s)) = 9.
Proof.
  assert (∀ u, 8 < js_len u → maskKey (Some u) = take 4 u ++ ELLIPSIS ++ drop (length u - 4) u) as H.
  { intros u Hu. unfold maskKey. rewrite (proj2 (Z.leb_gt _ _)) by done.
    rewrite slice_prefix by lia.
    change (-4) with (- (4)). by rewrite slice_suffix by lia. }
  intros Hs Ht H1 H2. rewrite !H by done. split; [congruence|].
  unfold js_len in *. rewrite !length_app, length_take, length_drop.
  change (length ELLIPSIS) with 1%nat. lia.
Qed.

Lemma maskKey_hides_witness :
  maskKey (Some (js "sk-abcd1234wxyz")) = maskKey (Some (js "sk-a-secret-wxyz")) ∧
  js_len (maskKey (Some (js "sk-abcd1234wxyz"))) = 9.
Proof. apply maskKey_hides; reflexivity. Defined.

(** C5. The stale mark of the keys table and its "last used" text agree, for any
    last use (absent, unreadable, past or future) and any threshold of at least one
    day (the table uses thirty): a key is stale exactly when the text is [Never used]
    or a count of at least that many whole days. *)
Theorem isStale_relativeTime `{Engine} (iso : option jsstr) now days : 1 ≤ days →
  isStale iso now days = true ↔
  relativeTime iso now = js "Never used" ∨
  ∃ n, days ≤ n ∧ relativeTime iso now = Z_to_js n ++ (if n =? 1 then js " day ago" else js " days ago").
Proof.
  intros Hd. change (?A ↔ ?B ∨ ∃ n, days ≤ n ∧ relativeTime iso now = _) with
    (A ↔ B ∨ ∃ n, days ≤ n ∧ relativeTime iso now = age_text n).
  destruct iso as [iso|]; [|split; [by left|done]]. unfold isStale.
  assert (∀ s p n, length p = 5%nat → p ≠ js " used" → p ≠ js "y ago" → p ≠ js "s ago" →
    ¬ (s ++ p = js "Never used" ∨ s ++ p = age_text n)) as Hne.
  { intros s p n Hp H1 H2 H3 [E|E]; [|by apply age_text_other in E].
    change (js "Never used") with (js "Never" ++ js " used") in E. by apply nat_to_js_suffix in E as []. }
  assert (∀ n, age_text n ≠ js "Never used") as Hnu.
  { intros n E. symmetry in E. change (js "Never used") with (js "Never" ++ js " used") in E.
    by apply age_text_other in E. }
  destruct (date_parse iso) as [t|] eqn:Ht.
  - rewrite Z.leb_le. destruct (Z.le_gt_cases DAY (now - t)) as [Hday|Hday].
    + rewrite (relativeTime_days iso t now Ht Hday). fold (age_text ((now - t) / DAY)). split.
      * intros Hs. right. exists ((now - t) / DAY).
        split; [apply Z.div_le_lower_bound; unfold DAY, HOUR, MIN in *; lia|done].
      * intros [Hn|(n & Hn & Hr)]; [by apply Hnu in Hn|].
        apply age_text_inj in Hr; [|apply Z.div_pos; unfold DAY, HOUR, MIN in *; lia|lia].
        rewrite <-Hr in Hn. pose proof (Z.mul_div_le (now - t) DAY ltac:(done)) as H0.
        revert H0 Hn. generalize ((now - t) / DAY). unfold DAY, HOUR, MIN. intros q. lia.
    + split; [intros Hs; exfalso; unfold DAY, HOUR, MIN in *; lia|]. intros Hr. exfalso. unfold relativeTime in Hr. rewrite Ht in Hr.
      rewrite (proj2 (Z.ltb_lt _ DAY)) in Hr by (unfold DAY, HOUR, MIN in *; lia).
      assert (∃ n s p, (s ++ p = js "Never used" ∨ s ++ p = age_text n) ∧ (p = js "t now" ∨ p = js "m ago" ∨ p = js "h ago"))
        as (n & s & p & H1 & H2).
      { destruct (_ <? MIN); [|destruct (_ <? HOUR)].
        - change (js "just now") with (js "jus" ++ js "t now") in Hr.
          destruct Hr as [Hr|(n & _ & Hr)]; [exists 0|exists n]; eauto 10.
        - destruct Hr as [Hr|(n & _ & Hr)]; [exists 0|exists n]; eauto 10.
        - destruct Hr as [Hr|(n & _ & Hr)]; [exists 0|exists n]; eauto 10. }
      revert H1. destruct H2 as [->|[->| ->]]; by apply Hne.
  - split; [done|]. unfold relativeTime. rewrite Ht. intros [Hr|(n & Hn & Hr)]; [done|]. exfalso.
    apply (f_equal length) in Hr. unfold age_text in Hr. rewrite length_app in Hr.
    destruct (n =? 1); change (length EM_DASH) with 1%nat in Hr;
      [change (length (js " day ago")) with 8%nat in Hr|change (length (js " days ago")) with 9%nat in Hr]; lia.
Qed.

(** At sixty days, and never used. *)
Lemma isStale_relativeTime_witness :
  (@isStale utc_engine (Some (js "2026-01-01T00:00:00Z")) 1772323200000 30 = true ↔
   @relativeTime utc_engine (Some (js "2026-01-01T00:00:00Z")) 1772323200000 = js "Never used" ∨
   ∃ n, 30 ≤ n ∧ @relativeTime utc_engine (Some (js "2026-01-01T00:00:00Z")) 1772323200000 =
     Z_to_js n ++ (if n =? 1 then js " day ago" else js " days ago")) ∧
  @isStale utc_engine None 1772323200000 30 = true.
Proof.
  split; [apply (@isStale_relativeTime utc_engine); lia|].
  apply (@isStale_relativeTime utc_engine None); [lia|]. left. reflexivity.
Defined.

(** The month-end projection multiplies the daily run rate by the number of
    days of the current month, whatever the month (a December, a leap February),
    for any instant with an ordinary year. *)
Theorem projectMonthEnd_days spend now : ordinary now →
  projectMonthEnd spend now =
    num_mul (num_div spend (num_of_Z (getUTCDate now)))
      (num_of_Z (days_in_month (getUTCFullYear now) (getUTCMonth now))).
Proof.
  intros Hnow. pose proof (ordinary_days now Hnow) as Hb. unfold ordinary, getUTCFullYear in Hnow.
  unfold projectMonthEnd, getUTCDate, getUTCFullYear, getUTCMonth in *. set (d := day_of now) in *.
  pose proof (date_of_day_bounds d) as Hdt. pose proof (month_of_day_bounds d) as Hm.
  pose proof (days_in_month_bounds (year_of_day d) (month_of_day d) Hm) as Hdm.
  pose proof (first_of_month_bounds d) as Hf. cbv zeta in Hf.
  rewrite (proj2 (Z.leb_gt _ 0)) by lia.
  assert (make_day (year_of_day d) (month_of_day d + 1) 0 =
    make_day (year_of_day d) (month_of_day d) (days_in_month (year_of_day d) (month_of_day d))) as He.
  { rewrite make_day_shift, make_day_next_month, Z.div_small, Z.mod_small by lia.
    rewrite (Z.add_0_r (year_of_day d)), (make_day_shift _ _ (days_in_month _ _)). lia. }
  rewrite date_utc_day; [|lia|rewrite He, make_day_shift; lia].
  rewrite day_of_midnight, He.
  destruct (make_day_fields (year_of_day d) (month_of_day d)
    (days_in_month (year_of_day d) (month_of_day d)) Hm) as (_ & _ & ->); [lia|done].
Qed.

Lemma projectMonthEnd_days_witness :
  projectMonthEnd (num_of_Z 10) 1709164799999 =
    num_mul (num_div (num_of_Z 10) (num_of_Z 28)) (num_of_Z 29).
Proof.
  refine (eq_trans (projectMonthEnd_days (num_of_Z 10) 1709164799999 _) _);
    [unfold ordinary; vm_compute; split; discriminate|vm_compute; reflexivity].
Defined.

End Format.
