(* ===== verification/Sort.v ===== *)
(** * Table sorting (src/ui/src/lib/sort.ts, components/ui/data-table.tsx)

    The comparison rule of the tables, the stable sort built on it, and the
    generic table whose headers toggle the sort. *)

From Stdlib Require Import String.
From S2P Require Import Prelude JsNumber JsString JsText View.

Module Sort.

Inductive SortDir := Asc | Desc.

#[export] Instance SortDir_eq_dec : EqDecision SortDir.
Proof. solve_decision. Defined.

Definition is_missing (v : jsval) : bool :=
  match v with
  | JNull | JUndefined => true
  | JNumber x => negb (is_finite x)
  | JString _ => false
  end.

(** [String(v)]. *)
Definition to_string (v : jsval) : jsstr :=
  match v with
  | JNull => js "null"
  | JUndefined => js "undefined"
  | JNumber x => num_to_string x
  | JString s => s
  end.

Section sort.
Context `{U : Unicode}.

Definition compareValues (a b : jsval) (dir : SortDir) : Z :=
  let aMissing := is_missing a in
  let bMissing := is_missing b in
  if aMissing && bMissing then 0
  else if aMissing then 1
  else if bMissing then -1
  else
    let c := match a, b with
      | JNumber x, JNumber y => if num_ltb x y then -1 else if num_ltb y x then 1 else 0
      | _, _ => locale_compare_numeric (to_string a) (to_string b)
      end in
    match dir with Asc => c | Desc => - c end.

(** The comparator over [row, index] pairs. *)
Definition row_compare {T} (accessor : T → jsval) (dir : SortDir) (p q : T * Z) : Z :=
  let c := compareValues (accessor p.1) (accessor q.1) dir in
  if c =? 0 then p.2 - q.2 else c.

Fixpoint with_index {T} (i : Z) (rows : list T) : list (T * Z) :=
  match rows with [] => [] | r :: rows' => (r, i) :: with_index (i + 1) rows' end.

Definition sortRows {T} (rows : list T) (accessor : T → jsval) (dir : SortDir) : list T :=
  map fst (array_sort (row_compare accessor dir) (with_index 0 rows)).
End sort.

(** ** The table *)

Record DataTableColumn (T E : Type) := Column {
  key : jsstr;
  header : list (node E);
  cell : T → list (node E);
  className : option jsstr;
  headerClassName : option jsstr;
  sortAccessor : option (T → jsval)
}.
Arguments Column {_ _} _ _ _ _ _ _.
Arguments key {_ _} _. Arguments header {_ _} _. Arguments cell {_ _} _.
Arguments className {_ _} _. Arguments headerClassName {_ _} _. Arguments sortAccessor {_ _} _.

Record DataTableSort := TableSort { sort_key : jsstr; sort_dir : SortDir }.

Record DataTableProps (T E : Type) := TableProps {
  columns : list (DataTableColumn T E);
  rows : list T;
  getRowId : T → jsstr;
  empty : option (list (node E));
  rowActions : option (T → list (node E));
  rowClassName : option (T → option jsstr);
  actionsHeader : option (list (node E));
  caption : option (list (node E));
  defaultSort : option DataTableSort
}.
Arguments TableProps {_ _}.
Arguments columns {_ _} _. Arguments rows {_ _} _. Arguments getRowId {_ _} _.
Arguments empty {_ _} _. Arguments rowActions {_ _} _. Arguments rowClassName {_ _} _.
Arguments actionsHeader {_ _} _. Arguments caption {_ _} _. Arguments defaultSort {_ _} _.

Section table.
Context `{Unicode} {T E : Type} (toggle : jsstr → E).

(** The initial [useState]. *)
Definition initial_sort (p : DataTableProps T E) : option DataTableSort := defaultSort p.

Definition toggleSort (k : jsstr) (cur : option DataTableSort) : DataTableSort :=
  match cur with
  | Some c =>
      if js_eqb (sort_key c) k
      then TableSort k (if decide (sort_dir c = Asc) then Desc else Asc)
      else TableSort k Desc
  | None => TableSort k Desc
  end.

Definition display (p : DataTableProps T E) (sort : option DataTableSort) : list T :=
  match sort with
  | None => rows p
  | Some s =>
      match List.find (λ c, js_eqb (key c) (sort_key s)) (columns p) with
      | Some col =>
          match sortAccessor col with
          | Some acc => sortRows (rows p) acc (sort_dir s)
          | None => rows p
          end
      | None => rows p
      end
  end.

Definition SortIndicator (active : bool) (dir : SortDir) : node E :=
  let up := active && bool_decide (dir = Asc) in
  El "span" [("aria-hidden", AStr (js "true"));
             ("className", cls [Some (if up then js "border-b-[4px] border-b-current"
                                      else js "border-t-[4px] border-t-current");
                                Some (if active then js "opacity-100" else js "opacity-30")])] [] [].

(** The value of [aria-sort]. *)
Definition aria_sort (sort : option DataTableSort) (c : DataTableColumn T E) : option aval :=
  match sortAccessor c with
  | None => None
  | Some _ =>
      Some (AStr match sort with
        | Some s => if js_eqb (sort_key s) (key c)
                    then if decide (sort_dir s = Asc) then js "ascending" else js "descending"
                    else js "none"
        | None => js "none"
        end)
  end.

Definition header_cell (sort : option DataTableSort) (column : DataTableColumn T E) : node E :=
  let isActive := match sort with Some s => js_eqb (sort_key s) (key column) | None => false end in
  let dir := match sort with Some s => if isActive then sort_dir s else Desc | None => Desc end in
  El "th" ([("data-col", AStr (key column))] ++ attr_some "aria-sort" (aria_sort sort column) ++
           [("className", cls [headerClassName column])]) []
    (match sortAccessor column with
     | Some _ =>
         [El "button" [("data-slot", AStr (js "data-table-sort"));
                       ("className", cls [if isActive then Some (js "text-text-primary") else None])]
            [("onClick", toggle (key column))]
            (header column ++ [SortIndicator isActive dir])]
     | None => header column
     end).

Definition body_row (p : DataTableProps T E) (count : nat) (index : nat) (row : T) : node E :=
  El "tr" [("key", AStr (getRowId p row)); ("data-slot", AStr (js "data-table-row"));
           ("className", cls [(if (S index <? count)%nat then Some (js "border-b") else None);
                              rowClassName p ≫= (λ f, f row)])] []
    (map (λ c, El "td" [("data-col", AStr (key c)); ("className", cls [className c])] []
                 (cell c row)) (columns p) ++
     for_some (rowActions p) (λ f, [El "td" [("data-col", AStr (js "__actions"))] [] (f row)])).

Definition DataTable (p : DataTableProps T E) (sort : option DataTableSort) : node E :=
  let hasActions := if rowActions p is Some _ then true else false in
  let colSpan := (Z.of_nat (length (columns p)) + (if hasActions then 1 else 0))%Z in
  let shown := display p sort in
  El "div" [("data-slot", AStr (js "data-table"))] []
    (El "table" [] []
       [El "thead" [] []
          [El "tr" [] []
             (map (header_cell sort) (columns p) ++
              when hasActions
                [El "th" [("data-col", AStr (js "__actions"))] []
                   (default [El "span" [] [] [Text (js "Actions")]] (actionsHeader p))])];
        El "tbody" [] []
          (match shown with
           | [] => [El "tr" [("data-slot", AStr (js "data-table-empty"))] []
                      [El "td" [("colSpan", AInt colSpan)] []
                         (default [Text (js "No items")] (empty p))]]
           | _ => imap (body_row p (length shown)) shown
           end)] ::
     for_some (caption p) (λ c, [El "div" [("data-slot", AStr (js "data-table-caption"))] [] c])).
End table.

(** ** Lemmas *)

(** What a table offers: sorting by a column that has a button, and the events of
    its headers, cells, row actions and extras. *)
Section events.
Context `{Unicode} {T E : Type} (toggle : jsstr → E) (p : DataTableProps T E) (sort : option DataTableSort) (e : E).

Lemma header_cell_events (c : DataTableColumn T E) : e ∈ enabled_events [header_cell toggle sort c] →
  e = toggle (key c) ∨ e ∈ enabled_events (header c).
Proof.
  unfold header_cell, SortIndicator. rewrite enabled_events_El. cbv zeta.
  assert (attribute "disabled" ([("data-col", AStr (key c))] ++ attr_some "aria-sort" (aria_sort sort c) ++
    [("className", cls [headerClassName c])]) = None) as -> by (by destruct (aria_sort sort c)).
  destruct (sortAccessor c); simpl_events; [|by right].
  rewrite elem_of_cons, elem_of_app. intros [He|[He|He]]; [by left|by right|]. by apply elem_of_nil in He.
Qed.

Lemma body_row_events n i row : e ∈ enabled_events [body_row p n i row] →
  (∃ c, c ∈ columns p ∧ e ∈ enabled_events (cell c row)) ∨
  ∃ f, rowActions p = Some f ∧ e ∈ enabled_events (f row).
Proof.
  unfold body_row. simpl_events. rewrite elem_of_app, elem_of_enabled_map. intros [(c & Hc & He)|He].
  - left. exists c. split; [done|]. by simpl_events in He.
  - right. destruct (rowActions p) as [f|]; [|by apply elem_of_nil in He]. exists f. split; [done|].
    cbn [for_some] in He. by simpl_events in He.
Qed.

Lemma DataTable_events : e ∈ enabled_events [DataTable toggle p sort] →
  (∃ c, c ∈ columns p ∧ (e = toggle (key c) ∨ e ∈ enabled_events (header c))) ∨
  (∃ row, row ∈ display p sort ∧
     ((∃ c, c ∈ columns p ∧ e ∈ enabled_events (cell c row)) ∨
      ∃ f, rowActions p = Some f ∧ e ∈ enabled_events (f row))) ∨
  e ∈ enabled_events (default [] (empty p)) ∨ e ∈ enabled_events (default [] (actionsHeader p)) ∨
  e ∈ enabled_events (default [] (caption p)).
Proof.
  unfold DataTable. rewrite enabled_events_El, enabled_events_cons, enabled_events_El, (enabled_events_cons (El "thead" _ _ _)).
  simpl_events. rewrite !elem_of_app. intros [[[Hh|Ha]|Hb]|Hc].
  - left. apply elem_of_enabled_map in Hh as (c & Hc & He). exists c. split; [done|]. by apply header_cell_events.
  - destruct (rowActions p); [|by apply elem_of_nil in Ha]. cbn [when] in Ha. simpl_events in Ha.
    destruct (actionsHeader p); [by right; right; right; left|by apply elem_of_nil in Ha].
  - right. destruct (display p sort) as [|r rs] eqn:Ed; [right; left|left].
    + simpl_events in Hb. destruct (empty p); [done|by apply elem_of_nil in Hb].
    + apply elem_of_enabled_imap in Hb as (i & row & Hr & He). exists row. split; [done|].
      by apply body_row_events in He.
  - destruct (caption p); [|by apply elem_of_nil in Hc]. cbn [for_some] in Hc. simpl_events in Hc.
    by do 4 right.
Qed.
End events.

(** The index tiebreak is what a stable sort does anyway: sorting the pairs is
    sorting the rows. *)
Lemma sort_insert_indexed `{Unicode} {T} (acc : T → jsval) dir x i l :
  Forall (λ p, i < p.2) l →
  map fst (sort_insert (row_compare acc dir) (x, i) l) =
  sort_insert (λ a b, compareValues (acc a) (acc b) dir) x (map fst l).
Proof.
  induction 1 as [|[y j] l Hj Hl IH]; [done|]. simpl in *. unfold row_compare at 1. simpl.
  destruct (compareValues (acc x) (acc y) dir =? 0) eqn:E; bool_to_prop.
  - by rewrite E, (proj2 (Z.leb_le (i - j) 0)) by lia.
  - destruct (_ <=? 0); simpl; [done|]. by rewrite IH.
Qed.

Lemma with_index_bounds {T} i (l : list T) : Forall (λ p, i ≤ p.2) (with_index i l).
Proof.
  revert i. induction l as [|x l IH]; intros i; simpl; constructor; [simpl; lia|].
  eapply Forall_impl; [apply IH|]. simpl. lia.
Qed.

Lemma sortRows_array_sort `{Unicode} {T} (l : list T) (acc : T → jsval) dir :
  sortRows l acc dir = array_sort (λ a b, compareValues (acc a) (acc b) dir) l.
Proof.
  unfold sortRows. generalize 0. induction l as [|x l IH]; intros i; [done|]. simpl.
  rewrite sort_insert_indexed, IH; [done|]. rewrite array_sort_perm.
  eapply Forall_impl; [apply with_index_bounds|]. simpl. lia.
Qed.

(** No row is lost or duplicated, whatever the values. *)
Lemma sortRows_perm `{Unicode} {T} (l : list T) (acc : T → jsval) dir : sortRows l acc dir ≡ₚ l.
Proof. rewrite sortRows_array_sort. apply array_sort_perm. Qed.

(** A column holds numbers or text (or nothing), not both. *)
Definition number_value (v : jsval) : Prop :=
  match v with JNumber x => num_wf x | JString _ => False | _ => True end.

Definition text_value (v : jsval) : Prop :=
  match v with JNumber _ => False | _ => True end.

Definition column_values {T} (acc : T → jsval) : Prop :=
  (∀ r, number_value (acc r)) ∨ (∀ r, text_value (acc r)).

(** Finite numbers compare as their exact values. *)
Lemma compare_numbers x y : num_wf x → num_wf y → is_finite x = true → is_finite y = true →
  (if num_ltb x y then -1 else if num_ltb y x then 1 else 0) = Z.sgn (scaled x - scaled y).
Proof.
  intros. rewrite !num_ltb_scaled by done. split_tests; lia.
Qed.

Section column.
Context `{U : Unicode} `{!UnicodeLaws U} {T : Type} (acc : T → jsval) (Hacc : column_values acc).

(** Both kinds of column have an ordering key: the exact value, or the text. *)
Lemma compareValues_present dir a b : is_missing (acc a) = false → is_missing (acc b) = false →
  compareValues (acc a) (acc b) dir =
    match dir with Asc => 1 | Desc => -1 end * compareValues (acc a) (acc b) Asc.
Proof.
  intros Ha Hb. unfold compareValues. rewrite Ha, Hb. simpl. destruct dir; lia.
Qed.

Lemma compare_asc_comparator : Comparator (λ a b : { r : T | is_missing (acc r) = false },
  compareValues (acc (`a)) (acc (`b)) Asc).
Proof.
  destruct Hacc as [Hnum|Htxt].
  - assert (∀ a b : { r : T | is_missing (acc r) = false }, ∃ x y,
      acc (`a) = JNumber x ∧ acc (`b) = JNumber y ∧
      compareValues (acc (`a)) (acc (`b)) Asc = Z.sgn (scaled x - scaled y)) as H.
    { intros [a Ha] [b Hb]. simpl. pose proof (Hnum a) as Wa. pose proof (Hnum b) as Wb.
      destruct (acc a) as [| |x|]; try done. destruct (acc b) as [| |y|]; try done.
      exists x, y. split_and!; [done..|]. unfold compareValues. rewrite Ha, Hb. simpl in *.
      apply compare_numbers; try done; by apply negb_false_iff. }
    split.
    + intros a b. destruct (H a b) as (x & y & E1 & E2 & ->).
      destruct (H b a) as (y' & x' & E3 & E4 & ->).
      assert (x' = x) as -> by congruence. assert (y' = y) as -> by congruence. lia.
    + intros a b c. destruct (H a b) as (x & y & E1 & E2 & ->).
      destruct (H b c) as (y' & z & E3 & E4 & ->). destruct (H a c) as (x' & z' & E5 & E6 & ->).
      assert (x' = x) as -> by congruence. assert (y' = y) as -> by congruence.
      assert (z' = z) as -> by congruence. lia.
  - assert (∀ a b : { r : T | is_missing (acc r) = false }, ∃ s t,
      acc (`a) = JString s ∧ acc (`b) = JString t ∧
      compareValues (acc (`a)) (acc (`b)) Asc = locale_compare_numeric s t) as H.
    { intros [a Ha] [b Hb]. simpl. pose proof (Htxt a) as Wa. pose proof (Htxt b) as Wb.
      destruct (acc a) as [| | |s]; try done. destruct (acc b) as [| | |t]; try done. by exists s, t. }
    split.
    + intros a b. destruct (H a b) as (x & y & E1 & E2 & ->).
      destruct (H b a) as (y' & x' & E3 & E4 & ->).
      assert (x' = x) as -> by congruence. assert (y' = y) as -> by congruence. apply cmp_antisym.
    + intros a b c. destruct (H a b) as (x & y & E1 & E2 & ->).
      destruct (H b c) as (y' & z & E3 & E4 & ->). destruct (H a c) as (x' & z' & E5 & E6 & ->).
      assert (x' = x) as -> by congruence. assert (y' = y) as -> by congruence.
      assert (z' = z) as -> by congruence. apply cmp_trans.
Qed.

Lemma compareValues_comparator dir : Comparator (λ a b, compareValues (acc a) (acc b) dir).
Proof.
  pose proof compare_asc_comparator as [Hanti Htrans]. split.
  - intros a b. destruct (is_missing (acc a)) eqn:Ha, (is_missing (acc b)) eqn:Hb;
      try (unfold compareValues; rewrite Ha, Hb; done).
    rewrite compareValues_present, (compareValues_present _ b) by done.
    specialize (Hanti (exist _ a Ha) (exist _ b Hb)). cbn [proj1_sig] in *. destruct dir; lia.
  - intros a b c. destruct (is_missing (acc a)) eqn:Ha, (is_missing (acc b)) eqn:Hb,
      (is_missing (acc c)) eqn:Hc;
      try (unfold compareValues; rewrite ?Ha, ?Hb, ?Hc; simpl; lia).
    rewrite compareValues_present, (compareValues_present _ b), (compareValues_present _ a c) by done.
    pose proof (Htrans (exist _ a Ha) (exist _ b Hb) (exist _ c Hc)) as H1.
    pose proof (Htrans (exist _ c Hc) (exist _ b Hb) (exist _ a Ha)) as H2.
    pose proof (Hanti (exist _ a Ha) (exist _ b Hb)). pose proof (Hanti (exist _ b Hb) (exist _ c Hc)).
    pose proof (Hanti (exist _ a Ha) (exist _ c Hc)). cbn [proj1_sig] in *. destruct dir; lia.
Qed.

(** Missing values come last, in either direction, in their original order. *)
Lemma sortRows_missing_last dir l :
  ∃ present, sortRows l acc dir = present ++ filter (λ r, is_missing (acc r) = true) l ∧
             Forall (λ r, is_missing (acc r) = false) present.
Proof.
  pose proof (compareValues_comparator dir) as Hc. rewrite sortRows_array_sort.
  set (cmp := λ a b, compareValues (acc a) (acc b) dir) in *.
  assert (filter (λ r, is_missing (acc r) = true) (array_sort cmp l) =
          filter (λ r, is_missing (acc r) = true) l) as Hstable.
  { destruct (filter (λ r, is_missing (acc r) = true) l) as [|a m] eqn:E.
    - apply filter_none. rewrite array_sort_perm. by apply (proj1 (filter_none_iff (λ r, is_missing (acc r) = true) l)).
    - assert (is_missing (acc a) = true) as Ha.
      { assert (a ∈ a :: m) as Hin by left. rewrite <-E in Hin. by apply list_elem_of_filter in Hin as []. }
      rewrite <-E. pose proof (array_sort_stable cmp a l) as Hs. unfold equals_of in Hs.
      assert (∀ k : list T, filter (λ b, cmp a b = 0) k = filter (λ r, is_missing (acc r) = true) k) as Hf.
      { intros k. apply list_filter_iff. intros r. unfold cmp, compareValues. rewrite Ha. simpl.
        by destruct (is_missing (acc r)). }
      by rewrite !Hf in Hs. }
  exists (filter (λ r, ¬ is_missing (acc r) = true) (array_sort cmp l)). split.
  - rewrite <-Hstable. clear Hstable. pose proof (array_sort_sorted cmp l) as Hs.
    induction Hs as [|x k Hk IH Hx]; [done|]. rewrite !filter_cons.
    destruct (is_missing (acc x)) eqn:Ex; simpl; [|by rewrite IH at 1].
    assert (Forall (λ r, is_missing (acc r) = true) k) as Hk'.
    { eapply Forall_impl; [exact Hx|]. intros r Hr. unfold cmp_le, cmp, compareValues in Hr.
      rewrite Ex in Hr. simpl in Hr. by destruct (is_missing (acc r)). }
    rewrite filter_none, filter_all; [done|done|]. eapply Forall_impl; [exact Hk'|]. auto.
  - apply Forall_forall. intros r [Hr _]%list_elem_of_filter. by apply not_true_is_false.
Qed.
End column.

(** The clicks of a user on column headers, in order. *)
Definition clicks (ks : list jsstr) (s : option DataTableSort) : option DataTableSort :=
  foldl (λ cur k, Some (toggleSort k cur)) s ks.

Lemma clicks_app ks1 ks2 s : clicks (ks1 ++ ks2) s = clicks ks2 (clicks ks1 s).
Proof. apply foldl_app. Qed.

Definition opposite (d : SortDir) : SortDir := if decide (d = Asc) then Desc else Asc.

Lemma opposite_involutive d : opposite (opposite d) = d.
Proof. by destruct d. Qed.

(** Repeated clicks on one header alternate. *)
Lemma clicks_same k d n :
  clicks (replicate n k) (Some (TableSort k d)) =
  Some (TableSort k (if Nat.even n then d else opposite d)).
Proof.
  revert d. induction n as [|n IH]; intros d; [done|].
  change (clicks (replicate (S n) k) (Some (TableSort k d)))
    with (clicks (replicate n k) (Some (toggleSort k (Some (TableSort k d))))).
  assert (toggleSort k (Some (TableSort k d)) = TableSort k (opposite d)) as ->.
  { unfold toggleSort, js_eqb. simpl. by rewrite bool_decide_true. }
  rewrite IH, Nat.even_succ, <-Nat.negb_even.
  by destruct (Nat.even n); rewrite ?opposite_involutive.
Qed.

(** The rows shown are the rows given, reordered. *)
Lemma display_perm `{Unicode} {T E} (p : DataTableProps T E) s : display p s ≡ₚ rows p.
Proof.
  unfold display. destruct s as [s|]; [|done].
  destruct (List.find _ (columns p)) as [col|]; [|done].
  destruct (sortAccessor col); [apply sortRows_perm|done].
Qed.

(** ** Properties *)

(** C7. Sorting a column of numbers or of text keeps every row exactly once; puts
    rows in comparison order for the direction; keeps rows that compare equal in
    their original order; and puts rows without a value (null, undefined, NaN,
    infinite) last in both directions, in their original order. *)
Theorem sortRows_correct `{U : Unicode} `{!UnicodeLaws U} {T} (l : list T) acc dir :
  column_values acc →
  let s := sortRows l acc dir in
  s ≡ₚ l ∧
  StronglySorted (λ a b, compareValues (acc a) (acc b) dir ≤ 0) s ∧
  (∀ a, filter (λ b, compareValues (acc a) (acc b) dir = 0) s =
        filter (λ b, compareValues (acc a) (acc b) dir = 0) l) ∧
  ∃ present, s = present ++ filter (λ r, is_missing (acc r) = true) l ∧
             Forall (λ r, is_missing (acc r) = false) present.
Proof.
  intros Hacc s. pose proof (compareValues_comparator acc Hacc dir) as Hc. unfold s.
  split_and!; [apply sortRows_perm| | |by apply sortRows_missing_last]; rewrite sortRows_array_sort.
  - apply (array_sort_sorted (λ a b, compareValues (acc a) (acc b) dir)).
  - intros a. apply (array_sort_stable (λ a b, compareValues (acc a) (acc b) dir)).
Qed.

(** A column of spend figures with a gap, sorted in descending order. *)
Lemma sortRows_correct_witness :
  let acc i := nth i [JNumber (num_of_Z 2); JNull; JNumber (num_of_Z 10)] JNull in
  sortRows (U := ascii_unicode) [0%nat; 1%nat; 2%nat] acc Desc = [2%nat; 0%nat; 1%nat] ∧
  StronglySorted (λ a b, compareValues (U := ascii_unicode) (acc a) (acc b) Desc ≤ 0) [2%nat; 0%nat; 1%nat].
Proof.
  split; [vm_compute; reflexivity|].
  refine (proj1 (proj2 (sortRows_correct (U := ascii_unicode) [0%nat; 1%nat; 2%nat]
    (λ i, nth i [JNumber (num_of_Z 2); JNull; JNumber (num_of_Z 10)] JNull) Desc _))).
  left. intros [|[|[|[|]]]]; vm_compute; exact I || reflexivity.
Defined.

(** The table never loses, adds or duplicates a row, whatever was clicked and
    whatever the accessors return; and after [n + 1] consecutive clicks on a header
    that column is the active one: the first click on an inactive column sorts it
    descending, and every further click turns the direction around. *)
Theorem DataTable_clicks `{Unicode} {T E} (p : DataTableProps T E) before k n :
  let s := clicks before (initial_sort p) in
  let first := match s with
    | Some c => if js_eqb (sort_key c) k then opposite (sort_dir c) else Desc
    | None => Desc
    end in
  display p s ≡ₚ rows p ∧
  clicks (before ++ replicate (S n) k) (initial_sort p) =
    Some (TableSort k (if Nat.even n then first else opposite first)).
Proof.
  intros s first. split.
  - apply display_perm.
  - rewrite clicks_app. fold s. rewrite <-(clicks_same k first n).
    change (clicks (replicate (S n) k) s) with (clicks (replicate n k) (Some (toggleSort k s))).
    do 2 f_equal. unfold toggleSort, first, opposite. destruct s as [c|]; [|done]. by destruct (js_eqb _ _).
Qed.

End Sort.
