(* ===== verification/ApiTypes.v ===== *)
(** * Backend JSON shapes (src/ui/src/lib/api-types.ts)

    One record per interface, fields in source order.  A nullable or optional field
    is an [option]; a field that may be absent, [null] or a value, where the code
    tells them apart, is written out. *)

From S2P Require Import Prelude JsNumber JsString.

(** ** GET /api/session/me *)

Record SessionLimits := {
  max_budget : option number;
  budget_duration : option jsstr;
  tpm_limit : option number;
  rpm_limit : option number
}.

Inductive SpendSource := source_team_member | source_user | source_unknown.

Record SessionSpend := { current : number; source : SpendSource }.

Record SessionMe := {
  email : jsstr;
  name : jsstr;
  team_id : jsstr;
  access_groups : list jsstr;
  endpoint : jsstr;
  limits : option SessionLimits;
  spend : SessionSpend
}.

(** ** GET /api/session/keys

    The [budget] field of a row is always [null] and is left out. *)

Record KeyRow := {
  k_id : option jsstr;
  k_key_alias : option jsstr;
  k_spend : number;
  k_tpm_limit : option number;
  k_rpm_limit : option number;
  k_models : option (list jsstr);
  k_team_id : option jsstr;
  k_created_at : option jsstr;
  k_expires : option jsstr;
  k_last_used : option jsstr;
  k_managed : option bool;
  k_revoked : option bool;
  k_blocked : option bool
}.

Record KeysResponse := { keys : list KeyRow }.

Record CreateKeyBody := {
  b_alias : option jsstr;
  b_duration : option jsstr;
  b_team_id : option jsstr
}.

Record CreateKeyResponse := {
  created_key : jsstr;
  created_id : jsstr;
  created_team_id : option jsstr
}.

Record DeleteKeyResponse := { deleted_status : jsstr; deleted_id : jsstr }.

Inductive BlockStatus := status_blocked | status_active.

Record BlockKeyResponse := { block_status : BlockStatus; block_id : jsstr }.

(** ** Teams *)

Record Team := { t_id : jsstr; t_alias : jsstr }.

Record TeamsResponse := { teams : list Team }.

Record ChangeKeyTeamResponse := {
  change_status : jsstr;
  change_id : jsstr;
  change_team_id : jsstr
}.

(** ** GET /api/session/stats *)

Record StatsRangeCompare := { compare_start : jsstr; compare_end : jsstr }.

Record StatsRange := {
  range_start : jsstr;
  range_end : jsstr;
  range_days : number;
  range_compare : StatsRangeCompare
}.

Record StatsDeltas := {
  requests_pct : option number;
  tokens_pct : option number;
  d_spend_pct : option number;
  avg_cost_per_1m_tokens_pct : option number
}.

Record StatsTotals := {
  tot_requests : number;
  tot_tokens : number;
  tot_spend : number;
  tot_failed_requests : number;
  tot_input_tokens : number;
  tot_output_tokens : number;
  tot_cache_read_tokens : number;
  tot_cache_hit_pct : option number;
  tot_avg_cost_per_1m_tokens : option number;
  deltas : StatsDeltas
}.

Record StatsSeriesPoint := {
  p_date : option jsstr;
  p_spend : number;
  p_requests : number;
  p_tokens : number;
  p_input_tokens : number;
  p_output_tokens : number;
  p_failed : number
}.

Record StatsModelRow := {
  m_model : option jsstr;
  m_requests : number;
  m_input_tokens : number;
  m_output_tokens : number;
  m_total_tokens : number;
  m_cache_read_tokens : number;
  m_spend : number;
  m_spend_pct : option number;
  m_last_used : option jsstr
}.

Record StatsKeyRow := {
  s_id : option jsstr;
  s_key_alias : option jsstr;
  s_requests : number;
  s_spend : number;
  s_spend_pct : option number;
  s_managed : option bool;
  s_deleted : option bool
}.

Record StatsBudget := {
  bud_current : number;
  bud_max_budget : option number;
  bud_budget_duration : option jsstr;
  bud_source : SpendSource;
  bud_pct : option number;
  has_budget : bool
}.

Record StatsCapabilities := {
  token_split : bool;
  per_model_last_used : bool;
  cap_deltas : bool;
  per_key_spend : bool
}.

Record StatsResponse := {
  range : StatsRange;
  totals : StatsTotals;
  series : list StatsSeriesPoint;
  stats_models : list StatsModelRow;
  stats_keys : list StatsKeyRow;
  budget : StatsBudget;
  capabilities : StatsCapabilities
}.

(** The capability map as the panels look it up, by name. *)
Definition capability_map (c : StatsCapabilities) : gmap (list Z) bool :=
  list_to_map [(js "token_split", token_split c); (js "per_model_last_used", per_model_last_used c);
               (js "deltas", cap_deltas c); (js "per_key_spend", per_key_spend c)].

(** ** GET /api/session/latency *)

Record LatencyWindow := { win_start : jsstr; win_end : jsstr; win_days : number }.

Record LatencyMetrics := {
  p50_ms : option number;
  p95_ms : option number;
  p99_ms : option number;
  avg_ms : option number;
  ttft_p50_ms : option number;
  ttft_p95_ms : option number;
  tokens_per_sec_p50 : option number
}.

Record LatencyOutcome := { o_status : jsstr; o_count : number }.

Record LatencyByModel := {
  bm_model : jsstr;
  bm_requests : number;
  bm_failed : number;
  bm_p50_ms : option number;
  bm_p95_ms : option number
}.

Record LatencyResponse := {
  available : bool;
  reason : option jsstr;
  sampled : bool;
  row_count : number;
  window : option LatencyWindow;
  latency : option LatencyMetrics;
  outcomes : list LatencyOutcome;
  by_model : list LatencyByModel
}.

(** ** GET /api/session/models, /mcp and /a2a *)

Record ModelRow := {
  mr_name : option jsstr;
  mr_providers : list jsstr;
  mr_mode : option jsstr;
  max_input_tokens : option number;
  max_output_tokens : option number;
  input_cost_per_token : option number;
  output_cost_per_token : option number;
  supports_vision : bool;
  supports_function_calling : bool;
  supports_reasoning : bool;
  supports_web_search : bool
}.

Record ModelsResponse := { models : list ModelRow }.

Record McpServerRow := {
  mcp_id : option jsstr;
  mcp_name : option jsstr;
  mcp_description : option jsstr;
  mcp_url : option jsstr;
  mcp_transport : option jsstr;
  mcp_auth_type : option jsstr;
  mcp_status : option jsstr;
  tools : list jsstr;
  tool_count : number;
  mcp_access_groups : list jsstr
}.

Record McpResponse := { servers : list McpServerRow; mcp_available : bool }.

Record A2aAgentRow := {
  a2a_id : option jsstr;
  a2a_name : option jsstr;
  a2a_description : option jsstr;
  a2a_url : option jsstr;
  a2a_transport : option jsstr;
  version : option jsstr;
  skills : list jsstr;
  skill_count : number;
  streaming : bool
}.

Record A2aResponse := { agents : list A2aAgentRow; a2a_available : bool }.

(** ** GET /api/config *)

Record ConfigProvider := { label : jsstr }.

(** [links] maps a link's name to its target; only set targets are sent. *)
Record AppConfig := {
  brand : jsstr;
  brand_short : jsstr;
  provider_name : jsstr;
  tagline : jsstr;
  accent_segment : jsstr;
  public_host : jsstr;
  chat_public_url : jsstr;
  providers : list ConfigProvider;
  links : gmap (list Z) jsstr
}.
