(* ===== verification/Csv.v ===== *)
(** * CSV export (src/ui/src/lib/csv.ts, components/stats/ExportCsvButton.tsx)

    The serializer of the stats exports, against a reference reader of RFC 4180
    files with LF record separators. *)

From Stdlib Require Import String.
From S2P Require Import Prelude JsNumber JsString JsText View Sort.
Import Sort.

Module Csv.

(** {key, header}: the key is what it selects from a row. *)
Record CsvColumn (T : Type) := Column { select : T → jsval; col_header : jsstr }.
Arguments Column {_} _ _. Arguments select {_} _ _. Arguments col_header {_} _.

Definition DQ : Z := 34.
Definition LF : Z := 10.
Definition COMMA : Z := 44.

(** [/^[=+\-@]/]. *)
Definition FORMULA_PREFIX (s : jsstr) : bool :=
  match s with
  | c :: _ => (c =? chr "=") || (c =? chr "+") || (c =? chr "-") || (c =? chr "@")
  | [] => false
  end.

(** A character that must be quoted: a double quote, a comma or a line feed. *)
Definition needs_quotes (s : jsstr) : bool :=
  existsb (λ c, (c =? DQ) || (c =? COMMA) || (c =? LF)) s.

Definition cell (value : jsval) : jsstr :=
  match value with
  | JNull | JUndefined => []
  | _ =>
      let s := to_string value in
      let s := if FORMULA_PREFIX s then chr "'" :: s else s in
      if needs_quotes s then DQ :: replace_char DQ [DQ; DQ] s ++ [DQ] else s
  end.

Definition csv_line (cells : list jsstr) : jsstr := js_join [COMMA] cells.

Definition toCsv {T} (rows : list T) (columns : list (CsvColumn T)) : jsstr :=
  let head := csv_line (map (λ c, cell (JString (col_header c))) columns) in
  let body := map (λ r, csv_line (map (λ c, cell (select c r)) columns)) rows in
  js_join [LF] (head :: body) ++ [LF].

(** The button's click serializes what it was given; [downloadCsv] hands the file
    to the browser. *)
Inductive export_event := downloadCsv (filename csv : jsstr).

Definition ExportCsvButton {T} (rows : list T) (columns : list (CsvColumn T)) (filename : jsstr)
    : list (node export_event) :=
  when (negb (Nat.eqb (length rows) 0))
    [El "button" [("data-slot", AStr (js "export-csv")); ("title", AStr (js "Export CSV"));
                  ("aria-label", AStr (js "Export CSV"))]
       [("onClick", downloadCsv filename (toCsv rows columns))] []].

(** ** Reference reader *)

Inductive reader := AtStart | Plain | Quoted | AfterQuote.

Definition CR : Z := 13.

(** Read records as RFC 4180 has them, a line ending in a line feed: a field is plain,
    without quotes, commas and line breaks of either kind, or quoted, with its quotes
    doubled.  The current field and record are in reverse. *)
Fixpoint read_csv (st : reader) (cur : jsstr) (rec : list jsstr) (out : list (list jsstr))
    (s : jsstr) : option (list (list jsstr)) :=
  match s with
  | [] => match st, cur, rec with AtStart, [], [] => Some (reverse out) | _, _, _ => None end
  | c :: s' =>
      let end_field := read_csv AtStart [] (reverse cur :: rec) out s' in
      let end_record := read_csv AtStart [] [] (reverse (reverse cur :: rec) :: out) s' in
      match st with
      | AtStart =>
          if c =? DQ then read_csv Quoted [] rec out s'
          else if c =? COMMA then end_field else if c =? LF then end_record else if c =? CR then None
          else read_csv Plain (c :: cur) rec out s'
      | Plain =>
          if c =? DQ then None
          else if c =? COMMA then end_field else if c =? LF then end_record else if c =? CR then None
          else read_csv Plain (c :: cur) rec out s'
      | Quoted =>
          if c =? DQ then read_csv AfterQuote cur rec out s' else read_csv Quoted (c :: cur) rec out s'
      | AfterQuote =>
          if c =? DQ then read_csv Quoted (c :: cur) rec out s'
          else if c =? COMMA then end_field else if c =? LF then end_record else None
      end
  end.

Definition parse_csv (s : jsstr) : option (list (list jsstr)) := read_csv AtStart [] [] [] s.

(** The characters a spreadsheet takes for the start of a formula, and the text a
    field is to carry: empty for a missing value, with a quote before a formula. *)
Definition FORMULA_CHARS : jsstr := js "=+-@".

Definition field_text (value : jsval) : jsstr :=
  match value with
  | JNull | JUndefined => []
  | _ =>
      match to_string value with
      | c :: s => if bool_decide (c ∈ FORMULA_CHARS) then chr "'" :: c :: s else c :: s
      | [] => []
      end
  end.

(** A text the format can carry as the serializer writes it: a carriage return must
    come with a character the serializer quotes for. *)
Definition readable (f : jsstr) : bool :=
  bool_decide (CR ∉ f) || bool_decide (DQ ∈ f ∨ COMMA ∈ f ∨ LF ∈ f).

(** ** Lemmas *)

(** What the reader does at the end of a field. *)
Definition field_end (sep : Z) (t : jsstr) (rec : list jsstr) out s : option (list (list jsstr)) :=
  if sep =? COMMA then read_csv AtStart [] (t :: rec) out s
  else read_csv AtStart [] [] (reverse (t :: rec) :: out) s.

Lemma formula_prefix_spec s : (if FORMULA_PREFIX s then chr "'" :: s else s) =
  match s with c :: s' => if bool_decide (c ∈ FORMULA_CHARS) then chr "'" :: c :: s' else c :: s' | [] => [] end.
Proof.
  destruct s as [|c s]; [done|].
  assert (FORMULA_PREFIX (c :: s) = bool_decide (c ∈ FORMULA_CHARS)) as ->; [|by case_bool_decide].
  apply eq_true_iff_eq. rewrite bool_decide_eq_true. change FORMULA_CHARS with [chr "="; chr "+"; chr "-"; chr "@"].
  rewrite !elem_of_cons, elem_of_nil. cbn [FORMULA_PREFIX]. rewrite !orb_true_iff, !Z.eqb_eq. tauto.
Qed.

Lemma needs_quotes_spec s : needs_quotes s = bool_decide (DQ ∈ s ∨ COMMA ∈ s ∨ LF ∈ s).
Proof.
  apply eq_true_iff_eq. rewrite bool_decide_eq_true. unfold needs_quotes. rewrite existsb_exists.
  setoid_rewrite orb_true_iff. setoid_rewrite orb_true_iff. setoid_rewrite Z.eqb_eq. setoid_rewrite <-list_elem_of_In.
  naive_solver.
Qed.

Lemma read_plain t cur rec out sep s : needs_quotes t = false → sep = COMMA ∨ sep = LF →
  read_csv Plain cur rec out (t ++ sep :: s) =
  if bool_decide (CR ∈ t) then None else field_end sep (reverse cur ++ t) rec out s.
Proof.
  intros Ht Hsep. revert cur. induction t as [|c t IH]; intros cur.
  - rewrite app_nil_r. by destruct Hsep as [-> | ->].
  - simpl in Ht. apply orb_false_iff in Ht as [Hc Ht]. apply orb_false_iff in Hc as [Hc Hl].
    apply orb_false_iff in Hc as [Hq Hc]. simpl. rewrite Hq, Hc, Hl. destruct (c =? CR) eqn:E.
    + apply Z.eqb_eq in E as ->. rewrite bool_decide_true; [done|left].
    + apply Z.eqb_neq in E. rewrite IH by done. rewrite reverse_cons, <-app_assoc.
      rewrite (bool_decide_ext (CR ∈ c :: t) (CR ∈ t)); [done|]. rewrite elem_of_cons. naive_solver.
Qed.

Lemma read_quoted t cur rec out sep s : sep = COMMA ∨ sep = LF →
  read_csv Quoted cur rec out (replace_char DQ [DQ; DQ] t ++ DQ :: sep :: s) =
  field_end sep (reverse cur ++ t) rec out s.
Proof.
  intros Hsep. revert cur. induction t as [|c t IH]; intros cur.
  - rewrite app_nil_r. by destruct Hsep as [-> | ->].
  - unfold replace_char. simpl. fold (replace_char DQ [DQ; DQ] t). destruct (c =? DQ) eqn:E.
    + apply Z.eqb_eq in E as ->. simpl. rewrite IH. by rewrite reverse_cons, <-app_assoc.
    + simpl. rewrite E, IH. by rewrite reverse_cons, <-app_assoc.
Qed.

(** A serialized text followed by a separator reads as that text, if it can. *)
Lemma read_text t rec out sep s : sep = COMMA ∨ sep = LF →
  read_csv AtStart [] rec out ((if needs_quotes t then DQ :: replace_char DQ [DQ; DQ] t ++ [DQ] else t) ++ sep :: s) =
  if readable t then field_end sep t rec out s else None.
Proof.
  intros Hsep. unfold readable. rewrite <-needs_quotes_spec. destruct (needs_quotes t) eqn:E.
  - rewrite orb_true_r, <-app_comm_cons, <-app_assoc. cbn [app]. simpl. by rewrite read_quoted.
  - rewrite orb_false_r. destruct t as [|c t]; [by destruct Hsep as [-> | ->]|].
    pose proof E as E'. simpl in E. apply orb_false_iff in E as [Hc Ht].
    apply orb_false_iff in Hc as [Hc Hl]. apply orb_false_iff in Hc as [Hq Hc].
    simpl. rewrite Hq, Hc, Hl. destruct (c =? CR) eqn:Er.
    + apply Z.eqb_eq in Er as ->. rewrite bool_decide_false; [done|]. intros Hn. apply Hn. left.
    + apply Z.eqb_neq in Er. rewrite read_plain by done. assert (CR ∈ c :: t ↔ CR ∈ t) as Hc' by (rewrite elem_of_cons; naive_solver).
      rewrite (bool_decide_ext _ _ (not_iff_compat Hc')), bool_decide_not. by case_bool_decide.
Qed.

Lemma read_cell v rec out sep s : sep = COMMA ∨ sep = LF →
  read_csv AtStart [] rec out (cell v ++ sep :: s) =
  if readable (field_text v) then field_end sep (field_text v) rec out s else None.
Proof.
  intros Hsep. unfold cell, field_text. destruct v; try (by destruct Hsep as [-> | ->]);
    rewrite formula_prefix_spec; by apply read_text.
Qed.

(** A line of cells reads as a record. *)
Lemma read_line vs rec out s : vs ≠ [] →
  read_csv AtStart [] rec out (csv_line (map cell vs) ++ LF :: s) =
  if forallb readable (map field_text vs)
  then read_csv AtStart [] [] ((reverse rec ++ map field_text vs) :: out) s else None.
Proof.
  revert rec. induction vs as [|v vs IH]; intros rec Hne; [done|].
  destruct vs as [|v' vs].
  - change (csv_line (map cell [v])) with (cell v). rewrite read_cell by auto. cbn [map forallb]. rewrite andb_true_r.
    change (field_end LF (field_text v) rec out s)
      with (read_csv AtStart [] [] (reverse (field_text v :: rec) :: out) s). by rewrite reverse_cons.
  - change (csv_line (map cell (v :: v' :: vs)))
      with (cell v ++ COMMA :: csv_line (map cell (v' :: vs))).
    rewrite <-app_assoc, <-app_comm_cons, read_cell by auto.
    match goal with |- context [field_end COMMA ?t ?r ?o ?k] =>
      change (field_end COMMA t r o k) with (read_csv AtStart [] (t :: r) o k) end.
    rewrite IH by done. rewrite reverse_cons, <-app_assoc. cbn [map forallb].
    by destruct (readable (field_text v)).
Qed.

Lemma read_lines (vss : list (list jsval)) out : Forall (λ vs, vs ≠ []) vss → vss ≠ [] →
  read_csv AtStart [] [] out (js_join [LF] (map (λ vs, csv_line (map cell vs)) vss) ++ [LF]) =
  if forallb (forallb readable) (map (map field_text) vss)
  then Some (reverse out ++ map (map field_text) vss) else None.
Proof.
  intros H. revert out. induction H as [|vs vss Hvs Hvss IH]; intros out Hne; [done|].
  destruct vss as [|vs' vss].
  - cbn [map js_join forallb]. rewrite read_line, andb_true_r by done. simpl. by rewrite reverse_cons.
  - change (js_join [LF] (map (λ vs, csv_line (map cell vs)) (vs :: vs' :: vss)))
      with (csv_line (map cell vs) ++ [LF] ++
            js_join [LF] (map (λ vs, csv_line (map cell vs)) (vs' :: vss))).
    rewrite <-!app_assoc. cbn [app]. rewrite read_line by done. cbn [reverse app].
    rewrite IH by done. rewrite reverse_cons, <-app_assoc.
    change (map (map field_text) (vs :: vs' :: vss)) with (map field_text vs :: map (map field_text) (vs' :: vss)).
    cbn [forallb]. by destruct (forallb readable (map field_text vs)).
Qed.

Lemma field_text_safe v c s : field_text v = c :: s → c ∉ FORMULA_CHARS.
Proof.
  assert (∀ t, match t with c :: s => if bool_decide (c ∈ FORMULA_CHARS) then chr "'" :: c :: s else c :: s | [] => [] end
    = c :: s → c ∉ FORMULA_CHARS) as H.
  { intros [|d t]; [done|]. case_bool_decide as Hd; intros [= <- <-]; [|done]. apply (bool_decide_eq_true_1 _). reflexivity. }
  destruct v; [done..|apply H|apply H].
Qed.

(** ** Properties *)

(** C12. An export read back.  The records of a file are the headers of its columns
    and then one per row, in order, a field being the text of its value: empty when
    missing, and with a quote before it when it starts with one of = + - @, so that
    no field does.  The file of any rows and any non-empty list of columns reads as
    exactly these records by the rules of RFC 4180 if every field with a carriage
    return also has a double quote, a comma or a line feed; otherwise it is not a
    file of that format (the serializer leaves a lone carriage return unquoted). *)
Theorem toCsv_roundtrip {T} (rows : list T) columns : columns ≠ [] →
  let records := map (λ c, field_text (JString (col_header c))) columns ::
                 map (λ r, map (λ c, field_text (select c r)) columns) rows in
  parse_csv (toCsv rows columns) = (if forallb (forallb readable) records then Some records else None) ∧
  Forall (Forall (λ f, ∀ c s, f = c :: s → c ∉ js "=+-@")) records.
Proof.
  intros Hc records. split.
  - unfold parse_csv, toCsv.
    set (vss := map (λ c, JString (col_header c)) columns ::
                map (λ r, map (λ c, select c r) columns) rows).
    assert (map (λ vs, csv_line (map cell vs)) vss =
      csv_line (map (λ c, cell (JString (col_header c))) columns) ::
      map (λ r, csv_line (map (λ c, cell (select c r)) columns)) rows) as <-.
    { unfold vss. cbn [map]. rewrite !map_map. f_equal. apply map_ext. intros r. by rewrite map_map. }
    assert (map (map field_text) vss = records) as Hr.
    { unfold vss, records. cbn [map]. rewrite !map_map. f_equal. apply map_ext. intros r. by rewrite map_map. }
    rewrite read_lines; [by rewrite Hr|unfold vss; constructor|done].
    + by destruct columns.
    + apply Forall_map, Forall_true. intros r. by destruct columns.
  - constructor; [|apply Forall_map, Forall_true; intros r]; apply Forall_map, Forall_true; intros c; apply field_text_safe.
Qed.

(** Two columns, a formula and a value with a comma and a quote. *)
Lemma toCsv_roundtrip_witness :
  let cols := [Column (fun p : jsstr * jsstr => JString p.1) (js "name"); Column (fun p => JString p.2) (js "note")] in
  parse_csv (toCsv [(js "=1+1", js "a,b"); ([DQ], js "")] cols) =
    Some [[js "name"; js "note"]; [js "'=1+1"; js "a,b"]; [[DQ]; js ""]].
Proof.
  refine (eq_trans (proj1 (toCsv_roundtrip [(js "=1+1", js "a,b"); ([DQ], js "")]
    [Column (fun p : jsstr * jsstr => JString p.1) (js "name"); Column (fun p => JString p.2) (js "note")] _)) _).
  - discriminate.
  - vm_compute. reflexivity.
Defined.

End Csv.
