(* ===== verification/Keys.v ===== *)
(** * Key rows (src/ui/src/lib/keys.ts, lib/key-validation.ts, components/keys/KeysTable.tsx)

    The status of a key, the validation of the create-key form, and the table that
    lists keys. *)

From Stdlib Require Import String.
From S2P Require Import Prelude JsNumber JsString JsText JsDate View Format Sort ApiTypes.
Import Format Sort.

(** ** lib/keys.ts *)

Module Keys.

(** Truthiness of an optional flag. *)
Definition flag (b : option bool) : bool := default false b.

Definition isRevoked (key : option KeyRow) : bool :=
  match key with Some k => flag (k_revoked k) || flag (k_blocked k) | None => false end.

Definition isBlocked (key : option KeyRow) : bool :=
  match key with Some k => flag (k_blocked k) | None => false end.

(** [key.managed === false]: an absent flag is not external. *)
Definition unmanaged (k : KeyRow) : bool := bool_decide (k_managed k = Some false).

Definition isExternal (key : option KeyRow) : bool :=
  match key with Some k => unmanaged k | None => false end.

(** The regular expression [/(?:[zZ]|[+-]\d{2}:?\d{2})$/], on the reversed string. *)
Definition sign_after (r : jsstr) : bool :=
  match r with c :: _ => (c =? chr "+") || (c =? chr "-") | [] => false end.

Definition hasTz (s : jsstr) : bool :=
  match reverse s with
  | c :: r =>
      (c =? chr "z") || (c =? chr "Z") ||
      match c :: r with
      | d1 :: d2 :: c3 :: r3 =>
          is_digit d1 && is_digit d2 &&
          (match r3 with
           | d3 :: r4 => is_digit c3 && is_digit d3 && sign_after r4
           | [] => false
           end ||
           match r3 with
           | d3 :: d4 :: r5 => (c3 =? chr ":") && is_digit d3 && is_digit d4 && sign_after r5
           | _ => false
           end)
      | _ => false
      end
  | [] => false
  end.

Section expiry.
Context `{Engine}.

Definition parseExpiryMs (value : jsval) : option number :=
  match value with
  | JNull | JUndefined => None
  | JNumber v =>
      if negb (is_finite v) then None
      else Some (if num_ltb v (num_of_Z 1000000000000) then num_mul v (num_of_Z 1000) else v)
  | JString v =>
      let s := js_trim v in
      if negb (str_truthy s) then None
      else
        let s := replace_first (js " ") (js "T") s in
        let s := if includes (js "T") s && negb (hasTz s) then s ++ js "Z" else s in
        num_of_Z <$> date_parse s
  end.

(** [now] is [Date.now()]. *)
Definition isExpired (key : option KeyRow) (now : Z) : bool :=
  match key with
  | None => false
  | Some k =>
      match parseExpiryMs (match k_expires k with Some s => JString s | None => JNull end) with
      | Some ts => num_ltb ts (num_of_Z now)
      | None => false
      end
  end.
End expiry.

(** [Array.isArray(value) ? value : []] of a query's data. *)
Definition selectKeyRows (value : option (list KeyRow)) : list KeyRow := default [] value.

End Keys.
Import Keys.

(** ** lib/key-validation.ts *)

Module Validation.

Section alias.
Context `{U : Unicode}.

Definition alias_char (c : Z) : bool :=
  letter_or_number c || (c =? chr "-") || (c =? chr "_") || (c =? chr ".").

Definition ALIAS_RE (s : jsstr) : bool :=
  negb (bool_decide (s = [])) && forallb alias_char (code_points s).

Definition ALIAS_ERROR : jsstr :=
  js "Name may only contain letters, numbers, dash, underscore, dot (max 128).".

Definition validateAlias (value : jsstr) : option jsstr :=
  if js_eqb value [] then None
  else if (128 <? js_len value) || negb (ALIAS_RE value) then Some ALIAS_ERROR
  else None.
End alias.

Definition duration_unit (c : Z) : bool :=
  (c =? chr "d") || (c =? chr "h") || (c =? chr "m") || (c =? chr "s").

(** [/^\d+[dhms]$/]. *)
Definition DURATION_RE (s : jsstr) : bool :=
  match reverse s with
  | u :: ((_ :: _) as ds) => duration_unit u && forallb is_digit ds
  | _ => false
  end.

Definition DURATION_ERROR : jsstr := js "Expiry must look like 90d, 24h, or 30m.".
Definition CREATE_502_ERROR : jsstr := js "Couldn't create the key. Try again in a moment.".

Definition validateDuration (value : jsstr) : option jsstr :=
  if js_eqb value [] then None
  else if negb (DURATION_RE value) then Some DURATION_ERROR
  else None.

End Validation.

(** ** components/keys/KeysTable.tsx *)

Module KeysTable.

Definition KEY_ID_MAX : Z := 16.

Definition shortKeyId (id : option jsstr) : jsstr :=
  match id with
  | None | Some [] => EM_DASH
  | Some id => if KEY_ID_MAX <? js_len id then js_slice id 0 KEY_ID_MAX ++ js "…" else id
  end.

Inductive status_label := Revoked | Disabled | Expired | Active.

Definition statusFor `{Engine} (row : KeyRow) (now : Z) : status_label * jsstr :=
  if flag (k_revoked row) then (Revoked, js "destructive")
  else if isBlocked (Some row) then (Disabled, js "secondary")
  else if isExpired (Some row) now then (Expired, js "outline")
  else (Active, js "default").

Definition label_text (l : status_label) : jsstr :=
  match l with
  | Revoked => js "Revoked" | Disabled => js "Disabled"
  | Expired => js "Expired" | Active => js "Active"
  end.

Definition STATUS_RANK (l : status_label) : Z :=
  match l with Active => 0 | Expired => 1 | Disabled => 2 | Revoked => 3 end.

(** What a user can do: toggle the external rows, sort, block or unblock, revoke. *)
Inductive keys_event :=
| ToggleExternal
| SortBy (k : jsstr)
| ToggleBlock (id : jsstr) (blocked : bool)
| OnDelete (row : KeyRow).

Definition jsval_of (s : option jsstr) : jsval :=
  match s with Some s => JString s | None => JNull end.

Definition jsnum_of (x : option number) : jsval :=
  match x with Some x => JNumber x | None => JNull end.

(** [row.key_alias || row.id]. *)
Definition alias_or_id (row : KeyRow) : option jsstr :=
  if ostr_truthy (k_key_alias row) then k_key_alias row else k_id row.

Section table.
Context `{Engine} `{U : Unicode} (now : Z).

Definition keyid_cell (row : KeyRow) : list (node keys_event) :=
  let short := shortKeyId (k_id row) in
  let name := str_or (k_key_alias row) short in
  let showChip := ostr_truthy (k_key_alias row) in
  [El "div" [] []
    (El "div" [] []
       (El "span" [] [] [Text name] ::
        when (unmanaged row)
          [El "span" [("data-slot", AStr (js "key-external-badge"));
                      ("title", AStr (js "Created outside this console — managed by another service"))]
             [] [Text (js "EXTERNAL")]]) ::
     when showChip
       [El "span" [("data-slot", AStr (js "key-chip"))] [] [Text (js "id:"); Text short]])].

Definition lastused_cell (row : KeyRow) : list (node keys_event) :=
  let stale := isStale (k_last_used row) now 30 in
  [El "span" ([("data-slot", AStr (js "key-lastused"));
               ("data-testid", AStr (if stale then js "key-lastused-stale" else js "key-lastused"))] ++
              attr_some "className"
                (if stale then Some (AStr (js "text-amber-600 dark:text-amber-400")) else None) ++
              attr_some "title" (AStr <$> k_last_used row)) []
     [Text (relativeTime (k_last_used row) now)]].

Definition limits_cell (row : KeyRow) : list (node keys_event) :=
  let tpm := match k_tpm_limit row with None => EM_DASH | Some n => formatInt (JNumber n) end in
  let rpm := match k_rpm_limit row with None => EM_DASH | Some n => formatInt (JNumber n) end in
  [El "span" [] [] [Text tpm; Text (js " / "); Text rpm]].

Definition columns : list (DataTableColumn KeyRow keys_event) :=
  [Column (js "keyid") [Text (js "Key ID")] keyid_cell (Some (js "align-top max-w-[220px]"))
     (Some (js "whitespace-nowrap")) (Some (λ row, jsval_of (alias_or_id row)));
   Column (js "created") [Text (js "Created")] (λ row, [Text (formatDate (k_created_at row))])
     (Some (js "font-mono text-xs whitespace-nowrap")) None
     (Some (λ row, jsval_of (k_created_at row)));
   Column (js "lastused") [Text (js "Last used")] lastused_cell
     (Some (js "font-mono text-xs whitespace-nowrap")) None
     (Some (λ row, jsval_of (k_last_used row)));
   Column (js "expires") [Text (js "Expires")]
     (λ row, [Text match k_expires row with None => js "Never" | e => formatDate e end])
     (Some (js "font-mono text-xs whitespace-nowrap")) None
     (Some (λ row, jsval_of (k_expires row)));
   Column (js "limits") [Text (js "TPM / RPM")] limits_cell
     (Some (js "font-mono text-xs whitespace-nowrap")) (Some (js "whitespace-nowrap"))
     (Some (λ row, jsnum_of (k_tpm_limit row)));
   Column (js "status") [Text (js "Status")]
     (λ row, let '(label, variant) := statusFor row now in
             [El "Badge" [("variant", AStr variant)] [] [Text (label_text label)]])
     None None (Some (λ row, JNumber (num_of_Z (STATUS_RANK (statusFor row now).1))))].

Definition row_actions (row : KeyRow) : list (node keys_event) :=
  [El "DropdownMenu" [] []
    [El "DropdownMenuTrigger" [("data-slot", AStr (js "key-menu"));
                               ("aria-label", AStr (js "More actions"))] [] [];
     El "DropdownMenuContent" [] []
       (when (unmanaged row)
          [El "DropdownMenuItem" [("disabled", ABool true); ("data-slot", AStr (js "key-unmanaged"))]
             [] [Text (js "Managed externally")];
           El "DropdownMenuSeparator" [] [] []] ++
        [El "DropdownMenuItem" [("data-slot", AStr (js "key-toggle-block"))]
           [("onSelect", ToggleBlock (default [] (k_id row)) (negb (flag (k_blocked row))))]
           [Text (if flag (k_blocked row) then js "Enable key" else js "Disable key")]] ++
        when (negb (unmanaged row))
          [El "DropdownMenuSeparator" [] [] [];
           El "DropdownMenuItem" [("data-slot", AStr (js "key-delete"))]
             [("onSelect", OnDelete row)] [Text (js "Revoke key")]])]].

(** The rows shown, and the count on the toggle. *)
Definition shown_rows (allRows : list KeyRow) (showExternal : bool) : list KeyRow :=
  if showExternal then allRows else List.filter (λ k, negb (isExternal (Some k))) allRows.

Definition externalCount (allRows : list KeyRow) : Z :=
  Z.of_nat (length (List.filter (λ k, isExternal (Some k)) allRows)).

(** The state of the keys query. *)
Inductive keys_query := Pending | Failed | Loaded (rows : list KeyRow).

Definition table_props (rows : list KeyRow) : DataTableProps KeyRow keys_event :=
  TableProps columns rows (λ row, default [] (k_id row))
    (Some [El "div" [("data-slot", AStr (js "keys-table-empty"))] []
             [El "p" [] [] [Text (js "No API Keys")];
              El "p" [] [] [Text (js "You have no virtual keys yet. Create one to get started.")]]])
    (Some row_actions)
    (Some (λ row, if flag (k_blocked row) then Some (js "opacity-40") else Some []))
    (Some [Text (js "Action")]) None (Some (TableSort (js "created") Desc)).

Definition KeysTable (query : keys_query) (showExternal : bool) (sort : option DataTableSort)
    : node keys_event :=
  match query with
  | Pending => El "div" [("data-slot", AStr (js "keys-table-state"))] []
                 [El "p" [] [] [Text (js "Loading your keys…")]]
  | Failed => El "div" [("data-slot", AStr (js "keys-table-state"))] []
                [El "p" [] [] [Text (js "Couldn't load your keys. Refresh the page to try again.")]]
  | Loaded data =>
      let allRows := selectKeyRows (Some data) in
      let count := externalCount allRows in
      El "div" [] []
        (DataTable SortBy (table_props (shown_rows allRows showExternal)) sort ::
         when (0 <? count)
           [El "button" [("data-slot", AStr (js "keys-external-toggle"));
                         ("aria-pressed", ABool showExternal)] [("onClick", ToggleExternal)]
              [El "span" [("className", cls [if showExternal then Some (js "rotate-90") else None])] [] [];
               El "span" [] []
                 [Text (if showExternal then js "Hide external keys"
                        else js "Show external keys (" ++ Z_to_js count ++ js ")")]]])
  end.
End table.

End KeysTable.

(** ** Lemmas: timestamps *)

(** A timestamp as LiteLLM prints it: date, separator, time, fraction digits, zone. *)
Definition timestamp (sep : Z) (y m d h mi s : Z) (ds zone : jsstr) : jsstr :=
  (pad_num 4 y ++ chr "-" :: pad_num 2 m ++ chr "-" :: pad_num 2 d) ++ sep ::
  pad_num 2 h ++ chr ":" :: pad_num 2 mi ++ chr ":" :: pad_num 2 s ++ frac_text ds ++ zone.

(** The instant it names in UTC. *)
Definition instant (y m d h mi s : Z) (ds : jsstr) : Z :=
  make_day y (m - 1) d * ms_per_day + ((h * 60 + mi) * 60 + s) * 1000 + frac_ms ds.

Abbreviation digits s := (Forall (λ c, is_digit c = true) s).

Lemma pad_two v : 0 ≤ v < 100 →
  ∃ a b, pad_num 2 v = [a; b] ∧ is_digit a = true ∧ is_digit b = true.
Proof.
  intros Hv. pose proof (pad_num_length 2 v ltac:(lia) ltac:(lia)) as Hl.
  pose proof (pad_num_digits 2 v ltac:(lia)) as Hd.
  destruct (pad_num 2 v) as [|a [|b [|]]]; try done.
  apply Forall_cons in Hd as [Ha Hd]. apply Forall_cons in Hd as [Hb _]. eauto.
Qed.

Lemma digit_neq c d : is_digit c = true → is_digit d = false → c ≠ d.
Proof. congruence. Qed.

Lemma digits_neq s c : digits s → is_digit c = false → Forall (λ d, d ≠ c) s.
Proof. intros Hs Hc. eapply Forall_impl; [exact Hs|]. intros d Hd. by apply digit_neq. Qed.

Lemma frac_text_neq ds c : digits ds → is_digit c = false → c ≠ chr "." →
  Forall (λ d, d ≠ c) (frac_text ds).
Proof. intros Hds Hc Hn. destruct ds; [constructor|]. constructor; [congruence|by apply digits_neq]. Qed.

(** The zone test on the three zones that occur. *)
Lemma hasTz_zulu s : hasTz (s ++ js "Z") = true.
Proof. unfold hasTz. by rewrite reverse_app. Qed.

Lemma hasTz_offset s : hasTz (s ++ js "+00:00") = true.
Proof. unfold hasTz. by rewrite reverse_app. Qed.

Lemma digit_not_z c : is_digit c = true → (c =? chr "z") || (c =? chr "Z") = false.
Proof.
  intros Hc%is_digit_spec. change (chr "z") with 122. change (chr "Z") with 90.
  by rewrite !(proj2 (Z.eqb_neq c _)) by lia.
Qed.

Lemma digit_not_sign c r : is_digit c = true → sign_after (c :: r) = false.
Proof.
  intros Hc%is_digit_spec. cbn [sign_after]. change (chr "+") with 43. change (chr "-") with 45.
  by rewrite !(proj2 (Z.eqb_neq c _)) by lia.
Qed.

Lemma digit_not_colon c : is_digit c = true → (c =? chr ":") = false.
Proof. intros Hc%is_digit_spec. change (chr ":") with 58. by rewrite (proj2 (Z.eqb_neq c _)) by lia. Qed.

Lemma hasTz_fraction s ds : digits ds → ds ≠ [] → hasTz (s ++ chr "." :: ds) = false.
Proof.
  intros Hds Hne. unfold hasTz. rewrite reverse_app, reverse_cons.
  assert (digits (reverse ds)) as Hr by (by apply Forall_reverse).
  destruct (reverse ds) as [|c1 r] eqn:E.
  { apply (f_equal reverse) in E. by rewrite reverse_involutive in E. }
  clear E Hds. apply Forall_cons in Hr as [H1 Hr]. cbn [app]. rewrite digit_not_z by done.
  destruct r as [|c2 r]; [|apply Forall_cons in Hr as [H2 Hr]]; cbn [app].
  { destruct (reverse s); simpl; by rewrite ?andb_false_r. }
  destruct r as [|c3 r]; [|apply Forall_cons in Hr as [H3 Hr]]; cbn [app].
  { destruct (reverse s) as [|? [|? ?]]; simpl; by rewrite ?andb_false_r. }
  destruct r as [|c4 r]; [|apply Forall_cons in Hr as [H4 Hr]]; cbn [app].
  { destruct (reverse s) as [|? ?]; simpl; by rewrite ?digit_not_colon, ?andb_false_r by done. }
  rewrite (digit_not_colon c3) by done.
  destruct r as [|c5 r]; [|apply Forall_cons in Hr as [H5 Hr]]; cbn [app].
  { change (sign_after (chr "." :: reverse s)) with false.
    destruct (reverse s); by rewrite !andb_false_r. }
  rewrite digit_not_sign by done. destruct (r ++ _); by rewrite !andb_false_r.
Qed.

Lemma hasTz_seconds x mi s : 0 ≤ mi < 100 → 0 ≤ s < 100 →
  hasTz (x ++ chr ":" :: pad_num 2 mi ++ chr ":" :: pad_num 2 s) = false.
Proof.
  intros Hmi Hs. destruct (pad_two mi Hmi) as (a & b & -> & Ha & Hb).
  destruct (pad_two s Hs) as (c & d & -> & Hc & Hd). unfold hasTz.
  rewrite reverse_app. change (reverse (chr ":" :: [a; b] ++ chr ":" :: [c; d]))
    with [d; c; chr ":"; b; a; chr ":"]. cbn [app].
  rewrite digit_not_z by done. by rewrite Ha, Hb, Hc, Hd.
Qed.

Lemma timestamp_zone sep y m d h mi s ds zone :
  timestamp sep y m d h mi s ds zone = timestamp sep y m d h mi s ds [] ++ zone.
Proof. unfold timestamp. rewrite app_nil_r. repeat (rewrite <-app_assoc; cbn [app]). done. Qed.

Inductive utc_zone : jsstr → Prop :=
| zone_naive : utc_zone []
| zone_zulu : utc_zone (js "Z")
| zone_offset : utc_zone (js "+00:00").

Section timestamp.
Context (y m d h mi s : Z) (ds zone : jsstr).
Context (Hy : 0 ≤ y < 10000) (Hm : 1 ≤ m ≤ 12) (Hd : 1 ≤ d ≤ 31).
Context (Hh : 0 ≤ h ≤ 23) (Hmi : 0 ≤ mi ≤ 59) (Hs : 0 ≤ s ≤ 59).
Context (Hds : digits ds) (Hz : utc_zone zone).

Lemma timestamp_trim sep : js_trim (timestamp sep y m d h mi s ds zone) = timestamp sep y m d h mi s ds zone.
Proof.
  unfold timestamp. pose proof (pad_num_length 4 y ltac:(lia) ltac:(lia)) as Hl.
  pose proof (pad_num_digits 4 y ltac:(lia)) as Hyd.
  destruct (pad_num 4 y) as [|c py]; [done|]. apply Forall_cons in Hyd as [Hc _].
  assert (∀ u v, c :: u ++ v = c :: u ++ v) as _ by done.
  set (tl := pad_num 2 s ++ frac_text ds ++ zone).
  set (u := py ++ chr "-" :: pad_num 2 m ++ chr "-" :: pad_num 2 d ++ sep ::
            pad_num 2 h ++ chr ":" :: pad_num 2 mi ++ [chr ":"]).
  match goal with |- js_trim ?x = _ => replace x with (c :: u ++ tl) end.
  2: { unfold u, tl. cbn [app]. repeat (rewrite <-?app_assoc; cbn [app]). done. }
  apply js_trim_id; [by apply digit_not_space|..].
  - destruct (pad_two s ltac:(lia)) as (a & b & Hab & _). unfold tl. by rewrite Hab.
  - unfold tl. apply Forall_app; split; [|apply Forall_app; split].
    + eapply Forall_impl; [apply (pad_num_digits 2 s); lia|]. intros; by apply digit_not_space.
    + destruct ds; [constructor|]. constructor; [done|].
      eapply Forall_impl; [exact Hds|]. intros; by apply digit_not_space.
    + destruct Hz; by repeat constructor.
Qed.

Lemma date_part_neq c : is_digit c = false → c ≠ chr "-" →
  Forall (λ e, e ≠ c) (pad_num 4 y ++ chr "-" :: pad_num 2 m ++ chr "-" :: pad_num 2 d).
Proof.
  intros Hc Hn. rewrite !Forall_app, !Forall_cons, !Forall_app, !Forall_cons.
  split_and!; try congruence; apply digits_neq; try done; apply pad_num_digits; lia.
Qed.

Lemma timestamp_no_space : Forall (λ e, e ≠ 32) (timestamp (chr "T") y m d h mi s ds zone).
Proof.
  unfold timestamp. rewrite Forall_app. split; [by apply date_part_neq|].
  repeat first [rewrite Forall_app|rewrite Forall_cons]. split_and!; try done;
    try (apply digits_neq; [apply pad_num_digits; lia|done]).
  - by apply frac_text_neq.
  - destruct Hz; by repeat constructor.
Qed.

(** A space separator becomes the language's [T]. *)
Lemma timestamp_separator sep : sep = 32 ∨ sep = chr "T" →
  replace_first (js " ") (js "T") (timestamp sep y m d h mi s ds zone) =
  timestamp (chr "T") y m d h mi s ds zone.
Proof.
  unfold replace_first. change (js " ") with [32]. intros [->| ->].
  - unfold timestamp at 1 2 3. rewrite index_of_char by (by apply date_part_neq).
    rewrite take_app_length. unfold timestamp. f_equal. simpl length.
    rewrite drop_app_ge by lia.
    match goal with |- context [drop ?k (32 :: _)] => replace k with 1%nat by lia end. done.
  - rewrite index_of_char_none by apply timestamp_no_space. done.
Qed.

Lemma timestamp_includes_T : includes (js "T") (timestamp (chr "T") y m d h mi s ds zone) = true.
Proof. unfold includes, timestamp. change (js "T") with [chr "T"]. by rewrite index_of_char by (by apply date_part_neq). Qed.

Lemma timestamp_naive : zone = [] → hasTz (timestamp (chr "T") y m d h mi s ds zone) = false.
Proof.
  intros ->. unfold timestamp. rewrite app_nil_r. destruct ds as [|d1 ds'] eqn:E.
  - cbn [frac_text]. rewrite app_nil_r.
    match goal with |- hasTz (?a ++ ?t :: ?b ++ ?r) = _ =>
      replace (a ++ t :: b ++ r) with ((a ++ t :: b) ++ r) by (rewrite <-app_assoc; done) end.
    apply hasTz_seconds; lia.
  - match goal with |- hasTz (?a ++ ?t :: ?b ++ ?c :: ?e ++ ?c2 :: ?f ++ ?r) = _ =>
      replace (a ++ t :: b ++ c :: e ++ c2 :: f ++ r) with ((a ++ t :: b ++ c :: e ++ c2 :: f) ++ r)
        by (repeat (rewrite <-?app_assoc; cbn [app]); done) end.
    by apply hasTz_fraction.
Qed.
End timestamp.

Lemma make_day_bounds y m d : 0 ≤ y < 10000 → 1 ≤ m ≤ 12 → 1 ≤ d ≤ 31 →
  -720000 ≤ make_day y (m - 1) d ≤ 3000000.
Proof.
  intros Hy Hm Hd. unfold make_day. rewrite Z.div_small, Z.mod_small, Z.add_0_r by lia.
  pose proof (month_start_bounds (is_leap y) (m - 1) ltac:(lia)).
  assert (month_start (is_leap y) (m - 1) ≤ 366).
  { assert (m - 1 = 0 ∨ 0 ≤ m - 2 < 12) as [->|Hm2] by lia; [by destruct (is_leap y)|].
    pose proof (month_start_bounds (is_leap y) (m - 2) Hm2) as [_ Hb].
    replace (m - 2 + 1) with (m - 1) in Hb by lia. destruct (is_leap y); lia. }
  assert (day_from_year 0 ≤ day_from_year y < day_from_year 10000) as Hb.
  { split; [destruct (decide (y = 0)) as [->|]; [done|]|];
      [pose proof (day_from_year_mono 0 y)|pose proof (day_from_year_mono y 10000)]; lia. }
  vm_compute (day_from_year 0) in Hb. vm_compute (day_from_year 10000) in Hb. lia.
Qed.

Lemma instant_bounds y m d h mi s ds : 0 ≤ y < 10000 → 1 ≤ m ≤ 12 → 1 ≤ d ≤ 31 →
  0 ≤ h ≤ 23 → 0 ≤ mi ≤ 59 → 0 ≤ s ≤ 59 → digits ds →
  Z.abs (instant y m d h mi s ds) ≤ 300000000000000.
Proof.
  intros Hy Hm Hd Hh Hmi Hs Hds. unfold instant, ms_per_day.
  pose proof (make_day_bounds y m d Hy Hm Hd). pose proof (frac_ms_bounds ds Hds). lia.
Qed.

(** Reading a timestamp gives the instant it names in UTC, whatever the engine's zone. *)
Lemma parseExpiryMs_timestamp `{Engine} sep y m d h mi s ds zone :
  0 ≤ y < 10000 → 1 ≤ m ≤ 12 → 1 ≤ d ≤ 31 → 0 ≤ h ≤ 23 → 0 ≤ mi ≤ 59 → 0 ≤ s ≤ 59 →
  digits ds → utc_zone zone → sep = 32 ∨ sep = chr "T" →
  parseExpiryMs (JString (timestamp sep y m d h mi s ds zone)) =
    Some (num_of_Z (instant y m d h mi s ds)).
Proof.
  intros Hy Hm Hd Hh Hmi Hs Hds Hz Hsep. unfold parseExpiryMs.
  rewrite timestamp_trim by done.
  assert (str_truthy (timestamp sep y m d h mi s ds zone) = true) as ->.
  { pose proof (pad_num_length 4 y ltac:(lia) ltac:(lia)) as Hl. unfold timestamp.
    by destruct (pad_num 4 y). }
  cbn [negb]. rewrite timestamp_separator, timestamp_includes_T by done. cbn [andb].
  set (zone' := if decide (zone = []) then js "Z" else zone).
  assert (zone' = js "Z" ∨ zone' = js "+00:00") as Hz'.
  { unfold zone'. destruct Hz; auto. }
  match goal with |- num_of_Z <$> date_parse ?x = _ =>
    replace x with (timestamp (chr "T") y m d h mi s ds zone') end.
  2: { unfold zone'. destruct Hz.
       - rewrite timestamp_naive by (done || constructor). by rewrite timestamp_zone.
       - assert (hasTz (timestamp (chr "T") y m d h mi s ds (js "Z")) = true) as ->
           by (rewrite timestamp_zone; apply hasTz_zulu). done.
       - assert (hasTz (timestamp (chr "T") y m d h mi s ds (js "+00:00")) = true) as ->
           by (rewrite timestamp_zone; apply hasTz_offset). done. }
  unfold timestamp, date_parse, iso_parse. rewrite <-!app_assoc, <-!app_comm_cons, <-!app_assoc,
    <-!app_comm_cons, iso_date_full by lia. opt_simpl.
  unfold valid_month_day. rewrite !(proj2 (Z.leb_le _ _)) by lia. opt_simpl.
  rewrite expect_cons. opt_simpl.
  assert (expect (chr ".") zone' = None ∧ digit_run zone' = ([], zone') ∧
          iso_zone zone' = Some (Some 0)) as (He & Hr & Hzone).
  { destruct Hz' as [-> | ->]; done. }
  rewrite iso_time_full by done. opt_simpl. rewrite Hzone. opt_simpl.
  rewrite Z.mul_0_l, Z.sub_0_r. rewrite Z.add_assoc. fold (instant y m d h mi s ds).
  unfold time_clip, max_time.
  pose proof (instant_bounds y m d h mi s ds Hy Hm Hd Hh Hmi Hs Hds).
  by rewrite (proj2 (Z.leb_le _ _)) by lia.
Qed.

(** ** Properties *)

(** C9. Expiry does not depend on the browser's time zone: a key whose [expires]
    is a timestamp in any of the shapes LiteLLM ships (a [T] or a space between
    date and time, any number of fraction digits, no zone, [Z] or [+00:00]) is
    expired exactly when the UTC instant it names is before now. *)
Theorem isExpired_timestamp `{Engine} row now sep y m d h mi s ds zone :
  0 ≤ y < 10000 → 1 ≤ m ≤ 12 → 1 ≤ d ≤ 31 → 0 ≤ h ≤ 23 → 0 ≤ mi ≤ 59 → 0 ≤ s ≤ 59 →
  Forall (λ c, is_digit c = true) ds → utc_zone zone → sep = 32 ∨ sep = chr "T" →
  k_expires row = Some (timestamp sep y m d h mi s ds zone) → Z.abs now < 2 ^ 53 →
  isExpired (Some row) now = (instant y m d h mi s ds <? now).
Proof.
  intros Hy Hm Hd Hh Hmi Hs Hds Hz Hsep Hrow Hnow. unfold isExpired. rewrite Hrow.
  rewrite parseExpiryMs_timestamp by done. apply is_int_ltb; apply is_int_of_Z; [|done].
  pose proof (instant_bounds y m d h mi s ds Hy Hm Hd Hh Hmi Hs Hds). lia.
Qed.

(** A row that expires at the given text. *)
Definition expiring (e : jsstr) : KeyRow :=
  {| k_id := Some (js "9834338392932xjw0123"); k_key_alias := None; k_spend := num_zero;
     k_tpm_limit := None; k_rpm_limit := None; k_models := None; k_team_id := None;
     k_created_at := None; k_expires := Some e; k_last_used := None; k_managed := Some true;
     k_revoked := None; k_blocked := None |}.

(** A browser five hours off UTC still expires the key at 08:30 UTC. *)
Lemma isExpired_timestamp_witness :
  let tz := {| legacy_date := λ _, None; local_to_utc := λ t, t + 18000000 |} in
  @isExpired tz (Some (expiring (js "2026-06-04 08:30:00.250000"))) 1780561800251 = true.
Proof.
  refine (eq_trans (@isExpired_timestamp {| legacy_date := λ _, None; local_to_utc := λ t, t + 18000000 |}
    (expiring (js "2026-06-04 08:30:00.250000")) 1780561800251 32 2026 6 4 8 30 0 (js "250000") []
    _ _ _ _ _ _ _ zone_naive (or_introl eq_refl) _ _) _);
    try lia; try (vm_compute; reflexivity); by repeat constructor.
Defined.

Import KeysTable Validation.

Lemma shown_rows_partition rows b row : row ∈ shown_rows rows b ↔
  row ∈ rows ∧ (b = true ∨ unmanaged row = false).
Proof.
  unfold shown_rows. destruct b; [intuition|].
  rewrite list_elem_of_In, filter_In, <-list_elem_of_In. simpl. rewrite negb_true_iff. intuition congruence.
Qed.

Lemma row_actions_events row :
  enabled_events (row_actions row) =
    ToggleBlock (default [] (k_id row)) (negb (flag (k_blocked row))) ::
    (if decide (k_managed row = Some false) then [] else [OnDelete row]).
Proof. unfold row_actions, unmanaged. by destruct (k_managed row) as [[]|]. Qed.

(** The outermost nodes of a tree in a slot. *)
Definition in_slot (slot : jsstr) (a : list (string * aval)) : bool :=
  match attribute "data-slot" a with Some (AStr s) => js_eqb s slot | _ => false end.

Fixpoint slot_nodes {E} (slot : jsstr) (n : node E) : list (node E) :=
  match n with
  | El t a on l => if in_slot slot a then [n] else flat_map (slot_nodes slot) l
  | Text _ => []
  end.

Lemma existsb_filter_length {A} (f : A → bool) l : existsb f l = (0 <? Z.of_nat (length (List.filter f l))).
Proof.
  induction l as [|x l IH]; [done|]. simpl. destruct (f x); [|done]. simpl. symmetry. apply Z.ltb_lt. lia.
Qed.

Section listed.
Context `{Engine} `{U : Unicode} (now : Z).

(** The cells of the keys table are plain. *)
Lemma key_cells_silent c row : c ∈ KeysTable.columns now → enabled_events (cell c row) = [].
Proof.
  unfold columns. rewrite !elem_of_cons, elem_of_nil.
  intros [->|[->|[->|[->|[->|[->|[]]]]]]]; cbn [cell].
  - unfold keyid_cell, when. repeat case_match; done.
  - done.
  - unfold lastused_cell. rewrite enabled_events_El. by repeat case_match.
  - done.
  - done.
  - by destruct (statusFor row now).
Qed.

Lemma key_headers_silent c : c ∈ KeysTable.columns now → enabled_events (header c) = [].
Proof.
  unfold columns. rewrite !elem_of_cons, elem_of_nil.
  by intros [->|[->|[->|[->|[->|[->|[]]]]]]].
Qed.


Lemma imap_events {A E} (f : nat → A → node E) (g : A → list E) l : (∀ i x, enabled_events [f i x] = g x) →
  enabled_events (imap f l) = flat_map g l.
Proof.
  revert f. induction l as [|x l IH]; intros f Hf; [done|]. cbn [imap flat_map].
  rewrite enabled_events_cons, Hf. f_equal. apply IH. intros i y. apply (Hf (S i)).
Qed.

Lemma imap_nodes {A E} slot (f : nat → A → node E) l : (∀ i x, slot_nodes slot (f i x) = [f i x]) →
  flat_map (slot_nodes slot) (imap f l) = imap f l.
Proof.
  revert f. induction l as [|x l IH]; intros f Hf; [done|]. cbn [imap flat_map].
  rewrite Hf, (IH (f ∘ S)); [done|]. intros i y. apply (Hf (S i)).
Qed.

Lemma Forall2_imap {A B} (P : B → A → Prop) (f : nat → A → B) l : (∀ i x, P (f i x) x) → Forall2 P (imap f l) l.
Proof.
  revert f. induction l as [|x l IH]; intros f Hf; [constructor|]. constructor; [apply Hf|].
  apply IH. intros i y. apply (Hf (S i)).
Qed.

Lemma header_events (c : DataTableColumn KeyRow keys_event) sort : c ∈ KeysTable.columns now →
  enabled_events [header_cell SortBy sort c] = [SortBy (key c)].
Proof.
  intros Hc. pose proof (key_headers_silent c Hc) as Hs.
  assert (∃ acc, sortAccessor c = Some acc) as (acc & Ea).
  { revert Hc. unfold KeysTable.columns. rewrite !elem_of_cons, elem_of_nil.
    intros [->|[->|[->|[->|[->|[->|[]]]]]]]; by eexists. }
  unfold header_cell, SortIndicator. cbv zeta. rewrite Ea. cbn [aria_sort]. unfold aria_sort. rewrite Ea.
  simpl_events. by rewrite Hs.
Qed.

Lemma headers_events l sort : (∀ c, c ∈ l → c ∈ KeysTable.columns now) →
  enabled_events (map (header_cell SortBy sort) l) = map (λ c, SortBy (key c)) l.
Proof.
  induction l as [|c l IH]; intros Hl; [done|]. cbn [map]. rewrite enabled_events_cons, header_events by (apply Hl; left).
  cbn [app]. f_equal. apply IH. intros d Hd. apply Hl. by right.
Qed.

(** What the menu of a key offers. *)
Definition menu_events (row : KeyRow) : list keys_event :=
  ToggleBlock (default [] (k_id row)) (negb (flag (k_blocked row))) ::
  (if decide (k_managed row = Some false) then [] else [OnDelete row]).

Lemma key_row_events rows n i row :
  enabled_events [body_row (table_props now rows) n i row] = menu_events row.
Proof.
  unfold body_row. cbn [Sort.columns table_props Sort.rowActions for_some]. rewrite enabled_events_plain, enabled_events_app.
  assert (∀ l : list (DataTableColumn KeyRow keys_event), (∀ c, c ∈ l → c ∈ KeysTable.columns now) →
    enabled_events (map (λ c, El "td" [("data-col", AStr (key c)); ("className", cls [className c])] [] (cell c row)) l) = []) as ->.
  { induction l as [|c l IH]; intros Hl; [done|]. cbn [map]. rewrite enabled_events_cons, enabled_events_plain,
      key_cells_silent by (apply Hl; left). apply IH. intros d Hd. apply Hl. by right. }
  - cbn [app]. rewrite enabled_events_plain. apply row_actions_events.
  - done.
Qed.

(** What the table offers: to sort, the menus of the keys listed, and the toggle. *)
Lemma keys_table_offers rows ext sort :
  enabled_events [KeysTable now (Loaded rows) ext sort] =
  map SortBy [js "keyid"; js "created"; js "lastused"; js "expires"; js "limits"; js "status"] ++
  flat_map menu_events (display (table_props now (shown_rows rows ext)) sort) ++
  (if existsb unmanaged rows then [ToggleExternal] else []).
Proof.
  unfold KeysTable, DataTable. change (selectKeyRows (Some rows)) with rows.
  set (props := table_props now (shown_rows rows ext)).
  rewrite enabled_events_plain, enabled_events_cons, enabled_events_plain.
  cbn [Sort.rowActions Sort.caption table_props props for_some when Sort.columns].
  fold props.
  rewrite enabled_events_plain, (enabled_events_cons (El "thead" _ _ _)), !enabled_events_plain, enabled_events_app,
    headers_events by done. rewrite <-!app_assoc. f_equal.
  change (actionsHeader props) with (Some [Text (E := keys_event) (js "Action")]).
  cbn [default from_option id]. rewrite enabled_events_plain, enabled_events_Text. cbn [app].
  assert (enabled_events match display props sort with
    | [] => [El "tr" [("data-slot", AStr (js "data-table-empty"))] []
               [El "td" [("colSpan", AInt (Z.of_nat (length (KeysTable.columns now)) + 1))] []
                  (default [Text (js "No items")] (empty props))]]
    | _ => imap (body_row props (length (display props sort))) (display props sort)
    end = flat_map menu_events (display props sort)) as He.
  { destruct (display props sort) as [|r l]; [done|]. apply imap_events. intros i x. apply key_row_events. }
  fold props. rewrite He. f_equal.
  unfold when, externalCount. rewrite <-existsb_filter_length.
  change (existsb (λ k, isExternal (Some k)) rows) with (existsb unmanaged rows).
  destruct (existsb unmanaged rows); [|done]. split_events. by destruct ext.
Qed.

Lemma slot_nodes_other {E} slot t a (on : list (string * E)) l : in_slot slot a = false →
  slot_nodes slot (El t a on l) = flat_map (slot_nodes slot) l.
Proof. intros Ha. cbn [slot_nodes]. by rewrite Ha. Qed.

Lemma header_nodes (c : DataTableColumn KeyRow keys_event) sort : c ∈ KeysTable.columns now →
  slot_nodes (js "data-table-row") (header_cell SortBy sort c) = [].
Proof.
  unfold KeysTable.columns. rewrite !elem_of_cons, elem_of_nil.
  intros [->|[->|[->|[->|[->|[->|[]]]]]]]; unfold header_cell, aria_sort; cbn [sortAccessor header key headerClassName];
    by destruct sort as [[? []]|].
Qed.

Lemma headers_nodes l sort : (∀ c, c ∈ l → c ∈ KeysTable.columns now) →
  flat_map (slot_nodes (js "data-table-row")) (map (header_cell SortBy sort) l) = [].
Proof.
  induction l as [|c l IH]; intros Hl; [done|]. cbn [map flat_map]. rewrite header_nodes by (apply Hl; left).
  apply IH. intros d Hd. apply Hl. by right.
Qed.

(** The rows of the rendered table are those of the sorted list. *)
Lemma keys_table_rows rows ext sort : let props := table_props now (shown_rows rows ext) in
  slot_nodes (js "data-table-row") (KeysTable now (Loaded rows) ext sort) =
  imap (body_row props (length (display props sort))) (display props sort).
Proof.
  intros props. unfold KeysTable, DataTable. change (selectKeyRows (Some rows)) with rows. fold props.
  rewrite slot_nodes_other by done. cbn [flat_map]. rewrite slot_nodes_other by done. cbn [flat_map].
  rewrite slot_nodes_other by done. cbn [flat_map]. rewrite slot_nodes_other by done. cbn [flat_map].
  rewrite slot_nodes_other by done.
  change (Sort.columns props) with (KeysTable.columns now). change (Sort.caption props) with (@None (list (node keys_event))).
  rewrite flat_map_app, headers_nodes by done. cbn [app for_some flat_map].
  rewrite slot_nodes_other by done.
  assert (∀ b count, flat_map (slot_nodes (js "data-table-row")) (when b
    [El "button" [("data-slot", AStr (js "keys-external-toggle")); ("aria-pressed", ABool ext)] [("onClick", ToggleExternal)]
       [El "span" [("className", cls [if ext then Some (js "rotate-90") else None])] [] [];
        El "span" [] [] [Text count]]]) = []) as -> by (intros [] ?; by destruct ext).
  rewrite !app_nil_r. change (Sort.rowActions props) with (Some row_actions). cbn [when flat_map slot_nodes app].
  destruct (display props sort) as [|r l]; [done|]. apply imap_nodes. by intros.
Qed.
End listed.

(** The id as the table shows it: whole up to sixteen characters, else its first
    sixteen and an ellipsis. *)
Definition id_shown (id : option jsstr) : jsstr :=
  match id with
  | None | Some [] => EM_DASH
  | Some s => if (length s <=? 16)%nat then s else take 16 s ++ js "…"
  end.

(** The text of the first cell of a row. *)
Definition key_text (row : KeyRow) : jsstr :=
  let external := if decide (k_managed row = Some false) then js "EXTERNAL" else [] in
  match k_key_alias row with
  | None | Some [] => id_shown (k_id row) ++ external
  | Some alias => alias ++ external ++ js "id:" ++ id_shown (k_id row)
  end.

Definition first_child {E} (n : node E) : option (node E) :=
  match n with El _ _ _ (c :: _) => Some c | _ => None end.

(** A rendered row is that of a key: its first cell reads the alias and the id, and
    its menu blocks or unblocks the key, and revokes it unless it is external. *)
Definition shows_key (n : node keys_event) (row : KeyRow) : Prop :=
  text_content <$> first_child n = Some (key_text row) ∧
  enabled_events [n] =
    ToggleBlock (default [] (k_id row)) (negb (flag (k_blocked row))) ::
    (if decide (k_managed row = Some false) then [] else [OnDelete row]).

Lemma shortKeyId_shown id : shortKeyId id = id_shown id.
Proof.
  destruct id as [[|c s]|]; [done| |done]. unfold shortKeyId, id_shown, KEY_ID_MAX, js_len.
  destruct (Z.ltb_spec 16 (Z.of_nat (length (c :: s)))), (Nat.leb_spec (length (c :: s)) 16); try lia; [|done].
  by rewrite slice_prefix by (unfold js_len; lia).
Qed.

Lemma keyid_cell_text row : text_content (El "td" [] [] (keyid_cell row)) = key_text row.
Proof.
  unfold keyid_cell, key_text. rewrite shortKeyId_shown. unfold unmanaged.
  destruct (k_key_alias row) as [[|c a]|]; destruct (decide (k_managed row = Some false));
    rewrite ?bool_decide_true, ?bool_decide_false by done; cbn -[js id_shown]; rewrite ?app_nil_r, <-?app_assoc; reflexivity.
Qed.


Lemma DURATION_RE_spec s : DURATION_RE s = true ↔
  ∃ ds u, s = ds ++ [u] ∧ ds ≠ [] ∧ digits ds ∧ duration_unit u = true.
Proof.
  unfold DURATION_RE. split.
  - destruct (reverse s) as [|u [|d ds]] eqn:E; [done..|]. intros [Hu Hd]%andb_true_iff.
    exists (reverse (d :: ds)), u. apply (f_equal reverse) in E.
    rewrite reverse_involutive, reverse_cons in E. split_and!; [done| | |done].
    + intros H. apply (f_equal reverse) in H. by rewrite reverse_involutive in H.
    + apply Forall_reverse, Forall_forall. intros c Hc. rewrite forallb_forall in Hd.
      by apply Hd, list_elem_of_In.
  - intros (ds & u & -> & Hne & Hds & Hu). rewrite reverse_app. cbn [reverse app].
    change (reverse [u] ++ reverse ds) with (u :: reverse ds).
    destruct (reverse ds) as [|d r] eqn:E.
    { apply (f_equal reverse) in E. by rewrite reverse_involutive in E. }
    rewrite Hu. apply forallb_forall. intros c Hc%list_elem_of_In.
    assert (digits (d :: r)) as Hr by (rewrite <-E; by apply Forall_reverse).
    rewrite Forall_forall in Hr. by apply Hr.
Qed.

(** The units of a duration and the characters of a name, written out. *)
Definition alias_symbol (c : Z) : Prop := c = chr "-" ∨ c = chr "_" ∨ c = chr ".".

Lemma alias_char_spec `{U : Unicode} c : alias_char c = true ↔ letter_or_number c = true ∨ alias_symbol c.
Proof. unfold alias_char, alias_symbol. rewrite !orb_true_iff, !Z.eqb_eq. tauto. Qed.

Lemma duration_unit_spec c : duration_unit c = true ↔ c ∈ js "dhms".
Proof.
  unfold duration_unit. rewrite !orb_true_iff, !Z.eqb_eq.
  change (js "dhms") with [chr "d"; chr "h"; chr "m"; chr "s"]. rewrite !elem_of_cons, elem_of_nil. tauto.
Qed.

Lemma validateAlias_spec `{U : Unicode} alias : validateAlias alias = None ↔
  js_len alias ≤ 128 ∧ Forall (λ c, letter_or_number c = true ∨ alias_symbol c) (code_points alias).
Proof.
  unfold validateAlias, js_eqb. destruct (decide (alias = [])) as [->|Hne].
  { rewrite bool_decide_true by done. split; [|done]. intros _. split; [unfold js_len; simpl; lia|constructor]. }
  unfold ALIAS_RE. rewrite !bool_decide_false by done. cbn [negb andb].
  assert (forallb alias_char (code_points alias) = true ↔
    Forall (λ c, letter_or_number c = true ∨ alias_symbol c) (code_points alias)) as <-.
  { rewrite forallb_forall, Forall_forall. setoid_rewrite alias_char_spec. by setoid_rewrite list_elem_of_In. }
  destruct (128 <? js_len alias) eqn:E, (forallb alias_char (code_points alias)); bool_to_prop; simpl; split;
    naive_solver lia.
Qed.

(** C11. The create-key form accepts an empty field; a duration exactly when it is
    one or more digits followed by one of d, h, m, s; and a name exactly when it has
    at most 128 UTF-16 units and each of its code points is a letter or a number of
    Unicode, a dash, an underscore or a dot; for a name in ASCII, a letter or a digit
    of ASCII or one of these symbols.  Any other input gets the field's message. *)
Theorem validation_correct `{U : Unicode} `{!UnicodeLaws U} duration alias :
  (validateDuration duration = None ∨ validateDuration duration = Some DURATION_ERROR) ∧
  (validateDuration duration = None ↔
     duration = [] ∨ ∃ ds u, duration = ds ++ [u] ∧ ds ≠ [] ∧ digits ds ∧ u ∈ js "dhms") ∧
  (validateAlias alias = None ∨ validateAlias alias = Some ALIAS_ERROR) ∧
  (validateAlias alias = None ↔
     js_len alias ≤ 128 ∧ Forall (λ c, letter_or_number c = true ∨ alias_symbol c) (code_points alias)) ∧
  (is_ascii alias →
   validateAlias alias = None ↔
     js_len alias ≤ 128 ∧ Forall (λ c, ascii_alnum c = true ∨ alias_symbol c) alias).
Proof.
  split_and!.
  - unfold validateDuration, js_eqb. destruct (bool_decide _); [auto|]. destruct (negb _); auto.
  - setoid_rewrite <-duration_unit_spec. rewrite <-DURATION_RE_spec. unfold validateDuration, js_eqb.
    destruct (decide (duration = [])) as [->|Hd]; [split; auto|].
    rewrite bool_decide_false by done. destruct (DURATION_RE duration); simpl; naive_solver.
  - unfold validateAlias, js_eqb. destruct (bool_decide _); [auto|]. destruct (_ || _)%bool; auto.
  - apply validateAlias_spec.
  - intros Ha. rewrite validateAlias_spec, code_points_bmp by (eapply Forall_impl; [exact Ha|]; simpl; lia).
    unfold is_ascii in Ha. rewrite !Forall_forall in *. apply and_iff_compat_l.
    split; intros Hc c Hin; specialize (Ha c Hin); specialize (Hc c Hin); by rewrite letter_or_number_ascii in *.
Qed.

Lemma validation_correct_witness :
  validateDuration (js "90d") = None ∧ validateAlias (U := ascii_unicode) (js "my-key_1.0") = None.
Proof.
  destruct (validation_correct (U := ascii_unicode) (js "90d") (js "my-key_1.0")) as (_ & Hd & _ & Ha & _).
  split; [apply Hd; right; exists (js "90"), (chr "d")|apply Ha].
  - split; [reflexivity|]. split; [discriminate|]. split; [repeat constructor|]. by left.
  - split; [discriminate|]. vm_compute code_points.
    repeat (apply Forall_cons; split; [vm_compute; first [left; reflexivity|right; auto]|]). apply Forall_nil; exact I.
Defined.
