(* ===== verification/Series.v ===== *)
(** * Chart data (src/ui/src/lib/stats-series.ts, lib/top-keys.ts, components/stats/UsageDonut.tsx)

    From the stats contract to the rows of the charts, the merged list of keys and
    the slices of the usage donut. *)

From Stdlib Require Import String.
From S2P Require Import Prelude JsNumber JsString JsText View Presets Format ApiTypes.
Import Presets Format.

(** ** lib/stats-series.ts *)

Module Series.

Record SpendRequestsPoint := {
  date : jsstr;
  spend : number;
  requests : number;
  tokens : number;
  inputTokens : number;
  outputTokens : number;
  failed : number;
  success : number
}.

Definition asNumber (v : number) : number := if is_finite v then v else num_zero.

Definition seriesHasActivity (series : option (list StatsSeriesPoint)) : bool :=
  match series with
  | Some series => existsb (λ p, num_ltb num_zero (asNumber (p_requests p))) series
  | None => false
  end.

Definition seriesRow (point : StatsSeriesPoint) : SpendRequestsPoint :=
  let requests := asNumber (p_requests point) in
  let failed := num_min requests (asNumber (p_failed point)) in
  {| date := default [] (p_date point);
     spend := asNumber (p_spend point);
     requests := requests;
     tokens := asNumber (p_tokens point);
     inputTokens := asNumber (p_input_tokens point);
     outputTokens := asNumber (p_output_tokens point);
     failed := failed;
     success := num_max num_zero (num_sub requests failed) |}.

Definition seriesToRecharts (series : option (list StatsSeriesPoint)) : list SpendRequestsPoint :=
  match series with Some series => map seriesRow series | None => [] end.

End Series.

(** ** lib/top-keys.ts *)

Module TopKeys.

(** The set of ids and aliases the activity rows represent. *)
Definition add_seen (s : option jsstr) (seen : gset (list Z)) : gset (list Z) :=
  if ostr_truthy s then {[default [] s]} ∪ seen else seen.

Definition seen_of (statsKeys : list StatsKeyRow) : gset (list Z) :=
  foldl (λ seen k, add_seen (s_key_alias k) (add_seen (s_id k) seen)) ∅ statsKeys.

Definition has (s : option jsstr) (seen : gset (list Z)) : bool :=
  ostr_truthy s && bool_decide (default [] s ∈ seen).

Definition pad_key (k : KeyRow) : StatsKeyRow :=
  {| s_id := k_id k; s_key_alias := k_key_alias k; s_requests := num_zero; s_spend := num_zero;
     s_spend_pct := Some num_zero; s_managed := k_managed k; s_deleted := Some false |}.

Definition padded (statsKeys : list StatsKeyRow) (userKeys : list KeyRow) : list StatsKeyRow :=
  let seen := seen_of statsKeys in
  map pad_key
    (List.filter (λ k, negb (has (k_id k) seen) && negb (has (k_key_alias k) seen))
      (List.filter (λ k, ostr_truthy (k_id k) || ostr_truthy (k_key_alias k)) userKeys)).

(** [(a, b) => b.spend - a.spend], of which [sort] reads the sign. *)
Definition by_spend (a b : StatsKeyRow) : Z := num_sgn (num_sub (s_spend b) (s_spend a)).

Definition mergeTopKeys (statsKeys : list StatsKeyRow) (userKeys : list KeyRow) : list StatsKeyRow :=
  array_sort by_spend (statsKeys ++ padded statsKeys userKeys).

End TopKeys.

(** ** components/stats/UsageDonut.tsx *)

Module UsageDonut.

Definition OTHER_LABEL : jsstr := js "Other".
Definition TOTAL_CAPTION : jsstr := js "TOTAL".
Definition COMING_SOON_COPY : jsstr := js "Coming soon".
Definition EMPTY_COPY : jsstr := js "No usage in this range".

Definition SLICE_FILLS : list jsstr :=
  [js "var(--primary)"; js "var(--cat-2)"; js "var(--cat-3)"; js "var(--cat-4)"; js "var(--cat-5)"].
Definition OTHER_FILL : jsstr := js "var(--text-tertiary)".

Record Slice := {
  sl_model : jsstr;
  sl_spend : number;
  sl_spend_pct : option number;
  isOther : bool
}.

Definition formatPct (pct : option number) : jsstr :=
  match pct with
  | None => EM_DASH
  | Some pct =>
      if negb (is_finite pct) then EM_DASH
      else toFixed 1 (num_mul pct (num_of_Z 100)) ++ js "%"
  end.

(** [x && x.spend ? x.spend : 0]. *)
Definition spend_or_zero (m : StatsModelRow) : number :=
  if num_truthy (m_spend m) then m_spend m else num_zero.

Definition by_model_spend (a b : StatsModelRow) : Z :=
  num_sgn (num_sub (spend_or_zero b) (spend_or_zero a)).

Definition slice_of (m : StatsModelRow) : Slice :=
  {| sl_model := str_or (m_model m) EM_DASH; sl_spend := m_spend m;
     sl_spend_pct := m_spend_pct m; isOther := false |}.

(** The loop over the rest: summed spend, summed percentage, and whether any was present. *)
Definition rest_step (acc : number * number * bool) (m : StatsModelRow) : number * number * bool :=
  let '(otherSpend, otherPct, anyPct) := acc in
  let otherSpend := num_add otherSpend (m_spend m) in
  match m_spend_pct m with
  | Some p => (otherSpend, num_add otherPct p, true)
  | None => (otherSpend, otherPct, anyPct)
  end.

Definition rankSlices (models : option (list StatsModelRow)) : list Slice :=
  let list := array_sort by_model_spend (default [] models) in
  let top := map slice_of (take 5 list) in
  match drop 5 list with
  | [] => top
  | rest =>
      let '(otherSpend, otherPct, anyPct) := foldl rest_step (num_zero, num_zero, false) rest in
      top ++ [{| sl_model := OTHER_LABEL; sl_spend := otherSpend;
                 sl_spend_pct := if anyPct : bool then Some otherPct else None; isOther := true |}]
  end.

(** The prefix up to the first slash, when there is one past the start. *)
Definition provider_prefix (model : jsstr) : option jsstr :=
  match index_of (js "/") model with
  | Some i => if (0 <? i)%nat then Some (js_slice model 0 (Z.of_nat i + 1)) else None
  | None => None
  end.

(** The loop over the named slices; leaving it early clears the prefix. *)
Fixpoint common_prefix (prefix : option jsstr) (named : list Slice) : option jsstr :=
  match named with
  | [] => prefix
  | s :: named' =>
      match provider_prefix (sl_model s) with
      | None => None
      | Some p =>
          match prefix with
          | None => common_prefix (Some p) named'
          | Some q => if js_eqb q p then common_prefix prefix named' else None
          end
      end
  end.

Definition displayNames (slices : list Slice) : list jsstr :=
  let named := List.filter (λ s, negb (isOther s)) slices in
  let prefix := common_prefix None named in
  map (λ s, match prefix with
            | Some ((_ :: _) as p) =>
                if isOther s then sl_model s else js_slice_from (sl_model s) (js_len p)
            | _ => sl_model s
            end) slices.

Definition sliceFill (slice : Slice) (index : nat) : jsstr :=
  if isOther slice then OTHER_FILL
  else match SLICE_FILLS !! index with
       | Some f => f
       | None => default [] (SLICE_FILLS !! (length SLICE_FILLS - 1)%nat)
       end.

Section view.
Context {E : Type}.

Definition DonutStatePanel (children : jsstr) (showTotalCap : bool) : node E :=
  El "div" [("data-slot", AStr (js "usage-donut-state"))] []
    (when showTotalCap [El "div" [] [] [Text TOTAL_CAPTION]; El "div" [] [] [Text EM_DASH]] ++
     [El "div" [] [] [Text children]]).

(** The total shown: the window's, else the sum of the slices. *)
Definition donut_total (totalSpend : option number) (slices : list Slice) : number :=
  match totalSpend with
  | Some t => t
  | None => foldl (λ acc s, num_add acc (sl_spend s)) num_zero slices
  end.

Definition legend_item (i : nat) (s : Slice) (name : jsstr) : node E :=
  El "li" [("title", AStr (sl_model s))] []
    [El "span" [("style.background", AStr (sliceFill s i))] [] [];
     El "span" [] [] [Text name];
     El "span" [] [] [Text (formatCurrency (JNumber (sl_spend s)))];
     El "span" [] [] [Text (formatPct (sl_spend_pct s))]].

Definition UsageDonut (models : option (list StatsModelRow)) (totalSpend : option number)
    (capabilities : option StatsCapabilities) : node E :=
  let hasData := (0 <? Z.of_nat (length (default [] models)))%Z in
  match capabilityRenderMode (capability_map <$> capabilities) (js "per_model_spend") hasData with
  | ComingSoon => DonutStatePanel COMING_SOON_COPY true
  | Presets.Empty => DonutStatePanel EMPTY_COPY false
  | Ready =>
      let slices := rankSlices models in
      let names := displayNames slices in
      let total := donut_total totalSpend slices in
      El "div" [("data-slot", AStr (js "usage-donut"))] []
        [El "Pie" [("dataKey", AStr (js "spend")); ("nameKey", AStr (js "model"))] []
           (imap (λ i s, El "Cell" [("fill", AStr (sliceFill s i))] [] []) slices);
         El "div" [] [] [Text TOTAL_CAPTION];
         El "div" [] [] [Text (formatCurrency (JNumber total))];
         El "ul" [("data-slot", AStr (js "usage-donut-legend"))] []
           (imap (λ i '(s, name), legend_item i s name) (zip slices names))]
  end.
End view.

End UsageDonut.
Import Series TopKeys UsageDonut.

(** ** Lemmas *)

Lemma is_int_finite x z : is_int x z → is_finite x = true.
Proof. by intros (_ & ? & _). Qed.

(** [b.spend - a.spend] is a consistent comparator on finite amounts. *)
Definition amount (x : number) : Prop := num_wf x ∧ is_finite x = true.

Lemma by_spend_scaled a b : amount (s_spend a) → amount (s_spend b) →
  by_spend a b = Z.sgn (scaled (s_spend b) - scaled (s_spend a)).
Proof. intros [] []. by apply num_sgn_sub. Qed.

(** Sorting by a comparator that agrees with an integer key, on the elements at hand. *)
Lemma array_sort_by_key {A} (cmp : A → A → Z) (key : A → Z) (P : A → Prop) l :
  (∀ a b, P a → P b → cmp a b = Z.sgn (key b - key a)) → Forall P l →
  array_sort cmp l = array_sort (λ a b, key b - key a) l.
Proof.
  intros Hcmp. induction 1 as [|x l Hx Hl IH]; [done|]. simpl. rewrite IH.
  assert (Forall P (array_sort (λ a b, key b - key a) l)) as Hs by (by rewrite array_sort_perm).
  clear IH. induction Hs as [|y k Hy Hk IHk]; [done|]. simpl. rewrite Hcmp, IHk by done.
  destruct (Z.leb_spec (Z.sgn (key y - key x)) 0), (Z.leb_spec (key y - key x) 0); done || lia.
Qed.

#[export] Instance key_comparator {A} (key : A → Z) : Comparator (λ a b, key b - key a).
Proof. split; intros; lia. Qed.

Lemma elem_of_add_seen x s seen : x ∈ add_seen s seen ↔ (s = Some x ∧ x ≠ []) ∨ x ∈ seen.
Proof. unfold add_seen. destruct s as [[|c s]|]; simpl; set_solver. Qed.

(** The ids and aliases of the activity rows, and nothing else. *)
Lemma elem_of_seen x l : x ∈ seen_of l ↔
  x ≠ [] ∧ ∃ k, k ∈ l ∧ (s_id k = Some x ∨ s_key_alias k = Some x).
Proof.
  unfold seen_of. assert (∀ seen, x ∈ foldl (λ seen k, add_seen (s_key_alias k) (add_seen (s_id k) seen)) seen l ↔
    x ∈ seen ∨ x ≠ [] ∧ ∃ k, k ∈ l ∧ (s_id k = Some x ∨ s_key_alias k = Some x)) as H.
  { induction l as [|k l IH]; intros seen; simpl.
    - split; [auto|]. intros [|(_ & k & Hk & _)]; [done|]. by apply elem_of_nil in Hk.
    - rewrite IH, !elem_of_add_seen. setoid_rewrite elem_of_cons. naive_solver. }
  rewrite H. set_solver.
Qed.

(** Filtering and presence of the merged list. *)
Lemma mergeTopKeys_perm sk uk : mergeTopKeys sk uk ≡ₚ sk ++ padded sk uk.
Proof. apply array_sort_perm. Qed.

Definition shown_name (s : option jsstr) : Prop := ostr_truthy s = true.

Lemma has_spec s seen : has s seen = true ↔ ∃ x, s = Some x ∧ x ≠ [] ∧ x ∈ seen.
Proof.
  unfold has. rewrite andb_true_iff, bool_decide_eq_true. destruct s as [[|c s]|]; simpl; split;
    try (intros [? ?]; done).
  - by intros (x & [= <-] & ? & _).
  - intros [_ H]. eauto.
  - by intros (x & [= <-] & _ & H).
  - by intros (x & ? & _).
Qed.

(** A row of the list stands for a key when they share an id or an alias. *)
Definition represents (r : StatsKeyRow) (k : KeyRow) : Prop :=
  ∃ x, x ≠ [] ∧ (s_id r = Some x ∨ s_key_alias r = Some x) ∧ (k_id k = Some x ∨ k_key_alias k = Some x).

Lemma has_represents sk k : has (k_id k) (seen_of sk) || has (k_key_alias k) (seen_of sk) = true ↔
  ∃ r, r ∈ sk ∧ represents r k.
Proof.
  rewrite orb_true_iff, !has_spec. setoid_rewrite elem_of_seen. unfold represents. split.
  - intros [(x & Hk & _ & Hx & r & Hr & Hrx)|(x & Hk & _ & Hx & r & Hr & Hrx)];
      exists r; eauto 10.
  - intros (r & Hr & x & Hx & Hrx & [Hk|Hk]); [left|right]; exists x; eauto 10.
Qed.

Lemma elem_of_padded sk uk r : r ∈ padded sk uk ↔
  ∃ k, r = pad_key k ∧ k ∈ uk ∧ (shown_name (k_id k) ∨ shown_name (k_key_alias k)) ∧
       ¬ ∃ r', r' ∈ sk ∧ represents r' k.
Proof.
  unfold padded. rewrite list_elem_of_In, in_map_iff. setoid_rewrite filter_In.
  setoid_rewrite filter_In. setoid_rewrite <-list_elem_of_In. unfold shown_name.
  split.
  - intros (k & <- & [Hk Hs] & Hn). exists k. apply orb_true_iff in Hs.
    split_and!; [done..|]. rewrite <-has_represents, orb_true_iff.
    apply andb_true_iff in Hn as [H1 H2]. apply negb_true_iff in H1, H2. rewrite H1, H2. by intros [].
  - intros (k & -> & Hk & Hs & Hn). exists k. rewrite <-has_represents, orb_true_iff in Hn.
    apply orb_true_iff in Hs. split_and!; [done..|].
    destruct (has (k_id k) _), (has (k_key_alias k) _); tauto.
Qed.

(** ** Properties *)

(** The stacked requests chart adds up: for a day with [r] requests of which
    [f] failed (counts below 2^53), the row's failed part is capped at [r], its
    success part is the exact rest, so the two parts sum to the requests; the row
    keeps its place and date, and the chart is drawn exactly when some day of the
    series has a request. *)
Theorem seriesToRecharts_split series (r f : nat → Z) :
  (∀ i p, series !! i = Some p →
     is_int (p_requests p) (r i) ∧ is_int (p_failed p) (f i) ∧ 0 ≤ r i < 2 ^ 53 ∧ 0 ≤ f i < 2 ^ 53) →
  length (seriesToRecharts (Some series)) = length series ∧
  (∀ i p, series !! i = Some p → ∃ row, seriesToRecharts (Some series) !! i = Some row ∧
     date row = default [] (p_date p) ∧ is_int (requests row) (r i) ∧
     is_int (failed row) (Z.min (r i) (f i)) ∧ is_int (success row) (r i - Z.min (r i) (f i))) ∧
  (seriesHasActivity (Some series) = true ↔ ∃ i, (i < length series)%nat ∧ 0 < r i).
Proof.
  intros Hs. assert (∀ i p, series !! i = Some p → asNumber (p_requests p) = p_requests p ∧
    asNumber (p_failed p) = p_failed p) as Hn.
  { intros i p Hp. destruct (Hs i p Hp) as (Hr & Hf & _). unfold asNumber.
    by rewrite (is_int_finite _ _ Hr), (is_int_finite _ _ Hf). }
  split_and!.
  - unfold seriesToRecharts. by rewrite length_map.
  - intros i p Hp. destruct (Hn i p Hp) as [Hn1 Hn2]. destruct (Hs i p Hp) as (Hr & Hf & Hrb & Hfb).
    exists (seriesRow p). unfold seriesToRecharts. rewrite list_lookup_fmap, Hp.
    pose proof (is_int_min _ _ _ _ Hr Hf) as Hm.
    split; [done|]. unfold seriesRow. cbn [date requests failed success]. rewrite Hn1, Hn2.
    do 3 (split; [done|]).
    replace (r i - Z.min (r i) (f i)) with (Z.max 0 (r i - Z.min (r i) (f i))) by lia.
    apply is_int_max; [apply is_int_zero|]. apply is_int_sub; [done..|lia].
  - unfold seriesHasActivity. rewrite existsb_exists. split.
    + intros (p & Hp%list_elem_of_In & Hlt). apply list_elem_of_lookup in Hp as [i Hp].
      exists i. split; [by apply lookup_lt_Some in Hp|].
      rewrite (proj1 (Hn i p Hp)), (is_int_ltb _ _ 0 (r i)) in Hlt;
        [by apply Z.ltb_lt|apply is_int_zero|apply (Hs i p Hp)].
    + intros (i & Hi & Hr). apply lookup_lt_is_Some in Hi as [p Hp]. exists p.
      split; [by apply list_elem_of_In, (list_elem_of_lookup_2 _ i)|].
      rewrite (proj1 (Hn i p Hp)), (is_int_ltb _ _ 0 (r i));
        [by apply Z.ltb_lt|apply is_int_zero|apply (Hs i p Hp)].
Qed.

(** A day of five requests, two of them failed, and an idle day. *)
Definition day_of_requests (r f : Z) : StatsSeriesPoint :=
  {| p_date := Some (js "2026-01-05"); p_spend := num_zero; p_requests := num_of_Z r;
     p_tokens := num_zero; p_input_tokens := num_zero; p_output_tokens := num_zero;
     p_failed := num_of_Z f |}.

Lemma seriesToRecharts_split_witness :
  seriesHasActivity (Some [day_of_requests 5 2; day_of_requests 0 0]) = true.
Proof.
  apply (seriesToRecharts_split [day_of_requests 5 2; day_of_requests 0 0]
    (λ i, nth i [5; 0] 0) (λ i, nth i [2; 0] 0)).
  - intros [|[|i]] p [= <-].
    + split; [by apply (is_int_of_Z 5)|]. split; [by apply (is_int_of_Z 2)|]. simpl. lia.
    + split; [by apply (is_int_of_Z 0)|]. split; [by apply (is_int_of_Z 0)|]. simpl. lia.
  - exists 0%nat. simpl. lia.
Defined.

(** C14. The merged key list, when every spend is a finite number: every activity
    row is kept, with its figures; every key of the user that has an id or an alias
    is represented by some row; a row is added for a key only when no activity row
    represents it, with zero usage; and the list is in descending order of spend,
    with activity rows before added rows of equal spend. *)
Theorem mergeTopKeys_correct sk uk : Forall (λ k, amount (s_spend k)) sk →
  mergeTopKeys sk uk ≡ₚ sk ++ padded sk uk ∧
  (∀ k, k ∈ uk → shown_name (k_id k) ∨ shown_name (k_key_alias k) →
     ∃ r, r ∈ mergeTopKeys sk uk ∧ represents r k) ∧
  (∀ r, r ∈ padded sk uk → s_requests r = num_zero ∧ s_spend r = num_zero ∧
     ∃ k, k ∈ uk ∧ r = pad_key k ∧ ¬ ∃ r', r' ∈ sk ∧ represents r' k) ∧
  StronglySorted (λ a b, scaled (s_spend b) ≤ scaled (s_spend a)) (mergeTopKeys sk uk) ∧
  (∀ z, filter (λ r, scaled (s_spend r) = z) (mergeTopKeys sk uk) =
        filter (λ r, scaled (s_spend r) = z) sk ++ filter (λ r, scaled (s_spend r) = z) (padded sk uk)).
Proof.
  intros Hsk. assert (Forall (λ k, amount (s_spend k)) (sk ++ padded sk uk)) as Hall.
  { apply Forall_app. split; [done|]. apply Forall_forall. intros r (k & -> & _)%elem_of_padded. done. }
  pose proof (array_sort_by_key by_spend (λ r, scaled (s_spend r)) _ _ by_spend_scaled Hall) as He.
  split_and!.
  - apply mergeTopKeys_perm.
  - intros k Hk Hs. destruct (decide (has (k_id k) (seen_of sk) || has (k_key_alias k) (seen_of sk) = true))
      as [Hr|Hr]; rewrite has_represents in Hr.
    + destruct Hr as (r & Hr & Hk'). exists r. rewrite mergeTopKeys_perm, elem_of_app. auto.
    + exists (pad_key k). split.
      * rewrite mergeTopKeys_perm, elem_of_app, elem_of_padded. eauto 10.
      * destruct Hs as [Hs|Hs]; unfold shown_name in Hs.
        -- destruct (k_id k) as [[|c x]|] eqn:E; [done| |done]. exists (c :: x). simpl. rewrite E. auto.
        -- destruct (k_key_alias k) as [[|c x]|] eqn:E; [done| |done]. exists (c :: x). simpl. rewrite E. auto.
  - intros r (k & -> & Hk & _ & Hn)%elem_of_padded. eauto 10.
  - unfold mergeTopKeys. rewrite He. eapply StronglySorted_weaken; [|apply array_sort_sorted, _].
    unfold cmp_le. simpl. lia.
  - intros z. unfold mergeTopKeys. rewrite He, <-filter_app.
    generalize (sk ++ padded sk uk). intros l.
    destruct (filter (λ r, scaled (s_spend r) = z) l) as [|a m] eqn:E.
    + apply filter_none. rewrite array_sort_perm. by apply (proj1 (filter_none_iff _ l)).
    + assert (scaled (s_spend a) = z) as Ha.
      { assert (a ∈ a :: m) as Hin by left. rewrite <-E in Hin. by apply list_elem_of_filter in Hin as []. }
      rewrite <-E. pose proof (array_sort_stable (λ a b : StatsKeyRow, scaled (s_spend b) - scaled (s_spend a)) a l) as Hs.
      unfold equals_of in Hs.
      assert (∀ k : list StatsKeyRow, filter (λ b, scaled (s_spend b) - scaled (s_spend a) = 0) k =
        filter (λ r, scaled (s_spend r) = z) k) as Hf by (intros k; apply list_filter_iff; intros; lia).
      by rewrite !Hf in Hs.
Qed.

(** Three activity rows, and one idle key of the user's two. *)
Definition activity (id : jsstr) (n : Z) : StatsKeyRow :=
  {| s_id := Some id; s_key_alias := None; s_requests := num_of_Z 1; s_spend := num_of_Z n;
     s_spend_pct := None; s_managed := None; s_deleted := None |}.

Definition user_key (id : jsstr) : KeyRow :=
  {| k_id := Some id; k_key_alias := None; k_spend := num_zero; k_tpm_limit := None;
     k_rpm_limit := None; k_models := None; k_team_id := None; k_created_at := None;
     k_expires := None; k_last_used := None; k_managed := Some true; k_revoked := None;
     k_blocked := None |}.

Lemma mergeTopKeys_correct_witness :
  let sk := [activity (js "a") 1; activity (js "b") 3] in
  let uk := [user_key (js "b"); user_key (js "c")] in
  mergeTopKeys sk uk = [activity (js "b") 3; activity (js "a") 1; pad_key (user_key (js "c"))] ∧
  ∃ r, r ∈ mergeTopKeys sk uk ∧ represents r (user_key (js "c")).
Proof.
  split; [vm_compute; reflexivity|].
  apply (mergeTopKeys_correct [activity (js "a") 1; activity (js "b") 3]
    [user_key (js "b"); user_key (js "c")]).
  - repeat constructor.
  - right. left.
  - left. reflexivity.
Defined.

(** The first slices are the models of highest spend. *)
Lemma provider_prefix_spec model p : provider_prefix model = Some p → ∃ rest, model = p ++ rest ∧ p ≠ [].
Proof.
  unfold provider_prefix. destruct (index_of (js "/") model) as [i|] eqn:E; [|done].
  destruct (0 <? i)%nat eqn:Hi; [|done]. intros [= <-]. apply Nat.ltb_lt in Hi.
  pose proof (index_of_spec _ _ _ E) as Hm. change (length (js "/")) with 1%nat in Hm.
  assert (i + 1 ≤ length model)%nat as Hl.
  { apply (f_equal length) in Hm. rewrite !length_app, length_take, length_drop in Hm.
    change (length (js "/")) with 1%nat in Hm. lia. }
  rewrite slice_prefix by (unfold js_len; lia).
  exists (drop (Z.to_nat (Z.of_nat i + 1)) model). split; [by rewrite take_drop|].
  intros H. apply (f_equal length) in H. rewrite length_take in H. simpl in H. lia.
Qed.

(** The loop returns the prefix all named slices share. *)
Lemma common_prefix_spec prefix named p : common_prefix prefix named = Some p →
  (prefix = Some p ∨ prefix = None) ∧
  Forall (λ s, provider_prefix (sl_model s) = Some p) named.
Proof.
  revert prefix. induction named as [|s named IH]; intros prefix; simpl; [by intros ->; auto|].
  destruct (provider_prefix (sl_model s)) as [q|] eqn:E; [|done].
  destruct prefix as [q'|].
  - destruct (js_eqb q' q) eqn:Eq; [|done]. apply bool_decide_eq_true in Eq as ->.
    intros [[H|H] Hn]%IH; [|done]. injection H as ->. split; [auto|]. by constructor.
  - intros [[H|H] Hn]%IH; [|done]. injection H as ->. split; [auto|]. by constructor.
Qed.

(** C15. Shortening the legend of the donut loses nothing: either every name is
    shown in full, or the named slices share one non-empty provider prefix, which is
    what was removed from each of them and from no other slice; so two named slices
    with different models never read the same. *)
Theorem displayNames_correct slices :
  displayNames slices = map sl_model slices ∨
  ∃ p, p ≠ [] ∧ displayNames slices = map (λ s, if isOther s then sl_model s else drop (length p) (sl_model s)) slices ∧
    (∀ s, s ∈ slices → isOther s = false → sl_model s = p ++ drop (length p) (sl_model s)) ∧
    ∀ s t, s ∈ slices → t ∈ slices → isOther s = false → isOther t = false →
      drop (length p) (sl_model s) = drop (length p) (sl_model t) → sl_model s = sl_model t.
Proof.
  unfold displayNames.
  destruct (common_prefix None (List.filter (λ s, negb (isOther s)) slices)) as [[|c p]|] eqn:E;
    [by left|right|by left].
  apply common_prefix_spec in E as [_ H].
  assert (∀ s, s ∈ slices → isOther s = false → ∃ rest, sl_model s = (c :: p) ++ rest) as Hp.
  { intros s Hs Ho. rewrite Forall_forall in H.
    destruct (provider_prefix_spec (sl_model s) (c :: p)) as (rest & Hr & _); [|eauto].
    apply H, list_elem_of_In, filter_In. split; [by apply list_elem_of_In|by rewrite Ho]. }
  assert (∀ s, s ∈ slices → isOther s = false →
    sl_model s = (c :: p) ++ drop (length (c :: p)) (sl_model s)) as Hd.
  { intros s Hs Ho. destruct (Hp s Hs Ho) as [rest ->]. by rewrite drop_app_length. }
  exists (c :: p). split_and!; [done| |done|].
  - apply map_ext_in. intros s Hs%list_elem_of_In. destruct (isOther s) eqn:Ho; [done|].
    destruct (Hp s Hs Ho) as [rest Hr]. rewrite slice_from_nonneg; [by unfold js_len; rewrite Nat2Z.id|].
    rewrite Hr. unfold js_len. rewrite length_app. lia.
  - intros s t Hs Ht Hos Hot He. rewrite (Hd s), (Hd t) by done. by rewrite He.
Qed.
