(* ===== verification/Session.v ===== *)
(** * Session shell (src/ui/src/lib/api.ts, lib/on-unauthorized.ts, lib/resolve-state.ts, stores/session.ts, stores/config.ts, App.tsx)

    The fetch wrapper that never throws, the session and config stores, and the
    shell that shows one of five states.  Requests are in flight and answers arrive
    in any order: the shell is a transition system over events, and its theorems
    hold on every run. *)

From Stdlib Require Import String.
From S2P Require Import Prelude JsNumber JsString View ApiTypes.

(** ** lib/api.ts and lib/on-unauthorized.ts *)

Module Api.

(** What reading the body does: a JSON value ([None] for [null]), or a rejection
    (invalid JSON, or an abort while it streams). *)
Inductive body (T : Type) := Json (v : option T) | JsonThrows.
Arguments Json {_} _. Arguments JsonThrows {_}.

(** What [fetch] does: a response, or a rejection with an error of the given name. *)
Inductive fetch_outcome (T : Type) :=
| Responds (status : Z) (b : body T)
| Rejects (name : option jsstr).
Arguments Responds {_} _ _. Arguments Rejects {_} _.

Record ApiResult (T : Type) := Result { status : Z; data : option T }.
Arguments Result {_} _ _. Arguments status {_} _. Arguments data {_} _.

(** The promise of [apiFetch]: an envelope, or the abort re-thrown. *)
Inductive promise (T : Type) := Resolved (r : ApiResult T) | Aborted.
Arguments Resolved {_} _. Arguments Aborted {_}.

Definition SESSION_PREFIX : jsstr := js "/api/session/".

(** The result, and whether [notifyUnauthorized] was called on the way. *)
Definition apiFetch {T} (url : jsstr) (o : fetch_outcome T) : promise T * bool :=
  match o with
  | Responds status b =>
      let data := match b with Json v => v | JsonThrows => None end in
      (Resolved (Result status data), (status =? 401) && starts_with SESSION_PREFIX url)
  | Rejects name =>
      if bool_decide (name = Some (js "AbortError")) then (Aborted, false)
      else (Resolved (Result 0 None), false)
  end.

(** A request as [fetch] receives it: method, content type, body. *)
Record request := Request {
  req_url : jsstr;
  req_method : jsstr;
  req_content_type : option jsstr;
  req_body : option jsstr
}.

Definition JSON_TYPE : jsstr := js "application/json".

Definition getJson (url : jsstr) : request := Request url (js "GET") None None.

(** [stringified] is [JSON.stringify(body)]. *)
Definition postJson (url stringified : jsstr) : request :=
  Request url (js "POST") (Some JSON_TYPE) (Some stringified).

Definition del (url : jsstr) : request := Request url (js "DELETE") (Some JSON_TYPE) None.

End Api.
Import Api.

(** ** lib/resolve-state.ts, the stores and the shell *)

Module Session.

Inductive ShellState := loading | signin | authed | error | expired.

#[export] Instance ShellState_eq_dec : EqDecision ShellState.
Proof. solve_decision. Defined.

Definition resolveState (status : option Z) (hasLoaded : bool) : ShellState :=
  match status with
  | None => loading
  | Some status =>
      if status =? 200 then authed
      else if status =? 401 then if hasLoaded then expired else signin
      else error
  end.

Record SessionState := {
  s_status : option Z;
  s_me : option SessionMe;
  s_hasLoaded : bool
}.

Definition initialSessionState : SessionState :=
  {| s_status := None; s_me := None; s_hasLoaded := false |}.

(** [loadSession] up to the await, and after it. *)
Definition loadSession_start (s : SessionState) : SessionState :=
  {| s_status := None; s_me := s_me s; s_hasLoaded := s_hasLoaded s |}.

Definition loadSession_end (r : ApiResult SessionMe) (s : SessionState) : SessionState :=
  let s := if status r =? 200
           then {| s_status := s_status s; s_me := data r; s_hasLoaded := true |} else s in
  {| s_status := Some (status r); s_me := s_me s; s_hasLoaded := s_hasLoaded s |}.

Definition markExpired (s : SessionState) : SessionState :=
  if s_hasLoaded s
  then {| s_status := Some 401; s_me := s_me s; s_hasLoaded := s_hasLoaded s |} else s.

(** *** stores/config.ts *)

Definition DEFAULT_CONFIG : AppConfig := {|
  brand := js "alitellm-auth"; brand_short := js "LiteLLM"; provider_name := js "ai-platform";
  tagline := js ""; accent_segment := js "-auth"; public_host := js ""; chat_public_url := js "";
  providers := [{| label := js "Google" |}; {| label := js "Dex" |}; {| label := js "OIDC" |}];
  links := ∅
|}.

(** A config response: any subset of the fields. *)
Record ConfigData := {
  c_brand : option jsstr;
  c_brand_short : option jsstr;
  c_provider_name : option jsstr;
  c_tagline : option jsstr;
  c_accent_segment : option jsstr;
  c_public_host : option jsstr;
  c_chat_public_url : option jsstr;
  c_providers : option (list ConfigProvider);
  c_links : option (gmap (list Z) jsstr)
}.

(** [{ ...DEFAULT_CONFIG, ...data }]. *)
Definition merge_config (d : ConfigData) : AppConfig := {|
  brand := default (brand DEFAULT_CONFIG) (c_brand d);
  brand_short := default (brand_short DEFAULT_CONFIG) (c_brand_short d);
  provider_name := default (provider_name DEFAULT_CONFIG) (c_provider_name d);
  tagline := default (tagline DEFAULT_CONFIG) (c_tagline d);
  accent_segment := default (accent_segment DEFAULT_CONFIG) (c_accent_segment d);
  public_host := default (public_host DEFAULT_CONFIG) (c_public_host d);
  chat_public_url := default (chat_public_url DEFAULT_CONFIG) (c_chat_public_url d);
  providers := default (providers DEFAULT_CONFIG) (c_providers d);
  links := default (links DEFAULT_CONFIG) (c_links d)
|}.

Definition loadConfig_end (r : ApiResult ConfigData) (c : AppConfig) : AppConfig :=
  match data r with
  | Some d => if status r =? 200 then merge_config d else c
  | None => c
  end.

(** *** App.tsx *)

Definition EXPIRED_REDIRECT_URL : jsstr := js "/api/oauth/login".

(** The shell: the stores, the registered handler, the requests in flight, the
    answers whose continuation has not run, the view last committed to the page and
    the redirects made. *)
Record Shell := {
  session : SessionState;
  config : AppConfig;
  handler : bool;
  me_pending : nat;
  me_arrived : list (ApiResult SessionMe);
  config_pending : nat;
  committed : option ShellState;
  redirects : list jsstr
}.

Definition initialShell : Shell := {|
  session := initialSessionState; config := DEFAULT_CONFIG; handler := false;
  me_pending := 0; me_arrived := []; config_pending := 0; committed := None; redirects := []
|}.

Definition with_session (f : SessionState → SessionState) (s : Shell) : Shell := {|
  session := f (session s); config := config s; handler := handler s;
  me_pending := me_pending s; me_arrived := me_arrived s; config_pending := config_pending s;
  committed := committed s; redirects := redirects s
|}.

Definition view (s : Shell) : ShellState :=
  resolveState (s_status (session s)) (s_hasLoaded (session s)).

(** [notifyUnauthorized]: the registered handler is [markExpired]. *)
Definition notifyUnauthorized (s : Shell) : Shell :=
  if handler s then with_session markExpired s else s.

(** [loadSession()] from a mount or from the retry button. *)
Definition start_load (s : Shell) : Shell := {|
  session := loadSession_start (session s); config := config s; handler := handler s;
  me_pending := S (me_pending s); me_arrived := me_arrived s; config_pending := config_pending s;
  committed := committed s; redirects := redirects s
|}.

(** The mount effect: register the handler, load the session and the config. *)
Definition mount (s : Shell) : Shell :=
  let s := start_load {|
    session := session s; config := config s; handler := true;
    me_pending := me_pending s; me_arrived := me_arrived s; config_pending := config_pending s;
    committed := committed s; redirects := redirects s |} in
  {| session := session s; config := config s; handler := handler s;
     me_pending := me_pending s; me_arrived := me_arrived s; config_pending := S (config_pending s);
     committed := committed s; redirects := redirects s |}.

Definition unmount (s : Shell) : Shell := {|
  session := session s; config := config s; handler := false;
  me_pending := me_pending s; me_arrived := me_arrived s; config_pending := config_pending s;
  committed := None; redirects := redirects s
|}.

(** The answer to one request for /api/session/me reaches the wrapper.  These
    requests carry no abort signal; a rejection named AbortError would leave
    [loadSession] unfinished. *)
Definition me_arrives (o : fetch_outcome SessionMe) (s : Shell) : Shell :=
  match me_pending s with
  | O => s
  | S n =>
      let '(p, notify) := apiFetch (js "/api/session/me") o in
      let s := if notify : bool then notifyUnauthorized s else s in
      {| session := session s; config := config s; handler := handler s;
         me_pending := n;
         me_arrived := match p with Resolved r => me_arrived s ++ [r] | Aborted => me_arrived s end;
         config_pending := config_pending s; committed := committed s; redirects := redirects s |}
  end.

(** The continuation of the oldest answered [loadSession]. *)
Definition me_continues (s : Shell) : Shell :=
  match me_arrived s with
  | [] => s
  | r :: rs =>
      {| session := loadSession_end r (session s); config := config s; handler := handler s;
         me_pending := me_pending s; me_arrived := rs; config_pending := config_pending s;
         committed := committed s; redirects := redirects s |}
  end.

Definition config_arrives (o : fetch_outcome ConfigData) (s : Shell) : Shell :=
  match config_pending s with
  | O => s
  | S n =>
      let config' := match (apiFetch (js "/api/config") o).1 with
        | Resolved r => loadConfig_end r (config s)
        | Aborted => config s
        end in
      {| session := session s; config := config'; handler := handler s;
         me_pending := me_pending s; me_arrived := me_arrived s; config_pending := n;
         committed := committed s; redirects := redirects s |}
  end.

(** Any other request of the page (keys, stats, models, ...) is answered. *)
Definition other_arrives (url : jsstr) (o : fetch_outcome unit) (s : Shell) : Shell :=
  if (apiFetch url o).2 then notifyUnauthorized s else s.

(** A commit of [App]: the effect on [view] runs when the view changed. *)
Definition commit (s : Shell) : Shell :=
  if decide (committed s = Some (view s)) then s
  else
    {| session := session s; config := config s; handler := handler s;
       me_pending := me_pending s; me_arrived := me_arrived s; config_pending := config_pending s;
       committed := Some (view s);
       redirects := if decide (view s = expired) then redirects s ++ [EXPIRED_REDIRECT_URL]
                    else redirects s |}.

Inductive event :=
| Mount | Unmount | Retry
| MeArrives (o : fetch_outcome SessionMe) | MeContinues
| ConfigArrives (o : fetch_outcome ConfigData)
| OtherArrives (url : jsstr) (o : fetch_outcome unit)
| Commit.

Definition step (s : Shell) (e : event) : Shell :=
  match e with
  | Mount => mount s
  | Unmount => unmount s
  | Retry => start_load s
  | MeArrives o => me_arrives o s
  | MeContinues => me_continues s
  | ConfigArrives o => config_arrives o s
  | OtherArrives url o => other_arrives url o s
  | Commit => commit s
  end.

Definition run (es : list event) (s : Shell) : Shell := foldl step s es.

(** What [App] returns. *)
Inductive app_view :=
| LoadingCard
| Login (config : AppConfig)
| ErrorCard (retrying : bool)
| AuthedRouter (me : SessionMe) (config : AppConfig).

Definition App (s : Shell) : app_view :=
  match view s with
  | authed =>
      match s_me (session s) with
      | None => ErrorCard (bool_decide (s_status (session s) = None))
      | Some me => AuthedRouter me (config s)
      end
  | signin => Login (config s)
  | error => ErrorCard (bool_decide (s_status (session s) = None))
  | loading | expired => LoadingCard
  end.

(** The hash router of the authed view.  [path] is the router's pathname in its
    normal form (the router itself ignores case and a trailing slash). *)
Inductive page := Dashboard | Stats | Models | Mcp | A2a | HowTo.

(** The child route of the shell that matches; none does when only the route [*],
    which is beside the shell, matches. *)
Definition matchRoute (path : jsstr) : option page :=
  if js_eqb path (js "/") then Some Dashboard
  else if js_eqb path (js "/stats") then Some Stats
  else if js_eqb path (js "/models") then Some Models
  else if js_eqb path (js "/mcp") then Some Mcp
  else if js_eqb path (js "/a2a") then Some A2a
  else if js_eqb path (js "/howto") then Some HowTo
  else None.

(** The page an address ends at: the route [*] navigates to [/]. *)
Definition makeRouter (path : jsstr) : page := default Dashboard (matchRoute path).

(** ** Lemmas *)

(** Induction over runs, for a property of the state and the events so far. *)
Lemma run_invariant (P : list event → Shell → Prop) s0 :
  P [] s0 → (∀ es s e, P es s → P (es ++ [e]) (step s e)) → ∀ es, P es (run es s0).
Proof.
  intros H0 Hstep es. induction es as [|e es IH] using rev_ind; [done|].
  unfold run. rewrite foldl_app. simpl. by apply Hstep.
Qed.

Lemma notifyUnauthorized_cases s :
  notifyUnauthorized s = s ∨
  (s_hasLoaded (session s) = true ∧ notifyUnauthorized s = with_session (λ x, 
     {| s_status := Some 401; s_me := s_me x; s_hasLoaded := s_hasLoaded x |}) s).
Proof.
  unfold notifyUnauthorized, with_session, markExpired.
  destruct s as [[st me []] c [] mp ma cp co r]; simpl; auto.
Qed.

(** What every event does to the parts the invariant reads. *)
Definition session_ok (s : SessionState) : Prop := s_me s ≠ None → s_hasLoaded s = true.

Definition shell_ok (s : Shell) : Prop :=
  session_ok (session s) ∧ (redirects s ≠ [] → s_hasLoaded (session s) = true) ∧
  Forall (eq EXPIRED_REDIRECT_URL) (redirects s).

Lemma view_expired s : view s = expired → s_hasLoaded (session s) = true.
Proof.
  unfold view, resolveState. destruct (s_status _) as [z|]; [|done].
  destruct (z =? 200); [done|]. destruct (z =? 401); [|done]. by destruct (s_hasLoaded _).
Qed.

Lemma notifyUnauthorized_ok s : shell_ok s → shell_ok (notifyUnauthorized s).
Proof. destruct (notifyUnauthorized_cases s) as [->|[Hl ->]]; [done|]. by intros (H1 & H2 & H3). Qed.

Lemma shell_step_ok s e : shell_ok s → shell_ok (step s e).
Proof.
  intros Hs. destruct e as [| | |o| |o|url o|]; simpl; try exact Hs.
  - unfold me_arrives. destruct (me_pending s); [done|].
    destruct (apiFetch _ o) as [p notify].
    assert (shell_ok (if notify then notifyUnauthorized s else s)) as H
      by (destruct notify; [by apply notifyUnauthorized_ok|done]).
    by destruct p.
  - unfold me_continues. destruct (me_arrived s) as [|r rs]; [done|].
    destruct Hs as (H1 & H2 & H3). unfold loadSession_end. split; [|split; [|done]]; simpl.
    + unfold session_ok in *. by destruct (status r =? 200).
    + intros Hr. specialize (H2 Hr). by destruct (status r =? 200).
  - unfold config_arrives. by destruct (config_pending s).
  - unfold other_arrives. destruct (apiFetch url o).2; [by apply notifyUnauthorized_ok|done].
  - unfold commit. destruct (decide _); [done|]. destruct Hs as (H1 & H2 & H3).
    split; [done|]. simpl. destruct (decide (view s = expired)) as [Hv|]; [|done].
    split; [intros _; by apply view_expired|]. apply Forall_app. split; [done|by constructor].
Qed.

Lemma initial_ok : shell_ok initialShell.
Proof. split; [by intros []|split; [by intros []|apply List.Forall_nil]]. Qed.

Lemma shell_run_ok es : shell_ok (run es initialShell).
Proof. apply (run_invariant (λ _, shell_ok)); [apply initial_ok|]. intros. by apply shell_step_ok. Qed.

(** The payloads and configs the server has sent. *)
Definition sent_me (es : list event) (me : SessionMe) : Prop :=
  MeArrives (Responds 200 (Json (Some me))) ∈ es.

Definition sent_config (es : list event) (d : ConfigData) : Prop :=
  ConfigArrives (Responds 200 (Json (Some d))) ∈ es.

Definition provenance (es : list event) (s : Shell) : Prop :=
  (∀ me, s_me (session s) = Some me → sent_me es me) ∧
  (∀ r me, r ∈ me_arrived s → status r = 200 → data r = Some me → sent_me es me) ∧
  (config s = DEFAULT_CONFIG ∨ ∃ d, sent_config es d ∧ config s = merge_config d).

Lemma notifyUnauthorized_same s : s_me (session (notifyUnauthorized s)) = s_me (session s) ∧
  me_arrived (notifyUnauthorized s) = me_arrived s ∧ config (notifyUnauthorized s) = config s.
Proof. by destruct (notifyUnauthorized_cases s) as [->|[_ ->]]. Qed.

Lemma provenance_weaken es e s : provenance es s → provenance (es ++ [e]) s.
Proof.
  unfold provenance, sent_me, sent_config. setoid_rewrite elem_of_app.
  intros (H1 & H2 & H3). split_and!; [eauto..|]. destruct H3 as [H3|(d & Hd & H3)]; eauto 10.
Qed.

Lemma provenance_frame es s s' : s_me (session s') = s_me (session s) →
  me_arrived s' = me_arrived s → config s' = config s → provenance es s → provenance es s'.
Proof. unfold provenance. by intros -> -> ->. Qed.

Lemma step_provenance es s e : provenance es s → provenance (es ++ [e]) (step s e).
Proof.
  intros Hp. pose proof (provenance_weaken es e s Hp) as Hw.
  destruct e as [| | |o| |o|url o|]; simpl; try exact Hw.
  - unfold me_arrives. destruct (me_pending s) eqn:Epend; [done|].
    destruct (notifyUnauthorized_same s) as (Hm & Ha & Hc).
    destruct (apiFetch _ o) as [p notify] eqn:E.
    set (s1 := if notify then notifyUnauthorized s else s).
    assert (provenance (es ++ [MeArrives o]) s1) as (H1 & H2 & H3)
      by (unfold s1; destruct notify; [by eapply provenance_frame|done]).
    destruct p as [r|]; split_and!; try done. simpl.
    intros r' me [Hr|Hr%list_elem_of_singleton]%elem_of_app Hst Hd; [by apply (H2 r' me)|]. subst r'.
    unfold sent_me. apply elem_of_app. right. apply list_elem_of_singleton.
    destruct o as [st [v|]|name]; simpl in E; [| |destruct (bool_decide _); [done|]];
      injection E as <- <-; simpl in *; by subst.
  - unfold me_continues. destruct (me_arrived s) as [|r rs] eqn:E; [done|].
    destruct Hw as (H1 & H2 & H3). split_and!; simpl; [| |done].
    + intros me. unfold loadSession_end. destruct (status r =? 200) eqn:Est; simpl; [|apply H1].
      apply Z.eqb_eq in Est. intros Hd. apply (H2 r); [rewrite E; left|done|done].
    + intros r' me Hr. apply H2. rewrite E. by right.
  - unfold config_arrives. destruct (config_pending s) eqn:Epend; [done|].
    destruct Hw as (H1 & H2 & H3). split_and!; try done. simpl.
    destruct o as [st [v|]|name]; simpl; [| |by destruct (bool_decide _)]; [|done].
    unfold loadConfig_end. simpl. destruct v as [d|]; [|done].
    destruct (st =? 200) eqn:Est; [|done]. apply Z.eqb_eq in Est as ->. right. exists d.
    split; [|done]. apply elem_of_app. right. by apply list_elem_of_singleton.
  - unfold other_arrives. destruct (apiFetch url o).2; [|done].
    destruct (notifyUnauthorized_same s) as (Hm & Ha & Hc). by eapply provenance_frame.
  - unfold commit. by destruct (decide _).
Qed.

Lemma run_provenance es : provenance es (run es initialShell).
Proof.
  apply run_invariant; [|intros; by apply step_provenance].
  split_and!; [done|by intros r me ?%elem_of_nil|by left].
Qed.

(** ** Properties *)

(** C16. On every run of the shell (boots, remounts, retries, answers in any order,
    commits at any time): the page never redirects before the user has been
    signed in once, and only ever to the fixed login address; the application is
    shown only with a session payload, one the server sent with a 200, and with the
    default config or one the server sent merged over it; once signed in, the
    sign-in landing is never shown again; and an error card never has its retry
    button disabled. *)
Theorem shell_safe es : let s := run es initialShell in
  Forall (eq EXPIRED_REDIRECT_URL) (redirects s) ∧
  (redirects s ≠ [] → s_hasLoaded (session s) = true) ∧
  match App s with
  | AuthedRouter me c => s_status (session s) = Some 200 ∧ s_hasLoaded (session s) = true ∧
      sent_me es me ∧ (c = DEFAULT_CONFIG ∨ ∃ d, sent_config es d ∧ c = merge_config d)
  | Login c => s_hasLoaded (session s) = false
  | ErrorCard retrying => retrying = false
  | LoadingCard => True
  end.
Proof.
  intros s. destruct (shell_run_ok es) as (H1 & H2 & H3). destruct (run_provenance es) as (P1 & _ & P3).
  fold s in H1, H2, H3, P1, P3. split_and!; [done..|].
  unfold App, view, resolveState. destruct (s_status (session s)) as [z|] eqn:Ez; [|done].
  destruct (z =? 200) eqn:E2.
  - apply Z.eqb_eq in E2 as ->. destruct (s_me (session s)) as [me|] eqn:Em; [|done].
    split_and!; [done| |by apply P1|done]. apply H1. by rewrite Em.
  - destruct (z =? 401); [|done]. by destruct (s_hasLoaded (session s)) eqn:El.
Qed.

(** Being signed in is sticky and the record of redirects only grows: from any
    state, along any run, [hasLoaded] never goes back to false and no redirect is
    taken back. *)
Theorem hasLoaded_monotone es s :
  (s_hasLoaded (session s) = true → s_hasLoaded (session (run es s)) = true) ∧
  redirects s `prefix_of` redirects (run es s).
Proof.
  apply (run_invariant (λ _ s', (s_hasLoaded (session s) = true → s_hasLoaded (session s') = true) ∧
    redirects s `prefix_of` redirects s')); [done|]. clear es.
  intros es s' e [Hl Hr].
  assert ((s_hasLoaded (session s') = true → s_hasLoaded (session (step s' e)) = true) ∧
    redirects s' `prefix_of` redirects (step s' e)) as [Hl' Hr']; [|split; [auto|by etrans]].
  clear Hl Hr. destruct (notifyUnauthorized_cases s') as [Hn|[Hl Hn]];
    destruct e as [| | |o| |o|url o|]; simpl; try done;
    unfold me_arrives, me_continues, config_arrives, other_arrives, commit.
  all: try (destruct (me_pending s'); [done|]; destruct (apiFetch _ o) as [[] []]; simpl; by rewrite ?Hn).
  all: try (destruct (me_arrived s') as [|r rs]; [done|]; unfold loadSession_end; simpl; by destruct (_ =? 200)).
  all: try (by destruct (config_pending s')).
  all: try (destruct (apiFetch url o).2; [|done]; by rewrite Hn).
  all: destruct (decide _); [done|]; simpl; split; [done|].
  all: destruct (decide _); [by eexists|done].
Qed.

(** Expiry: while the shell is mounted, a 401 on any session endpoint sends a
    user who had signed in to the login address at the next commit (once, however
    many requests fail), and leaves a visitor who had not exactly where they were;
    a 401 elsewhere, any other status, an abort or a network failure changes
    nothing. *)
Theorem expiry_redirects s url o : handler s = true →
  let s' := run [OtherArrives url o; Commit] s in
  if (match o with Responds st _ => st =? 401 | Rejects _ => false end) && starts_with SESSION_PREFIX url
     && s_hasLoaded (session s)
  then App s' = LoadingCard ∧ view s' = expired ∧ committed s' = Some expired ∧
       redirects s' = redirects s ++ (if decide (committed s = Some expired) then [] else [EXPIRED_REDIRECT_URL])
  else s' = commit s.
Proof.
  intros Hh s'. unfold s', run. cbn [foldl step]. clear s'. unfold other_arrives.
  assert ((apiFetch url o).2 =
    (match o with Responds st _ => st =? 401 | Rejects _ => false end) && starts_with SESSION_PREFIX url) as ->.
  { destruct o as [st b|name]; [done|]. unfold apiFetch. by destruct (bool_decide _). }
  destruct (_ && starts_with _ _); [|done]. cbn [andb].
  unfold notifyUnauthorized, with_session, markExpired.
  destruct s as [[st me []] c h mp ma cp co r]; simpl in *; subst h; [|done].
  unfold commit, App, view. simpl. destruct (decide (co = Some expired)) as [->|]; simpl.
  - by rewrite app_nil_r.
  - done.
Qed.

(** A signed-in user whose stats request comes back with 401. *)
Lemma expiry_redirects_witness :
  let s := run [Mount; MeArrives (Responds 200 (Json None)); MeContinues; Commit] initialShell in
  redirects (run [OtherArrives (js "/api/session/stats") (Responds 401 JsonThrows); Commit] s) =
    [EXPIRED_REDIRECT_URL].
Proof.
  refine (proj2 (proj2 (proj2 (expiry_redirects
    (run [Mount; MeArrives (Responds 200 (Json None)); MeContinues; Commit] initialShell)
    (js "/api/session/stats") (Responds 401 JsonThrows) _)))).
  reflexivity.
Defined.

(** *** Settling

    What is left to happen for the loads in flight: an answer and then its
    continuation for a pending request, the continuation for an answered one. *)
Definition work (s : Shell) : nat := 2 * me_pending s + length (me_arrived s).

Definition answered (o : fetch_outcome SessionMe) : Prop := o ≠ Rejects (Some (js "AbortError")).

Definition not_aborted (e : event) : Prop := match e with MeArrives o => answered o | _ => True end.

Inductive delivers : Shell → Shell → Prop :=
| delivers_answer s o : me_pending s ≠ 0%nat → answered o → delivers s (step s (MeArrives o))
| delivers_continue s : me_arrived s ≠ [] → delivers s (step s MeContinues).

Lemma notifyUnauthorized_work s : me_pending (notifyUnauthorized s) = me_pending s ∧
  me_arrived (notifyUnauthorized s) = me_arrived s.
Proof. by destruct (notifyUnauthorized_cases s) as [->|[_ ->]]. Qed.

Lemma me_arrives_work s o n : me_pending s = S n → answered o →
  me_pending (me_arrives o s) = n ∧ length (me_arrived (me_arrives o s)) = S (length (me_arrived s)).
Proof.
  intros Hn Ho. unfold me_arrives. rewrite Hn. destruct (apiFetch _ o) as [p notify] eqn:E.
  assert (∃ r, p = Resolved r) as [r ->].
  { destruct o as [st b|name]; simpl in E; [injection E as <- _; by eexists|].
    destruct (bool_decide _) eqn:Eb; [|injection E as <- _; by eexists].
    apply bool_decide_eq_true in Eb as ->. by destruct Ho. }
  simpl. split; [done|]. rewrite length_app. simpl.
  destruct (notifyUnauthorized_work s) as [_ Ha]. destruct notify; rewrite ?Ha; lia.
Qed.

Lemma delivers_work s s' : delivers s s' → work s = S (work s').
Proof.
  intros [t o Hp Ho|t Ha]; unfold work; simpl.
  - destruct (me_pending t) as [|n] eqn:En; [done|]. destruct (me_arrives_work t o n En Ho) as [-> ->]. lia.
  - unfold me_continues. destruct (me_arrived t); [done|]. simpl. lia.
Qed.

Lemma delivers_run s s' : rtc delivers s s' → ∃ es, s' = run es s ∧ Forall not_aborted es.
Proof.
  induction 1 as [t|t u v [t' o Hp Ho|t' Ha] _ (es & -> & He)]; [by exists []| |].
  - exists (MeArrives o :: es). split; [done|by constructor].
  - exists (MeContinues :: es). split; [done|by constructor].
Qed.

Definition started (es : list event) : Prop := Mount ∈ es ∨ Retry ∈ es.

Lemma started_snoc es e : started (es ++ [e]) → started es ∨ e = Mount ∨ e = Retry.
Proof. unfold started. rewrite !elem_of_app, !list_elem_of_singleton. intuition congruence. Qed.

(** A load leaves the status unset only while it is under way. *)
Lemma loading_works es : Forall not_aborted es → started es →
  s_status (session (run es initialShell)) = None → work (run es initialShell) ≠ 0%nat.
Proof.
  apply (run_invariant (λ es s, Forall not_aborted es → started es → s_status (session s) = None → work s ≠ 0%nat)).
  { intros _ [Hn|Hn]; by apply elem_of_nil in Hn. }
  clear es. intros es s e IH Hna Hst. apply Forall_app in Hna as [Hna He%Forall_inv].
  assert (e = Mount ∨ e = Retry ∨ (started es ∧ e ≠ Mount ∧ e ≠ Retry)) as [-> |[-> |(Hs & H1 & H2)]]
    by (destruct (started_snoc es e Hst) as [?|[?|?]]; [|tauto..]; destruct e; tauto || (right; right; split; [done|split; discriminate])).
  1, 2: intros _; unfold work; simpl; lia.
  specialize (IH Hna Hs). destruct e as [| | |o| |o|url o|]; try done; simpl.
  - destruct (me_pending s) as [|n] eqn:En; [unfold me_arrives; by rewrite En|].
    intros _. destruct (me_arrives_work s o n En He) as [_ Hl]. unfold work. lia.
  - unfold me_continues. by destruct (me_arrived s).
  - unfold config_arrives. by destruct (config_pending s).
  - unfold other_arrives. destruct (apiFetch url o).2; [|done].
    by destruct (notifyUnauthorized_cases s) as [->|[_ ->]].
  - unfold commit. by destruct (decide _).
Qed.

(** C39. Loading ends.  Whatever happened to the shell before, as long as no session
    request was aborted, its loads finish: every answer or continuation leaves one
    thing less to happen, of which there are finitely many, and until none is left
    another can happen; when none is left and the shell has been mounted, it does not
    show the loading state, and what it shows is decided by the status and whether
    the user had signed in.  (No session request carries an abort signal: an abort of
    the first one leaves the shell loading with nothing left to happen.) *)
Theorem shell_settles (es : list event) : Forall not_aborted es →
  let s := run es initialShell in
  (∀ n s', nsteps delivers n s s' → (n + work s')%nat = work s) ∧
  (∀ s', rtc delivers s s' → work s' = 0%nat ∨ ∃ s'', delivers s' s'') ∧
  (∀ s', rtc delivers s s' → work s' = 0%nat → started es →
     ∃ st, s_status (session s') = Some st ∧ view s' ≠ loading ∧
       view s' = if st =? 200 then authed
                 else if st =? 401 then if s_hasLoaded (session s') then expired else signin else error) ∧
  view (run [Mount; MeArrives (Rejects (Some (js "AbortError")))] initialShell) = loading ∧
  work (run [Mount; MeArrives (Rejects (Some (js "AbortError")))] initialShell) = 0%nat.
Proof.
  intros Hes s. split_and!; [| | |done|done].
  - intros n s'. revert n. generalize s. intros t n Hn.
    induction Hn as [t|n t u v Htu _ IH]; [done|]. apply delivers_work in Htu. lia.
  - intros s' _. destruct (me_pending s') as [|n] eqn:En.
    + destruct (me_arrived s') as [|r rs] eqn:Er; [left; unfold work; by rewrite En, Er|].
      right. eexists. apply delivers_continue. by rewrite Er.
    + right. eexists. apply (delivers_answer s' (Responds 200 (Json None))); [by rewrite En|done].
  - intros s' Hr Hw Hst. destruct (delivers_run _ _ Hr) as (es' & -> & Hes').
    assert (run es' s = run (es ++ es') initialShell) as E by (unfold s, run; by rewrite foldl_app).
    rewrite E in Hw |- *.
    destruct (s_status (session (run (es ++ es') initialShell))) as [st|] eqn:Es.
    + exists st. split; [done|]. unfold view. rewrite Es. simpl. by repeat case_match.
    + exfalso. apply (loading_works (es ++ es')); [by apply Forall_app| |done|done].
      destruct Hst as [Hm|Hm]; [left|right]; apply elem_of_app; by left.
Qed.

(** A mount, whose session request is answered with a 401: the sign-in page. *)
Lemma shell_settles_witness :
  let s := run [Mount] initialShell in
  let s' := run [MeArrives (Responds 401 JsonThrows); MeContinues] s in
  work s = 2%nat ∧ nsteps delivers 2 s s' ∧ view s' = signin ∧ view s' ≠ loading.
Proof.
  assert (nsteps delivers 2 (run [Mount] initialShell)
    (run [MeArrives (Responds 401 JsonThrows); MeContinues] (run [Mount] initialShell))) as Hn.
  { eapply nsteps_l; [by apply (delivers_answer _ (Responds 401 JsonThrows))|].
    eapply nsteps_l; [by apply delivers_continue|apply nsteps_O]. }
  split; [done|]. split; [exact Hn|]. split; [done|].
  destruct (proj1 (proj2 (proj2 (shell_settles [Mount] ltac:(by repeat constructor)))) _
    (rtc_nsteps_2 _ _ _ Hn) eq_refl (or_introl (list_elem_of_here _ _))) as (st & _ & Hv & _).
  exact Hv.
Defined.

End Session.
