(* ===== verification/Stores.v ===== *)
(** * Client stores (src/ui/src/stores, lib/theme.ts, hooks/use-toast.ts, hooks/use-copy-feedback.ts)

    The theme, the toast queue with its timers, the copy feedback, the keys minted in
    this browser session and the open flag of the create-key modal. *)

From Stdlib Require Import String.
From S2P Require Import Prelude JsNumber JsString View.

(** ** lib/theme.ts, stores/theme.ts and components/layout/ThemeToggle.tsx *)

Module Theme.

Inductive Theme := dark | light | pastel | red.

#[export] Instance Theme_eq_dec : EqDecision Theme.
Proof. solve_decision. Defined.

Definition theme_name (t : Theme) : jsstr :=
  match t with
  | dark => js "dark" | light => js "light" | pastel => js "pastel" | red => js "red"
  end.

Definition THEME_ORDER : list Theme := [dark; light; pastel; red].

Definition index_in (t : Theme) (l : list Theme) : nat :=
  default 0%nat (fst <$> list_find (eq t) l).

Definition nextTheme (theme : Theme) : Theme :=
  default dark (THEME_ORDER !! ((index_in theme THEME_ORDER + 1) mod length THEME_ORDER)%nat).

(** The browser as the theme sees it: the [class] tokens of <html>, the stored
    value, whether storage works, and whether the system prefers light. *)
Record Browser := {
  classList : list jsstr;
  stored : option jsstr;
  storage_ok : bool;
  prefers_light : bool
}.

Definition getSystemTheme (b : Browser) : Theme := if prefers_light b then light else dark.

Definition theme_of_name (v : jsstr) : option Theme :=
  if js_eqb v (js "dark") then Some dark else if js_eqb v (js "light") then Some light
  else if js_eqb v (js "pastel") then Some pastel else if js_eqb v (js "red") then Some red
  else None.

Definition readStoredTheme (b : Browser) : option Theme :=
  if storage_ok b then stored b ≫= theme_of_name else None.

Definition resolveInitialTheme (b : Browser) : Theme :=
  match readStoredTheme b with Some t => t | None => getSystemTheme b end.

(** [classList.remove(...THEME_ORDER); classList.add(theme)]. *)
Definition applyThemeClass (theme : Theme) (b : Browser) : Browser := {|
  classList := filter (λ c, c ∉ map theme_name THEME_ORDER) (classList b) ++ [theme_name theme];
  stored := stored b; storage_ok := storage_ok b; prefers_light := prefers_light b
|}.

Definition persistTheme (theme : Theme) (b : Browser) : Browser := {|
  classList := classList b;
  stored := if storage_ok b then Some (theme_name theme) else stored b;
  storage_ok := storage_ok b; prefers_light := prefers_light b
|}.

(** The store's two mutators, on the store's theme and the browser. *)
Definition setTheme (theme : Theme) (s : Theme * Browser) : Theme * Browser :=
  (theme, persistTheme theme (applyThemeClass theme s.2)).

Definition toggle (s : Theme * Browser) : Theme * Browser := setTheme (nextTheme s.1) s.

Inductive theme_event := Toggle.

Definition NEXT_LABEL (t : Theme) : jsstr :=
  match t with
  | dark => js "Switch to light theme" | light => js "Switch to pastel theme"
  | pastel => js "Switch to red theme" | red => js "Switch to dark theme"
  end.

Definition NEXT_TITLE (t : Theme) : jsstr :=
  match t with
  | dark => js "Light mode" | light => js "Pastel mode"
  | pastel => js "Red mode" | red => js "Dark mode"
  end.

Definition ThemeToggle (theme : Theme) : node theme_event :=
  El "button" [("aria-label", AStr (NEXT_LABEL theme));
               ("title", AStr (NEXT_TITLE theme ++ js " (next: " ++ theme_name (nextTheme theme) ++ js ")"));
               ("data-theme", AStr (theme_name theme))] [("onClick", Toggle)] [].

Lemma theme_of_name_of t : theme_of_name (theme_name t) = Some t.
Proof. by destruct t. Qed.

Lemma theme_name_in t : theme_name t ∈ map theme_name THEME_ORDER.
Proof. destruct t; simpl; set_solver. Qed.

(** The state after any number of clicks from a page load. *)
Definition clicked (n : nat) (b : Browser) : Theme * Browser :=
  Nat.iter n toggle (resolveInitialTheme b, b).

(** The theme switch: after one or more clicks the document carries the class
    of the current theme and of no other, its other classes untouched; the next
    load resolves to the same theme when storage works, and to the system's (or the
    old stored choice) when it does not; and four clicks come back to the start,
    having gone through every theme. *)
Theorem theme_clicks n b : let s := clicked (S n) b in
  filter (λ c, c ∈ map theme_name THEME_ORDER) (classList s.2) = [theme_name s.1] ∧
  filter (λ c, c ∉ map theme_name THEME_ORDER) (classList s.2) =
    filter (λ c, c ∉ map theme_name THEME_ORDER) (classList b) ∧
  (resolveInitialTheme s.2 = if storage_ok b then s.1 else resolveInitialTheme b) ∧
  (clicked (4 + S n) b).1 = s.1 ∧
  (∀ t, t ∈ [s.1; nextTheme s.1; nextTheme (nextTheme s.1); nextTheme (nextTheme (nextTheme s.1))]).
Proof.
  assert (∀ k, filter (λ c, c ∉ map theme_name THEME_ORDER) (classList (clicked k b).2) =
      filter (λ c, c ∉ map theme_name THEME_ORDER) (classList b) ∧
      storage_ok (clicked k b).2 = storage_ok b ∧ prefers_light (clicked k b).2 = prefers_light b ∧
      (storage_ok b = false → stored (clicked k b).2 = stored b)) as Hk.
  { induction k as [|k (IH1 & IH2 & IH3 & IH4)]; [done|]. simpl. unfold clicked in *. split_and!; [|done..|].
    - rewrite filter_app, list_filter_filter. rewrite (list_filter_iff _ (λ c, c ∉ map theme_name THEME_ORDER));
        [|by intros; tauto]. rewrite IH1. rewrite (filter_none _ [_]); [by rewrite app_nil_r|].
      constructor; [|constructor]. intros H. by apply H, theme_name_in.
    - intros Hst. rewrite IH2, Hst. auto. }
  intros s. destruct (Hk (S n)) as (H1 & H2 & H3 & H4). split_and!.
  - unfold s, clicked. simpl. rewrite filter_app, list_filter_filter.
    rewrite (filter_none _ (classList _)); [|apply Forall_forall; intros; tauto].
    rewrite filter_all; [done|]. constructor; [apply theme_name_in|constructor].
  - exact H1.
  - fold s in H2, H3, H4. unfold resolveInitialTheme, readStoredTheme, getSystemTheme.
    rewrite H2, H3. destruct (storage_ok b) eqn:E; [|done].
    unfold s, clicked in *. simpl in *. rewrite H2. opt_simpl. by rewrite theme_of_name_of.
  - change (clicked (4 + S n) b) with (toggle (toggle (toggle (toggle s)))). by destruct s as [[] b'].
  - intros t. destruct s as [[] b'], t; apply (bool_decide_eq_true_1 _); reflexivity.
Qed.

End Theme.

(** ** hooks/use-toast.ts *)

Module Toast.

Definition TOAST_DURATION_MS : Z := 2500.
Definition TOAST_COMING_SOON : jsstr := js "Coming soon".

Inductive ToastVariant := success | error | info.

Record Toast := { toast_id : jsstr; message : jsstr; variant : ToastVariant }.

(** The queue, the timers map (in insertion order, with the time each fires), and
    the id counter. *)
Record ToastState := {
  toasts : list Toast;
  timers : list (jsstr * Z);
  counter : Z
}.

Definition initialToastState : ToastState := {| toasts := []; timers := []; counter := 0 |}.

Definition clearTimer (id : jsstr) (s : ToastState) : ToastState :=
  {| toasts := toasts s; timers := filter (λ t, t.1 ≠ id) (timers s); counter := counter s |}.

Definition nextId (s : ToastState) (now : Z) : jsstr :=
  js "toast-" ++ Z_to_js (counter s + 1) ++ chr "-" :: Z_to_js now.

(** [toast({message, variant = 'info', durationMs = TOAST_DURATION_MS})] at time [now]. *)
Definition toast (msg : jsstr) (v : option ToastVariant) (durationMs : option Z) (now : Z)
    (s : ToastState) : ToastState :=
  let id := nextId s now in
  {| toasts := toasts s ++ [{| toast_id := id; message := msg; variant := default info v |}];
     timers := timers s ++ [(id, now + default TOAST_DURATION_MS durationMs)];
     counter := counter s + 1 |}.

Definition dismiss (id : jsstr) (s : ToastState) : ToastState :=
  let s := clearTimer id s in
  {| toasts := filter (λ t, toast_id t ≠ id) (toasts s); timers := timers s; counter := counter s |}.

Definition dismissAll (s : ToastState) : ToastState :=
  let s := foldl (λ s id, clearTimer id s) s (map fst (timers s)) in
  {| toasts := []; timers := timers s; counter := counter s |}.

(** A timer's callback. *)
Definition fire (id : jsstr) (s : ToastState) : ToastState :=
  dismiss id {| toasts := toasts s; timers := filter (λ t, t.1 ≠ id) (timers s); counter := counter s |}.

(** The callbacks due by [now]. *)
Definition elapse (now : Z) (s : ToastState) : ToastState :=
  foldl (λ s id, fire id s) s (map fst (filter (λ t, t.2 ≤ now) (timers s))).

Inductive event :=
| Push (msg : jsstr) (v : option ToastVariant) (durationMs : option Z) (now : Z)
| Dismiss (id : jsstr)
| DismissAll
| Elapse (now : Z).

Definition step (s : ToastState) (e : event) : ToastState :=
  match e with
  | Push msg v d now => toast msg v d now s
  | Dismiss id => dismiss id s
  | DismissAll => dismissAll s
  | Elapse now => elapse now s
  end.

Definition run (es : list event) : ToastState := foldl step initialToastState es.

(** *** components/ui/toast.tsx *)

Definition variant_name (v : ToastVariant) : jsstr :=
  match v with success => js "success" | error => js "error" | info => js "info" end.

Definition icon_class (v : ToastVariant) : jsstr :=
  match v with
  | success => js "text-primary" | error => js "text-destructive" | info => js "text-text-secondary"
  end.

Definition ToastItem (t : Toast) : node event :=
  let isError := match variant t with error => true | _ => false end in
  El "div" [("data-slot", AStr (js "toast")); ("data-variant", AStr (variant_name (variant t)));
            ("role", AStr (if isError then js "alert" else js "status"));
            ("aria-live", AStr (if isError then js "assertive" else js "polite"))] []
    [El "Icon" [("className", AStr (icon_class (variant t)))] [] [];
     El "span" [] [] [Text (message t)];
     El "button" [("aria-label", AStr (js "Dismiss notification"))]
       [("onClick", Dismiss (toast_id t))] []].

Definition Toaster (s : ToastState) : node event :=
  El "div" [("data-slot", AStr (js "toaster")); ("role", AStr (js "region"));
            ("aria-label", AStr (js "Notifications")); ("aria-live", AStr (js "polite"))] []
    (map ToastItem (toasts s)).

(** *** Lemmas *)

(** Ids carry the counter, so they differ. *)
Lemma toast_id_inj c1 c2 n1 n2 : 0 ≤ c1 → 0 ≤ c2 →
  js "toast-" ++ Z_to_js c1 ++ chr "-" :: Z_to_js n1 =
  js "toast-" ++ Z_to_js c2 ++ chr "-" :: Z_to_js n2 → c1 = c2.
Proof.
  intros H1 H2 H. apply app_inv_head in H.
  assert (∀ c n, 0 ≤ c → index_of [chr "-"] (Z_to_js c ++ chr "-" :: Z_to_js n) = Some (length (Z_to_js c))) as Hi.
  { intros c n Hc. apply index_of_char. unfold Z_to_js. rewrite (proj2 (Z.ltb_ge _ _)) by lia.
    eapply Forall_impl; [by apply nat_to_js_digits|]. intros d Hd%is_digit_spec. change (chr "-") with 45. lia. }
  pose proof (Hi c1 n1 H1) as E1. rewrite H, Hi in E1 by done. injection E1 as E1.
  apply app_inj_1 in H as [H _]; [|done]. by apply Z_to_js_inj in H.
Qed.

(** The ids an id counter can have produced. *)
Definition issued (c : Z) (id : jsstr) : Prop :=
  ∃ k n, 0 < k ≤ c ∧ id = js "toast-" ++ Z_to_js k ++ chr "-" :: Z_to_js n.

(** Every toast has its own timer, and every timer its toast. *)
Definition toasts_ok (s : ToastState) : Prop :=
  map toast_id (toasts s) = map fst (timers s) ∧ NoDup (map toast_id (toasts s)) ∧
  0 ≤ counter s ∧ Forall (issued (counter s)) (map toast_id (toasts s)).

Lemma map_filter {A B} (f : A → B) (P : B → Prop) `{∀ y, Decision (P y)} `{∀ x, Decision (P (f x))} l :
  map f (filter (λ x, P (f x)) l) = filter P (map f l).
Proof.
  induction l as [|x l IH]; [done|]. simpl. rewrite !filter_cons. by repeat case_decide; simpl; rewrite IH.
Qed.

Lemma dismiss_ok id s : toasts_ok s → toasts_ok (dismiss id s).
Proof.
  intros (H1 & H2 & H3 & H4). unfold dismiss, clearTimer, toasts_ok. cbn [toasts timers counter].
  assert (map toast_id (filter (λ t, toast_id t ≠ id) (toasts s)) =
          filter (λ i, i ≠ id) (map toast_id (toasts s))) as -> by apply (map_filter toast_id (λ i, i ≠ id)).
  assert (map fst (filter (λ t : jsstr * Z, t.1 ≠ id) (timers s)) =
          filter (λ i, i ≠ id) (map fst (timers s))) as -> by apply (map_filter fst (λ i, i ≠ id)).
  rewrite <-H1. split_and!; [done|by apply NoDup_filter|done|].
  rewrite Forall_forall in H4 |- *. intros i [_ Hi]%list_elem_of_filter. by apply H4.
Qed.

Lemma fire_dismiss id s : fire id s = dismiss id s.
Proof. unfold fire, dismiss, clearTimer. simpl. by rewrite list_filter_filter_l by done. Qed.

Lemma clear_all_timers ids s :
  foldl (λ s id, clearTimer id s) s ids =
  {| toasts := toasts s; timers := filter (λ t, t.1 ∉ ids) (timers s); counter := counter s |}.
Proof.
  revert s. induction ids as [|i ids IH]; intros s; simpl.
  - rewrite filter_all; [by destruct s|]. apply Forall_forall. intros t _. by apply not_elem_of_nil.
  - rewrite IH. unfold clearTimer. simpl. f_equal. rewrite list_filter_filter.
    apply list_filter_iff. intros t. rewrite not_elem_of_cons. tauto.
Qed.

Lemma dismissAll_empty s : toasts (dismissAll s) = [] ∧ timers (dismissAll s) = [].
Proof.
  split; [done|]. unfold dismissAll. rewrite clear_all_timers. simpl. apply filter_none, Forall_forall.
  intros t Ht Hn. by apply Hn, list_elem_of_fmap_2.
Qed.

Lemma fire_all ids s : toasts (foldl (λ s id, fire id s) s ids) = filter (λ t, toast_id t ∉ ids) (toasts s) ∧
  timers (foldl (λ s id, fire id s) s ids) = filter (λ t, t.1 ∉ ids) (timers s) ∧
  counter (foldl (λ s id, fire id s) s ids) = counter s.
Proof.
  revert s. induction ids as [|i ids IH]; intros s; simpl.
  - rewrite !filter_all; [done|apply Forall_forall..]; intros; by apply not_elem_of_nil.
  - destruct (IH (fire i s)) as (-> & -> & ->). rewrite fire_dismiss. unfold dismiss, clearTimer. simpl.
    rewrite !list_filter_filter. split_and!; [apply list_filter_iff..|done]; intros t;
      rewrite not_elem_of_cons; tauto.
Qed.

Lemma elapse_ok now s : toasts_ok s → toasts_ok (elapse now s).
Proof.
  unfold elapse. generalize (map fst (filter (λ t : jsstr * Z, t.2 ≤ now) (timers s))). intros ids.
  revert s. induction ids as [|i ids IH]; intros s Hs; [done|]. apply IH. rewrite fire_dismiss. by apply dismiss_ok.
Qed.

Lemma issued_weaken c c' id : c ≤ c' → issued c id → issued c' id.
Proof. intros Hc (k & n & Hk & ->). exists k, n. split; [lia|done]. Qed.

Lemma toast_step_ok s e : toasts_ok s → toasts_ok (step s e).
Proof.
  destruct e as [msg v d now|id| |now]; simpl; intros Hs; [|by apply dismiss_ok| |by apply elapse_ok].
  - destruct Hs as (H1 & H2 & H3 & H4). unfold toast, toasts_ok. simpl. rewrite !map_app, <-H1. simpl.
    split_and!; [done| |lia|].
    + apply NoDup_app. split; [done|]. split; [|apply NoDup_singleton].
      intros i Hi ->%list_elem_of_singleton. rewrite Forall_forall in H4.
      destruct (H4 _ Hi) as (k & n & Hk & He). unfold nextId in He. apply toast_id_inj in He; lia.
    + apply Forall_app. split.
      * eapply Forall_impl; [exact H4|]. intros i. apply issued_weaken. lia.
      * constructor; [|constructor]. exists (counter s + 1), now. split; [lia|done].
  - destruct (dismissAll_empty s) as [E1 E2]. destruct Hs as (_ & _ & H3 & _).
    unfold toasts_ok. rewrite E1, E2. split_and!; [done|apply NoDup_nil_2| |by constructor].
    unfold dismissAll. by rewrite clear_all_timers.
Qed.

Lemma toast_run_ok es : toasts_ok (run es).
Proof.
  unfold run. assert (toasts_ok initialToastState) as H0.
  { split_and!; [done|apply NoDup_nil_2|done|by constructor]. }
  revert H0. generalize initialToastState. induction es as [|e es IH]; intros s Hs; [done|].
  apply IH, toast_step_ok, Hs.
Qed.

(** C20. No toast outlives its timer and no timer outlives its toast: on every run
    of pushes, dismissals and elapsed time, the pending timers are exactly those of
    the toasts shown, one each, with distinct ids; a toast is shown after an instant
    exactly when it was shown before and its timer had not come due; and once every
    timer has come due the queue is empty. *)
Theorem toasts_timers es : let s := run es in
  map fst (timers s) = map toast_id (toasts s) ∧ NoDup (map toast_id (toasts s)) ∧
  (∀ t now, t ∈ toasts (elapse now s) ↔ t ∈ toasts s ∧ ∃ due, (toast_id t, due) ∈ timers s ∧ now < due) ∧
  (∀ now, Forall (λ p, p.2 ≤ now) (timers s) → toasts (elapse now s) = [] ∧ timers (elapse now s) = []).
Proof.
  intros s. destruct (toast_run_ok es) as (H1 & H2 & _). fold s in H1, H2. split_and!; [done..| |].
  - intros t now. unfold elapse. destruct (fire_all (map fst (filter (λ t : jsstr * Z, t.2 ≤ now) (timers s))) s) as (-> & _).
    rewrite list_elem_of_filter, list_elem_of_fmap. setoid_rewrite list_elem_of_filter. split.
    + intros [Hn Ht]. split; [done|].
      assert (toast_id t ∈ map fst (timers s)) as Hi by (rewrite <-H1; by apply list_elem_of_fmap_2).
      apply list_elem_of_fmap in Hi as ([i due] & Hi & Hin). simpl in Hi. subst i. exists due. split; [done|].
      apply Z.lt_nge. intros Hle. apply Hn. by exists (toast_id t, due).
    + intros (Ht & due & Hin & Hlt). split; [|done]. intros ([i due'] & Hi & Hle & Hin'). simpl in *. subst i.
      assert (due' = due) as ->; [|lia]. rewrite H1 in H2. clear -H2 Hin Hin'.
      apply list_elem_of_lookup in Hin as [a Ha]. apply list_elem_of_lookup in Hin' as [b Hb].
      assert (a = b) as ->; [|congruence].
      apply (NoDup_lookup _ _ _ (toast_id t) H2); rewrite list_lookup_fmap; [by rewrite Ha|by rewrite Hb].
  - intros now Hall. unfold elapse. rewrite filter_all by done.
    destruct (fire_all (map fst (timers s)) s) as (-> & -> & _). split.
    + apply filter_none, Forall_forall. intros t Ht Hn. apply Hn. rewrite <-H1. by apply list_elem_of_fmap_2.
    + apply filter_none, Forall_forall. intros t Ht Hn. by apply Hn, list_elem_of_fmap_2.
Qed.

End Toast.

(** ** hooks/use-copy-feedback.ts *)

Module Copy.

Definition COPIED_FEEDBACK_MS : Z := 2000.

(** [copied], and when the pending timer fires. *)
Record CopyState := { copied : bool; timeoutRef : option Z }.

Definition initial : CopyState := {| copied := false; timeoutRef := None |}.

(** [copyText]: false when the clipboard is unavailable or the write is refused. *)
Definition copyText (available accepted : bool) : bool := available && accepted.

Definition clearPending (s : CopyState) : CopyState := {| copied := copied s; timeoutRef := None |}.

(** [copy(text)], once the write has settled at time [now]. *)
Definition copy (ok : bool) (now : Z) (s : CopyState) : CopyState :=
  if ok then
    let s := clearPending {| copied := true; timeoutRef := timeoutRef s |} in
    {| copied := copied s; timeoutRef := Some (now + COPIED_FEEDBACK_MS) |}
  else s.

(** The timer's callback, when it is due. *)
Definition elapse (now : Z) (s : CopyState) : CopyState :=
  match timeoutRef s with
  | Some due => if due <=? now then {| copied := false; timeoutRef := None |} else s
  | None => s
  end.

(** A copy settling, or time passing. *)
Inductive event := Settled (available accepted : bool) (now : Z) | Elapsed (now : Z).

Definition step (s : CopyState) (e : event) : CopyState :=
  match e with
  | Settled av ac now => copy (copyText av ac) now s
  | Elapsed now => elapse now s
  end.

Definition time_of (e : event) : Z := match e with Settled _ _ t | Elapsed t => t end.

Definition run (es : list event) : CopyState := foldl step initial es.

(** The last successful copy of a run. *)
Definition last_copy (es : list event) : option Z :=
  foldl (λ l e, match e with Settled true true t => Some t | _ => l end) None es.

Lemma copy_run_snoc es e : run (es ++ [e]) = step (run es) e.
Proof. unfold run. by rewrite foldl_app. Qed.

Lemma last_copy_snoc es e : last_copy (es ++ [e]) =
  match e with Settled true true t => Some t | _ => last_copy es end.
Proof. unfold last_copy. by rewrite foldl_app. Qed.

(** Events in the order of the clock. *)
Definition in_order (es : list event) : Prop := StronglySorted (λ a b, time_of a ≤ time_of b) es.

(** The timer in force is the last copy's, unless it has fired. *)
Lemma run_timer es :
  match timeoutRef (run es) with
  | Some due => copied (run es) = true ∧ last_copy es = Some (due - COPIED_FEEDBACK_MS)
  | None => copied (run es) = false ∧
      ∀ t, last_copy es = Some t → ∃ e, e ∈ es ∧ t + COPIED_FEEDBACK_MS ≤ time_of e
  end.
Proof.
  induction es as [|e es IH] using rev_ind; [by split; [|intros t ?]|].
  rewrite copy_run_snoc, last_copy_snoc. destruct (run es) as [c [due|]] eqn:E; simpl in IH.
  - destruct IH as [-> Hl]. destruct e as [[] [] t|t]; simpl.
    1: split; [done|f_equal; lia]. 1-3: done.
    unfold elapse. simpl. destruct (due <=? t) eqn:Ed; simpl; [|done]. split; [done|].
    intros t' Ht'. rewrite Hl in Ht'. injection Ht' as <-. exists (Elapsed t). split; [set_solver|].
    bool_to_prop. simpl. lia.
  - destruct IH as [-> Hl]. destruct e as [[] [] t|t]; simpl.
    1: split; [done|f_equal; lia].
    all: split; [done|]; intros t' Ht'; destruct (Hl t' Ht') as (e & He & Hle); exists e;
      split; [set_solver|done].
Qed.

(** The copied mark, for events in clock order: after time has passed to
    [now], it is on exactly when the last successful copy is less than two seconds
    old, however copies overlap; a refused or unavailable clipboard never turns it
    on. *)
Theorem copy_feedback es now : in_order (es ++ [Elapsed now]) →
  copied (run (es ++ [Elapsed now])) = true ↔
  ∃ t, last_copy es = Some t ∧ now < t + COPIED_FEEDBACK_MS.
Proof.
  intros Ho. pose proof (run_timer es) as H. rewrite copy_run_snoc. simpl. unfold elapse.
  destruct (timeoutRef (run es)) as [due|] eqn:E.
  - destruct H as [Hc Hl]. rewrite Hl. destruct (due <=? now) eqn:Ed; bool_to_prop; simpl.
    + split; [done|]. intros (t & [= <-] & Hlt). lia.
    + split; [|done]. intros _. eexists. split; [done|]. lia.
  - destruct H as [Hc Hl]. rewrite Hc. split; [done|]. intros (t & Ht & Hlt).
    destruct (Hl t Ht) as (e & He & Hle). exfalso.
    apply StronglySorted_app in Ho as [Ho _].
    specialize (Ho e (Elapsed now) He ltac:(by apply list_elem_of_singleton)). simpl in Ho. lia.
Qed.

(** Two overlapping copies: the second keeps the mark on past the first's timer. *)
Lemma copy_feedback_witness :
  copied (run ([Settled true true 0; Settled true true 1500] ++ [Elapsed 2500])) = true.
Proof.
  apply copy_feedback; [|by exists 1500].
  repeat constructor; simpl; lia.
Defined.

End Copy.

(** ** stores/fresh-keys.ts and stores/create-key-modal.ts *)

Module Fresh.

(** id to full secret, in memory only. *)
Abbreviation FreshKeys := (gmap (list Z) jsstr).

Definition initialFreshKeysState : FreshKeys := ∅.

Definition setFresh (id key : jsstr) (m : FreshKeys) : FreshKeys := <[id := key]> m.

Definition dropFresh (id : jsstr) (m : FreshKeys) : FreshKeys :=
  match m !! id with None => m | Some _ => delete id m end.

Definition initialCreateKeyModalState : bool := false.
Definition openModal (open : bool) : bool := true.
Definition closeModal (open : bool) : bool := false.

Lemma lookup_dropFresh id m i : dropFresh id m !! i = if decide (i = id) then None else m !! i.
Proof.
  unfold dropFresh. destruct (m !! id) eqn:E, (decide (i = id)) as [->|]; try done.
  - by rewrite lookup_delete_eq.
  - by rewrite lookup_delete_ne.
Qed.

End Fresh.
