(* ===== verification/KeyHooks.v ===== *)
(** * Data hooks (src/ui/src/hooks/use-keys.ts, use-teams.ts, use-models.ts, use-mcp.ts, use-a2a.ts, use-stats.ts, use-latency.ts)

    The queries and the mutations of the console: what they send, how they read the
    answer, and what a settled mutation does to the client's stores. *)

From Stdlib Require Import String.
From S2P Require Import Prelude JsNumber JsString Uri ApiTypes Session Stores.
Import Session.Api Stores.Fresh.

Module KeyHooks.

(** The body of an answer: the shape the endpoint promises, or any other object,
    of which only a string [detail] is read. *)
Abbreviation payload T := (T + option jsstr)%type.

(** ** Mutations *)

Record ApiCallError := CallError {
  err_message : jsstr;
  err_status : option Z;
  err_detail : option jsstr
}.

Definition apiCallError {T} (message : jsstr) (status : Z) (data : option (payload T)) : ApiCallError :=
  CallError message (Some status) (match data with Some (inr d) => d | _ => None end).

(** What a settled mutation does to the client. *)
Inductive effect :=
| SetFresh (id key : jsstr)
| DropFresh (id : jsstr)
| InvalidateKeys
| ToastError (message : jsstr).

Inductive outcome (T : Type) := Fulfilled (data : payload T) | Rejected (e : ApiCallError).
Arguments Fulfilled {_} _. Arguments Rejected {_} _.

Section mutation.
Context {A T : Type} (request_of : A → option request) (errorTag toastMessage : jsstr)
  (onSuccessExtra : payload T → A → list effect).

(** [mutationFn]: [None] is a request that could not be built (it throws), and
    the server answers the others. *)
Definition mutationFn (server : request → promise (payload T)) (args : A) : outcome T :=
  match request_of args with
  | None => Rejected (CallError (js "URI malformed") None None)
  | Some r =>
      match server r with
      | Aborted => Rejected (CallError (js "AbortError") None None)
      | Resolved r =>
          if negb (status r =? 200) then Rejected (apiCallError errorTag (status r) (data r))
          else match data r with
               | None => Rejected (apiCallError errorTag (status r) (data r))
               | Some d => Fulfilled d
               end
      end
  end.

(** [onSuccess] and [onError]. *)
Definition settle (o : outcome T) (args : A) : list effect :=
  match o with
  | Fulfilled d => onSuccessExtra d args ++ [InvalidateKeys]
  | Rejected _ => [ToastError toastMessage]
  end.

Definition useKeyMutation (server : request → promise (payload T)) (args : A) : outcome T * list effect :=
  let o := mutationFn server args in (o, settle o args).
End mutation.

Definition KEYS_URL : jsstr := js "/api/session/keys".

(** [JSON.stringify] of a create body: members left undefined are absent. *)
Definition stringify_body (b : CreateKeyBody) : jsstr :=
  json_object (omap (λ '(k, v), (λ s, (k, json_string s)) <$> v)
    [(js "alias", b_alias b); (js "duration", b_duration b); (js "team_id", b_team_id b)]).

Definition create_request (b : CreateKeyBody) : option request :=
  Some (postJson KEYS_URL (stringify_body b)).

Definition create_extra (d : payload CreateKeyResponse) (_ : CreateKeyBody) : list effect :=
  match d with
  | inl r => if str_truthy (created_id r) then [SetFresh (created_id r) (created_key r)] else []
  | inr _ => []
  end.

Definition useCreateKey := useKeyMutation create_request (js "create-key-failed")
  (js "Could not create the key.") create_extra.

(** [`/api/session/keys/${encodeURIComponent(id)}`] and what follows. *)
Definition key_url (id suffix : jsstr) : option jsstr :=
  (λ e, js "/api/session/keys/" ++ e ++ suffix) <$> encodeURIComponent id.

Definition delete_request (id : jsstr) : option request := del <$> key_url id [].

Definition delete_extra (_ : payload DeleteKeyResponse) (id : jsstr) : list effect := [DropFresh id].

Definition useDeleteKey := useKeyMutation delete_request (js "delete-key-failed")
  (js "Could not delete the key.") delete_extra.

Definition change_team_request '((id, teamId) : jsstr * jsstr) : option request :=
  (λ u, postJson u (json_object [(js "team_id", json_string teamId)])) <$> key_url id (js "/team").

Definition useChangeKeyTeam := useKeyMutation (T := ChangeKeyTeamResponse) change_team_request
  (js "change-team-failed") (js "Could not change the key team.") (λ _ _, []).

Definition block_request '((id, blocked) : jsstr * bool) : option request :=
  (λ u, postJson u (json_object [(js "blocked", if blocked then js "true" else js "false")]))
    <$> key_url id (js "/block").

Definition useToggleKeyBlock := useKeyMutation (T := BlockKeyResponse) block_request
  (js "block-key-failed") (js "Could not update the key.") (λ _ _, []).

(** The stores the effects act on: fresh keys, whether the keys list is stale, and
    the error toasts raised. *)
Record Client := { fresh : FreshKeys; stale : bool; errors : list jsstr }.

Definition apply_effect (c : Client) (e : effect) : Client :=
  match e with
  | SetFresh id key => {| fresh := setFresh id key (fresh c); stale := stale c; errors := errors c |}
  | DropFresh id => {| fresh := dropFresh id (fresh c); stale := stale c; errors := errors c |}
  | InvalidateKeys => {| fresh := fresh c; stale := true; errors := errors c |}
  | ToastError m => {| fresh := fresh c; stale := stale c; errors := errors c ++ [m] |}
  end.

Definition apply_effects (l : list effect) (c : Client) : Client := foldl apply_effect c l.

(** ** Queries

    A query function resolves to data or throws an error of the given name; an
    abort is the query's cancellation. *)

Inductive query (T : Type) := Data (v : T) | Throws (tag : jsstr) | Cancelled.
Arguments Data {_} _. Arguments Throws {_} _. Arguments Cancelled {_}.

(** The queries of models, MCP servers, agents, stats and latency. *)
Definition load {T} (tag : jsstr) (p : promise T) : query T :=
  match p with
  | Aborted => Cancelled
  | Resolved r =>
      match data r with
      | Some d => if status r =? 200 then Data d else Throws tag
      | None => Throws tag
      end
  end.

(** [useKeys]: the field [keys] must be an array ([None] when it is not). *)
Definition useKeys_query (p : promise (option (list KeyRow))) : query (list KeyRow) :=
  match p with
  | Aborted => Cancelled
  | Resolved r =>
      match data r with
      | Some (Some keys) => if status r =? 200 then Data keys else Throws (js "keys-load-failed")
      | _ => Throws (js "keys-load-failed")
      end
  end.

(** [useTeams] degrades to no teams; it passes no abort signal. *)
Definition useTeams_query (p : promise (option (list Team))) : query (list Team) :=
  match p with
  | Aborted => Cancelled
  | Resolved r =>
      match data r with
      | Some (Some teams) => if status r =? 200 then Data teams else Data []
      | _ => Data []
      end
  end.

Definition useModels_query (p : promise ModelsResponse) := load (js "models-load-failed") p.
Definition useMcp_query (p : promise McpResponse) := load (js "mcp-load-failed") p.
Definition useA2a_query (p : promise A2aResponse) := load (js "a2a-load-failed") p.
Definition useStats_query (p : promise StatsResponse) := load (js "stats-load-failed") p.
Definition useLatency_query (p : promise LatencyResponse) := load (js "latency-load-failed") p.

Definition range_params (start end_ : jsstr) : jsstr :=
  search_params [(js "start_date", start); (js "end_date", end_)].

Definition stats_request (start end_ : jsstr) : request :=
  getJson (js "/api/session/stats?" ++ range_params start end_).

Definition latency_request (start end_ : jsstr) : request :=
  getJson (js "/api/session/latency?" ++ range_params start end_).

(** ** Lemmas *)

Lemma key_url_spec id suffix u : Forall (λ c, 0 ≤ c < 65536) id → key_url id suffix = Some u →
  ∃ seg, u = KEYS_URL ++ chr "/" :: seg ++ suffix ∧ decodeURIComponent seg = Some id ∧
    Forall (λ c, c ≠ chr "/" ∧ c ≠ chr "?" ∧ c ≠ chr "#") seg.
Proof.
  intros Hid. unfold key_url. destruct (encodeURIComponent id) as [e|] eqn:E; opt_simpl; [|done].
  intros [= <-]. destruct (encodeURIComponent_spec id e Hid E) as [Hd Hs].
  exists e. split_and!; [done..|]. eapply Forall_impl; [exact Hs|]. intros c. apply segment_char_safe.
Qed.

(** ** Properties *)

(** C22. A key is addressed exactly: whatever UTF-16 text its id is, a delete, a
    team change or a block request goes to /api/session/keys, one path segment that
    decodes back to the id and contains no slash, question mark or hash, and the
    operation's fixed suffix; every such request declares a JSON body.  (What a
    browser makes of a segment that is empty or only dots is not considered.) *)
Theorem key_requests_addressed id r suffix : Forall (λ c, 0 ≤ c < 65536) id →
  (delete_request id = Some r ∧ suffix = []) ∨
  ((∃ team, change_team_request (id, team) = Some r) ∧ suffix = js "/team") ∨
  ((∃ b, block_request (id, b) = Some r) ∧ suffix = js "/block") →
  req_content_type r = Some JSON_TYPE ∧
  ∃ seg, req_url r = KEYS_URL ++ chr "/" :: seg ++ suffix ∧ decodeURIComponent seg = Some id ∧
    Forall (λ c, c ≠ chr "/" ∧ c ≠ chr "?" ∧ c ≠ chr "#") seg.
Proof.
  intros Hid H. assert (∃ u, key_url id suffix = Some u ∧ req_url r = u ∧ req_content_type r = Some JSON_TYPE)
    as (u & Hu & <- & Ht).
  { destruct H as [[H ->]|[[[team H] ->]|[[b H] ->]]]; unfold delete_request, change_team_request, block_request in H;
      apply fmap_Some in H as (u & Hu & ->); by exists u. }
  split; [done|]. by apply key_url_spec.
Qed.

(** An id with a slash and an accent. *)
Definition block_example : request :=
  postJson (js "/api/session/keys/a%2F%C3%A9/block") (json_object [(js "blocked", js "true")]).

Lemma key_requests_addressed_witness :
  req_content_type block_example = Some JSON_TYPE ∧
  ∃ seg, req_url block_example = KEYS_URL ++ chr "/" :: seg ++ js "/block" ∧
    decodeURIComponent seg = Some (js "a/é") ∧
    Forall (λ c, c ≠ chr "/" ∧ c ≠ chr "?" ∧ c ≠ chr "#") seg.
Proof.
  apply (key_requests_addressed (js "a/é") block_example (js "/block")).
  - apply (bool_decide_eq_true_1 _). vm_compute. reflexivity.
  - right. right. split; [exists true; vm_compute; reflexivity|reflexivity].
Defined.

(** The secrets a client holds after a settled create or delete. *)
Inductive key_event :=
| Create (server : request → promise (payload CreateKeyResponse)) (b : CreateKeyBody)
| Delete (server : request → promise (payload DeleteKeyResponse)) (id : jsstr).

Definition key_step (c : Client) (e : key_event) : Client :=
  match e with
  | Create server b => apply_effects (useCreateKey server b).2 c
  | Delete server id => apply_effects (useDeleteKey server id).2 c
  end.

Definition key_run (es : list key_event) (c : Client) : Client := foldl key_step c es.

(** What an event says about the secret of a key: newly issued, gone, or nothing. *)
Definition key_news (id : jsstr) (e : key_event) : option (option jsstr) :=
  match e with
  | Create server b =>
      match (useCreateKey server b).1 with
      | Fulfilled (inl r) => if bool_decide (created_id r = id ∧ id ≠ []) then Some (Some (created_key r)) else None
      | _ => None
      end
  | Delete server i =>
      match (useDeleteKey server i).1 with
      | Fulfilled _ => if bool_decide (i = id) then Some None else None
      | _ => None
      end
  end.

Definition latest_news (id : jsstr) (es : list key_event) : option jsstr :=
  foldl (λ k e, default k (key_news id e)) None es.

Lemma key_step_fresh id e c : fresh (key_step c e) !! id = default (fresh c !! id) (key_news id e).
Proof.
  destruct e as [server b|server i]; unfold key_step, key_news; cbn [useCreateKey useDeleteKey useKeyMutation fst snd];
    unfold useCreateKey, useDeleteKey, useKeyMutation; cbn [fst snd].
  - destruct (mutationFn _ _ _ b) as [[r|d]|e]; simpl; [|done..].
    destruct (created_id r) as [|x i] eqn:E; simpl.
    + rewrite bool_decide_false; [done|]. by intros [<- ?].
    + unfold setFresh. destruct (decide (x :: i = id)) as [<-|Hne].
      * by rewrite bool_decide_true, lookup_insert_eq by done.
      * rewrite bool_decide_false by tauto. by rewrite lookup_insert_ne.
  - destruct (mutationFn _ _ _ i) as [d|e]; simpl; [|done]. rewrite lookup_dropFresh.
    destruct (decide (i = id)) as [->|].
    + by rewrite bool_decide_true, decide_True.
    + by rewrite bool_decide_false, decide_False by congruence.
Qed.

(** C23. A settled key mutation either succeeded (a 200 with a body) and then marks
    the keys list for refetch and raises no error, or failed and then raises exactly
    its own error message and changes nothing else; and after any sequence of creates
    and deletes, whatever the server answers, the secret held for an id is the one of
    its last successful create if no successful delete followed, and none
    otherwise. *)
Theorem mutations_settle {A T} (req : A → option request) tag msg extra server (args : A) c :
  (∀ d a e, e ∈ extra d a → ∃ i k, e = SetFresh i k ∨ e = DropFresh i) →
  let '(o, l) := useKeyMutation (T := T) req tag msg extra server args in
  match o with
  | Fulfilled d => stale (apply_effects l c) = true ∧ errors (apply_effects l c) = errors c ∧
      ∃ r, req args = Some r ∧ server r = Resolved (Result 200 (Some d))
  | Rejected _ => apply_effects l c = {| fresh := fresh c; stale := stale c; errors := errors c ++ [msg] |}
  end ∧
  ∀ es id, fresh (key_run es {| fresh := ∅; stale := false; errors := [] |}) !! id = latest_news id es.
Proof.
  intros Hextra. unfold useKeyMutation. split.
  - unfold mutationFn. destruct (req args) as [r|] eqn:Er; [|done].
    destruct (server r) as [[st da]|] eqn:Es; [|done]. simpl.
    destruct (st =? 200) eqn:Est; [|done]. apply Z.eqb_eq in Est as ->. simpl.
    destruct da as [d|]; [|done]. cbn [settle]. unfold apply_effects. rewrite foldl_app. simpl.
    assert (errors (foldl apply_effect c (extra d args)) = errors c) as ->.
    { specialize (Hextra d args). revert c Hextra. induction (extra d args) as [|e l IH]; intros c He; [done|].
      simpl. rewrite IH by (intros e' He'; apply He; by right).
      destruct (He e) as (i & k & [-> | ->]); [left|done..]. }
    split_and!; [done..|]. by exists r.
  - intros es id. unfold key_run, latest_news.
    assert (∀ c, fresh (foldl key_step c es) !! id = foldl (λ k e, default k (key_news id e)) (fresh c !! id) es) as H.
    { induction es as [|e es IH]; intros c'; [done|]. simpl. by rewrite IH, key_step_fresh. }
    by rewrite H.
Qed.

Lemma mutations_settle_witness :
  let reply := {| created_key := js "sk-secret"; created_id := js "k1"; created_team_id := None |} in
  let server := λ _ : request, Resolved (Result 200 (Some (inl reply))) in
  let body := {| b_alias := None; b_duration := None; b_team_id := None |} in
  fresh (key_run [Create server body] {| fresh := ∅; stale := false; errors := [] |}) !! js "k1" =
    Some (js "sk-secret").
Proof.
  refine (eq_trans (proj2 (mutations_settle create_request (js "") (js "") create_extra
    (λ _ : request, Aborted) {| b_alias := None; b_duration := None; b_team_id := None |}
    {| fresh := ∅; stale := false; errors := [] |} _) _ _) _).
  - intros [r|d] a e; simpl; [|by intros ?%elem_of_nil]. destruct (str_truthy _); [|by intros ?%elem_of_nil].
    intros ->%list_elem_of_singleton. eauto.
  - vm_compute. reflexivity.
Defined.

End KeyHooks.
