(* ===== verification/Modals.v ===== *)
(** * The key dialogs (src/ui/src/components/keys/CreateKeyModal.tsx, DeleteKeyModal.tsx)

    Two state machines over the user's actions and the settlement of the one request
    each can have in flight. *)

From Stdlib Require Import String.
From S2P Require Import Prelude JsNumber JsString JsText View Format ApiTypes Keys Session Stores KeyHooks.
Import Format Validation Session.Api Stores.Fresh KeyHooks.KeyHooks.

Module CreateKeyModal.

Definition SHOWN_ONCE_WARNING_PRE : jsstr :=
  js "Save this secret key somewhere safe and accessible. For security reasons, ".
Definition SHOWN_ONCE_WARNING_EMPHASIS : jsstr := js "you won't be able to view it again.".
Definition SHOWN_ONCE_WARNING_POST : jsstr :=
  js " If you lose it, you'll need to generate a new one.".

Section modal.
Context `{U : Unicode}.

(** The fields of an answer whose body is not a created key are [undefined]. *)
Record CreateResult := { result_id : option jsstr; result_key : option jsstr }.

Record Modal := {
  open : bool;
  alias : jsstr;
  duration : jsstr;
  team : jsstr;
  aliasError : option jsstr;
  durationError : option jsstr;
  formError : option jsstr;
  result : option CreateResult;
  teams : list Team;
  inflight : option CreateKeyBody;
  copy_state : Copy.CopyState
}.

Definition initial : Modal := {|
  open := initialCreateKeyModalState; alias := []; duration := []; team := [];
  aliasError := None; durationError := None; formError := None; result := None;
  teams := []; inflight := None; copy_state := Copy.initial
|}.

Definition submitting (m : Modal) : bool := if inflight m is Some _ then true else false.

(** The effect on [team, teams]: default to the first team. *)
Definition default_team (m : Modal) : Modal :=
  match teams m with
  | t :: _ =>
      if js_eqb (team m) [] then
        {| open := open m; alias := alias m; duration := duration m; team := t_id t;
           aliasError := aliasError m; durationError := durationError m; formError := formError m;
           result := result m; teams := teams m; inflight := inflight m; copy_state := copy_state m |}
      else m
  | [] => m
  end.

Definition handleClose (m : Modal) : Modal := {|
  open := closeModal (open m); alias := []; duration := []; team := [];
  aliasError := None; durationError := None; formError := None; result := None;
  teams := teams m; inflight := inflight m; copy_state := copy_state m
|}.

(** A non-empty string, or the member left out. *)
Definition nonempty (s : jsstr) : option jsstr := if str_truthy s then Some s else None.

Definition onSubmit (m : Modal) : Modal :=
  if submitting m then m
  else
    let aliasValue := js_trim (alias m) in
    let durationValue := js_trim (duration m) in
    let aErr := validateAlias aliasValue in
    let dErr := validateDuration durationValue in
    {| open := open m; alias := alias m; duration := duration m; team := team m;
       aliasError := aErr; durationError := dErr; formError := None;
       result := result m; teams := teams m;
       inflight := match aErr, dErr with
         | None, None => Some {| b_alias := nonempty aliasValue; b_duration := nonempty durationValue;
                                 b_team_id := nonempty (team m) |}
         | _, _ => None
         end;
       copy_state := copy_state m |}.

(** The continuation of [mutateAsync]. *)
Definition onSettled (o : outcome CreateKeyResponse) (m : Modal) : Modal :=
  match inflight m with
  | None => m
  | Some _ =>
      let base a d f r := {|
        open := open m; alias := alias m; duration := duration m; team := team m;
        aliasError := a; durationError := d; formError := f; result := r;
        teams := teams m; inflight := None; copy_state := copy_state m |} in
      match o with
      | Fulfilled (inl data) =>
          base (aliasError m) (durationError m) (formError m)
            (Some {| result_id := Some (created_id data); result_key := Some (created_key data) |})
      | Fulfilled (inr _) =>
          base (aliasError m) (durationError m) (formError m)
            (Some {| result_id := None; result_key := None |})
      | Rejected err =>
          if bool_decide (err_status err = Some 422) && ostr_truthy (err_detail err) then
            let detail := default [] (err_detail err) in
            if includes (js "alias") detail then base (Some detail) (durationError m) (formError m) (result m)
            else if includes (js "duration") detail
                 then base (aliasError m) (Some detail) (formError m) (result m)
            else base (aliasError m) (durationError m) (Some detail) (result m)
          else base (aliasError m) (durationError m) (Some CREATE_502_ERROR) (result m)
      end
  end.

Inductive event :=
| Open | Close | Submit
| SetAlias (v : jsstr) | SetDuration (v : jsstr) | SetTeam (v : jsstr)
| CopyClicked | CopySettled (available accepted : bool) (now : Z) | Elapsed (now : Z)
| TeamsLoaded (l : list Team)
| Settled (o : outcome CreateKeyResponse).

(** The form is on screen. *)
Definition form_shown (m : Modal) : bool := open m && if result m is Some _ then false else true.

Definition with_fields (a d t : jsstr) (m : Modal) : Modal := {|
  open := open m; alias := a; duration := d; team := t;
  aliasError := aliasError m; durationError := durationError m; formError := formError m;
  result := result m; teams := teams m; inflight := inflight m; copy_state := copy_state m
|}.

Definition with_open (b : bool) (m : Modal) : Modal := {|
  open := b; alias := alias m; duration := duration m; team := team m;
  aliasError := aliasError m; durationError := durationError m; formError := formError m;
  result := result m; teams := teams m; inflight := inflight m; copy_state := copy_state m
|}.

Definition with_teams (l : list Team) (m : Modal) : Modal := {|
  open := open m; alias := alias m; duration := duration m; team := team m;
  aliasError := aliasError m; durationError := durationError m; formError := formError m;
  result := result m; teams := l; inflight := inflight m; copy_state := copy_state m
|}.

Definition with_copy (c : Copy.CopyState) (m : Modal) : Modal := {|
  open := open m; alias := alias m; duration := duration m; team := team m;
  aliasError := aliasError m; durationError := durationError m; formError := formError m;
  result := result m; teams := teams m; inflight := inflight m; copy_state := c
|}.

(** One event.  The handlers of the form act while it is on screen (its inputs are
    disabled during a request); Escape and a click outside close the open dialog at
    any time. *)
Definition handle (m : Modal) (e : event) : Modal :=
  match e with
  | Open => with_open (openModal (open m)) m
  | Close => if open m then handleClose m else m
  | Submit => if form_shown m then onSubmit m else m
  | SetAlias v => if form_shown m && negb (submitting m) then with_fields v (duration m) (team m) m else m
  | SetDuration v => if form_shown m && negb (submitting m) then with_fields (alias m) v (team m) m else m
  | SetTeam v => if form_shown m && negb (submitting m) then with_fields (alias m) (duration m) v m else m
  | CopyClicked => m
  | CopySettled av ac now => with_copy (Copy.copy (Copy.copyText av ac) now (copy_state m)) m
  | Elapsed now => with_copy (Copy.elapse now (copy_state m)) m
  | TeamsLoaded l => with_teams l m
  | Settled o => onSettled o m
  end.

Definition step (m : Modal) (e : event) : Modal := default_team (handle m e).
Definition run (es : list event) (m : Modal) : Modal := foldl step m es.

(** *** The rendered dialog *)

Definition error_text (e : option jsstr) : list (node event) :=
  match e with
  | Some ((_ :: _) as s) => [El "p" [("className", AStr (js "text-xs text-destructive"))] [] [Text s]]
  | _ => []
  end.

Definition result_view (m : Modal) (r : CreateResult) : list (node event) :=
  let copied := Copy.copied (copy_state m) in
  [El "DialogTitle" [] [] [Text (js "Key created")];
   El "p" [("role", AStr (js "alert"))] []
     [Text SHOWN_ONCE_WARNING_PRE; El "strong" [] [] [Text SHOWN_ONCE_WARNING_EMPHASIS];
      Text SHOWN_ONCE_WARNING_POST];
   El "span" [] [] [Text (js "Secret key")];
   El "Button" [("variant", AStr (js "outline"))] [("onClick", CopyClicked)]
     [El (if copied then "Check" else "Copy") [] [] [];
      Text (if copied then js "copied!" else js "copy")];
   El "div" [] [] (for_some (result_key r) (λ k, [Text k]));
   El "Button" [] [("onClick", Close)] [Text (js "done")]].

Definition field (id lbl placeholder value hint : jsstr) (err : option jsstr) (m : Modal)
    (change : jsstr → event) : node event :=
  El "div" [] []
    ([El "label" [("htmlFor", AStr id)] [] [Text lbl];
      El "Input" ([("id", AStr id); ("placeholder", AStr placeholder); ("value", AStr value);
                   ("disabled", ABool (submitting m))] ++
                  attr_some "aria-invalid" (if ostr_truthy err then Some (ABool true) else None))
        [("onChange", change value)] [];
      El "p" [] [] [Text hint]] ++ error_text err).

Definition form_view (m : Modal) : list (node event) :=
  [El "form" [] [("onSubmit", Submit)]
    ([El "DialogTitle" [] [] [Text (js "Create Key")];
      El "DialogDescription" [] [] [Text (js "Generate a new virtual key. Both fields are optional.")];
      field (js "ck-name") (js "name") (js "key-YYYY-MM-DD") (alias m)
        (js "Letters, numbers, dash, underscore, dot. Up to 128 characters.") (aliasError m) m SetAlias] ++
     when (1 <? length (teams m))%nat
       [El "div" [] []
          [El "label" [("htmlFor", AStr (js "ck-team"))] [] [Text (js "team")];
           El "select" [("id", AStr (js "ck-team")); ("value", AStr (team m));
                        ("disabled", ABool (submitting m))] [("onChange", SetTeam (team m))]
             (map (λ t, El "option" [("value", AStr (t_id t))] [] [Text (t_alias t)]) (teams m))]] ++
     [field (js "ck-expires") (js "expires") (js "no expiry") (duration m)
        (js "Leave blank for no expiry. Format: 90d, 24h, 30m.") (durationError m) m SetDuration] ++
     error_text (formError m) ++
     [El "Button" [("variant", AStr (js "outline")); ("disabled", ABool (submitting m))]
        [("onClick", Close)] [Text (js "Cancel")];
      El "Button" [("type", AStr (js "submit")); ("disabled", ABool (submitting m))] []
        [Text (js "Create Key")]])].

Definition CreateKeyModal (m : Modal) : node event :=
  El "Dialog" [("open", ABool (open m))] [("onOpenChange(false)", Close)]
    (when (open m)
      match result m with
      | Some r => result_view m r
      | None => form_view m
      end).

(** *** Lemmas *)

(** The body a form may submit. *)
Definition body_ok (b : CreateKeyBody) : Prop :=
  (∀ a, b_alias b = Some a → a ≠ [] ∧ validateAlias a = None) ∧
  (∀ d, b_duration b = Some d → d ≠ [] ∧ validateDuration d = None) ∧
  (∀ t, b_team_id b = Some t → t ≠ []).

Lemma nonempty_some s t : nonempty s = Some t → t = s ∧ t ≠ [].
Proof. unfold nonempty. destruct s; [done|]. by intros [= <-]. Qed.

Lemma default_team_frame m : open (default_team m) = open m ∧ alias (default_team m) = alias m ∧
  duration (default_team m) = duration m ∧ aliasError (default_team m) = aliasError m ∧
  durationError (default_team m) = durationError m ∧ formError (default_team m) = formError m ∧
  result (default_team m) = result m ∧ teams (default_team m) = teams m ∧
  inflight (default_team m) = inflight m.
Proof. unfold default_team. destruct (teams m) eqn:E; [by rewrite E|]. by destruct (js_eqb _ _). Qed.

(** Nothing is left in a closed dialog. *)
Definition pristine (m : Modal) : Prop :=
  alias m = [] ∧ duration m = [] ∧ aliasError m = None ∧ durationError m = None ∧
  formError m = None ∧ result m = None.

(** The runs in which nobody closes the dialog during a request. *)
Fixpoint patient (es : list event) (m : Modal) : Prop :=
  match es with
  | [] => True
  | e :: es' => (e = Close → inflight m = None) ∧ patient es' (step m e)
  end.

Definition modal_ok (m : Modal) : Prop :=
  (∀ b, inflight m = Some b → body_ok b) ∧ (inflight m ≠ None → result m = None).

Lemma handle_inflight m e b : modal_ok m → inflight (handle m e) = Some b → body_ok b.
Proof.
  intros [H1 _]. destruct e; simpl; try apply H1;
    try (destruct (form_shown m && negb (submitting m)); apply H1).
  - by destruct (open m); apply H1.
  - destruct (form_shown m); [|apply H1]. unfold onSubmit. destruct (submitting m); [apply H1|]. simpl.
    destruct (validateAlias _) eqn:Ea; [done|]. destruct (validateDuration _) eqn:Ed; [done|].
    intros [= <-]. split_and!; simpl; intros s Hs; apply nonempty_some in Hs as [-> ?]; auto.
  - unfold onSettled. destruct (inflight m) eqn:E; [|by rewrite E]. destruct o as [[]|e]; [done..|].
    destruct (_ && _); [|done]. destruct (includes _ _); [done|]. by destruct (includes _ _).
Qed.

Lemma handle_result m e : modal_ok m → inflight (handle m e) ≠ None → result (handle m e) = None.
Proof.
  intros [_ H2]. destruct e; simpl; try exact H2;
    try (destruct (form_shown m && negb (submitting m)); exact H2).
  - by destruct (open m).
  - unfold form_shown. destruct (open m); [|exact H2]. simpl. destruct (result m) eqn:E; [by rewrite E|].
    unfold onSubmit. by destruct (submitting m).
  - unfold onSettled. destruct (inflight m) eqn:E; [|by rewrite E]. destruct o as [[]|e]; [done..|].
    destruct (_ && _); [|done]. destruct (includes _ _); [done|]. by destruct (includes _ _).
Qed.

Lemma create_step_ok m e : modal_ok m → modal_ok (step m e).
Proof.
  intros Hm. unfold step.
  destruct (default_team_frame (handle m e)) as (_ & _ & _ & _ & _ & _ & Hr & _ & Hi).
  split; rewrite Hi; [intros b; by apply handle_inflight|]. rewrite Hr. by apply handle_result.
Qed.

Lemma create_run_ok es m : modal_ok m → modal_ok (run es m).
Proof. revert m. induction es as [|e es IH]; intros m Hm; [done|]. by apply IH, create_step_ok. Qed.

Lemma create_run_snoc es e m : run (es ++ [e]) m = step (run es m) e.
Proof. unfold run. by rewrite foldl_app. Qed.

(** The keys a run's successful answers carried. *)
Definition issued (es : list event) (r : CreateResult) : Prop :=
  ∃ d, Settled (Fulfilled d) ∈ es ∧
    r = match d with
        | inl c => {| result_id := Some (created_id c); result_key := Some (created_key c) |}
        | inr _ => {| result_id := None; result_key := None |}
        end.

Lemma create_step_result m e r : result (step m e) = Some r → result m = Some r ∨ issued [e] r.
Proof.
  unfold step. destruct (default_team_frame (handle m e)) as (_ & _ & _ & _ & _ & _ & -> & _ & _).
  destruct e; simpl; auto; try (destruct (form_shown m && negb (submitting m)); auto; fail).
  - destruct (open m); [done|auto].
  - destruct (form_shown m); [|auto]. unfold onSubmit. destruct (submitting m); auto.
  - unfold onSettled. destruct (inflight m); [|auto]. destruct o as [d|e].
    + intros Hr. right. exists d. split; [by left|]. destruct d; by injection Hr.
    + destruct (_ && _); [|auto]. destruct (includes _ _); [auto|]. destruct (includes _ _); auto.
Qed.

Lemma create_run_result es m r : result (run es m) = Some r → result m = Some r ∨ issued es r.
Proof.
  revert m. induction es as [|e es IH]; intros m; [by left|]. intros Hr.
  destruct (IH _ Hr) as [H|(d & Hd & Hr')].
  - apply create_step_result in H as [H|(d & Hd & Hr')]; [by left|]. right. exists d. split; [|done].
    apply list_elem_of_singleton in Hd as <-. by left.
  - right. exists d. split; [by right|done].
Qed.

Lemma is_close_dec (e : event) : {e = Close} + {e ≠ Close}.
Proof. destruct e; by (left; reflexivity) || (right; discriminate). Qed.

(** Only a close closes. *)
Lemma handle_open m e : open m = true → e ≠ Close → open (handle m e) = true.
Proof.
  intros Ho He. destruct e; simpl; try done; try (by destruct (form_shown m && negb (submitting m))).
  - destruct (form_shown m); [|done]. unfold onSubmit. by destruct (submitting m).
  - unfold onSettled. destruct (inflight m); [|done]. destruct o as [[]|e]; [done..|].
    destruct (_ && _); [|done]. destruct (includes _ _); [done|]. by destruct (includes _ _).
Qed.

Lemma step_closed m e : (e = Close → inflight m = None) →
  (open m = false → pristine m ∧ inflight m = None) →
  open (step m e) = false → pristine (step m e) ∧ inflight (step m e) = None.
Proof.
  intros Hc Hm. unfold step, pristine.
  destruct (default_team_frame (handle m e)) as (-> & -> & -> & -> & -> & -> & -> & _ & ->).
  destruct (open m) eqn:E.
  - destruct (is_close_dec e) as [->|Hne]; [|by rewrite handle_open].
    simpl. rewrite E. intros _. split; [by split_and!|]. by apply Hc.
  - destruct (Hm eq_refl) as [Hp Hi]. intros _.
    assert (form_shown m = false) as Hf by (unfold form_shown; by rewrite E).
    destruct e; simpl; rewrite ?E, ?Hf; try exact (conj Hp Hi).
    unfold onSettled. rewrite Hi. exact (conj Hp Hi).
Qed.

(** The team picked by the form itself: none, or the first of a list that arrived. *)
Definition team_default (es : list event) (m : Modal) : Prop :=
  team m = [] ∨ ∃ t l, TeamsLoaded (t :: l) ∈ es ∧ team m = t_id t.

Lemma default_team_team m : team (default_team m) = team m ∨
  team m = [] ∧ ∃ t l, teams m = t :: l ∧ team (default_team m) = t_id t.
Proof.
  unfold default_team. destruct (teams m) as [|t l] eqn:E; [by left|]. destruct (js_eqb (team m) []) eqn:Et; [|by left].
  unfold js_eqb in Et. apply bool_decide_eq_true in Et. right. split; [done|]. by exists t, l.
Qed.

Lemma run_teams es : teams (run es initial) = [] ∨ TeamsLoaded (teams (run es initial)) ∈ es.
Proof.
  induction es as [|e es IH] using rev_ind; [by left|]. rewrite create_run_snoc. unfold step.
  destruct (default_team_frame (handle (run es initial) e)) as (_ & _ & _ & _ & _ & _ & _ & -> & _).
  assert (teams (handle (run es initial) e) = teams (run es initial) ∨ e = TeamsLoaded (teams (handle (run es initial) e))) as [->|<-].
  { destruct e; simpl; auto; try (by destruct (form_shown _ && negb (submitting _)); left).
    - destruct (open _); auto.
    - destruct (form_shown _); [|auto]. unfold onSubmit. destruct (submitting _); auto.
    - left. unfold onSettled. destruct (inflight _); [|done]. destruct o as [[]|e]; [done..|].
      destruct (_ && _); [|done]. destruct (includes _ _); [done|]. by destruct (includes _ _). }
  - destruct IH; [by left|right]. apply elem_of_app. by left.
  - right. apply elem_of_app. right. by left.
Qed.

(** While it is closed the dialog keeps the team the form picked. *)
Lemma closed_handle_team m e : open (handle m e) = false → team (handle m e) = [] ∨ team (handle m e) = team m ∧ open m = false.
Proof.
  destruct (open m) eqn:E; intros Ho.
  - destruct (is_close_dec e) as [->|Hne]; [|by rewrite handle_open in Ho]. left. simpl. by rewrite E.
  - right. split; [|done]. assert (form_shown m = false) as Hf by (unfold form_shown; by rewrite E).
    destruct e; simpl; rewrite ?E, ?Hf; try done.
    unfold onSettled. destruct (inflight m); [|done]. destruct o as [[]|e]; [done..|].
    destruct (_ && _); [|done]. destruct (includes _ _); [done|]. by destruct (includes _ _).
Qed.

Lemma team_default_step es e m : teams (handle m e) = [] ∨ TeamsLoaded (teams (handle m e)) ∈ es →
  team_default es (handle m e) → team_default es (step m e).
Proof.
  intros Ht Hd. unfold step, team_default. destruct (default_team_team (handle m e)) as [->|(_ & t & l & E & ->)]; [done|].
  right. destruct Ht as [Ht|Ht]; [by rewrite E in Ht|]. rewrite E in Ht. by exists t, l.
Qed.

Lemma closed_team es : open (run es initial) = false → team_default es (run es initial).
Proof.
  induction es as [|e es IH] using rev_ind; [by left|]. intros Ho. pose proof (run_teams (es ++ [e])) as Ht.
  rewrite create_run_snoc in Ho, Ht |- *. unfold step in Ho, Ht.
  destruct (default_team_frame (handle (run es initial) e)) as (E1 & _ & _ & _ & _ & _ & _ & E2 & _). rewrite E1 in Ho. rewrite E2 in Ht.
  apply team_default_step; [done|]. destruct (closed_handle_team _ _ Ho) as [E|[E Hc]]; [by left|].
  destruct (IH Hc) as [H|(t & l & Hin & H)]; [left|right; exists t, l; split; [apply elem_of_app; by left|]]; congruence.
Qed.

Lemma opened_team es : open (run es initial) = false → team_default (es ++ [Open]) (run (es ++ [Open]) initial).
Proof.
  intros Ho. pose proof (run_teams (es ++ [Open])) as Ht. rewrite create_run_snoc in Ht |- *. unfold step in Ht.
  destruct (default_team_frame (handle (run es initial) Open)) as (_ & _ & _ & _ & _ & _ & _ & E2 & _). rewrite E2 in Ht.
  apply team_default_step; [done|].
  destruct (closed_team es Ho) as [H|(t & l & Hin & H)]; [by left|right; exists t, l; split; [apply elem_of_app; by left|done]].
Qed.

(** ** Properties *)

(** C24. Creating a key: on every run of the dialog, a request in flight carries
    only non-empty members that pass the form's validation; while it is in flight
    a further submit sends nothing and the fields cannot change; and the secret
    shown is one that a successful answer to the dialog's own request carried. *)
Theorem create_requests es : let m := run es initial in
  (∀ b, inflight m = Some b → body_ok b ∧
     step m Submit = default_team m ∧
     ∀ v, step m (SetAlias v) = default_team m ∧ step m (SetDuration v) = default_team m ∧
          step m (SetTeam v) = default_team m) ∧
  (∀ r, result m = Some r → issued es r).
Proof.
  intros m. assert (modal_ok m) as [H1 H2] by (by apply create_run_ok). split.
  - intros b Hb. split; [by apply H1|]. unfold step, handle, onSubmit, submitting. rewrite Hb. simpl.
    rewrite !andb_false_r. by destruct (form_shown m).
  - intros r Hr. by apply create_run_result in Hr as [Hr|Hr].
Qed.

(** C25. The shown-once promise: if nobody dismisses the dialog while a request is
    in flight, then whenever it is closed it holds no secret, no error and nothing
    that was entered (the team is none or the one the form itself picks, the first
    of a list of teams that arrived), and opening it shows the empty form. *)
Theorem closed_is_pristine es : patient es initial → open (run es initial) = false →
  pristine (run es initial) ∧ team_default es (run es initial) ∧
  pristine (run (es ++ [Open]) initial) ∧ team_default (es ++ [Open]) (run (es ++ [Open]) initial).
Proof.
  intros Hp Ho. assert (pristine (run es initial) ∧ inflight (run es initial) = None) as [H _].
  { pose proof Ho as Ho'. assert (open (@initial) = false → pristine initial ∧ inflight initial = None) as H0 by done.
    revert Hp Ho' H0. clear. generalize initial. induction es as [|e es IH]; intros m; simpl; [tauto|].
    intros [He Hp] Ho Hm. apply (IH (step m e)); [done..|]. by apply step_closed. }
  split_and!; [done|by apply closed_team| |by apply opened_team]. rewrite create_run_snoc. unfold step, pristine.
  destruct (default_team_frame (handle (run es initial) Open)) as (_ & -> & -> & -> & -> & -> & -> & _ & _).
  exact H.
Qed.

(** The promise fails when the dialog is dismissed (Escape, or a click
    outside) during the request: the answer then puts the secret into the closed
    dialog, and the next time it is opened it shows that secret instead of the
    form, whatever key the answer carried. *)
Theorem impatient_close_shows_secret data :
  let m := run [Open; Submit; Close; Settled (Fulfilled (inl data)); Open] initial in
  open m = true ∧
  result m = Some {| result_id := Some (created_id data); result_key := Some (created_key data) |} ∧
  CreateKeyModal m = El "Dialog" [("open", ABool true)] [("onOpenChange(false)", Close)]
    (result_view m {| result_id := Some (created_id data); result_key := Some (created_key data) |}).
Proof. split_and!; reflexivity. Qed.
End modal.

(** Two teams, the second picked, then the dialog dismissed. *)
Definition abandoned : list event :=
  [TeamsLoaded [{| t_id := js "t1"; t_alias := js "One" |}; {| t_id := js "t2"; t_alias := js "Two" |}];
   Open; SetAlias (js "ci"); SetTeam (js "t2"); Close].

Lemma closed_is_pristine_witness :
  pristine (run (U := ascii_unicode) abandoned initial) ∧
  team_default abandoned (run (U := ascii_unicode) abandoned initial).
Proof.
  destruct (closed_is_pristine (U := ascii_unicode) abandoned) as (H1 & H2 & _); [|reflexivity|by split].
  repeat split.
Defined.

End CreateKeyModal.

(** ** The revoke dialog *)

Module DeleteKeyModal.

Definition DELETE_ERROR : jsstr :=
  js "Couldn't revoke that key. It may already be gone — refresh and try again.".
Definition DELETE_SUCCESS : jsstr := js "Key revoked".

(** The parent's target, the dialog's error, the id whose delete is in flight, the
    deletes sent and the success toasts raised. *)
Record Modal := {
  keyToDelete : option KeyRow;
  error : option jsstr;
  inflight : option jsstr;
  sent : list jsstr;
  successes : nat
}.

Definition initial : Modal :=
  {| keyToDelete := None; error := None; inflight := None; sent := []; successes := 0 |}.

Definition isPending (m : Modal) : bool := if inflight m is Some _ then true else false.

(** [keyToDelete?.id]. *)
Definition target_id (m : Modal) : option jsstr := keyToDelete m ≫= k_id.

Definition open (m : Modal) : bool := ostr_truthy (target_id m).

Definition revokeLabel (m : Modal) : jsstr :=
  str_or (keyToDelete m ≫= k_key_alias) (maskKey (target_id m)).

(** [handleClose]: the parent's [onClose] clears the target. *)
Definition handleClose (m : Modal) : Modal :=
  {| keyToDelete := None; error := None; inflight := inflight m; sent := sent m; successes := successes m |}.

Definition onConfirm (m : Modal) : Modal :=
  if isPending m then m
  else match target_id m with
       | Some ((_ :: _) as id) =>
           {| keyToDelete := keyToDelete m; error := None; inflight := Some id;
              sent := sent m ++ [id]; successes := successes m |}
       | _ => m
       end.

(** The continuation of [mutateAsync]. *)
Definition onSettled (o : outcome DeleteKeyResponse) (m : Modal) : Modal :=
  match inflight m with
  | None => m
  | Some _ =>
      match o with
      | Fulfilled _ =>
          {| keyToDelete := None; error := error m; inflight := None; sent := sent m;
             successes := S (successes m) |}
      | Rejected e =>
          let text := match err_detail e with
            | Some d => if bool_decide (err_status e = Some 409) then d else DELETE_ERROR
            | None => DELETE_ERROR
            end in
          {| keyToDelete := keyToDelete m; error := Some text; inflight := None; sent := sent m;
             successes := successes m |}
      end
  end.

Inductive event :=
| Target (row : KeyRow)
| Dismiss
| Confirm
| Settled (o : outcome DeleteKeyResponse).

(** A row is targeted from the table, which the open dialog covers; dismissing
    (Keep Key, Escape) is ignored while a delete is in flight. *)
Definition step (m : Modal) (e : event) : Modal :=
  match e with
  | Target row =>
      if open m then m
      else {| keyToDelete := Some row; error := error m; inflight := inflight m; sent := sent m;
              successes := successes m |}
  | Dismiss => if open m && negb (isPending m) then handleClose m else m
  | Confirm => if open m then onConfirm m else m
  | Settled o => onSettled o m
  end.

Definition run (es : list event) : Modal := foldl step initial es.

Definition DeleteKeyModal (m : Modal) : node event :=
  El "AlertDialog" [("open", ABool (open m))] [("onOpenChange(false)", Dismiss)]
    (when (open m)
      ([El "AlertDialogTitle" [] [] [Text (js "Revoke Key")];
        El "AlertDialogDescription" [] []
          [Text (js "This will permanently revoke ");
           El "span" [("title", AStr (revokeLabel m))] [] [Text (revokeLabel m)];
           Text (js ". This cannot be undone.")]] ++
       (match error m with
        | Some ((_ :: _) as e) => [El "p" [("className", AStr (js "text-xs text-destructive"))] [] [Text e]]
        | _ => []
        end) ++
       [El "AlertDialogCancel" [("disabled", ABool (isPending m))] [("onClick", Dismiss)]
          [Text (js "Keep Key")];
        El "Button" [("variant", AStr (js "destructive")); ("disabled", ABool (isPending m))]
          [("onClick", Confirm)] [Text (js "Confirm Revoke")]])).

Definition modal_ok (m : Modal) : Prop :=
  (∀ i, inflight m = Some i → target_id m = Some i ∧ i ≠ [] ∧ error m = None ∧ last (sent m) = Some i) ∧
  (error m ≠ None → open m = true).

Lemma delete_step_ok m e : modal_ok m → modal_ok (step m e).
Proof.
  intros Hm. pose proof Hm as [H1 H2]. destruct e as [row| | |o]; simpl.
  - destruct (open m) eqn:Eo; [done|]. split; simpl.
    + intros i Hi. destruct (H1 i Hi) as (Ht & Hne & _). unfold open in Eo. rewrite Ht in Eo. by destruct i.
    + intros He. specialize (H2 He). congruence.
  - destruct (open m && negb (isPending m)) eqn:E; [|done]. apply andb_true_iff in E as [_ E].
    split; simpl; [|done]. intros i Hi. unfold isPending in E. by rewrite Hi in E.
  - destruct (open m) eqn:Eo; [|done]. unfold onConfirm. destruct (isPending m); [done|].
    destruct (target_id m) as [[|c i]|] eqn:Et; [done| |done]. split; simpl; [|done].
    intros i' [= <-]. split_and!; [done..|]. by rewrite last_snoc.
  - unfold onSettled. destruct (inflight m) as [i|] eqn:Ei; [|done].
    destruct (H1 i eq_refl) as (Ht & Hne & He & _). destruct o as [d|e]; split; simpl; try done.
    intros _. unfold open, target_id in *. simpl. rewrite Ht. by destruct i.
Qed.

(** C27. Revoking a key: on every run, a delete in flight is for the id of the key
    the dialog names, was the last one sent, and cannot be dismissed or doubled; if
    it fails the dialog stays open on the same key with a message (the server's own
    for a 409), and if it succeeds the dialog closes; a closed dialog has no
    error. *)
Theorem delete_modal_correct es : let m := run es in
  (error m ≠ None → open m = true) ∧
  ∀ i, inflight m = Some i →
    target_id m = Some i ∧ i ≠ [] ∧ last (sent m) = Some i ∧
    step m Dismiss = m ∧ step m Confirm = m ∧ (∀ row, step m (Target row) = m) ∧
    (∀ d, let m' := step m (Settled (Fulfilled d)) in
       open m' = false ∧ error m' = None ∧ sent m' = sent m ∧ successes m' = S (successes m)) ∧
    (∀ e, let m' := step m (Settled (Rejected e)) in
       keyToDelete m' = keyToDelete m ∧ open m' = true ∧ inflight m' = None ∧
       error m' = Some (match err_detail e with
                        | Some d => if decide (err_status e = Some 409) then d else DELETE_ERROR
                        | None => DELETE_ERROR end)).
Proof.
  intros m. assert (modal_ok m) as [H1 H2].
  { unfold m, run. assert (modal_ok initial) as H0 by done. revert H0. generalize initial.
    induction es as [|e es IH]; intros m0 H0; [done|]. by apply IH, delete_step_ok. }
  split; [done|]. intros i Hi. destruct (H1 i Hi) as (Ht & Hne & He & Hs).
  assert (open m = true) as Ho by (unfold open; rewrite Ht; by destruct i).
  assert (isPending m = true) as Hp by (unfold isPending; by rewrite Hi).
  split_and!; [done|done|done| | | | |]; simpl.
  - by rewrite Ho, Hp.
  - rewrite Ho. unfold onConfirm. by rewrite Hp.
  - intros row. by rewrite Ho.
  - intros d. unfold onSettled. rewrite Hi. by split_and!.
  - intros e. unfold onSettled. rewrite Hi. split_and!; [done| |done|].
    + unfold open, target_id in *. simpl. rewrite Ht. by destruct i.
    + simpl. destruct (err_detail e); [|done]. by case_bool_decide; case_decide.
Qed.

End DeleteKeyModal.
