(* ===== verification/DateRange.v ===== *)
(** * The date-range control (src/ui/src/components/stats/DateRange.tsx)

    The month grid, the two-click calendar and the row of presets. *)

From Stdlib Require Import String.
From S2P Require Import Prelude JsNumber JsString JsDate View Ui Presets.
Import Presets.

Module DateRange.

Definition APPLY_LABEL : jsstr := js "Apply".
Definition CANCEL_LABEL : jsstr := js "Cancel".
Definition CUSTOM_PRESET : jsstr := js "Custom".

Definition MONTH_NAMES : list jsstr :=
  [js "January"; js "February"; js "March"; js "April"; js "May"; js "June";
   js "July"; js "August"; js "September"; js "October"; js "November"; js "December"].
Definition WEEKDAY_LABELS : list jsstr := [js "S"; js "M"; js "T"; js "W"; js "T"; js "F"; js "S"].

(** A copy of the presets' function of the same name. *)
Definition toUTCDateString (d : jsdate) : jsstr :=
  let year := num_str (getUTCFullYear <$> d) in
  let month := pad_start 2 (chr "0") (num_str ((λ m, m + 1) <$> (getUTCMonth <$> d))) in
  let day := pad_start 2 (chr "0") (num_str (getUTCDate <$> d)) in
  year ++ chr "-" :: month ++ chr "-" :: day.

(** A loop bound that is not a number runs no iteration. *)
Definition loop_count (n : option Z) : nat := Z.to_nat (default 0 n).

Definition buildMonthGrid (year month : Z) : list (option Z) :=
  let firstWeekday := getUTCDay <$> date_utc year month 1 in
  let daysInMonth := getUTCDate <$> date_utc year (month + 1) 0 in
  replicate (loop_count firstWeekday) None ++ map Some (seqZ 1 (default 0 daysInMonth)).

Record MonthView := { year : Z; month : Z }.

Definition currentMonth (now : Z) : MonthView :=
  {| year := getUTCFullYear now; month := getUTCMonth now |}.

(** ** CalendarPopover *)

Record Calendar := {
  view : MonthView;
  startDate : option jsdate;
  endDate : option jsdate
}.

Definition calendar_opens (now : Z) : Calendar :=
  {| view := currentMonth now; startDate := None; endDate := None |}.

Definition prevMonth (c : Calendar) : Calendar :=
  let m := month (view c) - 1 in
  {| view := if m <? 0 then {| year := year (view c) - 1; month := 11 |}
             else {| year := year (view c); month := m |};
     startDate := startDate c; endDate := endDate c |}.

Definition nextMonth (c : Calendar) : Calendar :=
  let m := month (view c) + 1 in
  {| view := if 11 <? m then {| year := year (view c) + 1; month := 0 |}
             else {| year := year (view c); month := m |};
     startDate := startDate c; endDate := endDate c |}.

(** Comparisons of time values; an invalid date is [NaN]. *)
Definition time_lt (a b : jsdate) : bool :=
  match a, b with Some a, Some b => a <? b | _, _ => false end.

Definition time_eq (a b : jsdate) : bool :=
  match a, b with Some a, Some b => a =? b | _, _ => false end.

Definition pickDay (day : option Z) (c : Calendar) : Calendar :=
  match day with
  | None => c
  | Some day =>
      let picked := date_utc (year (view c)) (month (view c)) day in
      match startDate c, endDate c with
      | Some s, None =>
          if time_lt picked s
          then {| view := view c; startDate := Some picked; endDate := Some s |}
          else {| view := view c; startDate := Some s; endDate := Some picked |}
      | _, _ => {| view := view c; startDate := Some picked; endDate := None |}
      end
  end.

Inductive day_state := is_start | is_end | is_inrange | plain.

Definition dayState (c : Calendar) (day : option Z) : day_state :=
  match day with
  | None => plain
  | Some day =>
      let t := date_utc (year (view c)) (month (view c)) day in
      let hits o := match o with Some d => time_eq t d | None => false end in
      if hits (startDate c) then is_start
      else if hits (endDate c) then is_end
      else match startDate c, endDate c with
           | Some s, Some e => if time_lt s t && time_lt t e then is_inrange else plain
           | _, _ => plain
           end
  end.

(** [apply]: the emitted range, when there is one. *)
Definition apply (c : Calendar) : option date_range :=
  match startDate c with
  | None => None
  | Some s =>
      let e := match endDate c with Some e => e | None => s end in
      Some (DateRange (toUTCDateString s) (toUTCDateString e))
  end.

(** ** DateRange *)

(** What the control tells its container. *)
Inductive emitted := OnPreset (p : jsstr) | OnCustomRange (r : date_range).

(** The popover exists while open, and starts afresh each time. *)
Record Control := { calendar : option Calendar; out : list emitted }.

Inductive event :=
| ClickPreset (p : jsstr) (now : Z)
| Prev | Next | Pick (cell : nat) | ApplyClick | Cancel.

Definition clickPreset (p : jsstr) (now : Z) (s : Control) : Control :=
  if js_eqb p CUSTOM_PRESET
  then {| calendar := match calendar s with Some c => Some c | None => Some (calendar_opens now) end;
          out := out s |}
  else {| calendar := None; out := out s ++ [OnPreset p] |}.

Definition applyCustom (r : date_range) (s : Control) : Control :=
  {| calendar := None; out := out s ++ [OnCustomRange r] |}.

Definition on_calendar (f : Calendar → Calendar) (s : Control) : Control :=
  {| calendar := f <$> calendar s; out := out s |}.

(** A click on a cell of the grid shown. *)
Definition pick_cell (i : nat) (c : Calendar) : Calendar :=
  pickDay (default None (buildMonthGrid (year (view c)) (month (view c)) !! i)) c.

Definition step (s : Control) (e : event) : Control :=
  match e with
  | ClickPreset p now => clickPreset p now s
  | Prev => on_calendar prevMonth s
  | Next => on_calendar nextMonth s
  | Pick i => on_calendar (pick_cell i) s
  | ApplyClick =>
      match calendar s ≫= apply with
      | Some r => applyCustom r s
      | None => s
      end
  | Cancel => {| calendar := None; out := out s |}
  end.

Definition initial : Control := {| calendar := None; out := [] |}.
Definition run (es : list event) : Control := foldl step initial es.

(** *** The rendered control *)

Definition dayClass (c : Calendar) (day : option Z) : aval :=
  let state := dayState c day in
  cls [Some (match day with
       | None => js "cursor-default"
       | Some _ => js "cursor-pointer text-text-primary hover:border-primary hover:text-text-primary"
       end);
       (match state with is_inrange => Some (js "bg-primary/10 text-primary") | _ => None end);
       (match state with is_start | is_end => Some (js "border-primary bg-primary text-primary-foreground") | _ => None end)].

Definition day_button (c : Calendar) (i : nat) (day : option Z) : node event :=
  El "button" [("disabled", ABool (if day is Some _ then false else true)); ("className", dayClass c day)]
    [("onClick", Pick i)] [Text (match day with Some d => Z_to_js d | None => [] end)].

Definition CalendarPopover (c : Calendar) : node event :=
  El "div" [("data-slot", AStr (js "date-range-overlay"))] [("onClick", Cancel)]
    [El "div" [("data-slot", AStr (js "date-range-modal")); ("role", AStr (js "dialog"));
               ("aria-label", AStr (js "Select custom date range"))] []
       [El "button" [("aria-label", AStr (js "Previous month"))] [("onClick", Prev)] [Text (js "‹")];
        El "span" [] [] [Text (default (js "undefined") (MONTH_NAMES !! Z.to_nat (month (view c))));
                         Text (js " "); Text (Z_to_js (year (view c)))];
        El "button" [("aria-label", AStr (js "Next month"))] [("onClick", Next)] [Text (js "›")];
        El "div" [] []
          (map (λ w, El "span" [] [] [Text w]) WEEKDAY_LABELS ++
           imap (day_button c) (buildMonthGrid (year (view c)) (month (view c))));
        El "button" [] [("onClick", Cancel)] [Text CANCEL_LABEL];
        El "button" [("disabled", ABool (if startDate c is Some _ then false else true))]
          [("onClick", ApplyClick)] [Text APPLY_LABEL]]].

Definition pillBase : jsstr :=
  Ui.PILL_BASE ++ js " min-h-[44px] px-3 font-mono text-[11px] font-semibold uppercase tracking-wide sm:min-h-8".

Definition preset_button (preset p : jsstr) (now : Z) : node event :=
  let isActive := js_eqb preset p in
  El "button" ([("data-slot", AStr (js "date-range-preset"))] ++
               attr_some "data-active" (if isActive then Some (AStr []) else None) ++
               [("aria-pressed", ABool isActive);
                ("className", cls [Some pillBase; Some (if isActive then Ui.PILL_ACTIVE else Ui.PILL_IDLE)])])
    [("onClick", ClickPreset p now)] [Text p].

Definition DateRange (preset : jsstr) (rangeError : option jsstr) (now : Z) (s : Control) : node event :=
  El "div" [("data-slot", AStr (js "date-range"))] []
    ([El "div" [] [] (map (λ p, preset_button preset p now) PRESETS)] ++
     (match rangeError with
      | Some ((_ :: _) as e) => [El "div" [("data-slot", AStr (js "date-range-error"))] [] [Text e]]
      | _ => []
      end) ++
     for_some (calendar s) (λ c, [CalendarPopover c])).

(** ** Lemmas *)

Lemma weekday_bounds d : 0 ≤ weekday_of_day d < 7.
Proof. apply Z.mod_pos_bound. lia. Qed.

(** The grid of an ordinary month. *)
Lemma buildMonthGrid_month y m : 101 ≤ y ≤ 199999 → 0 ≤ m < 12 →
  buildMonthGrid y m = replicate (Z.to_nat (weekday_of_day (make_day y m 1))) None ++
                       map Some (seqZ 1 (days_in_month y m)).
Proof.
  intros Hy Hm. pose proof (days_in_month_bounds y m Hm) as Hd.
  destruct (make_day_fields y m 1 Hm ltac:(lia)) as (Hy1 & _ & _).
  assert (-700000 ≤ make_day y m 1 ≤ 73000000) as Hb.
  { pose proof (day_range 101 199999 (make_day y m 1) ltac:(lia)) as Hr.
    vm_compute (day_from_year _) in Hr. lia. }
  assert (make_day y (m + 1) 0 = make_day y m (days_in_month y m)) as He.
  { rewrite make_day_shift, make_day_next_month, Z.div_small, Z.mod_small by lia.
    rewrite (Z.add_0_r y), (make_day_shift _ _ (days_in_month _ _)). lia. }
  unfold buildMonthGrid. rewrite date_utc_day by lia.
  rewrite date_utc_day; [|lia|rewrite He, make_day_shift; lia]. opt_simpl.
  unfold getUTCDay, getUTCDate, loop_count. opt_simpl. rewrite !day_of_midnight, He.
  by destruct (make_day_fields y m (days_in_month y m) Hm ltac:(lia)) as (_ & _ & ->).
Qed.

(** The dates picked are in order. *)
Definition calendar_ok (c : Calendar) : Prop :=
  0 ≤ month (view c) < 12 ∧
  (endDate c ≠ None → startDate c ≠ None) ∧
  ∀ s e, startDate c = Some (Some s) → endDate c = Some (Some e) → s ≤ e.

Lemma pickDay_ok d c : calendar_ok c → calendar_ok (pickDay d c).
Proof.
  intros (Hm & He & Ho). unfold pickDay. destruct d as [d|]; [|done].
  set (picked := date_utc _ _ d). destruct (startDate c) as [s|], (endDate c) as [e|]; try (by split).
  destruct (time_lt picked s) eqn:E; split; try done; split; simpl; try done; intros s' e' [= ->] [= ->];
    simpl in E; bool_to_prop; lia.
Qed.

Lemma control_step_ok s e : (∀ c, calendar s = Some c → calendar_ok c) →
  ∀ c, calendar (step s e) = Some c → calendar_ok c.
Proof.
  intros Hs c. destruct e as [p now| | |i| |]; simpl.
  - unfold clickPreset. destruct (js_eqb _ _); [|done]. simpl. destruct (calendar s) as [c'|]; intros [= <-]; auto.
    split; [apply month_of_day_bounds|]. done.
  - destruct (calendar s) as [c'|]; [|done]. intros [= <-]. destruct (Hs c' eq_refl) as (Hm & He & Ho).
    split; [|done]. unfold prevMonth. simpl. destruct (_ <? 0) eqn:E; bool_to_prop; simpl; lia.
  - destruct (calendar s) as [c'|]; [|done]. intros [= <-]. destruct (Hs c' eq_refl) as (Hm & He & Ho).
    split; [|done]. unfold nextMonth. simpl. destruct (11 <? _) eqn:E; bool_to_prop; simpl; lia.
  - destruct (calendar s) as [c'|]; [|done]. intros [= <-]. apply pickDay_ok. auto.
  - destruct (calendar s ≫= apply); [done|]. apply Hs.
  - done.
Qed.

Lemma control_run_ok es c : calendar (run es) = Some c → calendar_ok c.
Proof.
  unfold run. assert (∀ c, calendar initial = Some c → calendar_ok c) as H0 by done.
  revert H0. generalize initial. induction es as [|e es IH]; intros s Hs; [apply Hs|].
  apply IH. by apply control_step_ok.
Qed.

Lemma lookup_grid y m d i : 101 ≤ y ≤ 199999 → 0 ≤ m < 12 →
  buildMonthGrid y m !! i = Some (Some d) ↔
  1 ≤ d ≤ days_in_month y m ∧ Z.of_nat i = weekday_of_day (make_day y m 1) + d - 1.
Proof.
  intros Hy Hm. rewrite buildMonthGrid_month by done.
  pose proof (weekday_bounds (make_day y m 1)) as Hw. rewrite lookup_app_Some, lookup_replicate, list_lookup_fmap,
    length_replicate, fmap_Some. split.
  - intros [[? _]|(Hi & d' & Hd & [= <-])]; [done|]. apply lookup_seqZ in Hd. lia.
  - intros [Hd Hi]. right. split; [lia|]. exists d. split; [|done]. apply lookup_seqZ. lia.
Qed.

Lemma weekday_add a b : weekday_of_day (a + b) = (weekday_of_day a + b) mod 7.
Proof. unfold weekday_of_day. rewrite Zplus_mod_idemp_l. f_equal. lia. Qed.

(** *** Reference: the days picked

    An open calendar as a count of months and the days picked since it was opened,
    newest first. *)
Record Picking := { months : Z; picks : list jsdate }.

Definition shown_day (months : Z) (cell : nat) : option jsdate :=
  match buildMonthGrid (months / 12) (months mod 12) !! cell with
  | Some (Some d) => Some (date_utc (months / 12) (months mod 12) d)
  | _ => None
  end.

(** A second pick makes a pair with the first, a third starts over. *)
Definition chosen (l : list jsdate) : option (jsdate * jsdate) :=
  match l with
  | [] => None
  | d :: rest =>
      if Nat.even (length rest) then Some (d, d)
      else match rest with
           | d' :: _ => Some (if time_lt d d' then (d, d') else (d', d))
           | [] => None
           end
  end.

Definition picking_step (p : option Picking) (e : event) : option Picking :=
  match e, p with
  | ClickPreset id now, None =>
      if decide (id = CUSTOM_PRESET)
      then Some {| months := 12 * getUTCFullYear now + getUTCMonth now; picks := [] |} else None
  | ClickPreset id _, Some p => if decide (id = CUSTOM_PRESET) then Some p else None
  | Prev, Some p => Some {| months := months p - 1; picks := picks p |}
  | Next, Some p => Some {| months := months p + 1; picks := picks p |}
  | Pick i, Some p =>
      Some {| months := months p; picks := match shown_day (months p) i with Some d => d :: picks p | None => picks p end |}
  | ApplyClick, Some p => if decide (picks p = []) then Some p else None
  | Cancel, _ | _, None => None
  end.

Definition picking (es : list event) : option Picking := foldl picking_step None es.

(** What a click reports. *)
Definition reports (p : option Picking) (e : event) : list emitted :=
  match e, p with
  | ClickPreset id _, _ => if decide (id = CUSTOM_PRESET) then [] else [OnPreset id]
  | ApplyClick, Some p =>
      match chosen (picks p) with
      | Some (a, b) => [OnCustomRange (Presets.DateRange (toUTCDateString a) (toUTCDateString b))]
      | None => []
      end
  | _, _ => []
  end.

(** The popover holds what the reference does. *)
Definition tracks (c : Calendar) (p : Picking) : Prop :=
  view c = {| year := months p / 12; month := months p mod 12 |} ∧
  match startDate c, endDate c with
  | None, None => picks p = []
  | Some s, None => ∃ l, picks p = s :: l ∧ Nat.even (length l) = true
  | Some s, Some e => Nat.even (length (picks p)) = true ∧ chosen (picks p) = Some (s, e)
  | None, Some _ => False
  end.

Lemma months_opens now : tracks (calendar_opens now) {| months := 12 * getUTCFullYear now + getUTCMonth now; picks := [] |}.
Proof.
  split; [|done]. cbn. pose proof (month_of_day_bounds (day_of now)) as Hm. unfold currentMonth. unfold getUTCMonth in *. f_equal; Z.to_euclidean_division_equations; lia.
Qed.

(** Two dates in order. *)
Definition ordered_range (r : date_range) : Prop :=
  let '(Presets.DateRange a b) := r in
  ∃ s e, a = toUTCDateString s ∧ b = toUTCDateString e ∧
         match s, e with Some s, Some e => s ≤ e | _, _ => True end.

Lemma apply_ok c r : calendar_ok c → apply c = Some r → ordered_range r.
Proof.
  intros (_ & He & Ho). unfold apply. destruct (startDate c) as [s|] eqn:Es; [|done]. intros [= <-].
  exists s. destruct (endDate c) as [e|] eqn:Ee.
  - exists e. split_and!; [done..|]. destruct s, e; auto.
  - exists s. split_and!; [done..|]. by destruct s.
Qed.

Lemma control_run_snoc es e : run (es ++ [e]) = step (run es) e.
Proof. unfold run. by rewrite foldl_app. Qed.

Lemma pick_cell_hit i c d t : buildMonthGrid (year (view c)) (month (view c)) !! i = Some (Some d) →
  date_utc (year (view c)) (month (view c)) d = Some t →
  pick_cell i c =
  match startDate c, endDate c with
  | Some s, None =>
      if time_lt (Some t) s
      then {| view := view c; startDate := Some (Some t); endDate := Some s |}
      else {| view := view c; startDate := Some s; endDate := Some (Some t) |}
  | _, _ => {| view := view c; startDate := Some (Some t); endDate := None |}
  end.
Proof.
  intros Hi Ht. unfold pick_cell. rewrite Hi. unfold default, id, pickDay. by rewrite Ht.
Qed.

(** *** The popover follows the reference *)

Lemma pick_tracks i c p : tracks c p →
  tracks (pick_cell i c)
    {| months := months p; picks := match shown_day (months p) i with Some d => d :: picks p | None => picks p end |}.
Proof.
  intros [Hv Hd]. unfold pick_cell, shown_day. rewrite Hv. cbn [year month].
  destruct (buildMonthGrid _ _ !! i) as [[d|]|]; cbn [default id pickDay]; [|by split..].
  unfold pickDay. rewrite Hv. cbn [year month]. set (x := date_utc (months p / 12) (months p mod 12) d).
  destruct (startDate c) as [s|] eqn:Es, (endDate c) as [e|] eqn:Ee; try done.
  - split; [done|]. destruct Hd as [Hd _]. cbn [startDate endDate picks]. by exists (picks p).
  - destruct Hd as (l & Hp & Hl). rewrite Hp. assert (Nat.even (length (x :: s :: l)) = true ∧
      chosen (x :: s :: l) = Some (if time_lt x s then (x, s) else (s, x))) as [H1 H2].
    { cbn [length chosen]. change (Nat.even (S (S (length l)))) with (Nat.even (length l)).
      rewrite Nat.even_succ, <-Nat.negb_even, Hl. done. }
    destruct (time_lt x s); split; by try split.
  - split; [done|]. rewrite Hd. cbn [startDate endDate picks]. by exists [].
Qed.

Lemma apply_tracks c p : tracks c p →
  apply c = (λ '(a, b), Presets.DateRange (toUTCDateString a) (toUTCDateString b)) <$> chosen (picks p).
Proof.
  intros [_ Hd]. unfold apply. destruct (startDate c) as [s|], (endDate c) as [e|]; try done.
  - destruct Hd as [_ Hc]. by rewrite Hc.
  - destruct Hd as (l & -> & Hl). cbn [chosen]. by rewrite Hl.
  - by rewrite Hd.
Qed.

Lemma chosen_none l : chosen l = None ↔ l = [].
Proof. destruct l as [|d [|d' l]]; [done..|]. cbn [chosen]. by destruct (Nat.even _). Qed.

Definition tracks_opt (c : option Calendar) (p : option Picking) : Prop :=
  match c, p with Some c, Some p => tracks c p | None, None => True | _, _ => False end.

Lemma preset_decide {A} (id : jsstr) (x y : A) : (if js_eqb id CUSTOM_PRESET then x else y) = if decide (id = CUSTOM_PRESET) then x else y.
Proof. unfold js_eqb. by rewrite bool_decide_decide; destruct (decide _). Qed.

Lemma step_tracks s p e : tracks_opt (calendar s) p →
  tracks_opt (calendar (step s e)) (picking_step p e) ∧ out (step s e) = out s ++ reports p e.
Proof.
  intros Ht. destruct e as [id now| | |i| |].
  - unfold step, clickPreset, reports. rewrite preset_decide. destruct (decide (id = CUSTOM_PRESET)) as [->|Hn].
    + unfold picking_step. destruct (calendar s) as [c|], p as [p|]; [|destruct Ht|destruct Ht|]; rewrite decide_True by done;
        (split; [|by rewrite app_nil_r]); [exact Ht|apply months_opens].
    + split; [|done]. unfold picking_step. by destruct p; rewrite decide_False by done.
  - split; [|symmetry; apply app_nil_r]. unfold step, on_calendar, picking_step. destruct (calendar s) as [c|], p as [p|]; [|destruct Ht|destruct Ht|exact I].
    destruct Ht as [Hv Hd]. split; [|exact Hd]. unfold prevMonth. rewrite Hv. cbn [year month view months].
    destruct (_ <? 0) eqn:E; bool_to_prop; f_equal; Z.to_euclidean_division_equations; lia.
  - split; [|symmetry; apply app_nil_r]. unfold step, on_calendar, picking_step. destruct (calendar s) as [c|], p as [p|]; [|destruct Ht|destruct Ht|exact I].
    destruct Ht as [Hv Hd]. split; [|exact Hd]. unfold nextMonth. rewrite Hv. cbn [year month view months].
    destruct (11 <? _) eqn:E; bool_to_prop; f_equal; Z.to_euclidean_division_equations; lia.
  - split; [|symmetry; apply app_nil_r]. unfold step, on_calendar, picking_step. destruct (calendar s) as [c|], p as [p|]; [|destruct Ht|destruct Ht|exact I].
    apply pick_tracks, Ht.
  - unfold step, reports, picking_step. destruct (calendar s) as [c|] eqn:Ec, p as [p|]; [|destruct Ht|destruct Ht|].
    + cbn [mbind option_bind]. rewrite (apply_tracks _ _ Ht). destruct (chosen (picks p)) as [[a b]|] eqn:E.
      * rewrite decide_False; [done|]. intros Hn. apply chosen_none in Hn. congruence.
      * apply chosen_none in E. rewrite decide_True, app_nil_r by done. cbn [fmap option_fmap option_map]. by rewrite Ec.
    + cbn [mbind option_bind]. by rewrite Ec, app_nil_r.
  - split; [by destruct p|symmetry; apply app_nil_r].
Qed.

Lemma run_tracks es : tracks_opt (calendar (run es)) (picking es).
Proof.
  induction es as [|e es IH] using rev_ind; [done|]. rewrite control_run_snoc. unfold picking. rewrite foldl_app.
  by apply step_tracks.
Qed.

(** *** Months turned between two picks *)

Definition navigates (e : event) : bool := match e with Prev | Next => true | _ => false end.
Definition navigate (c : Calendar) (e : event) : Calendar :=
  match e with Prev => prevMonth c | Next => nextMonth c | _ => c end.

Lemma foldl_navigate es c o : Forall navigates es →
  foldl step {| calendar := Some c; out := o |} es = {| calendar := Some (foldl navigate c es); out := o |}.
Proof.
  intros H. revert c. induction H as [|e es He H IH]; intros c; [done|]. destruct e; try done; simpl; apply IH.
Qed.

Lemma navigate_dates es c : 
  startDate (foldl navigate c es) = startDate c ∧ endDate (foldl navigate c es) = endDate c.
Proof.
  revert c. induction es as [|e es IH]; intros c; [done|]. simpl. destruct (IH (navigate c e)) as [-> ->].
  by destruct e.
Qed.

(** ** Properties *)

(** C28. [buildMonthGrid]: for every month of the years 101 to 199999, the
    grid shows each day of the month in exactly one cell, the cell lies in the
    column of the day's weekday (seven columns, Sunday first), consecutive days
    lie in consecutive cells, and the cells before the first day are blank.
    Clicking a cell on a fresh calendar picks the UTC midnight of that very date. *)
Theorem buildMonthGrid_correct (y m : Z) (Hy : 101 ≤ y ≤ 199999) (Hm : 0 ≤ m < 12) :
  (∀ d, 1 ≤ d ≤ days_in_month y m →
     ∃ i, buildMonthGrid y m !! i = Some (Some d) ∧
          Z.of_nat i mod 7 = weekday_of_day (make_day y m d) ∧
          ∀ j, buildMonthGrid y m !! j = Some (Some d) → j = i) ∧
  (∀ i d, buildMonthGrid y m !! i = Some (Some d) → 1 ≤ d ≤ days_in_month y m) ∧
  (∀ i d, buildMonthGrid y m !! i = Some (Some d) → d < days_in_month y m →
     buildMonthGrid y m !! S i = Some (Some (d + 1))) ∧
  (∀ i, (i < length (buildMonthGrid y m))%nat →
     buildMonthGrid y m !! i = Some None ↔ Z.of_nat i < weekday_of_day (make_day y m 1)) ∧
  (∀ i d, buildMonthGrid y m !! i = Some (Some d) →
     startDate (pick_cell i {| view := {| year := y; month := m |}; startDate := None; endDate := None |}) =
     Some (Some (make_day y m d * ms_per_day))).
Proof.
  split_and!.
  - intros d Hd. pose proof (weekday_bounds (make_day y m 1)) as Hw.
    exists (Z.to_nat (weekday_of_day (make_day y m 1) + d - 1)). split_and!.
    + apply lookup_grid; [done..|]. lia.
    + rewrite Z2Nat.id by lia. rewrite (make_day_shift y m d).
      replace (make_day y m 1 + d - 1) with (make_day y m 1 + (d - 1)) by lia.
      rewrite weekday_add. f_equal. lia.
    + intros j Hj. apply lookup_grid in Hj; [|done..]. lia.
  - intros i d Hi. apply lookup_grid in Hi; tauto.
  - intros i d Hi Hd. apply lookup_grid in Hi; [|done..]. apply lookup_grid; [done..|]. lia.
  - intros i Hi. pose proof (weekday_bounds (make_day y m 1)) as Hw.
    rewrite buildMonthGrid_month in Hi |- * by done.
    rewrite length_app, length_replicate, length_map, length_seqZ in Hi. split.
    + rewrite lookup_app_Some, lookup_replicate, list_lookup_fmap. intros [[_ ?]|[_ H]]; [lia|].
      destruct (seqZ _ _ !! _); simplify_eq/=.
    + intros H. rewrite lookup_app_l by (rewrite length_replicate; lia). apply lookup_replicate. split; [done|lia].
  - intros i d Hi. unfold pick_cell. cbn [view year month]. rewrite Hi.
    apply lookup_grid in Hi as [Hd _]; [|done..]. pose proof (days_in_month_bounds y m Hm).
    destruct (make_day_fields y m 1 Hm ltac:(lia)) as (Hy1 & _ & _).
    pose proof (day_range 101 199999 (make_day y m 1) ltac:(lia)) as Hr. vm_compute (day_from_year _) in Hr.
    change (Some (date_utc y m d) = Some (Some (make_day y m d * ms_per_day))). f_equal.
    apply date_utc_day; [lia|]. rewrite make_day_shift. lia.
Qed.

Lemma buildMonthGrid_correct_witness : ∃ i, buildMonthGrid 2026 6 !! i = Some (Some 31) ∧
  Z.of_nat i mod 7 = weekday_of_day (make_day 2026 6 31).
Proof.
  destruct (buildMonthGrid_correct 2026 6 ltac:(lia) ltac:(lia)) as (H & _).
  destruct (H 31) as (i & Hi & Hw & _); [vm_compute; split; discriminate|]. by exists i.
Defined.

(** C29. What the control reports over every sequence of clicks, by a reference that
    only keeps the month shown and the days picked since the calendar was opened: a
    click on a preset reports that preset; Apply reports the last two days picked,
    the earlier first, or the last alone when it has no partner, and nothing when
    none was picked; no other click reports anything, whatever is reported closes the
    popover, and the popover is open exactly when the reference says so. *)
Theorem DateRange_clicks (es : list event) (e : event) :
  out (run (es ++ [e])) = out (run es) ++ reports (picking es) e ∧
  (reports (picking es) e ≠ [] → calendar (run (es ++ [e])) = None) ∧
  (is_Some (calendar (run es)) ↔ is_Some (picking es)).
Proof.
  rewrite control_run_snoc. pose proof (run_tracks es) as Ht. destruct (step_tracks (run es) (picking es) e Ht) as [Hs Ho].
  split_and!; [done| |].
  - intros Hr. destruct (calendar (step (run es) e)) as [c|]; [|done]. exfalso. apply Hr. revert Hs. clear.
    destruct e as [id now| | |i| |], (picking es) as [p|]; cbn; try done.
    all: case_decide as H; try done; by rewrite (proj2 (chosen_none _) H).
  - unfold tracks_opt in Ht. destruct (calendar (run es)), (picking es); done.
Qed.

(** A custom range from the user's side: open the calendar, turn any
    number of months, pick a day, turn more months, pick another, apply. The
    container is told the two dates, the earlier first, whichever was
    picked first, as year-month-day strings. *)
Theorem custom_range_reported (now : Z) (n1 n2 : list event) (i j : nat) (d1 d2 t1 t2 : Z)
  (H1 : Forall navigates n1) (H2 : Forall navigates n2)
  (Hi : let v := view (foldl navigate (calendar_opens now) n1) in
        buildMonthGrid (year v) (month v) !! i = Some (Some d1) ∧ date_utc (year v) (month v) d1 = Some t1)
  (Hj : let v := view (foldl navigate (calendar_opens now) (n1 ++ n2)) in
        buildMonthGrid (year v) (month v) !! j = Some (Some d2) ∧ date_utc (year v) (month v) d2 = Some t2) :
  run ([ClickPreset CUSTOM_PRESET now] ++ n1 ++ [Pick i] ++ n2 ++ [Pick j; ApplyClick]) =
  {| calendar := None;
     out := [OnCustomRange (Presets.DateRange (toUTCDateString (Some (Z.min t1 t2)))
                                              (toUTCDateString (Some (Z.max t1 t2))))] |}.
Proof.
  revert Hi Hj. rewrite foldl_app. set (c1 := foldl navigate (calendar_opens now) n1). intros [Hg1 Ht1] [Hg2 Ht2].
  destruct (navigate_dates n1 (calendar_opens now)) as [Es Ee]. fold c1 in Es, Ee.
  set (p1 := {| view := view c1; startDate := Some (Some t1); endDate := None |}).
  assert (pick_cell i c1 = p1) as E1.
  { rewrite (pick_cell_hit i c1 d1 t1) by done. by rewrite Es. }
  assert (view (foldl navigate p1 n2) = view (foldl navigate c1 n2)) as Ev.
  { assert (view p1 = view c1) as H by done. revert H. generalize p1 c1. clear -H2.
    induction H2 as [|e n2 He _ IH]; intros p c H; [done|]. simpl. apply IH.
    destruct e; try done; unfold navigate, prevMonth, nextMonth; simpl; by rewrite H. }
  destruct (navigate_dates n2 p1) as [Es2 Ee2]. rewrite <- Ev in Hg2, Ht2.
  unfold run. rewrite !foldl_app. simpl. unfold clickPreset. simpl.
  rewrite (foldl_navigate n1) by done. fold c1. cbn [foldl step].
  unfold on_calendar, fmap, option_fmap, option_map. cbn [calendar out]. rewrite E1.
  rewrite (foldl_navigate n2) by done. cbn [foldl step calendar out].
  rewrite (pick_cell_hit j _ d2 t2) by done. rewrite Es2, Ee2. cbn [p1 startDate endDate time_lt].
  destruct (t2 <? t1) eqn:E; bool_to_prop.
  - by rewrite Z.min_r, Z.max_l by lia.
  - by rewrite Z.min_l, Z.max_r by lia.
Qed.

(** Picking 14 August and then 3 August 2026, a month after opening. *)
Lemma custom_range_reported_witness :
  out (run ([ClickPreset CUSTOM_PRESET 1783900800000] ++ [Next] ++ [Pick 19] ++ [] ++ [Pick 8; ApplyClick])) =
  [OnCustomRange (Presets.DateRange (js "2026-08-03") (js "2026-08-14"))].
Proof.
  rewrite (custom_range_reported 1783900800000 [Next] [] 19 8 14 3 1786665600000 1785715200000).
  - vm_compute. reflexivity.
  - apply (bool_decide_eq_true_1 _). vm_compute. reflexivity.
  - apply (bool_decide_eq_true_1 _). vm_compute. reflexivity.
  - vm_compute. split; reflexivity.
  - vm_compute. split; reflexivity.
Defined.

End DateRange.
