(* ===== verification/Catalog.v ===== *)
(** * The model catalogue (src/ui/src/routes/Models.tsx)

    With the row classification of [lib/model-classify.ts], the search of
    [components/ui/table-search.tsx], the filters of
    [components/models/ModelFilters.tsx] and [components/stats/UsageTypeFilter.tsx],
    and the loading placeholder of [components/ui/skeleton.tsx]. *)

From Stdlib Require Import String.
From S2P Require Import Prelude JsNumber JsString JsText View Format Sort ApiTypes Keys Stores.
Import Format Sort KeysTable.

(** The state of a query as a page reads it: pending, failed, or with its data. *)
Inductive query_state (T : Type) := Pending | Failed | Loaded (d : T).
Arguments Pending {_}. Arguments Failed {_}. Arguments Loaded {_} _.

(** ** lib/model-classify.ts *)

Module Classify.
Section classify.
Context `{Unicode}.

Definition isRouterModel (providers : list jsstr) : bool :=
  existsb (λ p, js_eqb (to_lower p) (js "auto_router")) providers.

Definition isAgentModelRow (name : option jsstr) : bool :=
  match name with
  | Some name => starts_with (js "agent.") name || starts_with (js "a2a/") name
  | None => false
  end.

Definition MCP_PREFIX : jsstr := js "MCP:".

Definition isMcpModelRow (name : option jsstr) : bool :=
  match name with Some name => starts_with MCP_PREFIX (js_trim name) | None => false end.

(** [indexOf] is at least 0 here: the trimmed name starts with the prefix. *)
Definition mcpToolLabel (name : option jsstr) : jsstr :=
  if isMcpModelRow name then
    let name := default [] name in
    let i := match index_of MCP_PREFIX name with Some i => Z.of_nat i | None => -1 end in
    js_trim (js_slice_from name (i + js_len MCP_PREFIX))
  else default [] name.

Definition isMcpProtocolRow (name : option jsstr) : bool :=
  isMcpModelRow name && js_eqb (mcpToolLabel name) (js "list_tools").
End classify.
End Classify.
Import Classify.

(** ** components/ui/table-search.tsx, skeleton.tsx and lib/chip.ts *)

Module TableSearch.
Definition matchesSearch `{Unicode} (term : jsstr) (fields : list (option jsstr)) : bool :=
  let q := to_lower (js_trim term) in
  if js_eqb q [] then true
  else existsb (λ f, match f with Some f => includes q (to_lower f) | None => false end) fields.

(** The input; [onChange] carries the text typed. *)
Definition TableSearch {E} (value placeholder : jsstr) (onChange : jsstr → E) (typed : jsstr) : node E :=
  El "div" [] []
    [El "input" [("type", AStr (js "search")); ("value", AStr value); ("placeholder", AStr placeholder);
                 ("aria-label", AStr placeholder)] [("onChange", onChange typed)] []].

Inductive SkeletonVariant := SkCard | SkChart | SkBar | SkTableRows.

Definition variant_name (v : SkeletonVariant) : jsstr :=
  match v with SkCard => js "card" | SkChart => js "chart" | SkBar => js "bar" | SkTableRows => js "table-rows" end.

Definition VARIANT_CLASS (v : SkeletonVariant) : option jsstr :=
  match v with
  | SkCard => Some (js "h-24") | SkChart => Some (js "h-60") | SkBar => Some (js "h-3.5 rounded-full")
  | SkTableRows => None
  end.

(** [rows] is an integer at every use. *)
Definition Skeleton {E} (variant : SkeletonVariant) (rows : Z) : node E :=
  match variant with
  | SkTableRows =>
      let count := if 0 <? rows then rows else 5 in
      El "div" [("data-slot", AStr (js "skeleton")); ("data-variant", AStr (js "table-rows"));
                ("aria-hidden", AStr (js "true"))] []
        (replicate (Z.to_nat count) (El "div" [] [] []))
  | _ =>
      El "div" [("data-slot", AStr (js "skeleton")); ("data-variant", AStr (variant_name variant));
                ("aria-hidden", AStr (js "true")); ("className", cls [VARIANT_CLASS variant])] [] []
  end.

Definition chipClass (on : bool) : aval :=
  AStr (if on then js "border-primary bg-primary/10 text-primary"
        else js "border-border text-text-secondary hover:border-primary").

(** A chip of a filter row. *)
Definition chip {E} (on : bool) (e : E) (label : jsstr) : node E :=
  El "button" [("aria-pressed", ABool on); ("className", chipClass on)] [("onClick", e)] [Text label].
End TableSearch.
Import TableSearch.

(** ** components/models/ModelFilters.tsx *)

Module ModelFilters.

Inductive ModelCapKey := vision | reasoning | function_calling | web_search.

#[export] Instance ModelCapKey_eq_dec : EqDecision ModelCapKey.
Proof. solve_decision. Defined.

Definition CAP_KEYS : list ModelCapKey := [vision; reasoning; function_calling; web_search].

Definition CAP_FIELD (k : ModelCapKey) : ModelRow → bool :=
  match k with
  | vision => supports_vision
  | reasoning => supports_reasoning
  | function_calling => supports_function_calling
  | web_search => supports_web_search
  end.

Definition CAP_LABEL (k : ModelCapKey) : jsstr :=
  match k with
  | vision => js "Vision" | reasoning => js "Thinking"
  | function_calling => js "Tools" | web_search => js "Search"
  end.

(** A [Set] keeps its elements in insertion order. *)
Definition set_toggle {A} `{EqDecision A} (k : A) (s : list A) : list A :=
  if bool_decide (k ∈ s) then List.filter (λ x, negb (bool_decide (x = k))) s else s ++ [k].

Definition applyModelFilters (rows : list ModelRow) (active : list ModelCapKey) : list ModelRow :=
  match active with
  | [] => rows
  | _ => List.filter (λ r, forallb (λ k, CAP_FIELD k r) active) rows
  end.

(** Key and label; both [undefined] for a property inherited by the map object. *)
Record ModeBucket := Bucket { b_key : option jsstr; b_label : option jsstr }.

Definition named (key label : jsstr) : ModeBucket := Bucket (Some key) (Some label).

Definition MODE_MAP : list (jsstr * ModeBucket) :=
  [(js "chat", named (js "chat") (js "Chat"));
   (js "completion", named (js "chat") (js "Chat"));
   (js "responses", named (js "chat") (js "Chat"));
   (js "embedding", named (js "embeddings") (js "Embeddings"));
   (js "image_generation", named (js "image") (js "Image"));
   (js "audio_transcription", named (js "audio") (js "Audio"));
   (js "audio_speech", named (js "audio") (js "Audio"));
   (js "video_generation", named (js "video") (js "Video"))].

(** The members every object inherits whose names are in lower case: looked up
    in [MODE_MAP], each is an object or a function without [key] or [label]. *)
Definition INHERITED : list jsstr := [js "constructor"; js "__proto__"].

Definition mode_map_get (m : jsstr) : option ModeBucket :=
  match List.find (λ p, js_eqb p.1 m) MODE_MAP with
  | Some (_, b) => Some b
  | None => if existsb (js_eqb m) INHERITED then Some (Bucket None None) else None
  end.

Definition MODE_ORDER : list jsstr := [js "chat"; js "embeddings"; js "audio"; js "image"; js "video"].

Section modes.
Context `{Unicode}.

Definition modeBucket (mode : option jsstr) : option ModeBucket :=
  if ostr_truthy mode then
    let m := to_lower (default [] mode) in
    match mode_map_get m with
    | Some b => Some b
    | None =>
        if starts_with (js "audio") m then Some (named (js "audio") (js "Audio"))
        else if includes (js "embed") m then Some (named (js "embeddings") (js "Embeddings"))
        else if includes (js "image") m then Some (named (js "image") (js "Image"))
        else if includes (js "video") m then Some (named (js "video") (js "Video"))
        else Some (named m (to_upper (take 1 m) ++ replace_char (chr "_") (js " ") (drop 1 m)))
    end
  else None.

(** The map [seen], in insertion order: the first label of a key stays. *)
Definition seen_step (seen : list ModeBucket) (r : ModelRow) : list ModeBucket :=
  match modeBucket (mr_mode r) with
  | Some b => if existsb (λ s, bool_decide (b_key s = b_key b)) seen then seen else seen ++ [b]
  | None => seen
  end.

Definition order_index (k : jsstr) : Z :=
  match list_find (λ o, o = k) MODE_ORDER with Some (i, _) => Z.of_nat i | None => -1 end.

Definition mode_compare (a b : jsstr) : Z :=
  let ia := order_index a in
  let ib := order_index b in
  if negb (ia =? -1) || negb (ib =? -1)
  then (if ia =? -1 then 99 else ia) - (if ib =? -1 then 99 else ib)
  else locale_compare a b.

Definition bucket_compare (a b : ModeBucket) : Z := mode_compare (default [] (b_key a)) (default [] (b_key b)).

(** [sort] puts [undefined] last without calling the comparator. *)
Definition modelModeOptions (rows : list ModelRow) : list ModeBucket :=
  let seen := foldl seen_step [] rows in
  array_sort bucket_compare (List.filter (λ b, bool_decide (is_Some (b_key b))) seen) ++
  List.filter (λ b, bool_decide (b_key b = None)) seen.

Definition applyModeFilter (rows : list ModelRow) (active : list (option jsstr)) : list ModelRow :=
  match active with
  | [] => rows
  | _ => List.filter (λ r, match modeBucket (mr_mode r) with
                           | Some b => bool_decide (b_key b ∈ active)
                           | None => false
                           end) rows
  end.
End modes.

Section view.
Context {E : Type}.

Definition ModelModeFilters (options : list ModeBucket) (active : list (option jsstr))
    (onToggle : option jsstr → E) (onClear : E) : node E :=
  let allOn := match active with [] => true | _ => false end in
  El "div" [] []
    ([El "span" [] [] [Text (js "Mode")]; chip allOn onClear (js "All")] ++
     map (λ o, chip (bool_decide (b_key o ∈ active)) (onToggle (b_key o)) (default [] (b_label o))) options).

Definition ModelFilters (active : list ModelCapKey) (onToggle : ModelCapKey → E) (onClear : E) : node E :=
  let allOn := match active with [] => true | _ => false end in
  El "div" [] []
    (chip allOn onClear (js "All") ::
     map (λ k, chip (bool_decide (k ∈ active)) (onToggle k) (CAP_LABEL k)) CAP_KEYS).
End view.
End ModelFilters.
Import ModelFilters.

(** ** components/stats/UsageTypeFilter.tsx *)

Module UsageType.

Inductive UsageType := all | model | mcp.

#[export] Instance UsageType_eq_dec : EqDecision UsageType.
Proof. solve_decision. Defined.

Definition OPTIONS : list (UsageType * jsstr) :=
  [(all, js "All"); (model, js "Model"); (mcp, js "MCP Tool")].

Definition applyUsageTypeFilter `{Unicode} (rows : list StatsModelRow) (type : UsageType) : list StatsModelRow :=
  if bool_decide (type = all) then List.filter (λ r, negb (isMcpProtocolRow (m_model r))) rows
  else List.filter (λ r, Bool.eqb (isMcpModelRow (m_model r)) (bool_decide (type = mcp))) rows.

Definition UsageTypeFilter {E} (value : UsageType) (onChange : UsageType → E) : node E :=
  El "div" [("data-slot", AStr (js "usage-type-filter"))] []
    (El "span" [] [] [Text (js "Type")] ::
     map (λ '(k, l), chip (bool_decide (value = k)) (onChange k) l) OPTIONS).
End UsageType.

(** ** routes/Models.tsx *)

Module Models.

Definition PAGE_TITLE : jsstr := js "Models".
Definition PAGE_SUB : jsstr :=
  js "Model aliases available on the gateway — pricing is per 1M tokens, context is the max input / output window.".
Definition ERR_HEADING : jsstr := js "Couldn't load models".
Definition ERR_BODY : jsstr := js "We couldn't reach the model catalog. Check your connection and retry.".
Definition EMPTY_HEADING : jsstr := js "No models yet".
Definition EMPTY_BODY : jsstr :=
  js "No model aliases are configured on the gateway for your access level.".

Definition KEY_PLACEHOLDER : jsstr := js "sk-...".
Definition FALLBACK_API_BASE : jsstr := js "https://api.your-domain.example".

Definition QUOTE : jsstr := [34].
Definition BACKSLASH_NEWLINE : jsstr := [92; 10].

Definition curlSnippet (endpoint alias : jsstr) : jsstr :=
  js "curl " ++ endpoint ++ js "/v1/chat/completions " ++ BACKSLASH_NEWLINE ++
  js "  -H " ++ QUOTE ++ js "x-litellm-api-key: Bearer " ++ KEY_PLACEHOLDER ++ QUOTE ++ js " " ++ BACKSLASH_NEWLINE ++
  js "  -H " ++ QUOTE ++ js "Content-Type: application/json" ++ QUOTE ++ js " " ++ BACKSLASH_NEWLINE ++
  js "  -d '{" ++ QUOTE ++ js "model" ++ QUOTE ++ js ":" ++ QUOTE ++ alias ++ QUOTE ++ js "," ++
  QUOTE ++ js "messages" ++ QUOTE ++ js ":[{" ++ QUOTE ++ js "role" ++ QUOTE ++ js ":" ++ QUOTE ++ js "user" ++ QUOTE ++
  js "," ++ QUOTE ++ js "content" ++ QUOTE ++ js ":" ++ QUOTE ++ js "Hello!" ++ QUOTE ++ js "}]}'".

(** What a user can do on the page. *)
Inductive event :=
| SortBy (k : jsstr)
| ToggleCap (k : ModelCapKey) | ClearCaps
| ToggleMode (k : option jsstr) | ClearModes
| Search (typed : jsstr)
| CopyCurl (snippet : jsstr)
| Retry.

(** A dash in muted type. *)
Definition dash : list (node event) := [El "span" [] [] [Text EM_DASH]].

Definition ProviderChip (label : jsstr) : node event := El "span" [("key", AStr label)] [] [Text label].

Definition CapBadge (label : jsstr) : node event :=
  El "Tooltip" [] [] [El "span" [("aria-label", AStr label)] [] []; El "TooltipContent" [] [] [Text label]].

Definition ThinkingCell (on : bool) : list (node event) :=
  if on then
    [El "span" [("title", AStr (js "Thinking model — supports extended reasoning"));
                ("aria-label", AStr (js "Thinking model"))] [] [Text (js "Yes")]]
  else dash.

Definition ModeBadge (mode : option jsstr) : list (node event) :=
  if ostr_truthy mode then [El "span" [] [] [Text (default [] mode)]] else dash.

(** A figure that is a number, or a dash. *)
Definition figure (f : jsval → jsstr) (x : option number) : jsstr :=
  match x with Some x => f (JNumber x) | None => EM_DASH end.

Definition pair_cell (f : jsval → jsstr) (a b : option number) : list (node event) :=
  match a, b with
  | None, None => dash
  | _, _ => [El "span" [] [] [Text (figure f a); El "span" [] [] [Text (js " / ")]; Text (figure f b)]]
  end.

Section cells.
Context `{Unicode}.

Definition ContextCell (row : ModelRow) : list (node event) :=
  if isRouterModel (mr_providers row)
  then [El "span" [("title", AStr (js "Depends on the routed model"))] [] [Text (js "Dynamic")]]
  else pair_cell abbreviate (max_input_tokens row) (max_output_tokens row).

Definition PriceCell (row : ModelRow) : list (node event) :=
  if isRouterModel (mr_providers row)
  then [El "span" [("title", AStr (js "Priced by the routed model"))] [] [Text (js "Dynamic")]]
  else pair_cell formatPricePerMillion (input_cost_per_token row) (output_cost_per_token row).

Definition CapabilitiesCell (row : ModelRow) : list (node event) :=
  let any := supports_vision row || supports_function_calling row || supports_web_search row in
  [El "div" [] []
    (when (supports_vision row) [CapBadge (js "Vision")] ++
     when (supports_function_calling row) [CapBadge (js "Function calling / tools")] ++
     when (supports_web_search row) [CapBadge (js "Web search")] ++
     when (negb any) dash)].

(** [me?.endpoint ?? FALLBACK]; [copied] is the cell's own copy feedback. *)
Definition CurlCell (endpoint : option jsstr) (copied : bool) (row : ModelRow) : list (node event) :=
  let endpoint := default FALLBACK_API_BASE endpoint in
  let alias := default [] (mr_name row) in
  [El "button" [("aria-label", AStr (js "Copy curl for " ++ alias));
                ("className", cls [Some (if copied then js "border-primary bg-primary/15 text-primary"
                   else js "border-border text-text-tertiary hover:border-primary hover:text-primary")])]
     [("onClick", CopyCurl (curlSnippet endpoint alias))]
     [Text (if copied then js "copied!" else js "curl")]].

(** The number of capabilities of a model. *)
Definition caps_count (row : ModelRow) : Z :=
  Z.of_nat (length (List.filter id [supports_vision row; supports_function_calling row;
                                    supports_reasoning row; supports_web_search row])).

Definition model_cell (row : ModelRow) : list (node event) :=
  [El "div" [] []
    (El "span" [] [] [Text (default EM_DASH (mr_name row))] ::
     match mr_providers row with [] => [] | ps => [El "div" [] [] (map ProviderChip ps)] end)].

Definition top_class : option jsstr := Some (js "align-top").

Definition COLUMNS (endpoint : option jsstr) (copied : ModelRow → bool) : list (DataTableColumn ModelRow event) :=
  [Column (js "model") [Text (js "Model")] model_cell top_class (Some (js "whitespace-nowrap"))
     (Some (λ row, jsval_of (mr_name row)));
   Column (js "mode") [Text (js "Mode")] (λ row, ModeBadge (mr_mode row)) top_class None
     (Some (λ row, jsval_of (mr_mode row)));
   Column (js "thinking") [Text (js "Thinking")] (λ row, ThinkingCell (supports_reasoning row)) top_class None
     (Some (λ row, JNumber (num_of_Z (if supports_reasoning row then 1 else 0))));
   Column (js "context") [Text (js "Context (in / out)")] ContextCell
     (Some (js "align-top whitespace-nowrap")) (Some (js "whitespace-nowrap"))
     (Some (λ row, jsnum_of (max_input_tokens row)));
   Column (js "price") [Text (js "$ / 1M (in / out)")] PriceCell
     (Some (js "align-top whitespace-nowrap")) (Some (js "whitespace-nowrap"))
     (Some (λ row, jsnum_of (input_cost_per_token row)));
   Column (js "caps") [Text (js "Capabilities")] CapabilitiesCell top_class None
     (Some (λ row, JNumber (num_of_Z (caps_count row))));
   Column (js "example") [Text (js "Example")] (λ row, CurlCell endpoint (copied row) row) top_class None None].

(** The page's state. *)
Record State := {
  caps : list ModelCapKey;
  modes : list (option jsstr);
  search : jsstr;
  sort : option DataTableSort
}.

Definition initial : State :=
  {| caps := []; modes := []; search := []; sort := Some (TableSort (js "model") Asc) |}.

Definition toggleCap (k : ModelCapKey) (s : State) : State :=
  {| caps := set_toggle k (caps s); modes := modes s; search := search s; sort := sort s |}.

Definition toggleMode (k : option jsstr) (s : State) : State :=
  {| caps := caps s; modes := set_toggle k (modes s); search := search s; sort := sort s |}.

Definition step (s : State) (e : event) : State :=
  match e with
  | SortBy k => {| caps := caps s; modes := modes s; search := search s; sort := Some (toggleSort k (sort s)) |}
  | ToggleCap k => toggleCap k s
  | ClearCaps => {| caps := []; modes := modes s; search := search s; sort := sort s |}
  | ToggleMode k => toggleMode k s
  | ClearModes => {| caps := caps s; modes := []; search := search s; sort := sort s |}
  | Search t => {| caps := caps s; modes := modes s; search := t; sort := sort s |}
  | CopyCurl _ | Retry => s
  end.

Definition run (es : list event) : State := foldl step initial es.

(** The catalogue: every row but the agents. *)
Definition catalogue (rows : list ModelRow) : list ModelRow :=
  List.filter (λ m, negb (isAgentModelRow (mr_name m))) rows.

Definition listed (s : State) (rows : list ModelRow) : list ModelRow :=
  List.filter (λ m, matchesSearch (search s) [mr_name m])
    (applyModeFilter (applyModelFilters (catalogue rows) (caps s)) (modes s)).

Definition page_header : node event :=
  El "div" [] [] [El "h1" [] [] [Text PAGE_TITLE]; El "p" [] [] [Text PAGE_SUB]].

Definition error_card : node event :=
  El "div" [] []
    [El "div" [] [] [Text ERR_HEADING]; El "div" [] [] [Text ERR_BODY];
     El "button" [] [("onClick", Retry)] [Text (js "retry")]].

Definition table_props (endpoint : option jsstr) (copied : ModelRow → bool) (rows : list ModelRow) :
    DataTableProps ModelRow event :=
  TableProps (COLUMNS endpoint copied) rows (λ row, default [] (mr_name row))
    (Some [El "div" [("data-slot", AStr (js "models-table-empty"))] []
             [El "p" [] [] [Text EMPTY_HEADING]; El "p" [] [] [Text EMPTY_BODY]]])
    None None None None (Some (TableSort (js "model") Asc)).

Definition Models (query : query_state (list ModelRow)) (endpoint : option jsstr) (copied : ModelRow → bool)
    (typed : jsstr) (s : State) : node event :=
  match query with
  | Failed => El "div" [] [] [page_header; error_card]
  | Pending => El "div" [] [] [page_header; Skeleton SkTableRows 6]
  | Loaded rows =>
      let modeOptions := modelModeOptions (catalogue rows) in
      El "div" [] []
        [page_header;
         El "div" [] []
           (when (2 <=? length modeOptions)%nat
              [ModelModeFilters modeOptions (modes s) ToggleMode ClearModes] ++
            [El "div" [] []
               [TableSearch (search s) (js "Search models…") Search typed;
                ModelFilters (caps s) ToggleCap ClearCaps];
             DataTable SortBy (table_props endpoint copied (listed s rows)) (sort s)])]
  end.
End cells.
End Models.
Import UsageType Models.

(** ** Lemmas: sets and mode buckets *)

Lemma elem_of_set_toggle {A} `{EqDecision A} (k x : A) s :
  x ∈ set_toggle k s ↔ if decide (x = k) then k ∉ s else x ∈ s.
Proof.
  unfold set_toggle. destruct (decide (x = k)) as [->|Hx]; case_bool_decide as Hk.
  - rewrite list_elem_of_In, filter_In, bool_decide_true by done. split; [by intros (_ & ?)|done].
  - split; [done|]. intros _. apply elem_of_app. right. by apply list_elem_of_singleton.
  - rewrite list_elem_of_In, filter_In, bool_decide_false, <- list_elem_of_In by done.
    split; [by intros (? & _)|done].
  - rewrite elem_of_app, list_elem_of_singleton. split; [|by left]. intros [?|Heq]; [done|congruence].
Qed.

Lemma filter_elem {A} (f : A → bool) l x : x ∈ List.filter f l ↔ x ∈ l ∧ f x = true.
Proof. by rewrite !list_elem_of_In, filter_In. Qed.

Lemma filter_negb_perm {A} (f : A → bool) l : List.filter f l ++ List.filter (λ x, negb (f x)) l ≡ₚ l.
Proof.
  induction l as [|x l IH]; [done|]. simpl. destruct (f x); simpl; [by rewrite IH|].
  by rewrite <-Permutation_middle, IH.
Qed.

Section modes.
Context `{U : Unicode} `{!UnicodeLaws U}.

(** The buckets seen: those of the rows, one per key. *)
Lemma seen_ok rows :
  let seen := foldl seen_step [] rows in
  NoDup (b_key <$> seen) ∧
  (∀ b, b ∈ seen → ∃ r, r ∈ rows ∧ modeBucket (mr_mode r) = Some b) ∧
  (∀ r b, r ∈ rows → modeBucket (mr_mode r) = Some b → ∃ s, s ∈ seen ∧ b_key s = b_key b).
Proof.
  induction rows as [|r rows IH] using rev_ind.
  { split_and!; [constructor| |]; intros ? ? **; by exfalso; eapply not_elem_of_nil. }
  cbn zeta in *. rewrite foldl_app. set (seen := foldl seen_step [] rows) in *. simpl.
  destruct IH as (Hd & Hs & Hr). unfold seen_step at 1 2 3. destruct (modeBucket (mr_mode r)) as [b|] eqn:Eb.
  - destruct (existsb _ seen) eqn:E; split_and!.
    + done.
    + intros c Hc. destruct (Hs c Hc) as (r' & ? & ?). exists r'. split; [set_solver|done].
    + intros r' b' [H|H%list_elem_of_singleton]%elem_of_app Hb'; [by eapply Hr|]. subst r'.
      rewrite Eb in Hb'. injection Hb' as <-. apply existsb_exists in E as (s & ?%list_elem_of_In & ?%bool_decide_eq_true).
      by exists s.
    + rewrite fmap_app. apply NoDup_app. split_and!; [done| |apply NoDup_singleton].
      intros k (s & -> & Hin)%list_elem_of_fmap Hk%list_elem_of_singleton.
      apply not_true_iff_false in E. apply E. apply existsb_exists. exists s. split; [by apply list_elem_of_In|].
      by apply bool_decide_eq_true.
    + intros c [Hc|Hc%list_elem_of_singleton]%elem_of_app.
      * destruct (Hs c Hc) as (r' & ? & ?). exists r'. split; [set_solver|done].
      * subst c. exists r. split; [set_solver|done].
    + intros r' b' [H|H%list_elem_of_singleton]%elem_of_app Hb'.
      * destruct (Hr r' b' H Hb') as (s & ? & ?). exists s. split; [set_solver|done].
      * subst r'. rewrite Eb in Hb'. injection Hb' as <-. exists b. split; [set_solver|done].
  - split_and!; [done| |].
    + intros c Hc. destruct (Hs c Hc) as (r' & ? & ?). exists r'. split; [set_solver|done].
    + intros r' b' [H|H%list_elem_of_singleton]%elem_of_app Hb'; [by eapply Hr|]. congruence.
Qed.

Lemma order_index_bounds k : -1 ≤ order_index k ≤ 4.
Proof.
  unfold order_index. destruct (list_find _ MODE_ORDER) as [[i o]|] eqn:E; [|lia].
  apply list_find_Some in E as (Hi%lookup_lt_Some & _). change (length MODE_ORDER) with 5%nat in Hi. lia.
Qed.

Lemma mode_compare_comparator : Comparator mode_compare.
Proof.
  pose proof locale_compare_ok as [Ha Ht].
  split; unfold mode_compare.
  - intros a b. pose proof (order_index_bounds a). pose proof (order_index_bounds b).
    destruct (Z.eqb_spec (order_index a) (-1)), (Z.eqb_spec (order_index b) (-1)); simpl; try lia. apply Ha.
  - intros a b c. pose proof (order_index_bounds a). pose proof (order_index_bounds b). pose proof (order_index_bounds c).
    destruct (Z.eqb_spec (order_index a) (-1)), (Z.eqb_spec (order_index b) (-1)), (Z.eqb_spec (order_index c) (-1));
      simpl; try lia. apply Ht.
Qed.

Lemma bucket_compare_comparator : Comparator bucket_compare.
Proof. destruct mode_compare_comparator as [Ha Ht]. split; unfold bucket_compare; intros; [apply Ha|by eapply Ht]. Qed.

Lemma modelModeOptions_perm rows : modelModeOptions rows ≡ₚ foldl seen_step [] rows.
Proof.
  unfold modelModeOptions. rewrite array_sort_perm.
  rewrite <-(filter_negb_perm (λ b, bool_decide (is_Some (b_key b))) (foldl _ _ _)) at 3.
  apply Permutation_app_head. erewrite (List.filter_ext _ (λ b, negb (bool_decide (is_Some (b_key b))))); [done|].
  intros b. by destruct (b_key b).
Qed.

Lemma elem_of_applyModeFilter rows k r :
  r ∈ applyModeFilter rows [k] ↔ r ∈ rows ∧ ∃ b, modeBucket (mr_mode r) = Some b ∧ b_key b = k.
Proof.
  unfold applyModeFilter. rewrite filter_elem. f_equiv. destruct (modeBucket (mr_mode r)) as [b|].
  - rewrite bool_decide_eq_true, list_elem_of_singleton. split; [by exists b|]. by intros (b' & [= ->] & ?).
  - split; [done|]. by intros (? & ? & _).
Qed.
End modes.

Lemma filter_filter {A} (f g : A → bool) l : List.filter f (List.filter g l) = List.filter (λ x, g x && f x) l.
Proof. induction l as [|x l IH]; [done|]. simpl. destruct (g x); simpl; by rewrite IH. Qed.

Lemma applyModelFilters_filter rows active :
  applyModelFilters rows active = List.filter (λ r, forallb (λ k, CAP_FIELD k r) active) rows.
Proof. destruct active; [|done]. symmetry. apply filter_true. by apply Forall_true. Qed.

Lemma applyModeFilter_filter `{Unicode} rows active :
  applyModeFilter rows active = List.filter (λ r, bool_decide (active = []) ||
    match modeBucket (mr_mode r) with Some b => bool_decide (b_key b ∈ active) | None => false end) rows.
Proof. destruct active; [|done]. symmetry. apply filter_true. by apply Forall_true. Qed.

(** The set of toggles that are on: toggled an odd number of times since the
    last clear. *)
Definition is_on {A E} `{EqDecision A} (toggle : E → option A) (clear : E → bool) (es : list E) (k : A) : bool :=
  foldl (λ b e, if clear e then false
                else match toggle e with Some k' => if decide (k = k') then negb b else b | None => b end)
    false es.

Definition caps_toggle (e : event) : option ModelCapKey := match e with ToggleCap k => Some k | _ => None end.
Definition caps_clear (e : event) : bool := match e with ClearCaps => true | _ => false end.
Definition modes_toggle (e : event) : option (option jsstr) := match e with ToggleMode k => Some k | _ => None end.
Definition modes_clear (e : event) : bool := match e with ClearModes => true | _ => false end.

(** What was typed last into the search box, and the columns clicked. *)
Definition searched (e : event) : option jsstr := match e with Search t => Some t | _ => None end.
Definition column_clicked (e : event) : option jsstr := match e with SortBy k => Some k | _ => None end.

Lemma searched_run es : search (run es) = default [] (last (omap searched es)).
Proof.
  induction es as [|e es IH] using rev_ind; [done|]. unfold run in *. rewrite foldl_app, omap_app.
  destruct e; cbn; rewrite ?app_nil_r, ?last_snoc; done.
Qed.

Lemma sorted_run es : sort (run es) = foldl (λ s k, Some (toggleSort k s)) (Some (TableSort (js "model") Asc)) (omap column_clicked es).
Proof.
  induction es as [|e es IH] using rev_ind; [done|]. unfold run in *. rewrite foldl_app, omap_app, foldl_app.
  destruct e; cbn; rewrite IH; done.
Qed.

Lemma caps_run `{Unicode} es k : k ∈ caps (run es) ↔ is_on caps_toggle caps_clear es k = true.
Proof.
  unfold run, is_on. induction es as [|e es IH] using rev_ind; [by rewrite elem_of_nil|].
  rewrite !foldl_app. simpl. destruct e as [|k'| | | | | |]; simpl; try done; [|by rewrite elem_of_nil].
  rewrite elem_of_set_toggle. destruct (decide (k = k')) as [<-|]; [|done].
  by rewrite IH, negb_true_iff, not_true_iff_false.
Qed.

Lemma modes_run `{Unicode} es k : k ∈ modes (run es) ↔ is_on modes_toggle modes_clear es k = true.
Proof.
  unfold run, is_on. induction es as [|e es IH] using rev_ind; [by rewrite elem_of_nil|].
  rewrite !foldl_app. simpl. destruct e as [| | |k'| | | |]; simpl; try done; [|by rewrite elem_of_nil].
  rewrite elem_of_set_toggle. destruct (decide (k = k')) as [<-|]; [|done].
  by rewrite IH, negb_true_iff, not_true_iff_false.
Qed.

(** The text of a trimmed string begins the string, after white space. *)
Lemma trim_start_split s : ∃ pre, s = pre ++ trim_start s ∧ Forall (λ c, is_space c = true) pre.
Proof.
  induction s as [|c s (pre & E & Hp)]; [by exists []|]. simpl. destruct (is_space c) eqn:Ec.
  - exists (c :: pre). split; [|by constructor]. by rewrite <-app_comm_cons, <-E.
  - by exists [].
Qed.

Lemma trim_prefix s : ∃ post, trim_start s = js_trim s ++ post ∧ Forall (λ c, is_space c = true) post.
Proof.
  unfold js_trim. destruct (trim_start_split (reverse (trim_start s))) as (pre & E & Hp).
  exists (reverse pre). split; [|by apply Forall_reverse].
  by rewrite <-reverse_app, <-E, reverse_involutive.
Qed.

Lemma index_of_after pre p c s : Forall (λ d, d ≠ c) pre → index_of (c :: p) (pre ++ (c :: p) ++ s) = Some (length pre).
Proof.
  intros H. induction H as [|d pre Hd H IH].
  - assert (starts_with (c :: p) ((c :: p) ++ s) = true) as E by (apply starts_with_spec; by exists s).
    simpl app in *. unfold length. cbn [index_of app]. by rewrite E.
  - rewrite <-app_comm_cons. cbn [index_of]. unfold starts_with; fold starts_with.
    rewrite (proj2 (Z.eqb_neq c d)) by done. cbn [andb]. by rewrite IH.
Qed.

Lemma trim_start_spaces pre c s : Forall (λ d, is_space d = true) pre → is_space c = false →
  trim_start (pre ++ c :: s) = c :: s.
Proof. intros Hp Hc. induction Hp as [|d pre Hd _ IH]; simpl; [by rewrite Hc|]. by rewrite Hd. Qed.

Lemma trim_start_keeps a c b : is_space c = false → ∃ a', trim_start (a ++ c :: b) = a' ++ c :: b.
Proof.
  intros Hc. induction a as [|d a IH]; simpl.
  - rewrite Hc. by exists [].
  - destruct (is_space d); [done|]. by exists (d :: a).
Qed.

Lemma trim_mcp pre t : Forall (λ d, is_space d = true) pre →
  starts_with MCP_PREFIX (js_trim (pre ++ MCP_PREFIX ++ t)) = true.
Proof.
  intros Hp. apply starts_with_spec. unfold js_trim.
  change (pre ++ MCP_PREFIX ++ t) with (pre ++ chr "M" :: js "CP:" ++ t). rewrite trim_start_spaces by done.
  change (chr "M" :: js "CP:" ++ t) with (js "MCP" ++ chr ":" :: t).
  destruct (trim_start_keeps (reverse t) (chr ":") (reverse (js "MCP")) eq_refl) as (a' & E).
  replace (reverse (js "MCP" ++ chr ":" :: t)) with (reverse t ++ chr ":" :: reverse (js "MCP"))
    by (by rewrite reverse_app, reverse_cons, <-(assoc_L app)).
  rewrite E.
  exists (reverse a'). by rewrite reverse_app, reverse_cons, reverse_involutive, <-(assoc_L app).
Qed.

Lemma spaces_not_M pre : Forall (λ c, is_space c = true) pre → Forall (λ d, d ≠ chr "M") pre.
Proof. intros H. eapply Forall_impl; [exact H|]. intros c Hc ->. discriminate Hc. Qed.

(** ** Properties *)

(** C31. The mode chips of the model catalogue are a partition of it: no two chips
    have the same key, every model with a mode is kept by exactly one chip, and no
    chip leaves the table empty. *)
Theorem mode_chips_partition `{U : Unicode} `{!UnicodeLaws U} (rows : list ModelRow) :
  NoDup (b_key <$> modelModeOptions rows) ∧
  (∀ r, r ∈ rows → ostr_truthy (mr_mode r) = true →
     ∃ o, o ∈ modelModeOptions rows ∧ r ∈ applyModeFilter rows [b_key o] ∧
          ∀ o', o' ∈ modelModeOptions rows → r ∈ applyModeFilter rows [b_key o'] → o' = o) ∧
  (∀ o, o ∈ modelModeOptions rows → applyModeFilter rows [b_key o] ≠ []) ∧
  ∃ known other, modelModeOptions rows = known ++ other ∧
    StronglySorted (λ a b, order_index (default [] (b_key a)) ≤ order_index (default [] (b_key b))) known ∧
    Forall (λ o, order_index (default [] (b_key o)) ≠ -1) known ∧
    Forall (λ o, order_index (default [] (b_key o)) = -1) other.
Proof.
  pose proof (seen_ok rows) as (Hd & Hs & Hr). pose proof (modelModeOptions_perm rows) as Hp. split_and!.
  - by rewrite Hp.
  - intros r Hin Ht. destruct (modeBucket (mr_mode r)) as [b|] eqn:Eb.
    2: { unfold modeBucket in Eb. rewrite Ht in Eb. repeat case_match; discriminate. }
    destruct (Hr r b Hin Eb) as (o & Ho & Hk). exists o. split_and!.
    + by rewrite Hp.
    + apply elem_of_applyModeFilter. split; [done|]. by exists b.
    + intros o' Ho' (_ & b' & Hb' & Hk')%elem_of_applyModeFilter. rewrite Hp in Ho'.
      simplify_eq. apply (NoDup_fmap_eq b_key (foldl seen_step [] rows)); [done..|]. congruence.
  - intros o Ho E. rewrite Hp in Ho. destruct (Hs o Ho) as (r & Hin & Hb).
    apply (not_elem_of_nil r). rewrite <-E. apply elem_of_applyModeFilter. split; [done|]. by exists o.
  - set (known := λ o : ModeBucket, negb (order_index (default [] (b_key o)) =? -1)).
    set (some := List.filter (λ b, bool_decide (is_Some (b_key b))) (foldl seen_step [] rows)).
    pose proof bucket_compare_comparator as Hc. pose proof (array_sort_sorted bucket_compare some) as Hsort.
    unfold modelModeOptions. fold some. set (l := array_sort bucket_compare some) in *.
    assert (l = List.filter known l ++ List.filter (λ o, negb (known o)) l) as El.
    { eapply sorted_partition; [exact Hsort|]. intros a b Hab. unfold known. rewrite !negb_false_iff, !Z.eqb_eq.
      unfold cmp_le, bucket_compare, mode_compare in Hab.
      pose proof (order_index_bounds (default [] (b_key b))). intros Ha. rewrite Ha in Hab. simpl in Hab.
      destruct (Z.eqb_spec (order_index (default [] (b_key b))) (-1)); simpl in Hab; lia. }
    eexists (List.filter known l), (List.filter (λ o, negb (known o)) l ++
      List.filter (λ b, bool_decide (b_key b = None)) (foldl seen_step [] rows)). split_and!.
    + by rewrite (assoc_L app), <-El.
    + eapply StronglySorted_filter; [exact Hsort|]. unfold known, cmp_le, bucket_compare, mode_compare.
      intros a b Hab Ha%negb_true_iff%Z.eqb_neq Hb%negb_true_iff%Z.eqb_neq.
      rewrite (proj2 (Z.eqb_neq _ _) Ha), (proj2 (Z.eqb_neq _ _) Hb) in Hab. simpl in Hab. lia.
    + apply Forall_forall. intros o Ho%filter_elem. destruct Ho as [_ Ho]. unfold known in Ho.
      by apply negb_true_iff, Z.eqb_neq in Ho.
    + apply Forall_app. split; apply Forall_forall; intros o Ho%filter_elem; destruct Ho as [_ Ho].
      * unfold known in Ho. by rewrite negb_involutive, Z.eqb_eq in Ho.
      * apply bool_decide_eq_true in Ho. by rewrite Ho.
Qed.

Definition sample_model (name mode : jsstr) : ModelRow :=
  {| mr_name := Some name; mr_providers := []; mr_mode := Some mode; max_input_tokens := None;
     max_output_tokens := None; input_cost_per_token := None; output_cost_per_token := None;
     supports_vision := false; supports_function_calling := false; supports_reasoning := false;
     supports_web_search := false |}.

(** A catalogue of three modes: the rerankers' chip, an unknown mode, comes last. *)
Lemma mode_chips_partition_witness :
  let rows := [sample_model (js "rr") (js "rerank_v2"); sample_model (js "e") (js "embedding");
               sample_model (js "c") (js "completion"); sample_model (js "r") (js "responses")] in
  (b_label <$> modelModeOptions (H := ascii_unicode) rows) = [Some (js "Chat"); Some (js "Embeddings"); Some (js "Rerank v2")] ∧
  NoDup (b_key <$> modelModeOptions (H := ascii_unicode) rows).
Proof.
  split; [vm_compute; reflexivity|].
  exact (proj1 (mode_chips_partition (U := ascii_unicode)
    [sample_model (js "rr") (js "rerank_v2"); sample_model (js "e") (js "embedding");
     sample_model (js "c") (js "completion"); sample_model (js "r") (js "responses")])).
Defined.


(** The type filter of the usage breakdown: the model and MCP views split the
    rows; the ALL view hides only the protocol rows, which the MCP view keeps; and an
    MCP row is one whose name, white space aside, starts with the prefix, shown as
    the trimmed text after it. *)
Theorem usage_types_split `{Unicode} (rows : list StatsModelRow) :
  applyUsageTypeFilter rows mcp ++ applyUsageTypeFilter rows model ≡ₚ rows ∧
  (∀ r, r ∈ rows → r ∉ applyUsageTypeFilter rows all →
     r ∈ applyUsageTypeFilter rows mcp ∧ mcpToolLabel (m_model r) = js "list_tools") ∧
  (∀ name, isMcpModelRow (Some name) = true ↔
     ∃ pre t, name = pre ++ MCP_PREFIX ++ t ∧ Forall (λ c, is_space c = true) pre) ∧
  (∀ pre t, Forall (λ c, is_space c = true) pre →
     mcpToolLabel (Some (pre ++ MCP_PREFIX ++ t)) = js_trim t).
Proof.
  split_and!.
  - unfold applyUsageTypeFilter. cbn [bool_decide decide]. simpl.
    rewrite (List.filter_ext _ (λ r, isMcpModelRow (m_model r))) by (intros r; by destruct (isMcpModelRow _)).
    rewrite (List.filter_ext (λ r, Bool.eqb (isMcpModelRow (m_model r)) false) (λ r, negb (isMcpModelRow (m_model r)))) by (intros r; by destruct (isMcpModelRow _)).
    apply filter_negb_perm.
  - intros r Hr Hn. unfold applyUsageTypeFilter in *. simpl in *. rewrite filter_elem in Hn |- *.
    assert (isMcpProtocolRow (m_model r) = true) as Hp.
    { apply not_false_iff_true. intros E. apply Hn. by rewrite E. }
    unfold isMcpProtocolRow in Hp. apply andb_true_iff in Hp as [-> Hl].
    by apply bool_decide_eq_true in Hl.
  - intros name. unfold isMcpModelRow. split.
    + intros (u & Hu)%starts_with_spec. destruct (trim_start_split name) as (pre & E & Hp).
      destruct (trim_prefix name) as (post & Ep & _). exists pre, (u ++ post).
      split; [|done]. by rewrite E at 1; rewrite Ep, Hu, <-(assoc_L app).
    + intros (pre & t & -> & Hp). by apply trim_mcp.
  - intros pre t Hp. unfold mcpToolLabel, isMcpModelRow. rewrite trim_mcp by done.
    pose proof (index_of_after pre (js "CP:") (chr "M") t (spaces_not_M _ Hp)) as Hi.
    change (chr "M" :: js "CP:") with MCP_PREFIX in Hi. unfold default, id. rewrite Hi.
    f_equal. rewrite slice_from_nonneg.
    + rewrite (assoc_L app). rewrite drop_app_length'; [done|]. rewrite length_app. unfold js_len. lia.
    + unfold js_len. rewrite !length_app. lia.
Qed.
