(* ===== verification/Panels.v ===== *)
(** * Panels of the usage page (src/ui/src/components/stats)

    The ranked key panel [TopKeys.tsx], the latency panel [LatencyPanel.tsx], the
    outcome donut [ErrorsDonut.tsx] and the tile they share from
    [chart-common.tsx]. *)

From Stdlib Require Import String.
From S2P Require Import Prelude JsNumber JsString JsText View Presets Format Sort ApiTypes Keys Series.
Import Presets Format Sort KeysTable.

(** ** chart-common.tsx: the headline tile *)

Inductive tone := tone_default | tone_bad.

Definition StatTile {E} (label value : jsstr) (title : option jsstr) (t : tone) : node E :=
  El "div" [] []
    [El "div" (attr_some "title" (AStr <$> title)) [] [Text label];
     El "div" [("className", cls [Some match t with
         | tone_bad => js "text-destructive" | tone_default => js "text-text-primary" end])] []
       [Text value]].

(** [(fraction * 100).toFixed(1)] with a percent sign, or a dash. *)
Definition formatPct (fraction : option number) : jsstr :=
  match fraction with
  | Some f => if is_finite f then toFixed 1 (num_mul f (num_of_Z 100)) ++ js "%" else EM_DASH
  | None => EM_DASH
  end.

(** The sort state of a hand-written grid: always some column. *)
Record GridSort (K : Type) := { g_key : K; g_dir : SortDir }.
Arguments g_key {_} _. Arguments g_dir {_} _.

Definition onSort {K} `{EqDecision K} (k : K) (cur : GridSort K) : GridSort K :=
  if decide (g_key cur = k)
  then {| g_key := k; g_dir := if decide (g_dir cur = Asc) then Desc else Asc |}
  else {| g_key := k; g_dir := Desc |}.

(** ** TopKeys.tsx *)

Module TopKeysPanel.

Definition SECTION_LABEL : jsstr := js "TOP API KEYS".
Definition COL_KEY : jsstr := js "KEY".
Definition COL_REQUESTS : jsstr := js "REQUESTS".
Definition COL_SPEND : jsstr := js "SPEND".
Definition COL_PCT : jsstr := js "% OF TOTAL".
Definition COMING_SOON_COPY : jsstr := js "Coming soon".
Definition EMPTY_COPY : jsstr := js "No usage in this range".
Definition TOP_N : nat := 8.

Definition barWidthPct (fraction : option number) : number :=
  match fraction with
  | Some f => if is_finite f
              then num_max num_zero (num_min (num_of_Z 100) (num_mul f (num_of_Z 100)))
              else num_zero
  | None => num_zero
  end.

Inductive KeySortKey := by_key | by_requests | by_spend_col | by_pct.

#[export] Instance KeySortKey_eq_dec : EqDecision KeySortKey.
Proof. solve_decision. Defined.

Definition KEY_SORT_ACCESSORS (k : KeySortKey) : StatsKeyRow → jsval :=
  match k with
  | by_key => λ k, JString (str_or (s_key_alias k) (maskKey (s_id k)))
  | by_requests => λ k, JNumber (s_requests k)
  | by_spend_col => λ k, JNumber (s_spend k)
  | by_pct => λ k, jsnum_of (s_spend_pct k)
  end.

(** The panel's state and what a user can do. *)
Record State := { showIdle : bool; sort : GridSort KeySortKey }.

Definition initial : State := {| showIdle := false; sort := {| g_key := by_spend_col; g_dir := Desc |} |}.

Inductive event := SortBy (k : KeySortKey) | ToggleIdle.

Definition step (s : State) (e : event) : State :=
  match e with
  | SortBy k => {| showIdle := showIdle s; sort := onSort k (sort s) |}
  | ToggleIdle => {| showIdle := negb (showIdle s); sort := sort s |}
  end.

Definition run (es : list event) : State := foldl step initial es.

Definition is_active (k : StatsKeyRow) : bool :=
  num_ltb num_zero (s_requests k) || num_ltb num_zero (s_spend k).

Definition active (rows : list StatsKeyRow) : list StatsKeyRow := List.filter is_active rows.

Definition idleCount (rows : list StatsKeyRow) : Z :=
  Z.of_nat (length rows) - Z.of_nat (length (active rows)).

Definition totalRequests (rows : list StatsKeyRow) : number :=
  foldl (λ s k, num_add s (s_requests k)) num_zero rows.

Definition totalSpend (rows : list StatsKeyRow) : number :=
  foldl (λ s k, num_add s (s_spend k)) num_zero rows.

Section panel.
Context `{Unicode}.

Definition visible (rows : list StatsKeyRow) (s : State) : list StatsKeyRow :=
  sortRows (if showIdle s then rows else active rows) (KEY_SORT_ACCESSORS (g_key (sort s))) (g_dir (sort s)).

Definition ranked (rows : list StatsKeyRow) (s : State) : list StatsKeyRow :=
  if showIdle s then visible rows s else take TOP_N (visible rows s).

Definition SortHeader (label : jsstr) (sortKey : KeySortKey) (s : State) : node event :=
  let active := bool_decide (g_key (sort s) = sortKey) in
  El "button" [("data-slot", AStr (js "top-keys-sort"))] [("onClick", SortBy sortKey)]
    [El "span" [] [] [Text label]; SortIndicator active (if active then g_dir (sort s) else Desc)].

(** The label of a row: a deleted key is always masked. *)
Definition row_label (k : StatsKeyRow) : jsstr :=
  if default false (s_deleted k)
  then js "deleted key · " ++ maskKey (if ostr_truthy (s_key_alias k) then s_key_alias k else s_id k)
  else str_or (s_key_alias k) (str_or (Some (maskKey (s_id k))) EM_DASH).

Definition external_badge (k : StatsKeyRow) : bool :=
  bool_decide (s_managed k = Some false) && negb (default false (s_deleted k)).

Definition KeyRowItem (k : StatsKeyRow) : node event :=
  let label := row_label k in
  El "div" [("data-slot", AStr (js "top-keys-row"))] []
    [El "div" [("title", AStr label)] []
       (El "span" [("className", cls [Some (if default false (s_deleted k)
                     then js "text-text-tertiary italic" else js "text-text-primary")])] [] [Text label] ::
        when (external_badge k)
          [El "span" [("data-slot", AStr (js "top-keys-external-badge"))] [] [Text (js "EXTERNAL")]]);
     El "div" [("data-slot", AStr (js "top-keys-fill"));
               ("style.width", AStr (num_to_string (barWidthPct (s_spend_pct k)) ++ js "%"))] [] [];
     El "div" [] [] [Text (formatInt (JNumber (s_requests k)))];
     El "div" [] [] [Text (formatCurrency (JNumber (s_spend k)))];
     El "div" [] [] [Text (formatPct (s_spend_pct k))]].

Definition Panel (children : list (node event)) : node event :=
  El "div" [("data-slot", AStr (js "top-keys"))] []
    (El "div" [] [] [El "span" [] [] [Text SECTION_LABEL]] :: children).

Definition toggle_button (rows : list StatsKeyRow) (s : State) : list (node event) :=
  when (0 <? idleCount rows)
    [El "button" [("data-slot", AStr (js "top-keys-toggle"))] [("onClick", ToggleIdle)]
       [El "span" [] [] [Text (if showIdle s then js "Hide idle keys"
                               else js "Show idle keys (" ++ Z_to_js (idleCount rows) ++ js ")")]]].

Definition state_panel (children : list (node event)) : node event :=
  El "div" [("data-slot", AStr (js "top-keys-state"))] [] children.

Definition summary (rows : list StatsKeyRow) : node event :=
  El "div" [("data-slot", AStr (js "top-keys-summary"))] []
    [StatTile (js "ACTIVE KEYS") (formatInt (JNumber (num_of_Z (Z.of_nat (length (active rows)))))) None tone_default;
     StatTile (js "REQUESTS") (formatInt (JNumber (totalRequests rows))) None tone_default;
     StatTile (js "SPEND") (formatCurrency (JNumber (totalSpend rows))) None tone_default].

Definition TopKeys (keys : option (list StatsKeyRow)) (capabilities : option StatsCapabilities) (s : State)
    : node event :=
  let rows := default [] keys in
  let hasData := (0 <? Z.of_nat (length rows))%Z in
  match capabilityRenderMode (capability_map <$> capabilities) (js "per_key_spend") hasData with
  | ComingSoon => Panel [state_panel [El "div" [] [] [Text COMING_SOON_COPY]; El "div" [] [] [Text EM_DASH]]]
  | Presets.Empty => Panel [state_panel [El "div" [] [] [Text EMPTY_COPY]]]
  | Ready =>
      Panel ([summary rows;
              El "div" [("data-slot", AStr (js "top-keys-table"))] []
                (El "div" [] []
                   [SortHeader COL_KEY by_key s; SortHeader COL_REQUESTS by_requests s;
                    SortHeader COL_SPEND by_spend_col s; SortHeader COL_PCT by_pct s] ::
                 match ranked rows s with
                 | [] => [state_panel [El "div" [] [] [Text EMPTY_COPY]]]
                 | l => map KeyRowItem l
                 end)] ++
             toggle_button rows s)
  end.
End panel.
End TopKeysPanel.

(** ** LatencyPanel.tsx *)

Module Latency.

Definition UNAVAILABLE_COPY : jsstr := js "Latency data is not available for this deployment.".
Definition EMPTY_COPY : jsstr := js "No requests in this range.".

Definition formatMs (ms : option number) : jsstr :=
  match ms with
  | Some ms =>
      if negb (is_finite ms) then EM_DASH
      else if num_ltb ms (num_of_Z 1000) then num_to_string (num_round ms) ++ js " ms"
      else toFixed 2 (num_div ms (num_of_Z 1000)) ++ js " s"
  | None => EM_DASH
  end.

Definition formatTps (tps : option number) : jsstr :=
  match tps with
  | Some tps => if negb (is_finite tps) then EM_DASH else num_to_string (num_round tps) ++ js " tok/s"
  | None => EM_DASH
  end.

(** [Number(count) || 0]. *)
Definition count_or_zero (o : LatencyOutcome) : number :=
  if num_truthy (o_count o) then o_count o else num_zero.

(** The loop: requests in all, and those whose status is not exactly [success]. *)
Definition rate_step (acc : number * number) (o : LatencyOutcome) : number * number :=
  let '(total, failed) := acc in
  let c := count_or_zero o in
  (num_add total c, if js_eqb (o_status o) (js "success") then failed else num_add failed c).

Definition errorRate (outcomes : list LatencyOutcome) : option number :=
  match outcomes with
  | [] => None
  | _ =>
      let '(total, failed) := foldl rate_step (num_zero, num_zero) outcomes in
      if num_ltb num_zero total then Some (num_div failed total) else None
  end.

Inductive ModelSortKey := col_model | col_requests | col_latency | col_p95 | col_err.

#[export] Instance ModelSortKey_eq_dec : EqDecision ModelSortKey.
Proof. solve_decision. Defined.

Definition MODEL_SORT_ACCESSORS (k : ModelSortKey) : LatencyByModel → jsval :=
  match k with
  | col_model => λ m, JString (bm_model m)
  | col_requests => λ m, JNumber (bm_requests m)
  | col_latency => λ m, jsnum_of (bm_p50_ms m)
  | col_p95 => λ m, jsnum_of (bm_p95_ms m)
  | col_err => λ m, if num_ltb num_zero (bm_requests m) then JNumber (num_div (bm_failed m) (bm_requests m)) else JNull
  end.

Definition initial : GridSort ModelSortKey := {| g_key := col_requests; g_dir := Desc |}.

Definition StatePanel (children : jsstr) : node ModelSortKey := El "div" [] [] [El "div" [] [] [Text children]].

(** A click on a header raises its column. *)
Definition SortHeader (label : jsstr) (sortKey : ModelSortKey) (sort : GridSort ModelSortKey) : node ModelSortKey :=
  let active := bool_decide (g_key sort = sortKey) in
  El "button" [("data-slot", AStr (js "latency-sort"))] [("onClick", sortKey)]
    [El "span" [] [] [Text label]; SortIndicator active (if active then g_dir sort else Desc)].

Definition ModelHeader (sort : GridSort ModelSortKey) : node ModelSortKey :=
  El "div" [] []
    [SortHeader (js "Model") col_model sort; SortHeader (js "Req") col_requests sort;
     SortHeader (js "Lat") col_latency sort; SortHeader (js "p95") col_p95 sort;
     SortHeader (js "Err") col_err sort].

Definition strip_provider (model : jsstr) : jsstr :=
  match index_of (js "/") model with Some i => js_slice_from model (Z.of_nat i + 1) | None => model end.

Definition ModelRow (m : LatencyByModel) : node ModelSortKey :=
  let errPct := if num_ltb num_zero (bm_requests m)
    then Some (toFixed 1 (num_mul (num_div (bm_failed m) (bm_requests m)) (num_of_Z 100))) else None in
  El "li" [("title", AStr (bm_model m))] []
    [El "span" [] [] [Text (strip_provider (bm_model m))];
     El "span" [] [] [Text (formatInt (JNumber (bm_requests m)))];
     El "span" [] [] [Text (formatMs (bm_p50_ms m))];
     El "span" [] [] [Text (formatMs (bm_p95_ms m))];
     El "span" [("className", cls [Some (if num_ltb num_zero (bm_failed m)
                  then js "text-destructive" else js "text-text-tertiary")])] []
       [Text match errPct with None => EM_DASH | Some p => p ++ js "%" end]].

Definition headline (l : LatencyMetrics) (err : option number) : node ModelSortKey :=
  El "div" [] []
    [StatTile (js "THROUGHPUT") (formatTps (tokens_per_sec_p50 l)) (Some (js "Output tokens per second (p50)")) tone_default;
     StatTile (js "LATENCY") (formatMs (p50_ms l)) (Some (js "Median request latency (p50)")) tone_default;
     StatTile (js "ERROR RATE") (formatPct err) None
       (match err with Some e => if num_ltb num_zero e then tone_bad else tone_default | None => tone_default end);
     StatTile (js "TTFT") (formatMs (ttft_p50_ms l)) (Some (js "Time to first token (p50)")) tone_default].

Section panel.
Context `{Unicode}.

Definition sorted_models (data : LatencyResponse) (sort : GridSort ModelSortKey) : list LatencyByModel :=
  sortRows (by_model data) (MODEL_SORT_ACCESSORS (g_key sort)) (g_dir sort).

Definition ready_panel (data : LatencyResponse) (l : LatencyMetrics) (sort : GridSort ModelSortKey) : node ModelSortKey :=
  let models := sorted_models data sort in
  El "div" [] []
    ([headline l (errorRate (outcomes data))] ++
     match models with
     | [] => []
     | _ => [El "div" [] [] [ModelHeader sort; El "ul" [] [] (map ModelRow models)]]
     end ++
     when (sampled data) [El "div" [] [] [Text (formatInt (JNumber (row_count data))); Text (js " requests · sampled")]]).

Definition LatencyPanel (data : option LatencyResponse) (isError : bool) (sort : GridSort ModelSortKey) : node ModelSortKey :=
  match data with
  | Some data =>
      if isError || negb (available data) then StatePanel UNAVAILABLE_COPY
      else match latency data with
           | Some l => if num_eqb (row_count data) num_zero then StatePanel EMPTY_COPY else ready_panel data l sort
           | None => StatePanel EMPTY_COPY
           end
  | None => StatePanel UNAVAILABLE_COPY
  end.
End panel.
End Latency.

(** ** ErrorsDonut.tsx *)

Module ErrorsDonut.

Definition UNAVAILABLE_COPY : jsstr := js "Outcome data is not available for this deployment.".
Definition EMPTY_COPY : jsstr := js "No requests in this range.".
Definition CENTER_CAPTION : jsstr := js "FAILED".
Definition FILL_SUCCESS : jsstr := js "var(--primary)".
Definition FILL_FAILURE : jsstr := js "var(--destructive)".
Definition FILL_OTHER : jsstr := js "var(--text-tertiary)".

Section donut.
Context `{Unicode} {E : Type}.

Definition outcomeFill (status : jsstr) : jsstr :=
  let s := to_lower status in
  if js_eqb s (js "success") then FILL_SUCCESS
  else if js_eqb s (js "failure") then FILL_FAILURE else FILL_OTHER.

Definition StatePanel (children : jsstr) : node E := El "div" [] [] [El "div" [] [] [Text children]].

Definition count_sum (outcomes : list LatencyOutcome) : number :=
  foldl (λ acc o, num_add acc (o_count o)) num_zero outcomes.

Definition total (outcomes : list LatencyOutcome) : number := count_sum outcomes.

Definition failed (outcomes : list LatencyOutcome) : number :=
  count_sum (List.filter (λ o, negb (js_eqb (to_lower (o_status o)) (js "success"))) outcomes).

Definition legend_item (total : number) (o : LatencyOutcome) : node E :=
  let pct := if num_ltb num_zero total
    then Some (toFixed 1 (num_mul (num_div (o_count o) total) (num_of_Z 100))) else None in
  El "li" [("key", AStr (o_status o))] []
    [El "span" [("style.background", AStr (outcomeFill (o_status o)))] [] [];
     El "span" [] [] [Text (o_status o)];
     El "span" [] [] [Text (formatInt (JNumber (o_count o)))];
     El "span" [] [] [Text match pct with None => EM_DASH | Some p => p ++ js "%" end]].

Definition ErrorsDonut (data : option LatencyResponse) (isError : bool) : node E :=
  match data with
  | Some data =>
      if isError || negb (available data) then StatePanel UNAVAILABLE_COPY
      else
        let outcomes := outcomes data in
        if num_eqb (total outcomes) num_zero then StatePanel EMPTY_COPY
        else El "div" [] []
          [El "Pie" [("dataKey", AStr (js "count")); ("nameKey", AStr (js "status"))] []
             (map (λ o, El "Cell" [("fill", AStr (outcomeFill (o_status o)))] [] []) outcomes);
           El "div" [] [] [Text (formatInt (JNumber (failed outcomes)))];
           El "div" [] [] [Text CENTER_CAPTION];
           El "ul" [] [] (map (legend_item (total outcomes)) outcomes)]
  | None => StatePanel UNAVAILABLE_COPY
  end.
End donut.
End ErrorsDonut.
Import TopKeysPanel Latency ErrorsDonut.

(** ** Lemmas *)

(** The exact values of a numeric column, as an ordering key for a direction. *)
Definition dir_key (dir : SortDir) (x : number) : Z :=
  match dir with Asc => - scaled x | Desc => scaled x end.

Lemma compareValues_key `{Unicode} x y dir : amount x → amount y →
  compareValues (JNumber x) (JNumber y) dir = Z.sgn (dir_key dir y - dir_key dir x).
Proof.
  intros [Wx Fx] [Wy Fy]. unfold compareValues, is_missing. rewrite Fx, Fy. cbn [negb andb].
  rewrite compare_numbers by done. unfold dir_key. destruct dir; lia.
Qed.

(** A table sorted by a column of finite numbers is in the order of their values. *)
Lemma sortRows_by_key `{Unicode} {T} (l : list T) (f : T → number) dir :
  Forall (λ r, amount (f r)) l →
  StronglySorted (λ a b, dir_key dir (f b) ≤ dir_key dir (f a)) (sortRows l (λ r, JNumber (f r)) dir).
Proof.
  intros Hl. rewrite sortRows_array_sort.
  rewrite (array_sort_by_key _ (λ r, dir_key dir (f r)) (λ r, amount (f r))); [|intros; by apply compareValues_key|done].
  eapply StronglySorted_weaken; [|apply (array_sort_sorted (λ a b, dir_key dir (f b) - dir_key dir (f a)))].
  unfold cmp_le. intros; lia.
Qed.

Lemma StronglySorted_app_l {A} (R : A → A → Prop) l1 l2 :
  StronglySorted R (l1 ++ l2) → StronglySorted R l1 ∧ ∀ a b, a ∈ l1 → b ∈ l2 → R a b.
Proof.
  induction l1 as [|x l1 IH]; simpl; intros Hs.
  - split; [constructor|]. intros a b Ha. by apply elem_of_nil in Ha.
  - apply StronglySorted_cons in Hs as [Hx Hs]. apply Forall_app in Hx as [Hx1 Hx2].
    destruct (IH Hs) as [Hs1 Hab]. split; [by constructor|]. rewrite Forall_forall in Hx2.
    intros a b [->|Ha]%elem_of_cons Hb; auto.
Qed.

Lemma StronglySorted_weaken_in {A} (R R' : A → A → Prop) (P : A → Prop) l :
  (∀ a b, P a → P b → R a b → R' a b) → Forall P l → StronglySorted R l → StronglySorted R' l.
Proof.
  intros HR Hl. induction Hl as [|x l Hx Hl IH]; intros Hs; [constructor|].
  apply StronglySorted_cons in Hs as [Hxl Hs]. constructor; [by apply IH|].
  rewrite Forall_forall in *. intros y Hy. auto.
Qed.

(** Comparators that agree on the elements at hand sort alike. *)
Lemma array_sort_ext_in {A} (cmp cmp' : A → A → Z) (P : A → Prop) l :
  (∀ a b, P a → P b → cmp a b = cmp' a b) → Forall P l → array_sort cmp l = array_sort cmp' l.
Proof.
  intros Hcmp. induction 1 as [|x l Hx Hl IH]; [done|]. simpl. rewrite IH.
  assert (Forall P (array_sort cmp' l)) as Hs by (by rewrite array_sort_perm).
  clear IH. induction Hs as [|y k Hy Hk IHk]; [done|]. simpl. by rewrite Hcmp, IHk by done.
Qed.

(** Sums of counts. *)
Definition sum_of {A} (f : A → Z) (l : list A) : Z := foldr (λ x a, f x + a) 0 l.

Lemma sum_of_nonneg {A} (f : A → Z) l : Forall (λ x, 0 ≤ f x) l → 0 ≤ sum_of f l.
Proof. induction 1; simpl; lia. Qed.

Lemma sum_of_filter {A} (f : A → Z) (p : A → bool) l : Forall (λ x, 0 ≤ f x) l →
  0 ≤ sum_of f (List.filter p l) ≤ sum_of f l.
Proof. induction 1 as [|x l Hx Hl IH]; simpl; [lia|]. destruct (p x); simpl; lia. Qed.

Definition count_ok (cnt : LatencyOutcome → Z) (o : LatencyOutcome) : Prop :=
  is_int (o_count o) (cnt o) ∧ 0 ≤ cnt o.

Lemma count_ok_nonneg cnt l : Forall (count_ok cnt) l → Forall (λ o, 0 ≤ cnt o) l.
Proof. intros H. eapply Forall_impl; [exact H|]. by intros ? []. Qed.

Lemma fold_counts cnt l a x : Forall (count_ok cnt) l → 0 ≤ a → is_int x a → a + sum_of cnt l < 2 ^ 53 →
  is_int (foldl (λ acc o, num_add acc (o_count o)) x l) (a + sum_of cnt l).
Proof.
  intros Hl. revert a x. induction Hl as [|o l [Ho Hc] Hl IH]; intros a x Ha Hx Hb; simpl in *.
  - by rewrite Z.add_0_r.
  - pose proof (sum_of_nonneg cnt l (count_ok_nonneg _ _ Hl)).
    rewrite Z.add_assoc. apply IH; [lia| |lia]. apply is_int_add; [done..|]. lia.
Qed.

Lemma count_sum_int cnt l : Forall (count_ok cnt) l → sum_of cnt l < 2 ^ 53 →
  is_int (count_sum l) (sum_of cnt l).
Proof. intros Hl Hb. apply (fold_counts cnt l 0); [done|lia|apply is_int_zero|lia]. Qed.

(** [x || 0] keeps the value. *)
Lemma is_int_or_zero x z : is_int x z → is_int (if num_truthy x then x else num_zero) z.
Proof.
  intros Hx. pose proof Hx as (_ & Hf & _). by destruct x.
Qed.

(** The latency panel's loop counts the same requests. *)
Lemma rate_loop cnt l t f a b : Forall (count_ok cnt) l → 0 ≤ b ≤ a → is_int t a → is_int f b →
  a + sum_of cnt l < 2 ^ 53 →
  let p := foldl rate_step (t, f) l in
  is_int p.1 (a + sum_of cnt l) ∧
  is_int p.2 (b + sum_of cnt (List.filter (λ o, negb (js_eqb (o_status o) (js "success"))) l)).
Proof.
  intros Hl. revert t f a b. induction Hl as [|o l [Ho Hc] Hl IH]; intros t f a b Hb Ht Hf Hlt; cbn zeta in *.
  - simpl. by rewrite !Z.add_0_r.
  - pose proof (sum_of_nonneg cnt l (count_ok_nonneg _ _ Hl)). simpl foldl. simpl sum_of in Hlt |- *.
    pose proof (is_int_or_zero _ _ Ho) as Hz. fold (count_or_zero o) in Hz.
    assert (is_int (num_add t (count_or_zero o)) (a + cnt o)) as Ht' by (apply is_int_add; [done..|lia]).
    simpl List.filter. destruct (js_eqb (o_status o) (js "success")); simpl negb; cbn iota.
    + rewrite Z.add_assoc. apply IH; [lia|done..|lia].
    + simpl sum_of. rewrite !Z.add_assoc. apply IH; [lia|done| |lia]. apply is_int_add; [done..|lia].
Qed.

Lemma idle_iff rows : (∃ k, k ∈ rows ∧ is_active k = false) ↔
  (0 < length (List.filter (λ x, negb (is_active x)) rows))%nat.
Proof.
  rewrite <-Nat.neq_0_lt_0, length_zero_iff_nil. split.
  - intros (k & Hk & Hi) Hn. apply (not_elem_of_nil k). rewrite <-Hn.
    apply list_elem_of_In, filter_In. rewrite Hi. by split; [apply list_elem_of_In|].
  - destruct (List.filter (λ x, negb (is_active x)) rows) as [|k l] eqn:Ef; [done|]. intros _. exists k.
    assert (In k (List.filter (λ x, negb (is_active x)) rows)) as Hk by (rewrite Ef; by left).
    apply filter_In in Hk as [Hk Hi%negb_true_iff]. by rewrite list_elem_of_In.
Qed.

(** [x ? x : 0] keeps the exact value. *)
Lemma or_zero_scaled x : is_finite x = true → scaled (if num_truthy x then x else num_zero) = scaled x.
Proof. by destruct x. Qed.

Lemma or_zero_wf x : num_wf x → num_wf (if num_truthy x then x else num_zero).
Proof. by destruct x. Qed.

Lemma or_zero_finite x : is_finite x = true → is_finite (if num_truthy x then x else num_zero) = true.
Proof. by destruct x. Qed.

(** The loop over the rest of the models. *)
Lemma rest_loop rest s p b : ∃ pct,
  foldl UsageDonut.rest_step (s, p, b) rest =
  (foldl num_add s (map m_spend rest), pct, b || existsb (λ m, bool_decide (is_Some (m_spend_pct m))) rest).
Proof.
  revert s p b. induction rest as [|m rest IH]; intros s p b; simpl.
  - exists p. by rewrite orb_false_r.
  - destruct (m_spend_pct m) as [q|].
    + destruct (IH (num_add s (m_spend m)) (num_add p q) true) as (pct & ->). exists pct.
      rewrite bool_decide_true by done. by rewrite orb_true_r.
    + destruct (IH (num_add s (m_spend m)) p b) as (pct & ->). by exists pct.
Qed.

(** A status that is [success] only after lower-casing. *)
Definition other_case_success `{Unicode} (o : LatencyOutcome) : bool :=
  js_eqb (to_lower (o_status o)) (js "success") && negb (js_eqb (o_status o) (js "success")).

Lemma donut_failures `{U : Unicode} `{!UnicodeLaws U} cnt l :
  sum_of cnt (List.filter (λ o, negb (js_eqb (o_status o) (js "success"))) l) -
    sum_of cnt (List.filter other_case_success l) =
  sum_of cnt (List.filter (λ o, negb (js_eqb (to_lower (o_status o)) (js "success"))) l).
Proof.
  assert (to_lower (js "success") = js "success") as Hlow
    by (rewrite to_lower_ascii; [done|by repeat constructor]).
  induction l as [|o l IH]; [done|]. cbn [List.filter]. unfold other_case_success at 1.
  destruct (js_eqb (o_status o) (js "success")) eqn:E.
  - assert (o_status o = js "success") as Es by (by apply bool_decide_eq_true in E).
    rewrite Es, Hlow. rewrite Es in E. rewrite E. exact IH.
  - destruct (js_eqb (to_lower (o_status o)) (js "success")); cbn [negb andb sum_of foldr] in *; unfold sum_of in *; cbn [foldr]; lia.
Qed.

#[export] Instance event_eq_dec : EqDecision event.
Proof. solve_decision. Defined.

(** What was clicked: the toggle an odd number of times, and the headers. *)
Definition header_clicked (e : event) : option KeySortKey :=
  match e with SortBy k => Some k | ToggleIdle => None end.

Definition idle_clicked (es : list event) : bool :=
  Nat.odd (length (filter (λ e, e = ToggleIdle) es)).

(** The number of clicks since a header other than [k] was clicked. *)
Fixpoint streak (k : KeySortKey) (newest_first : list KeySortKey) : nat :=
  match newest_first with
  | c :: l => if decide (c = k) then S (streak k l) else O
  | [] => O
  end.

(** The headers clicked, the newest first; SPEND counts as clicked to begin with. *)
Definition headers_clicked (es : list event) : list KeySortKey :=
  reverse (by_spend_col :: omap header_clicked es).

Definition last_header (es : list event) : KeySortKey :=
  match headers_clicked es with k :: _ => k | [] => by_spend_col end.

Definition last_dir (es : list event) : SortDir :=
  if Nat.odd (streak (last_header es) (headers_clicked es)) then Desc else Asc.

Lemma headers_clicked_snoc es e : headers_clicked (es ++ [e]) =
  match header_clicked e with Some k => [k] | None => [] end ++ headers_clicked es.
Proof.
  unfold headers_clicked. rewrite omap_app, app_comm_cons, reverse_app. by destruct e.
Qed.

Lemma idle_run es : showIdle (run es) = idle_clicked es.
Proof.
  induction es as [|e es IH] using rev_ind; [done|]. unfold run, idle_clicked in *.
  rewrite foldl_app, filter_app, length_app. simpl. destruct e; simpl; [by rewrite Nat.add_0_r|].
  by rewrite Nat.add_1_r, Nat.odd_succ, <-Nat.negb_odd, IH.
Qed.

Lemma sort_run es : sort (run es) = {| g_key := last_header es; g_dir := last_dir es |}.
Proof.
  induction es as [|e es IH] using rev_ind; [done|]. unfold run in *. rewrite foldl_app. simpl.
  unfold last_dir, last_header in *. rewrite headers_clicked_snoc. destruct e as [k|]; simpl; [|done].
  rewrite IH. unfold onSort. cbn [g_key g_dir]. rewrite (decide_True _ _ (eq_refl k)).
  destruct (headers_clicked es) as [|c l] eqn:El.
  { unfold headers_clicked in El. apply (f_equal length) in El. by rewrite length_reverse in El. }
  destruct (decide (c = k)) as [->|Hne]; [|simpl; by rewrite decide_False].
  f_equal. rewrite Nat.odd_succ, <-Nat.negb_odd. by destruct (Nat.odd _).
Qed.

(** What a row is sorted by in the KEY column, and its share when it has one. *)
Definition sort_label (k : StatsKeyRow) : jsstr := str_or (s_key_alias k) (maskKey (s_id k)).

Definition share (k : StatsKeyRow) : option number :=
  match s_spend_pct k with Some p => if is_finite p then Some p else None | None => None end.

(** The rows of the panel in order, for each column: labels in numeric collation
    order, figures in the order of their values, rows without a share last. *)
Definition in_grid_order `{Unicode} (c : KeySortKey) (d : SortDir) (a b : StatsKeyRow) : Prop :=
  match c with
  | by_key =>
      match d with
      | Asc => locale_compare_numeric (sort_label a) (sort_label b) ≤ 0
      | Desc => 0 ≤ locale_compare_numeric (sort_label a) (sort_label b)
      end
  | by_requests => dir_key d (s_requests b) ≤ dir_key d (s_requests a)
  | by_spend_col => dir_key d (s_spend b) ≤ dir_key d (s_spend a)
  | by_pct =>
      match share a, share b with
      | Some x, Some y => dir_key d y ≤ dir_key d x
      | None, Some _ => False
      | _, None => True
      end
  end.

(** Figures as the server sends them. *)
Definition key_row_ok (k : StatsKeyRow) : Prop :=
  amount (s_requests k) ∧ amount (s_spend k) ∧ ∀ p, s_spend_pct k = Some p → num_wf p.

(** The accessors, without the numbers that are none. *)
Definition sound_value (v : jsval) : jsval :=
  match v with JNumber x => if SpecFloat.valid_binary prec emax x then v else JNull | _ => v end.

Lemma sound_value_id c k : key_row_ok k → sound_value (KEY_SORT_ACCESSORS c k) = KEY_SORT_ACCESSORS c k.
Proof.
  intros ([Wr _] & [Ws _] & Wp). unfold num_wf in *. destruct c; simpl; [done|by rewrite Wr|by rewrite Ws|].
  unfold jsnum_of. destruct (s_spend_pct k) as [p|]; [|done]. simpl. by rewrite Wp.
Qed.

Lemma sound_column c : column_values (λ k, sound_value (KEY_SORT_ACCESSORS c k)).
Proof.
  destruct c; [by right|left; intros k; simpl; by destruct (SpecFloat.valid_binary _ _ _) eqn:E..|].
  left. intros k. simpl. unfold jsnum_of. destruct (s_spend_pct k) as [p|]; [|done]. simpl.
  by destruct (SpecFloat.valid_binary _ _ _) eqn:E.
Qed.

Lemma compare_grid_order `{Unicode} c d a b : key_row_ok a → key_row_ok b →
  compareValues (KEY_SORT_ACCESSORS c a) (KEY_SORT_ACCESSORS c b) d ≤ 0 → in_grid_order c d a b.
Proof.
  intros (Ra & Sa & Pa) (Rb & Sb & Pb). destruct c; cbn [KEY_SORT_ACCESSORS in_grid_order].
  - unfold compareValues, sort_label. cbn [is_missing andb to_string]. destruct d; lia.
  - rewrite compareValues_key by done. lia.
  - rewrite compareValues_key by done. lia.
  - unfold jsnum_of, share. destruct (s_spend_pct a) as [x|], (s_spend_pct b) as [y|]; try done.
    + specialize (Pa x eq_refl). specialize (Pb y eq_refl).
      destruct (is_finite x) eqn:Fx, (is_finite y) eqn:Fy; try done.
      * rewrite compareValues_key by done. lia.
      * unfold compareValues, is_missing. rewrite Fx, Fy. simpl. lia.
    + by destruct (is_finite x).
    + unfold compareValues, is_missing. destruct (is_finite y); [simpl; lia|done].
Qed.

Lemma visible_sorted `{U : Unicode} `{!UnicodeLaws U} rows c d : Forall key_row_ok rows →
  StronglySorted (in_grid_order c d) (sortRows rows (KEY_SORT_ACCESSORS c) d).
Proof.
  intros Hr. rewrite sortRows_array_sort.
  rewrite (array_sort_ext_in _ (λ a b, compareValues (sound_value (KEY_SORT_ACCESSORS c a))
    (sound_value (KEY_SORT_ACCESSORS c b)) d) key_row_ok) by (intros; rewrite ?sound_value_id; done).
  pose proof (compareValues_comparator _ (sound_column c) d) as Hc.
  pose proof (array_sort_sorted (λ a b, compareValues (sound_value (KEY_SORT_ACCESSORS c a))
    (sound_value (KEY_SORT_ACCESSORS c b)) d) rows) as Hs.
  eapply (StronglySorted_weaken_in _ _ key_row_ok); [|by rewrite array_sort_perm|exact Hs].
  intros a b Ha Hb Hab. apply compare_grid_order; [done..|]. unfold cmp_le in Hab.
  by rewrite !sound_value_id in Hab.
Qed.

(** ** Properties *)

(** C34. The key panel, after any clicks, when the figures are those of a server
    (finite requests and spend): idle keys are shown after an odd number of clicks on
    the toggle, and the column sorted by is the header clicked last (SPEND to begin
    with), descending when that header was clicked an odd number of times in a row.
    With idle keys shown it lists every key once; otherwise it lists the first eight
    of the active keys (all of them when fewer).  The keys listed are in the order of
    the sorted column, whichever of the four it is (labels by collation, figures by
    value, keys without a share last), and no key left out comes before a key listed;
    and the toggle is offered exactly when some key is idle. *)
Theorem top_keys_ranked `{U : Unicode} `{!UnicodeLaws U} (es : list event) (rows : list StatsKeyRow) :
  Forall key_row_ok rows →
  let s := run es in
  let shown := if idle_clicked es then rows else active rows in
  let order := in_grid_order (last_header es) (last_dir es) in
  showIdle s = idle_clicked es ∧
  sort s = {| g_key := last_header es; g_dir := last_dir es |} ∧
  ∃ hidden,
    ranked rows s ++ hidden ≡ₚ shown ∧
    (idle_clicked es = true → hidden = []) ∧
    (idle_clicked es = false → length (ranked rows s) = Nat.min TOP_N (length (active rows))) ∧
    StronglySorted order (ranked rows s) ∧
    (∀ a b, a ∈ ranked rows s → b ∈ hidden → order a b) ∧
    (toggle_button rows s ≠ [] ↔ ∃ k, k ∈ rows ∧ is_active k = false).
Proof.
  intros Hwf s shown order. pose proof (idle_run es) as Hi. pose proof (sort_run es) as Hg.
  fold s in Hi, Hg. split; [done|]. split; [done|].
  assert (Forall key_row_ok shown) as Hsh.
  { unfold shown. destruct (idle_clicked es); [done|]. apply Forall_forall. intros k [Hk _]%list_elem_of_In%filter_In.
    rewrite Forall_forall in Hwf. by apply Hwf, list_elem_of_In. }
  assert (visible rows s = sortRows shown (KEY_SORT_ACCESSORS (last_header es)) (last_dir es)) as Ev
    by (unfold visible; by rewrite Hi, Hg).
  assert (visible rows s ≡ₚ shown) as Hp by (rewrite Ev; apply sortRows_perm).
  assert (StronglySorted order (visible rows s)) as Hs by (rewrite Ev; by apply visible_sorted).
  exists (if idle_clicked es then [] else drop TOP_N (visible rows s)).
  assert (ranked rows s ++ (if idle_clicked es then [] else drop TOP_N (visible rows s)) = visible rows s) as E.
  { unfold ranked. rewrite Hi. destruct (idle_clicked es); [apply app_nil_r|apply take_drop]. }
  rewrite <-E in Hs. apply StronglySorted_app_l in Hs as [Hs1 Hs2]. split_and!; try done.
  - by rewrite E.
  - by intros ->.
  - unfold ranked. rewrite Hi. intros Hf. rewrite Hf, length_take, Hp. unfold shown. by rewrite Hf.
  - unfold toggle_button, when, idleCount.
    pose proof (List.filter_length is_active rows) as Hl.
    rewrite (idle_iff rows). fold (active rows) in Hl.
    destruct (Z.ltb_spec 0 (Z.of_nat (length rows) - Z.of_nat (length (active rows)))); split; try done; lia.
Qed.

Definition sample_key (id : jsstr) (requests spend : Z) (pct : option Z) : StatsKeyRow :=
  {| s_id := Some id; s_key_alias := Some id; s_requests := num_of_Z requests; s_spend := num_of_Z spend;
     s_spend_pct := num_of_Z <$> pct; s_managed := None; s_deleted := None |}.

Definition sample_keys : list StatsKeyRow :=
  [sample_key (js "a") 5 1 None; sample_key (js "b") 0 0 (Some 0); sample_key (js "c") 2 9 (Some 1)].

(** Three keys, one idle, after two clicks on the share column and one on the
    toggle: shares in ascending order, the key without one last. *)
Lemma top_keys_ranked_witness :
  let es := [SortBy by_pct; ToggleIdle; SortBy by_pct] in
  map s_id (ranked (H := ascii_unicode) sample_keys (run es)) = [Some (js "b"); Some (js "c"); Some (js "a")] ∧
  map s_id (ranked (H := ascii_unicode) sample_keys (run [SortBy by_key])) = [Some (js "c"); Some (js "a")] ∧
  toggle_button sample_keys (run es) ≠ [].
Proof.
  split; [vm_compute; reflexivity|]. split; [vm_compute; reflexivity|].
  assert (Forall key_row_ok sample_keys) as Hw.
  { repeat constructor; try (vm_compute; reflexivity); intros p Hp; vm_compute in Hp; try discriminate;
      injection Hp as <-; vm_compute; reflexivity. }
  destruct (top_keys_ranked (U := ascii_unicode) [SortBy by_pct; ToggleIdle; SortBy by_pct] _ Hw)
    as (_ & _ & hidden & _ & _ & _ & _ & _ & Ht).
  apply Ht. exists (sample_key (js "b") 0 0 (Some 0)). split; [right; left|vm_compute; reflexivity].
Defined.

(** C35. The slices of the model donut, when every spend is finite: they are the
    (at most five) models of highest spend, in descending order, models of equal
    spend in the order given, and one more for the others when there are any, with
    their summed spend; so at most six, and no model is left out or counted twice. *)
Theorem rankSlices_correct (models : list StatsModelRow) :
  Forall (λ m, amount (m_spend m)) models →
  ∃ top rest,
    top ++ rest ≡ₚ models ∧ length top = Nat.min 5 (length models) ∧
    StronglySorted (λ a b, scaled (m_spend b) ≤ scaled (m_spend a)) (top ++ rest) ∧
    (∀ z, filter (λ m, scaled (m_spend m) = z) (top ++ rest) = filter (λ m, scaled (m_spend m) = z) models) ∧
    (rest = [] → UsageDonut.rankSlices (Some models) = map UsageDonut.slice_of top) ∧
    (rest ≠ [] → ∃ other, UsageDonut.rankSlices (Some models) = map UsageDonut.slice_of top ++ [other] ∧
       UsageDonut.isOther other = true ∧
       UsageDonut.sl_spend other = foldl num_add num_zero (map m_spend rest) ∧
       (UsageDonut.sl_spend_pct other = None ↔ Forall (λ m, m_spend_pct m = None) rest)).
Proof.
  intros Hf. set (sorted := array_sort (λ a b, scaled (m_spend b) - scaled (m_spend a)) models).
  assert (array_sort UsageDonut.by_model_spend models = sorted) as E.
  { apply (array_sort_by_key _ (λ m, scaled (m_spend m)) (λ m, amount (m_spend m))); [|done].
    intros a b [Wa Fa] [Wb Fb]. unfold UsageDonut.by_model_spend, UsageDonut.spend_or_zero.
    rewrite num_sgn_sub; rewrite ?or_zero_scaled; auto using or_zero_wf, or_zero_finite. }
  exists (take 5 sorted), (drop 5 sorted). rewrite take_drop. split_and!.
  - apply array_sort_perm.
  - rewrite length_take. unfold sorted. by rewrite array_sort_length.
  - eapply StronglySorted_weaken; [|apply (array_sort_sorted (λ a b, scaled (m_spend b) - scaled (m_spend a)))].
    unfold cmp_le. intros; lia.
  - intros z. destruct (filter (λ m, scaled (m_spend m) = z) models) as [|m l] eqn:Em.
    + apply filter_none. unfold sorted. rewrite array_sort_perm.
      by apply (filter_none_iff (λ m, scaled (m_spend m) = z)).
    + rewrite <-Em. assert (scaled (m_spend m) = z) as <-.
      { assert (m ∈ m :: l) as Hm by left. rewrite <-Em in Hm. by apply list_elem_of_filter in Hm as []. }
      pose proof (array_sort_stable (λ a b, scaled (m_spend b) - scaled (m_spend a)) m models) as Hst.
      unfold equals_of in Hst. fold sorted in Hst.
      assert (∀ k : list StatsModelRow, filter (λ b, scaled (m_spend b) - scaled (m_spend m) = 0) k =
        filter (λ b, scaled (m_spend b) = scaled (m_spend m)) k) as Hk
        by (intros k; apply list_filter_iff; intros; lia).
      by rewrite !Hk in Hst.
  - intros Hr. unfold UsageDonut.rankSlices. simpl default. rewrite E, Hr. done.
  - intros Hr. unfold UsageDonut.rankSlices. simpl default. rewrite E.
    destruct (rest_loop (drop 5 sorted) num_zero num_zero false) as (pct & Hfold).
    destruct (drop 5 sorted) as [|m rest] eqn:Ed; [done|]. rewrite Hfold. eexists. split; [done|]. cbn [orb].
    split; [done|]. split; [done|]. cbn [UsageDonut.sl_spend_pct]. rewrite Forall_forall.
    destruct (existsb _ (m :: rest)) eqn:Eb; split; try done.
    + intros Hn. apply existsb_exists in Eb as (x & Hx%list_elem_of_In & Hs%bool_decide_eq_true).
      rewrite Hn in Hs by done. by destruct Hs.
    + intros _ x Hx. destruct (m_spend_pct x) eqn:Ex; [|done]. exfalso.
      apply not_true_iff_false in Eb. apply Eb, existsb_exists. exists x. rewrite Ex.
      split; [by apply list_elem_of_In|by apply bool_decide_eq_true].
Qed.

Definition sample_usage (name : jsstr) (spend : Z) : StatsModelRow :=
  {| m_model := Some name; m_requests := num_of_Z 1; m_input_tokens := num_zero; m_output_tokens := num_zero;
     m_total_tokens := num_zero; m_cache_read_tokens := num_zero; m_spend := num_of_Z spend;
     m_spend_pct := None; m_last_used := None |}.

Definition sample_usages : list StatsModelRow :=
  [sample_usage (js "a") 1; sample_usage (js "b") 7; sample_usage (js "c") 3; sample_usage (js "d") 9;
   sample_usage (js "e") 2; sample_usage (js "f") 5; sample_usage (js "g") 4].

(** Seven models: the two cheapest are the others. *)
Lemma rankSlices_correct_witness :
  map UsageDonut.sl_model (UsageDonut.rankSlices (Some sample_usages)) =
    [js "d"; js "b"; js "f"; js "g"; js "c"; js "Other"] ∧
  ∃ top rest, top ++ rest ≡ₚ sample_usages ∧ length top = 5%nat.
Proof.
  split; [vm_compute; reflexivity|].
  assert (Forall (λ m, amount (m_spend m)) sample_usages) as Hw by (repeat constructor; vm_compute; reflexivity).
  destruct (rankSlices_correct sample_usages Hw) as (top & rest & Hp & Hl & _).
  by exists top, rest.
Defined.

(** C36. The latency panel and the outcome donut, when every count is a whole number
    and they sum below 2^53: no error rate is shown exactly when there are no
    requests, and that is when the donut is empty; otherwise the rate is the binary64
    (rounded) quotient of the exact number of requests whose status is not [success]
    by the exact total, and the first is at most the second; the donut counts the same
    total; and it counts as failed exactly the requests the latency panel counts,
    less those whose status is [success] only after lower-casing. *)
Theorem outcomes_agree `{U : Unicode} `{!UnicodeLaws U} (cnt : LatencyOutcome → Z) (outcomes : list LatencyOutcome) :
  Forall (count_ok cnt) outcomes → sum_of cnt outcomes < 2 ^ 53 →
  let total_z := sum_of cnt outcomes in
  let failed_z := sum_of cnt (List.filter (λ o, negb (js_eqb (o_status o) (js "success"))) outcomes) in
  let other_case_z := sum_of cnt (List.filter other_case_success outcomes) in
  0 ≤ failed_z ≤ total_z ∧
  is_int (total outcomes) total_z ∧
  (errorRate outcomes = None ↔ total_z = 0) ∧
  (num_eqb (total outcomes) num_zero = true ↔ total_z = 0) ∧
  (0 < total_z → ∃ f t, errorRate outcomes = Some (num_div f t) ∧ is_int f failed_z ∧ is_int t total_z) ∧
  is_int (failed outcomes) (failed_z - other_case_z).
Proof.
  intros Hl Hb total_z failed_z other_case_z. pose proof (count_ok_nonneg _ _ Hl) as Hn.
  pose proof (sum_of_filter cnt (λ o, negb (js_eqb (o_status o) (js "success"))) outcomes Hn) as Hf.
  fold failed_z total_z in Hf. pose proof (count_sum_int cnt outcomes Hl Hb) as Ht. fold total_z in Ht.
  destruct (rate_loop cnt outcomes num_zero num_zero 0 0 Hl ltac:(lia) (is_int_zero _) (is_int_zero _) ltac:(lia))
    as [Hrt Hrf]. fold total_z failed_z in Hrt, Hrf. rewrite Z.add_0_l in Hrt, Hrf.
  set (p := foldl rate_step (num_zero, num_zero) outcomes) in *.
  assert (errorRate outcomes = if 0 <? total_z then Some (num_div p.2 p.1) else None) as Hr.
  { rewrite <-(is_int_ltb _ _ _ _ (is_int_zero false) Hrt). unfold p. clear.
    destruct outcomes as [|o l]; [done|]. unfold errorRate. by destruct (foldl rate_step _ _). }
  split_and!; try done; try lia.
  - rewrite Hr. destruct (Z.ltb_spec 0 total_z); split; try done; lia.
  - pose proof (is_int_eqb _ _ _ _ Ht (is_int_zero false)) as E. fold num_zero in E.
    change (count_sum outcomes) with (total outcomes) in E. rewrite E. apply Z.eqb_eq.
  - intros Hpos. exists p.2, p.1. rewrite Hr. by destruct (Z.ltb_spec 0 total_z); [|lia].
  - unfold failed_z, other_case_z. rewrite donut_failures. apply count_sum_int.
    + apply Forall_forall. intros o [Ho _]%list_elem_of_In%filter_In. rewrite Forall_forall in Hl.
      by apply Hl, list_elem_of_In.
    + pose proof (sum_of_filter cnt (λ o, negb (js_eqb (to_lower (o_status o)) (js "success"))) outcomes Hn).
      fold total_z in H. lia.
Qed.

(** Nine successes, one of them in capitals, and a failure. *)
Lemma outcomes_agree_witness :
  let outcomes := [{| o_status := js "success"; o_count := num_of_Z 8 |};
                   {| o_status := js "SUCCESS"; o_count := num_of_Z 1 |};
                   {| o_status := js "failure"; o_count := num_of_Z 1 |}] in
  is_int (failed (H := ascii_unicode) outcomes) (2 - 1) ∧ formatPct (errorRate outcomes) = js "20.0%".
Proof.
  split; [|vm_compute; reflexivity].
  refine (proj2 (proj2 (proj2 (proj2 (proj2 (outcomes_agree (U := ascii_unicode)
    (λ o, if num_eqb (o_count o) (num_of_Z 8) then 8 else 1)
    [{| o_status := js "success"; o_count := num_of_Z 8 |};
     {| o_status := js "SUCCESS"; o_count := num_of_Z 1 |};
     {| o_status := js "failure"; o_count := num_of_Z 1 |}] _ _)))))).
  - repeat constructor; vm_compute; try reflexivity; discriminate.
  - vm_compute. reflexivity.
Defined.
