(* ===== verification/Kpi.v ===== *)
(** * Headline cards, charts and the account budget

    The card row [components/stats/KpiRow.tsx], the two time-series charts
    [SpendChart.tsx] and [RequestsChart.tsx] with their shared parts of
    [chart-common.tsx], the budget panel [BudgetPanel.tsx] with its meter
    [components/ui/budget-meter.tsx], and the dashboard's own budget bar
    [routes/Dashboard.tsx].  The chart library is outside: a chart is the element
    it is given, its rows and its bars. *)

From Stdlib Require Import String SpecFloat.
From S2P Require Import Prelude JsNumber JsString JsText JsDate View Format ApiTypes Keys Series Catalog.
Import Format Series KeysTable TableSearch.

(** ** KpiRow.tsx *)

Module KpiRow.
Section cards.
Context {E : Type}.

Definition W : Z := 96.
Definition H : Z := 32.

(** [Math.max(...data)] and [Math.min(...data)]. *)
Definition max_of (data : list number) : number := foldl num_max (S754_infinity true) data.
Definition min_of (data : list number) : number := foldl num_min (S754_infinity false) data.

(** A vertex of the trend line; [n] is the number of points. *)
Definition point (min range : number) (n : Z) (i : nat) (v : number) : jsstr :=
  let x := num_mul (num_div (num_of_Z (Z.of_nat i)) (num_of_Z (n - 1))) (num_of_Z W) in
  let y := num_sub (num_of_Z (H - 2)) (num_mul (num_div (num_sub v min) range) (num_of_Z (H - 4))) in
  toFixed 1 x ++ js "," ++ toFixed 1 y.

Definition Sparkline (data : list number) : list (node E) :=
  if (length data <? 2)%nat then []
  else
    let min := min_of data in
    let range := num_sub (max_of data) min in
    if num_eqb range num_zero then []
    else
      let line := js_join (js " ") (imap (point min range (Z.of_nat (length data))) data) in
      [El "svg" [("viewBox", AStr (js "0 0 " ++ Z_to_js W ++ js " " ++ Z_to_js H)); ("aria-hidden", AStr (js "true"))] []
         [El "polygon" [("points", AStr (js "0," ++ Z_to_js H ++ js " " ++ line ++ js " " ++ Z_to_js W ++ js "," ++ Z_to_js H))] [] [];
          El "polyline" [("points", AStr line)] [] []]].

Definition formatSignedPct (fraction : number) : jsstr :=
  let pct := toFixed 1 (num_mul fraction (num_of_Z 100)) in
  if num_leb num_zero fraction then js "+" ++ pct ++ js "%" else pct ++ js "%".

Definition DeltaChip (pct : option number) (invert : bool) : list (node E) :=
  match pct with
  | Some value =>
      if is_finite value then
        let up := num_ltb num_zero value in
        let flat := num_eqb value num_zero in
        let good := if flat then None else Some (if invert then negb up else up) in
        let color := if flat then js "text-text-secondary"
                     else if default false good then js "text-primary" else js "text-destructive" in
        let arrow := if flat then js "" else if up then js "▲ " else js "▼ " in
        [El "div" [("data-slot", AStr (js "kpi-delta")); ("className", cls [Some color])] []
           [Text arrow; Text (formatSignedPct value); Text (js " "); El "span" [] [] [Text (js "vs prev")]]]
      else []
  | None => []
  end.

(** The description of a card; [c_sub] is empty for [null]. *)
Record Card := {
  c_label : jsstr;
  c_value : jsstr;
  c_deltaPct : option number;
  c_invert : bool;
  c_spark : option (list number);
  c_labelTitle : option jsstr;
  c_sub : list (node E)
}.

Definition KpiCard (c : Card) : node E :=
  El "div" [("key", AStr (c_label c))] []
    (for_some (c_spark c) (λ spark, when (1 <? length spark)%nat
       [El "div" [("data-slot", AStr (js "kpi-spark")); ("aria-hidden", AStr (js "true"))] [] (Sparkline spark)]) ++
     [El "div" [] []
        [El "div" (attr_some "data-testid" (if js_eqb (c_label c) (js "SPEND")
                                            then Some (AStr (js "kpi-spend-label")) else None) ++
                   attr_some "title" (AStr <$> c_labelTitle c)) [] [Text (c_label c)]];
      El "div" [] []
        (El "span" [] [] [Text (c_value c)] ::
         match c_sub c with
         | [] => []
         | sub => [El "span" [] [] ([Text (js "(")] ++ sub ++ [Text (js ")")])]
         end)] ++
     DeltaChip (c_deltaPct c) (c_invert c)).

(** A field of the totals, [undefined] when there are none. *)
Definition total_of (f : StatsTotals → option number) (t : option StatsTotals) : jsval :=
  match t with Some t => jsnum_of (f t) | None => JUndefined end.

Definition failed_sub (t : option StatsTotals) : list (node E) :=
  for_some t (λ t,
    when (num_ltb num_zero (tot_failed_requests t))
      [El "span" [("data-slot", AStr (js "kpi-failed"))] []
         [Text (formatInt (JNumber (tot_failed_requests t))); Text (js " failed");
          Text (if num_ltb num_zero (tot_requests t)
                then js " · " ++ toFixed 1 (num_mul (num_div (tot_failed_requests t) (tot_requests t)) (num_of_Z 100)) ++ js "%"
                else [])]]).

Definition tokens_sub (t : option StatsTotals) : list (node E) :=
  for_some t (λ t,
    let out := tot_output_tokens t in
    let total := tot_tokens t in
    when (negb (num_leb out num_zero))
      [El "span" [("data-slot", AStr (js "kpi-tokens")); ("title", AStr (js "Output tokens · share of total tokens"))] []
         [Text (abbreviate (JNumber out)); Text (js " out");
          Text (if num_truthy total && num_ltb num_zero total
                then js " · " ++ toFixed 1 (num_mul (num_div out total) (num_of_Z 100)) ++ js "%" else [])]]).

Definition cards (t : option StatsTotals) (series : option (list StatsSeriesPoint)) : list Card :=
  let d := deltas <$> t in
  let pts := default [] series in
  [{| c_label := js "TOTAL REQUESTS"; c_value := abbreviate (total_of (λ t, Some (tot_requests t)) t);
      c_deltaPct := d ≫= requests_pct; c_invert := false; c_spark := Some (map p_requests pts);
      c_labelTitle := None; c_sub := failed_sub t |};
   {| c_label := js "TOTAL TOKENS"; c_value := abbreviate (total_of (λ t, Some (tot_tokens t)) t);
      c_deltaPct := d ≫= tokens_pct; c_invert := false; c_spark := Some (map p_tokens pts);
      c_labelTitle := None; c_sub := tokens_sub t |};
   {| c_label := js "SPEND"; c_value := formatCurrency (total_of (λ t, Some (tot_spend t)) t);
      c_deltaPct := d ≫= d_spend_pct; c_invert := true; c_spark := Some (map p_spend pts);
      c_labelTitle := Some (js "Gateway-computed spend — includes cache & provider pricing"); c_sub := [] |};
   {| c_label := js "AVG COST / 1M TOKENS"; c_value := formatCurrency (total_of tot_avg_cost_per_1m_tokens t);
      c_deltaPct := d ≫= avg_cost_per_1m_tokens_pct; c_invert := true; c_spark := None;
      c_labelTitle := None; c_sub := [] |}].

(** The fourth card is replaced by a node when the container gives one. *)
Definition KpiRow (totals : option StatsTotals) (series : option (list StatsSeriesPoint))
    (fourthCard : option (node E)) : node E :=
  let cards := cards totals series in
  let shown := match fourthCard with Some _ => take 3 cards | None => cards end in
  El "div" [("data-slot", AStr (js "kpi-row"))] []
    [El "div" [] [] (map KpiCard shown ++ for_some fourthCard (λ n, [n]))].
End cards.
End KpiRow.

(** ** chart-common.tsx, SpendChart.tsx, RequestsChart.tsx *)

Module Charts.

Definition CHART_HEIGHT : Z := 240.
Definition CHART_EMPTY_COPY : jsstr := js "No usage in this range".
Definition SERIES_COLOR : jsstr := js "var(--primary)".

(** [typeof value === 'number' ? value : Number(value)]. *)
Definition to_number (v : jsval) : number :=
  match v with
  | JNumber x => x
  | JString s => Number_of_string s
  | JNull => num_zero
  | JUndefined => num_nan
  end.

Definition makeTooltipFormatter (formatValue : jsval → jsstr) (value : jsval) : jsstr :=
  formatValue (JNumber (to_number value)).

Definition tooltipLabelFormatter `{Engine} (label : jsstr) : jsstr := formatDate (Some label).

Inductive RequestsMetric := requests | tokens | failed.

#[export] Instance RequestsMetric_eq_dec : EqDecision RequestsMetric.
Proof. solve_decision. Defined.

Definition METRICS : list RequestsMetric := [requests; tokens; failed].

Definition metric_name (m : RequestsMetric) : jsstr :=
  match m with requests => js "requests" | tokens => js "tokens" | failed => js "failed" end.

Definition RequestsMetricToggle {E} (metric : RequestsMetric) (onChange : RequestsMetric → E) : node E :=
  El "div" [] []
    (map (λ m, El "button" [("data-slot", AStr (js "requests-metric-" ++ metric_name m));
                            ("aria-pressed", ABool (bool_decide (metric = m)));
                            ("className", cls [Some (if bool_decide (metric = m) then js "bg-primary/15 text-primary"
                                                     else js "text-text-secondary hover:text-text-primary")])]
                 [("onClick", onChange m)] [Text (metric_name m)]) METRICS).

(** The formatter of the axis and the tooltip. *)
Definition fmt (metric : RequestsMetric) : jsval → jsstr :=
  match metric with tokens => abbreviate | _ => formatInt end.

Section charts.
Context `{Engine} {E : Type}.

Definition ChartEmpty : node E :=
  El "div" [("style.minHeight", AInt CHART_HEIGHT)] []
    [El "div" [] [] [Text CHART_EMPTY_COPY]; El "div" [] [] [Text (js "Try a wider date range.")]].

(** A row of the chart's [data], with what the axes and the tooltip print for it. *)
Definition datum (f : jsval → jsstr) (columns : list (string * (SpendRequestsPoint → number)))
    (p : SpendRequestsPoint) : node E :=
  El "datum" (("date", AStr (date p)) :: ("label", AStr (tooltipLabelFormatter (date p))) ::
              flat_map (λ '(n, col), [(n, ANum (col p)); ("tooltip", AStr (makeTooltipFormatter f (JNumber (col p))))]) columns) [] [].

Definition bar (k : jsstr) (stackId : option jsstr) (fill : jsstr) (label : option jsstr) : node E :=
  El "Bar" ([("dataKey", AStr k)] ++ attr_some "stackId" (AStr <$> stackId) ++ [("fill", AStr fill)] ++
            attr_some "name" (AStr <$> label)) [] [].

Definition SpendChart (series : option (list StatsSeriesPoint)) (loading : bool) : node E :=
  if loading then Skeleton SkChart 5
  else
    let rows := seriesToRecharts series in
    if match rows with [] => true | _ => negb (seriesHasActivity series) end then ChartEmpty
    else El "AreaChart" [] []
      (map (datum formatCurrency [("spend", spend)]) rows ++
       [El "Area" [("dataKey", AStr (js "spend")); ("stroke", AStr SERIES_COLOR)] [] []]).

(** The bars of a metric, with the columns they read. *)
Definition metric_columns (metric : RequestsMetric) : list (string * (SpendRequestsPoint → number)) :=
  match metric with
  | requests => [("success", success); ("failed", Series.failed)]
  | tokens => [("inputTokens", inputTokens); ("outputTokens", outputTokens)]
  | failed => [("failed", Series.failed)]
  end.

Definition metric_bars (metric : RequestsMetric) : list (node E) :=
  match metric with
  | requests => [bar (js "success") (Some (js "req")) SERIES_COLOR None;
                 bar (js "failed") (Some (js "req")) (js "var(--destructive)") None]
  | tokens => [bar (js "inputTokens") (Some (js "tok")) SERIES_COLOR (Some (js "input"));
               bar (js "outputTokens") (Some (js "tok")) (js "var(--cat-2)") (Some (js "output"))]
  | failed => [bar (js "failed") None (js "var(--destructive)") None]
  end.

(** Controlled by its container, or with a state and a toggle of its own. *)
Definition RequestsChart (series : option (list StatsSeriesPoint)) (loading : bool)
    (controlledMetric : option RequestsMetric) (internalMetric : RequestsMetric)
    (setInternalMetric : RequestsMetric → E) : node E :=
  let metric := default internalMetric controlledMetric in
  if loading then Skeleton SkChart 5
  else
    let rows := seriesToRecharts series in
    if match rows with [] => true | _ => negb (seriesHasActivity series) end then ChartEmpty
    else
      let chart := El "BarChart" [] [] (map (datum (fmt metric) (metric_columns metric)) rows ++ metric_bars metric) in
      match controlledMetric with
      | None => El "div" [] [] [El "div" [] [] [RequestsMetricToggle metric setInternalMetric]; chart]
      | Some _ => chart
      end.
End charts.
End Charts.

(** ** budget-meter.tsx, BudgetPanel.tsx and the dashboard's BudgetBar *)

Module Budget.
Section budget.
Context `{Unicode} {E : Type} (now : Z).

Definition ghostFillClass (ratio : option number) : jsstr :=
  match ratio with
  | Some r =>
      if negb (is_finite r) then js "bg-text-secondary/25"
      else if num_leb num_0_9 r then js "bg-destructive/25"
      else if num_leb num_0_8 r then js "bg-warning/25" else js "bg-text-secondary/25"
  | None => js "bg-text-secondary/25"
  end.

(** [Math.max(0, Math.min(1, ratio))], a fraction of the track. *)
Definition clamped (ratio : number) : number := num_max num_zero (num_min (num_of_Z 1) ratio).

Definition spend_ratio (current maxBudget : number) : number :=
  if num_ltb num_zero maxBudget then num_div current maxBudget else num_of_Z 1.

Definition projected (current : number) (duration : option jsstr) : option number :=
  if isMonthlyDuration duration then Some (projectMonthEnd current now) else None.

Definition projected_ratio (current maxBudget : number) (duration : option jsstr) : option number :=
  match projected current duration with
  | Some p => if num_ltb num_zero maxBudget then Some (num_div p maxBudget) else None
  | None => None
  end.

Definition BudgetMeter (current maxBudget : number) (duration : option jsstr) : node E :=
  let ratio := spend_ratio current maxBudget in
  let fillPct := num_mul (clamped ratio) (num_of_Z 100) in
  let projectedPct := (λ r, num_mul (clamped r) (num_of_Z 100)) <$> projected_ratio current maxBudget duration in
  El "div" [] []
    (for_some projectedPct (λ pct,
       when (num_ltb fillPct pct)
         [El "div" [("data-slot", AStr (js "budget-projection"));
                    ("title", AStr (js "Projected month-end: " ++
                       formatCurrency (jsnum_of (projected current duration))));
                    ("className", cls [Some (ghostFillClass (Some ratio))]);
                    ("style.width", AStr (num_to_string pct ++ js "%"))] [] []]) ++
     [El "div" [("data-slot", AStr (js "budget-fill")); ("className", cls [Some (budgetFillClass (Some ratio))]);
                ("style.width", AStr (num_to_string fillPct ++ js "%"))] [] []]).

(** The figures next to the label: spent of budget, its period, the share used and
    the projection. *)
Definition budget_figures (current maxBudget : number) (duration : option jsstr) : list (node E) :=
  [Text (formatCurrency (JNumber current)); Text (js " of "); Text (formatCurrency (JNumber maxBudget))] ++
  when (ostr_truthy duration) [El "span" [] [] [Text (js " / "); Text (default [] duration)]] ++
  match budgetPctLabel current (Some maxBudget) with
  | Some ((_ :: _) as label) => [El "span" [] [] [Text (js " · "); Text label]]
  | _ => []
  end ++
  when (isMonthlyDuration duration)
    [El "span" [] [] [Text (js " "); Text (js "· projected "); Text (formatCurrency (JNumber (projectMonthEnd current now)))]].

Definition SECTION_LABEL : jsstr := js "ACCOUNT BUDGET".

Definition BudgetPanel (budget : option StatsBudget) : node E :=
  let current := match budget with Some b => bud_current b | None => num_zero end in
  let maxBudget := budget ≫= bud_max_budget in
  match (if match budget with Some b => has_budget b | None => false end then maxBudget else None) with
  | None =>
      El "div" [("data-slot", AStr (js "budget-panel")); ("data-state", AStr (js "none"))] []
        [El "div" [] [] [Text SECTION_LABEL];
         El "div" [] [] [Text (formatCurrency (JNumber current)); Text (js " spent · no budget set")]]
  | Some maxBudget =>
      let duration := budget ≫= bud_budget_duration in
      El "div" [("data-slot", AStr (js "budget-panel"));
                ("data-state", AStr (if num_ltb maxBudget current then js "over" else js "ok"))] []
        [El "div" [] []
           [El "span" [] [] [Text SECTION_LABEL]; El "span" [] [] (budget_figures current maxBudget duration)];
         BudgetMeter current maxBudget duration]
  end.

(** routes/Dashboard.tsx *)
Definition BudgetBar (limits : option SessionLimits) (spend : SessionSpend) : node E :=
  let current := current spend in
  let maxBudget := limits ≫= max_budget in
  let none := El "div" [] []
    [El "div" [] []
       [El "span" [] [] [Text (js "Account budget")];
        El "span" [] [] [Text (formatCurrency (JNumber current)); Text (js " · no budget set")]];
     El "div" [] [] [El "div" [("style.width", AStr (js "0%"))] [] []]] in
  match maxBudget with
  | None => none
  | Some maxBudget =>
      if num_leb maxBudget num_zero then none
      else
        let duration := limits ≫= budget_duration in
        El "div" [] []
          [El "div" [] []
             [El "span" [] [] [Text (js "Account budget")];
              El "span" [] [] (budget_figures current maxBudget duration)];
           BudgetMeter current maxBudget duration]
  end.
End budget.
End Budget.
Import Budget.

(** ** The meter *)

(** The widths of the elements of a tree with the given slot. *)
Definition slot_widths {E} (slot : jsstr) (n : node E) : list aval :=
  omap (λ '(_, a, _), match attribute "data-slot" a with
                      | Some (AStr s) => if js_eqb s slot then attribute "style.width" a else None
                      | _ => None
                      end) (elements n).

Definition FILL : jsstr := js "budget-fill".
Definition PROJECTION : jsstr := js "budget-projection".

(** A width in percent. *)
Definition percent_width (pct : number) : aval := AStr (num_to_string pct ++ js "%").

Lemma slot_widths_El {E} slot t a (on : list (string * E)) l :
  slot_widths slot (El t a on l) =
  (match attribute "data-slot" a with
   | Some (AStr s) => if js_eqb s slot then option_list (attribute "style.width" a) else []
   | _ => []
   end) ++ flat_map (slot_widths slot) l.
Proof.
  unfold slot_widths. cbn [elements].
  assert (∀ k, omap (λ '(_, a0, _), match attribute "data-slot" a0 with
      | Some (AStr s) => if js_eqb s slot then attribute "style.width" a0 else None | _ => None end)
      (flat_map (@elements E) k) = flat_map (λ n, omap (λ '(_, a0, _), match attribute "data-slot" a0 with
      | Some (AStr s) => if js_eqb s slot then attribute "style.width" a0 else None | _ => None end) (elements n)) k) as Hk.
  { induction k as [|n k IH]; [done|]. simpl. by rewrite omap_app, IH. }
  cbn [omap list_omap]. rewrite Hk.
  destruct (attribute "data-slot" a) as [[s| | |]|]; try done. destruct (js_eqb s slot); [|done].
  by destruct (attribute "style.width" a).
Qed.

Lemma slot_widths_spans {E} slot (l : list (node E)) :
  Forall (λ n, match n with Text _ => True | El _ a _ k => a = [] ∧ Forall (λ m, ∃ s, m = Text s) k end) l →
  flat_map (slot_widths slot) l = [].
Proof.
  induction 1 as [|[s|t a on k] l Hn _ IH]; [done|done|]. destruct Hn as [-> Hk].
  cbn [flat_map]. rewrite slot_widths_El, IH, app_nil_r. simpl.
  induction Hk as [|m k [s ->] _ IHk]; done.
Qed.

Section meter.
Context `{Unicode} {E : Type} (now : Z).

Lemma figures_plain current maxBudget duration slot :
  flat_map (slot_widths slot) (budget_figures (E := E) now current maxBudget duration) = [].
Proof.
  apply slot_widths_spans. unfold budget_figures, when.
  repeat (apply Forall_app; split); repeat case_match; repeat constructor; eauto.
Qed.

Lemma clamped_not_nan r : is_nan r = false → is_nan (clamped r) = false.
Proof. intros Hr. unfold clamped. apply num_max_not_nan; [done|]. by apply num_min_not_nan. Qed.

Lemma clamped_bounds r : is_nan r = false →
  num_leb num_zero (clamped r) = true ∧ num_leb (clamped r) (num_of_Z 1) = true.
Proof. intros Hr. by apply num_clamp_bounds. Qed.

(** A ratio that is not positive fills nothing. *)
Lemma clamped_negative r : has_sign true r ∨ num_eqb r num_zero = true → num_eqb (clamped r) num_zero = true.
Proof. by intros [Hs|Hs]; destruct r as [[]|[]| |[] m e]. Qed.

Lemma spend_ratio_not_nan current maxBudget : is_finite current = true → is_finite maxBudget = true →
  is_nan (spend_ratio current maxBudget) = false.
Proof.
  intros Hc Hm. unfold spend_ratio. destruct (num_ltb num_zero maxBudget) eqn:Em; [|done].
  eapply has_sign_not_nan, num_div_sign; [done|by destruct maxBudget|].
  by destruct maxBudget as [| | |[]].
Qed.

Lemma BudgetMeter_fill current maxBudget duration :
  slot_widths FILL (BudgetMeter (E := E) now current maxBudget duration) =
  [percent_width (num_mul (clamped (spend_ratio current maxBudget)) (num_of_Z 100))].
Proof.
  unfold BudgetMeter. rewrite slot_widths_El. cbn [attribute List.find fmap option_fmap option_map app].
  rewrite flat_map_app. 
  match goal with |- flat_map _ ?l ++ _ = _ => replace (flat_map (slot_widths FILL) l) with (@nil aval) end; [done|].
  unfold for_some, when. repeat case_match; done.
Qed.

Lemma panel_fill b m : has_budget b = true → bud_max_budget b = Some m →
  slot_widths FILL (BudgetPanel (E := E) now (Some b)) =
  slot_widths FILL (BudgetMeter (E := E) now (bud_current b) m (bud_budget_duration b)).
Proof.
  intros Hb Hm. unfold BudgetPanel. cbn [mbind option_bind]. rewrite Hb, Hm.
  rewrite !slot_widths_El. cbn [flat_map]. rewrite !slot_widths_El. cbn [flat_map]. rewrite !slot_widths_El.
  rewrite figures_plain. cbn [flat_map]. by rewrite !app_nil_r.
Qed.

Lemma bar_fill limits s m : limits ≫= max_budget = Some m → num_leb m num_zero = false →
  slot_widths FILL (BudgetBar (E := E) now limits s) =
  slot_widths FILL (BudgetMeter (E := E) now (current s) m (limits ≫= budget_duration)).
Proof.
  intros Hm Hpos. unfold BudgetBar. rewrite Hm, Hpos.
  rewrite !slot_widths_El. cbn [flat_map]. rewrite !slot_widths_El. cbn [flat_map]. rewrite !slot_widths_El.
  rewrite figures_plain. cbn [flat_map]. by rewrite !app_nil_r.
Qed.

Lemma bar_none limits s :
  (∀ m, limits ≫= max_budget = Some m → num_leb m num_zero = true) →
  slot_widths FILL (BudgetBar (E := E) now limits s) = [].
Proof.
  intros Hm. unfold BudgetBar. destruct (limits ≫= max_budget) as [m|]; [|done]. by rewrite (Hm m).
Qed.

(** A spend that is not positive is no positive share of a positive budget. *)
Lemma ratio_not_positive x m : is_finite x = true → is_finite m = true →
  num_ltb num_zero m = true → num_leb x num_zero = true →
  has_sign true (num_div x m) ∨ num_eqb (num_div x m) num_zero = true.
Proof.
  intros Fx Fm Hm Hx. destruct x as [sx| | |[] mx ex]; try done.
  - right. destruct m as [| | |[] ? ?]; done.
  - left. destruct m as [| | |[] mm em]; try done. by apply (num_div_sign (S754_finite true mx ex) (S754_finite false mm em)).
Qed.

Lemma projection_past_fill current maxBudget duration :
  let meter := BudgetMeter (E := E) now current maxBudget duration in
  slot_widths PROJECTION meter ≠ [] → isMonthlyDuration duration = true ∧
  ∃ p, slot_widths PROJECTION meter = [percent_width p] ∧
       num_ltb (num_mul (clamped (spend_ratio current maxBudget)) (num_of_Z 100)) p = true.
Proof.
  cbn zeta. unfold BudgetMeter. rewrite slot_widths_El. cbn [attribute List.find fmap option_fmap option_map app].
  rewrite flat_map_app. unfold projected_ratio, projected.
  destruct (isMonthlyDuration duration); [|done]. destruct (num_ltb num_zero maxBudget) eqn:Em; [|done].
  cbn [fmap option_fmap option_map for_some]. unfold when.
  destruct (num_ltb (num_mul (clamped (spend_ratio current maxBudget)) (num_of_Z 100)) _) eqn:El; [|done].
  intros _. split; [done|]. eexists. split; [reflexivity|exact El].
Qed.

Lemma panel_none budget :
  (∀ b m, budget = Some b → bud_max_budget b = Some m → has_budget b = false) →
  slot_widths FILL (BudgetPanel (E := E) now budget) = [].
Proof.
  intros Hb. unfold BudgetPanel. destruct budget as [b|]; [|done]. cbn [mbind option_bind].
  destruct (bud_max_budget b) as [m|] eqn:Em; [|by destruct (has_budget b)]. by rewrite (Hb b m).
Qed.
End meter.

(** C37. The account budget, for amounts that are finite: a meter's fill is always
    drawn, with a width that is a fraction of the track between 0 and 1 (never [NaN])
    times 100: nothing when nothing was spent of a positive budget, all of it when the
    budget is not positive; and a projection is drawn only for a monthly budget, and
    only when it reaches past the fill.  The usage page draws a meter exactly when the
    server says there is a budget and sends it, the dashboard exactly when the budget
    it has is positive; given the same figures, both draw the same fill when the
    budget is positive, and they differ when it is present and not positive: then the
    dashboard draws none and the usage page a full bar. *)
Theorem budget_correct `{Unicode} {E : Type} (now : Z) (spent max : number) (duration : option jsstr)
    (b : StatsBudget) (limits : option SessionLimits) (s : SessionSpend) :
  amount spent → amount max →
  bud_current b = spent → bud_max_budget b = Some max → bud_budget_duration b = duration →
  current s = spent → limits ≫= max_budget = Some max → limits ≫= budget_duration = duration →
  let meter := BudgetMeter (E := E) now spent max duration in
  let panel := BudgetPanel (E := E) now (Some b) in
  let bar := BudgetBar (E := E) now limits s in
  (∃ f, slot_widths FILL meter = [percent_width (num_mul f (num_of_Z 100))] ∧
     num_leb num_zero f = true ∧ num_leb f (num_of_Z 1) = true ∧
     (num_ltb num_zero max = true → num_leb spent num_zero = true → num_eqb f num_zero = true) ∧
     (num_ltb num_zero max = false → f = num_of_Z 1) ∧
     (slot_widths PROJECTION meter ≠ [] → isMonthlyDuration duration = true ∧
        ∃ p, slot_widths PROJECTION meter = [percent_width p] ∧ num_ltb (num_mul f (num_of_Z 100)) p = true)) ∧
  (slot_widths FILL panel ≠ [] ↔ has_budget b = true) ∧
  (slot_widths FILL bar ≠ [] ↔ num_ltb num_zero max = true) ∧
  (has_budget b = true → num_ltb num_zero max = true → slot_widths FILL panel = slot_widths FILL bar) ∧
  (has_budget b = true → num_ltb num_zero max = false →
     slot_widths FILL panel = [AStr (js "100%")] ∧ slot_widths FILL bar = []).
Proof.
  intros [_ Fs] [_ Fm] Ec Em Ed Es El Eld meter panel bar.
  pose proof (spend_ratio_not_nan spent max Fs Fm) as Hn.
  assert (num_leb max num_zero = negb (num_ltb num_zero max)) as Hle by (apply num_leb_ltb; [by destruct max|done]).
  assert (slot_widths FILL meter = [percent_width (num_mul (clamped (spend_ratio spent max)) (num_of_Z 100))]) as Hf
    by apply BudgetMeter_fill.
  assert (has_budget b = true → slot_widths FILL panel = slot_widths FILL meter) as Hp
    by (intros Hb; unfold panel; by rewrite (panel_fill now b max), Ec, Ed).
  assert (num_ltb num_zero max = true → slot_widths FILL bar = slot_widths FILL meter) as Hb
    by (intros Hm; unfold bar; rewrite (bar_fill now limits s max), Es, Eld; [done..|by rewrite Hle, Hm]).
  assert (num_ltb num_zero max = false → slot_widths FILL bar = []) as Hb0
    by (intros Hm; apply bar_none; intros m E'; rewrite El in E'; injection E' as <-; by rewrite Hle, Hm).
  split_and!.
  - eexists. split; [exact Hf|]. destruct (clamped_bounds _ Hn) as [H0 H1]. split_and!; [done..| | |].
    + intros Hm Hs. apply clamped_negative. unfold spend_ratio. rewrite Hm.
      by apply ratio_not_positive.
    + intros Hm. unfold spend_ratio. rewrite Hm. reflexivity.
    + apply projection_past_fill.
  - split; [|intros E'; by rewrite (Hp E'), Hf]. intros Hne. destruct (has_budget b) eqn:E'; [done|].
    destruct Hne. apply panel_none. by intros b' m [= <-] _.
  - split; [|intros E'; by rewrite (Hb E'), Hf]. intros Hne. destruct (num_ltb num_zero max); [done|]. by destruct Hne; auto.
  - intros E1 E2. by rewrite (Hp E1), (Hb E2).
  - intros E1 E2. split; [|by auto]. rewrite (Hp E1), Hf. unfold spend_ratio. rewrite E2. vm_compute. reflexivity.
Qed.

(** 3 spent of 10 in a monthly budget, on the 10th of a 31-day month: the projection
    is at 93%. *)
Lemma budget_correct_witness :
  let b := {| bud_current := num_of_Z 3; bud_max_budget := Some (num_of_Z 10); bud_budget_duration := Some (js "30d");
              bud_source := source_user; bud_pct := None; has_budget := true |} in
  let now := default 0 (date_utc 2026 6 10) in
  slot_widths FILL (BudgetPanel (H := ascii_unicode) (E := unit) now (Some b)) = [AStr (js "30%")] ∧
  slot_widths PROJECTION (BudgetPanel (H := ascii_unicode) (E := unit) now (Some b)) = [AStr (js "93%")] ∧
  slot_widths FILL (BudgetPanel (H := ascii_unicode) (E := unit) now (Some b)) ≠ [].
Proof.
  split; [vm_compute; reflexivity|]. split; [vm_compute; reflexivity|].
  set (l := Some {| max_budget := Some (num_of_Z 10); budget_duration := Some (js "30d"); tpm_limit := None; rpm_limit := None |}).
  refine (proj2 (proj1 (proj2 (budget_correct (H := ascii_unicode) (E := unit) _ (num_of_Z 3) (num_of_Z 10) (Some (js "30d"))
    _ l {| current := num_of_Z 3; source := source_user |} _ _ _ _ _ _ _ _))) _); try reflexivity.
  all: split; vm_compute; reflexivity.
Defined.
