(* ===== verification/Stats.v ===== *)
(** * The usage page (src/ui/src/routes/Stats.tsx)

    The container of the usage page, with its breakdown table
    [components/stats/ModelTable.tsx]: it owns the date range, drives the two
    range queries with it and distributes their answers to the panels, each a
    component of its own with its own state. *)

From Stdlib Require Import String.
From S2P Require Import Prelude JsNumber JsString JsText JsDate View Presets Format Sort ApiTypes Csv Keys Series.
From S2P Require Import KeyHooks DateRange Catalog Panels Kpi.
Import Presets Format Sort Classify TableSearch.

(** ** ModelTable.tsx *)

Module ModelTable.
Section table.
Context `{Engine} `{Unicode}.

Definition EMPTY_COPY : jsstr := js "No usage in this range".

Definition NUMERIC : option jsstr := Some (js "font-mono text-xs text-right whitespace-nowrap").
Definition RIGHT : option jsstr := Some (js "text-right").

(** A cell a tool row does not have. *)
Definition unless_mcp (m : StatsModelRow) (s : jsstr) : list (node jsstr) :=
  [Text (if isMcpModelRow (m_model m) then EM_DASH else s)].

(** [tokenSplit === false]. *)
Definition split_cell (tokenSplit : option bool) (m : StatsModelRow) (x : number) : list (node jsstr) :=
  unless_mcp m (if bool_decide (tokenSplit = Some false) then EM_DASH else abbreviate (JNumber x)).

Definition spend_cell (m : StatsModelRow) : list (node jsstr) :=
  if isMcpModelRow (m_model m)
  then [El "span" [("data-testid", AStr (js "usage-spend-mcp"))] [] [Text EM_DASH]]
  else [Text (formatCurrency (JNumber (m_spend m)))].

Definition columns (caps : option StatsCapabilities) : list (DataTableColumn StatsModelRow jsstr) :=
  let tokenSplit := token_split <$> caps in
  let perModelLastUsed := per_model_last_used <$> caps in
  [Column (js "type") [Text (js "TYPE")]
     (λ m, [El "span" [] [] [Text (if isMcpModelRow (m_model m) then js "MCP Tool" else js "Model")]])
     (Some (js "whitespace-nowrap")) None
     (Some (λ m, JNumber (num_of_Z (if isMcpModelRow (m_model m) then 1 else 0))));
   Column (js "model") [Text (js "NAME")]
     (λ m, [Text (match m_model m with None => EM_DASH | Some _ => mcpToolLabel (m_model m) end)])
     (Some (js "font-mono text-xs text-text-primary")) None (Some (λ m, KeysTable.jsval_of (m_model m)));
   Column (js "requests") [Text (js "REQUESTS")] (λ m, [Text (formatInt (JNumber (m_requests m)))])
     NUMERIC RIGHT (Some (λ m, JNumber (m_requests m)));
   Column (js "input") [Text (js "INPUT")] (λ m, split_cell tokenSplit m (m_input_tokens m))
     NUMERIC RIGHT (Some (λ m, JNumber (m_input_tokens m)));
   Column (js "output") [Text (js "OUTPUT")] (λ m, split_cell tokenSplit m (m_output_tokens m))
     NUMERIC RIGHT (Some (λ m, JNumber (m_output_tokens m)));
   Column (js "total") [Text (js "TOTAL")] (λ m, unless_mcp m (abbreviate (JNumber (m_total_tokens m))))
     NUMERIC RIGHT (Some (λ m, JNumber (m_total_tokens m)));
   Column (js "cached") [Text (js "CACHED")] (λ m, unless_mcp m (abbreviate (JNumber (m_cache_read_tokens m))))
     NUMERIC RIGHT (Some (λ m, JNumber (m_cache_read_tokens m)));
   Column (js "spend") [Text (js "SPEND")] spend_cell NUMERIC RIGHT (Some (λ m, JNumber (m_spend m)));
   Column (js "%spend") [Text (js "% SPEND")] (λ m, unless_mcp m (formatPct (m_spend_pct m)))
     NUMERIC RIGHT (Some (λ m, KeysTable.jsnum_of (m_spend_pct m)));
   Column (js "lastused") [Text (js "LAST USED")]
     (λ m, [Text (if bool_decide (perModelLastUsed = Some false) then EM_DASH else formatDate (m_last_used m))])
     (Some (js "font-mono text-xs whitespace-nowrap")) None (Some (λ m, KeysTable.jsval_of (m_last_used m)))].

Definition default_sort : option DataTableSort := Some (TableSort (js "spend") Desc).

Definition table_props (models : option (list StatsModelRow)) (capabilities : option StatsCapabilities) :
    DataTableProps StatsModelRow jsstr :=
  TableProps (columns capabilities) (default [] models) (λ m, default [] (m_model m))
    (Some [El "div" [("data-slot", AStr (js "model-table-empty"))] [] [El "p" [] [] [Text EMPTY_COPY]]])
    None None None None default_sort.

(** A click on a header raises its column. *)
Definition ModelTable (models : option (list StatsModelRow)) (capabilities : option StatsCapabilities)
    (sort : option DataTableSort) : node jsstr :=
  DataTable id (table_props models capabilities) sort.
End table.
End ModelTable.
Import ModelTable.

(** ** Stats.tsx *)

Module Stats.

Definition PAGE_TITLE : jsstr := js "Usage & Spend".
Definition PAGE_SUB : jsstr := js "Requests, tokens, models, and spend for the selected period.".
Definition SECTION_DAILY_SPEND : jsstr := js "DAILY SPEND".
Definition SECTION_REQUESTS : jsstr := js "REQUESTS BY DAY".
Definition SECTION_USAGE_BY_MODEL : jsstr := js "USAGE BY MODEL".
Definition SECTION_MODEL_BREAKDOWN : jsstr := js "USAGE BREAKDOWN".
Definition SECTION_LATENCY : jsstr := js "LATENCY".
Definition SECTION_OUTCOMES : jsstr := js "REQUEST OUTCOMES".
Definition ERR_HEADING : jsstr := js "Couldn't load usage".
Definition ERR_BODY : jsstr := js "We couldn't reach the usage service. Check your connection and retry.".
Definition DEFAULT_PRESET : jsstr := js "7d".

Definition MODELS_CSV_COLS : list (Csv.CsvColumn StatsModelRow) :=
  [Csv.Column (λ m, KeysTable.jsval_of (m_model m)) (js "model");
   Csv.Column (λ m, JNumber (m_requests m)) (js "requests");
   Csv.Column (λ m, JNumber (m_input_tokens m)) (js "input_tokens");
   Csv.Column (λ m, JNumber (m_output_tokens m)) (js "output_tokens");
   Csv.Column (λ m, JNumber (m_total_tokens m)) (js "total_tokens");
   Csv.Column (λ m, JNumber (m_spend m)) (js "spend");
   Csv.Column (λ m, KeysTable.jsnum_of (m_spend_pct m)) (js "spend_pct");
   Csv.Column (λ m, KeysTable.jsval_of (m_last_used m)) (js "last_used")].

(** What the query library reports: the two range queries by their key, and the
    list of keys once it is there. *)
Record Queries := {
  stats_query : date_range → query_state StatsResponse;
  latency_query : date_range → query_state LatencyResponse;
  keys_data : option (list KeyRow)
}.

(** The page: its own state, and that of the components below it which keep some:
    the date control, the key panel, the latency panel and the breakdown table. *)
Record Page := {
  preset : jsstr;
  range : date_range;
  requestsMetric : Charts.RequestsMetric;
  modelSearch : jsstr;
  usageType : UsageType.UsageType;
  control : DateRange.Control;
  topKeys : TopKeysPanel.State;
  latencySort : GridSort Latency.ModelSortKey;
  tableSort : option DataTableSort;
  queries : Queries
}.

(** What happens to the page: a click in the date control (with the time its
    handler reads), the other controls, and a report of the query library. *)
Inductive event :=
| Date (now : Z) (e : DateRange.event)
| Metric (m : Charts.RequestsMetric)
| Search (typed : jsstr)
| Type_ (t : UsageType.UsageType)
| Keys (e : TopKeysPanel.event)
| LatencySort (k : Latency.ModelSortKey)
| TableSortBy (k : jsstr)
| Export (e : Csv.export_event)
| Retry
| Report (q : Queries).

Definition onPreset (id : jsstr) (now : Z) (s : Page) : Page :=
  {| preset := id; range := presetToRange id (Some now); requestsMetric := requestsMetric s;
     modelSearch := modelSearch s; usageType := usageType s; control := control s; topKeys := topKeys s;
     latencySort := latencySort s; tableSort := tableSort s; queries := queries s |}.

Definition onCustomRange (r : date_range) (s : Page) : Page :=
  {| preset := js "Custom"; range := r; requestsMetric := requestsMetric s;
     modelSearch := modelSearch s; usageType := usageType s; control := control s; topKeys := topKeys s;
     latencySort := latencySort s; tableSort := tableSort s; queries := queries s |}.

Definition on_emitted (now : Z) (s : Page) (o : DateRange.emitted) : Page :=
  match o with
  | DateRange.OnPreset p => onPreset p now s
  | DateRange.OnCustomRange r => onCustomRange r s
  end.

Definition with_control (c : DateRange.Control) (s : Page) : Page :=
  {| preset := preset s; range := range s; requestsMetric := requestsMetric s;
     modelSearch := modelSearch s; usageType := usageType s; control := c; topKeys := topKeys s;
     latencySort := latencySort s; tableSort := tableSort s; queries := queries s |}.

(** A click in the date control: its own step, and the callbacks it made. *)
Definition on_date (now : Z) (e : DateRange.event) (s : Page) : Page :=
  let c := DateRange.step (control s) e in
  foldl (on_emitted now) (with_control c s) (drop (length (DateRange.out (control s))) (DateRange.out c)).

Definition is_loaded {T} (q : query_state T) : bool := match q with Loaded _ => true | _ => false end.
Definition is_pending {T} (q : query_state T) : bool := match q with Pending => true | _ => false end.
Definition is_error {T} (q : query_state T) : bool := match q with Failed => true | _ => false end.

(** The render after an event.  A component that is not rendered loses its state:
    the key panel and the table while the range's usage is pending or failed, the
    latency panel while its own data is pending or the page failed. *)
Definition render (s : Page) : Page :=
  let q := stats_query (queries s) (range s) in
  let body := is_loaded q in
  let latency := negb (is_error q) && negb (is_pending (latency_query (queries s) (range s))) in
  {| preset := preset s; range := range s; requestsMetric := requestsMetric s;
     modelSearch := modelSearch s; usageType := usageType s; control := control s;
     topKeys := if body then topKeys s else TopKeysPanel.initial;
     latencySort := if latency then latencySort s else Latency.initial;
     tableSort := if body then tableSort s else default_sort;
     queries := queries s |}.

Definition with_topKeys (t : TopKeysPanel.State) (s : Page) : Page :=
  {| preset := preset s; range := range s; requestsMetric := requestsMetric s;
     modelSearch := modelSearch s; usageType := usageType s; control := control s; topKeys := t;
     latencySort := latencySort s; tableSort := tableSort s; queries := queries s |}.

Definition with_sorts (l : GridSort Latency.ModelSortKey) (t : option DataTableSort) (s : Page) : Page :=
  {| preset := preset s; range := range s; requestsMetric := requestsMetric s;
     modelSearch := modelSearch s; usageType := usageType s; control := control s; topKeys := topKeys s;
     latencySort := l; tableSort := t; queries := queries s |}.

Definition with_filters (m : Charts.RequestsMetric) (t : jsstr) (u : UsageType.UsageType) (s : Page) : Page :=
  {| preset := preset s; range := range s; requestsMetric := m;
     modelSearch := t; usageType := u; control := control s; topKeys := topKeys s;
     latencySort := latencySort s; tableSort := tableSort s; queries := queries s |}.

Definition with_queries (q : Queries) (s : Page) : Page :=
  {| preset := preset s; range := range s; requestsMetric := requestsMetric s;
     modelSearch := modelSearch s; usageType := usageType s; control := control s; topKeys := topKeys s;
     latencySort := latencySort s; tableSort := tableSort s; queries := q |}.

#[local] Existing Instance Latency.ModelSortKey_eq_dec.

Definition handle (e : event) (s : Page) : Page :=
  match e with
  | Date now e => on_date now e s
  | Metric m => with_filters m (modelSearch s) (usageType s) s
  | Search t => with_filters (requestsMetric s) t (usageType s) s
  | Type_ u => with_filters (requestsMetric s) (modelSearch s) u s
  | Keys e => with_topKeys (TopKeysPanel.step (topKeys s) e) s
  | LatencySort k => with_sorts (onSort k (latencySort s)) (tableSort s) s
  | TableSortBy k => with_sorts (latencySort s) (Some (toggleSort k (tableSort s))) s
  | Export _ | Retry => s
  | Report q => with_queries q s
  end.

Definition step (s : Page) (e : event) : Page := render (handle e s).

(** The first render, at time [now]. *)
Definition initial (now : Z) (q : Queries) : Page :=
  {| preset := DEFAULT_PRESET; range := presetToRange DEFAULT_PRESET (Some now);
     requestsMetric := Charts.requests; modelSearch := []; usageType := UsageType.all;
     control := DateRange.initial; topKeys := TopKeysPanel.initial; latencySort := Latency.initial;
     tableSort := default_sort; queries := q |}.

Definition run (now : Z) (q : Queries) (es : list event) : Page := foldl step (initial now q) es.

(** *** The rendered page *)

Section view.
Context `{Engine} `{Unicode}.

Definition Panel (label : jsstr) (action children : list (node event)) : node event :=
  El "div" [] [] (El "div" [] [] (El "div" [] [] [Text label] :: action) :: children).

Definition visibleModels (models : list StatsModelRow) (s : Page) : list StatsModelRow :=
  List.filter (λ m, matchesSearch (modelSearch s) [m_model m]) (UsageType.applyUsageTypeFilter models (usageType s)).

Definition export_name (r : date_range) : jsstr :=
  js "models-" ++ start r ++ js "-" ++ end_ r ++ js ".csv".

Definition page_header (now : Z) (s : Page) : node event :=
  El "div" [] []
    [El "div" [] []
       [El "h1" [] [] [Text PAGE_TITLE];
        map_node (Date now) (DateRange.DateRange (preset s) None now (control s))];
     El "div" [] []
       (El "p" [] [] [Text PAGE_SUB] ::
        when (js_eqb (preset s) (js "Custom"))
          [El "p" [("data-slot", AStr (js "stats-range-label"))] []
             [Text (formatDate (Some (start (range s)))); Text (js " – "); Text (formatDate (Some (end_ (range s))))]])].

Definition error_page (now : Z) (s : Page) : node event :=
  El "div" [] []
    [page_header now s;
     El "div" [] []
       [El "div" [] [] [Text ERR_HEADING]; El "div" [] [] [Text ERR_BODY];
        El "button" [] [("onClick", Retry)] [Text (js "retry")]]].

(** What the latency query gives its two panels: data, and whether it failed. *)
Definition latency_panels (q : query_state LatencyResponse) (s : Page) : list (node event) :=
  match q with
  | Pending => [Panel SECTION_LATENCY [] [Skeleton SkChart 5]; Panel SECTION_OUTCOMES [] [Skeleton SkChart 5]]
  | _ =>
      let data := match q with Loaded d => Some d | _ => None end in
      [Panel SECTION_LATENCY [] [map_node LatencySort (Latency.LatencyPanel data (is_error q) (latencySort s))];
       Panel SECTION_OUTCOMES [] [ErrorsDonut.ErrorsDonut data (is_error q)]]
  end.

Definition loading_page (now : Z) (s : Page) : node event :=
  El "div" [] []
    [page_header now s;
     El "div" [] [] (replicate 4 (Skeleton SkCard 5));
     Skeleton SkCard 5;
     El "div" [] [] [Panel SECTION_DAILY_SPEND [] [Skeleton SkChart 5]; Panel SECTION_REQUESTS [] [Skeleton SkChart 5]];
     El "div" [] [] [Panel SECTION_USAGE_BY_MODEL [] [Skeleton SkChart 5]; El "div" [] [] [Skeleton SkTableRows 5]];
     El "div" [] [] (latency_panels (latency_query (queries s) (range s)) s);
     El "div" [] [] [El "div" [] [] [El "div" [] [] [Text SECTION_MODEL_BREAKDOWN]]; Skeleton SkTableRows 6]].

Definition loaded_page (now : Z) (typed : jsstr) (data : StatsResponse) (s : Page) : node event :=
  let capabilities := Some (capabilities data) in
  let models := stats_models data in
  let keys := TopKeys.mergeTopKeys (stats_keys data) (Keys.selectKeyRows (keys_data (queries s))) in
  El "div" [] []
    [page_header now s;
     KpiRow.KpiRow (Some (totals data)) (Some (series data)) None;
     Budget.BudgetPanel now (Some (budget data));
     El "div" [] []
       [Panel SECTION_DAILY_SPEND [] [Charts.SpendChart (Some (series data)) false];
        Panel SECTION_REQUESTS [Charts.RequestsMetricToggle (requestsMetric s) Metric]
          [Charts.RequestsChart (Some (series data)) false (Some (requestsMetric s)) Charts.requests Metric]];
     El "div" [] []
       [Panel SECTION_USAGE_BY_MODEL []
          [UsageDonut.UsageDonut (Some models) (Some (tot_spend (totals data))) capabilities];
        map_node Keys (TopKeysPanel.TopKeys (Some keys) capabilities (topKeys s))];
     El "div" [] [] (latency_panels (latency_query (queries s) (range s)) s);
     El "div" [] []
       [El "div" [] []
          [El "div" [] [] [Text SECTION_MODEL_BREAKDOWN];
           El "div" [] []
             ([UsageType.UsageTypeFilter (usageType s) Type_;
               TableSearch (modelSearch s) (js "Search models…") Search typed] ++
              map (map_node Export) (Csv.ExportCsvButton models MODELS_CSV_COLS (export_name (range s))))];
        map_node TableSortBy (ModelTable (Some (visibleModels models s)) capabilities (tableSort s))]].

Definition Stats (now : Z) (typed : jsstr) (s : Page) : node event :=
  match stats_query (queries s) (range s) with
  | Failed => error_page now s
  | Pending => loading_page now s
  | Loaded data => loaded_page now typed data s
  end.
End view.
End Stats.
Import Stats.

(** ** The page refines a range selector *)

(** The selector: a preset and a range.  Choosing a preset, at some time, selects it
    with the range it names then; applying the calendar selects [Custom] with two
    dates in order. *)
Definition selection (s : Page) : jsstr * date_range := (preset s, range s).

Inductive chooses : jsstr * date_range → jsstr * date_range → Prop :=
| chooses_preset x p now : p ≠ DateRange.CUSTOM_PRESET → chooses x (p, presetToRange p (Some now))
| chooses_custom x a b : (match a, b with Some s, Some e => s ≤ e | _, _ => True end) →
    chooses x (DateRange.CUSTOM_PRESET, DateRange (DateRange.toUTCDateString a) (DateRange.toUTCDateString b)).

Definition start_selection (now : Z) : jsstr * date_range :=
  (DEFAULT_PRESET, presetToRange DEFAULT_PRESET (Some now)).

(** The clicks in the date control. *)
Definition date_events (es : list event) : list DateRange.event :=
  omap (λ e, match e with Date _ c => Some c | _ => None end) es.

(** The date control calls back at most once per click, and then its calendar is
    closed. *)
Lemma control_emits c e :
  DateRange.out (DateRange.step c e) = DateRange.out c ∨
  ∃ o, DateRange.out (DateRange.step c e) = DateRange.out c ++ [o] ∧
       DateRange.calendar (DateRange.step c e) = None ∧
       match o with
       | DateRange.OnPreset p => p ≠ DateRange.CUSTOM_PRESET
       | DateRange.OnCustomRange r => ∃ k, DateRange.calendar c = Some k ∧ DateRange.apply k = Some r
       end.
Proof.
  destruct e as [p now| | |i| |]; simpl; try by left.
  - unfold DateRange.clickPreset. destruct (js_eqb p _) eqn:E; [by left|right]. eexists. split_and!; [done..|].
    by apply bool_decide_eq_false in E.
  - destruct (DateRange.calendar c) as [k|] eqn:Ec; simpl; [|by left].
    destruct (DateRange.apply k) as [r|] eqn:Er; [|by left]. right. eexists. split_and!; [done..|]. by exists k.
Qed.

Lemma selection_render s : selection (render s) = selection s.
Proof. done. Qed.

Lemma step_control s e :
  control (step s e) = match e with Date _ c => DateRange.step (control s) c | _ => control s end.
Proof.
  destruct e as [now c| | | | | | | | |]; try done. unfold step. simpl. unfold on_date.
  destruct (control_emits (control s) c) as [->|(o & -> & _)]; [by rewrite drop_all|].
  rewrite drop_app_length. by destruct o.
Qed.

Lemma stats_run_snoc now q es e : run now q (es ++ [e]) = step (run now q es) e.
Proof. unfold run. by rewrite foldl_app. Qed.

Lemma run_control now q es : control (run now q es) = DateRange.run (date_events es).
Proof.
  induction es as [|e es IH] using rev_ind; [done|]. rewrite stats_run_snoc, step_control, IH.
  unfold date_events. rewrite omap_app. unfold DateRange.run. rewrite foldl_app. by destruct e.
Qed.

(** What is selected, given the date control's last report. *)
Definition selected_by (now0 : Z) (o : option DateRange.emitted) (x : jsstr * date_range) : Prop :=
  match o with
  | None => x = start_selection now0
  | Some (DateRange.OnPreset p) => p ≠ DateRange.CUSTOM_PRESET ∧ ∃ now, x = (p, presetToRange p (Some now))
  | Some (DateRange.OnCustomRange r) => x = (DateRange.CUSTOM_PRESET, r)
  end.

(** One event: it stutters, or it is a callback of the date control. *)
Lemma step_selection now0 s e : (∀ c, DateRange.calendar (control s) = Some c → DateRange.calendar_ok c) →
  selection (step s e) = selection s ∧ DateRange.out (control (step s e)) = DateRange.out (control s) ∨
  ∃ o, (∃ now c, e = Date now c) ∧ DateRange.out (control (step s e)) = DateRange.out (control s) ++ [o] ∧
    DateRange.calendar (control (step s e)) = None ∧ chooses (selection s) (selection (step s e)) ∧
    selected_by now0 (Some o) (selection (step s e)).
Proof.
  intros Hc. destruct e as [now c| | | | | | | | |]; try (by left). rewrite step_control. unfold step. simpl handle.
  rewrite selection_render. unfold on_date.
  destruct (control_emits (control s) c) as [->|(o & Ho & Hn & Hk)]; [left; by rewrite drop_all|right].
  exists o. rewrite Ho, drop_app_length. cbn [foldl on_emitted]. split_and!; [by eauto|done..| |].
  - destruct o as [p|r]; [by apply chooses_preset|]. destruct Hk as (k & Ek & Er).
    pose proof (DateRange.apply_ok k r (Hc k Ek) Er) as Hr. destruct r as [a b].
    destruct Hr as (sd & ed & -> & -> & Hle). by apply chooses_custom.
  - destruct o as [p|r]; [|done]. split; [done|by eexists].
Qed.

Lemma run_calendar_ok now q es c : DateRange.calendar (control (run now q es)) = Some c → DateRange.calendar_ok c.
Proof. rewrite run_control. apply DateRange.control_run_ok. Qed.

Lemma default_not_custom : DEFAULT_PRESET ≠ DateRange.CUSTOM_PRESET.
Proof. apply (bool_decide_eq_false_1 _). vm_compute. reflexivity. Qed.

Lemma selection_initial now q : selection (initial now q) = start_selection now.
Proof. reflexivity. Qed.

Lemma run_selected now q es :
  selected_by now (last (DateRange.out (control (run now q es)))) (selection (run now q es)) ∧
  rtc chooses (start_selection now) (selection (run now q es)).
Proof.
  induction es as [|e es [IH1 IH2]] using rev_ind.
  { change (run now q []) with (initial now q). rewrite selection_initial. split; [exact eq_refl|apply rtc_refl]. }
  rewrite stats_run_snoc.
  destruct (step_selection now (run now q es) e (run_calendar_ok now q es)) as [[-> ->]|(o & _ & Ho & _ & Hch & Hs)]; [by split|].
  split; [|exact (rtc_r _ _ _ IH2 Hch)]. by rewrite Ho, last_snoc.
Qed.

(** Components that are not rendered have lost their state. *)
Definition unmounted_fresh (s : Page) : Prop :=
  is_loaded (stats_query (queries s) (range s)) = false →
  topKeys s = TopKeysPanel.initial ∧ tableSort s = default_sort.

Lemma run_fresh now q es : unmounted_fresh (run now q es).
Proof.
  destruct es as [|e es _] using rev_ind; [done|]. rewrite stats_run_snoc. unfold unmounted_fresh, step.
  set (s := handle e (run now q es)). simpl. by intros ->.
Qed.

(** C38. The usage page refines a range selector.  The page's selection (preset and
    range) is a run of the selector, and each event leaves it as it is or makes one
    choice; it chooses only on a click in the date control that closes the calendar.
    What is selected is always what the date control, run on its own clicks, last
    reported: a preset other than Custom with the range it named at that time, or
    the applied range; so the window's label is shown exactly for a custom range.
    The filters survive every click in the date control, and the key panel and the
    table start afresh whenever the range's usage is not there. *)
Theorem stats_refines_selector `{Engine} (now : Z) (q : Queries) (es : list event) (e : event) :
  let s := run now q es in
  let s' := step s e in
  rtc chooses (start_selection now) (selection s) ∧
  (selection s' = selection s ∨
   chooses (selection s) (selection s') ∧ DateRange.calendar (control s') = None ∧ ∃ t c, e = Date t c) ∧
  control s = DateRange.run (date_events es) ∧
  selected_by now (last (DateRange.out (DateRange.run (date_events es)))) (selection s) ∧
  (preset s = DateRange.CUSTOM_PRESET ↔ ∃ r, last (DateRange.out (control s)) = Some (DateRange.OnCustomRange r) ∧ range s = r) ∧
  (∀ t c, e = Date t c → requestsMetric s' = requestsMetric s ∧ modelSearch s' = modelSearch s ∧
     usageType s' = usageType s ∧ queries s' = queries s) ∧
  (is_loaded (stats_query (queries s') (range s')) = false →
     topKeys s' = TopKeysPanel.initial ∧ tableSort s' = default_sort).
Proof.
  intros s s'. destruct (run_selected now q es) as [Hsel Hrtc]. fold s in Hsel, Hrtc.
  assert (control s = DateRange.run (date_events es)) as Hc by apply run_control. split_and!.
  - done.
  - destruct (step_selection now s e (run_calendar_ok now q es)) as [[? _]|(o & He & _ & Hn & Hch & _)]; [by left|by right].
  - done.
  - by rewrite <-Hc.
  - unfold selected_by, selection, start_selection in Hsel. split.
    + destruct (last _) as [[p|r]|].
      * destruct Hsel as (Hp & t & E). by simplify_eq.
      * intros _. exists r. by simplify_eq.
      * intros Hp. injection Hsel as E _. exfalso. apply default_not_custom. congruence.
    + intros (r & E & _). rewrite E in Hsel. by simplify_eq.
  - intros t c ->. unfold s', step. simpl. unfold on_date.
    destruct (control_emits (control s) c) as [->|(o & -> & _)]; [by rewrite drop_all|].
    rewrite drop_app_length. by destruct o.
  - unfold s', s. rewrite <-stats_run_snoc. apply run_fresh.
Qed.
