(* ===== verification/Frame.v ===== *)
(** * Page frame and sign-in landing

    The authenticated shell [components/layout/AppShell.tsx] with its footer
    [SiteFooter.tsx] and wordmark [BrandLockup.tsx], the loading and error cards,
    and the landing page [routes/Login.tsx] with the chips of
    [components/auth/ProviderChips.tsx]. *)

From Stdlib Require Import String.
From S2P Require Import Prelude JsNumber JsString View Format ApiTypes Stores Catalog.
Import Format Stores.Theme.

Module Frame.

(** ** LoadingCard.tsx and ErrorCard.tsx *)

Definition LoadingCard {E} : node E :=
  El "div" [("data-state", AStr (js "loading")); ("role", AStr (js "status")); ("aria-live", AStr (js "polite"))] []
    [El "Card" [] []
       [El "span" [] [] [Text (js "INITIALIZING")];
        El "h1" [] [] [Text (js "Connecting to alitellm-auth...")];
        El "p" [] [] [Text (js "Verifying your session, please wait.")];
        El "span" [] [] [Text (js "checking session...")]]].

Definition ErrorCard {E} (onRetry : E) (retrying : bool) : node E :=
  El "div" [("data-state", AStr (js "error")); ("role", AStr (js "alert"))] []
    [El "Card" [] []
       [El "span" [] [] [Text (js "ERROR")];
        El "h1" [] [] [Text (js "Service Unavailable")];
        El "p" [] [] [Text (js "Unable to reach alitellm-auth. Try refreshing the page.")];
        El "Button" [("variant", AStr (js "destructive")); ("disabled", ABool retrying)] [("onClick", onRetry)]
          [Text (js "retry")]]].

(** ** BrandLockup.tsx and SiteFooter.tsx *)

Definition hasAccent (config : AppConfig) : bool :=
  str_truthy (accent_segment config) && ends_with (accent_segment config) (brand config).

(** The brand without its accent. *)
Definition base (config : AppConfig) : jsstr :=
  if hasAccent config
  then js_slice (brand config) 0 (js_len (brand config) - js_len (accent_segment config))
  else brand config.

Definition BrandLockup {E} (config : AppConfig) : node E :=
  El "span" [] []
    [El "span" [] []
       (if hasAccent config
        then [Text (base config); El "span" [("className", AStr (js "text-accent-bright"))] [] [Text (accent_segment config)]]
        else [Text (brand config)])].

(** [links.k || null]. *)
Definition link (config : AppConfig) (k : jsstr) : option jsstr :=
  match links config !! k with Some ((_ :: _) as u) => Some u | _ => None end.

(** An anchor that leaves the application. *)
Definition external {E} (href : jsstr) (label : jsstr) : node E :=
  El "a" [("href", AStr href); ("target", AStr (js "_blank")); ("rel", AStr (js "noopener noreferrer"))] []
    [Text label].

Definition SiteFooter {E} (config : AppConfig) (rightSlot : option (node E)) (year : Z) : node E :=
  let brand := str_or (Some (brand config)) (js "alitellm-auth") in
  let privacy := link config (js "privacy") in
  let terms := link config (js "terms") in
  El "footer" [] []
    (El "span" [] [] [Text (js "© "); Text (Z_to_js year); Text (js " "); Text brand; Text (js ". All rights reserved.")] ::
     match privacy, terms, rightSlot with
     | None, None, None => []
     | _, _, _ =>
         [El "span" [] []
            (for_some privacy (λ u, [external u (js "Privacy Policy")]) ++
             for_some terms (λ u, [external u (js "Terms of Service")]) ++
             for_some rightSlot (λ n, [n]))]
     end).

(** ** AppShell.tsx *)

Section shell.
Context `{Unicode} (parse_url : jsstr → option (jsstr * jsstr)).

(** The separators of [/[\s._-]+/]. *)
Definition name_separator (c : Z) : bool := is_space c || (c =? chr ".") || (c =? chr "_") || (c =? chr "-").

(** [label.split('@')[0]]. *)
Definition local_part (label : jsstr) : jsstr :=
  match index_of [chr "@"] label with Some i => take i label | None => label end.

Definition initialsOf (label : jsstr) : jsstr :=
  match js_words name_separator (local_part label) with
  | [] => js "?"
  | [p] => to_upper (js_slice p 0 2)
  | p :: ps => to_upper (take 1 p ++ take 1 (default [] (last ps)))
  end.

Definition menuLabel (me : SessionMe) : jsstr := str_or (Some (name me)) (email me).

Definition chatUrl (me : SessionMe) (config : AppConfig) : jsstr :=
  str_or (Some (chat_public_url config)) (deriveSubdomainUrl parse_url (Some (endpoint me)) (js "chat")).

(** A destination of the navigation: path, label, and whether only the exact path
    makes it active. *)
Record NavItem := { to : jsstr; nav_label : jsstr; end_only : bool }.

Definition navItems : list NavItem :=
  [{| to := js "/"; nav_label := js "Keys"; end_only := true |};
   {| to := js "/models"; nav_label := js "Models"; end_only := false |};
   {| to := js "/mcp"; nav_label := js "MCPs"; end_only := false |};
   {| to := js "/a2a"; nav_label := js "A2A"; end_only := false |};
   {| to := js "/stats"; nav_label := js "Stats"; end_only := false |};
   {| to := js "/howto"; nav_label := js "How-to"; end_only := false |}].

Definition navLinkClass (isActive : bool) : aval :=
  cls [Some (if isActive then js "border-primary text-primary"
             else js "border-transparent text-text-secondary hover:text-text-primary")].

Section view.
Context {E : Type}.

Definition statusIndicator (config : AppConfig) : node E :=
  match link config (js "status") with
  | Some u => external u (js "Status")
  | None => El "span" [("role", AStr (js "status")); ("aria-label", AStr (js "All systems operational"));
                       ("title", AStr (js "All systems operational"))] []
              [El "span" [("aria-hidden", AStr (js "true"))] [] []; Text (js "READY")]
  end.

(** The collapsed navigation of narrow screens. *)
Definition navMenu : node E :=
  El "DropdownMenu" [("modal", ABool false)] []
    [El "DropdownMenuTrigger" [("aria-label", AStr (js "Open menu"))] [] [];
     El "DropdownMenuContent" [("align", AStr (js "start"))] []
       (map (λ item, El "DropdownMenuItem" [("key", AStr (to item)); ("asChild", ABool true)] []
          [El "NavLink" [("to", AStr (to item)); ("end", ABool (end_only item))] [] [Text (nav_label item)]]) navItems)].

Definition userMenu (me : SessionMe) : node E :=
  El "DropdownMenu" [("modal", ABool false)] []
    [El "DropdownMenuTrigger" [("aria-label", AStr (js "User menu"))] []
       [El "span" [] [] [Text (initialsOf (menuLabel me))]; El "span" [] [] [Text (menuLabel me)]];
     El "DropdownMenuContent" [("align", AStr (js "end"))] []
       [El "div" [] []
          (El "p" [] [] [Text (menuLabel me)] ::
           when (str_truthy (name me)) [El "p" [] [] [Text (email me)]]);
        El "DropdownMenuSeparator" [] [] [];
        El "DropdownMenuItem" [("asChild", ABool true)] []
          [El "a" [("href", AStr (js "/api/oauth/logout"))] [] [Text (js "Log out")]]]].

Definition content (outlet : list (node E)) : node E := El "div" [] [] [El "main" [] [] outlet].

(** [active] is the router's answer for a destination; the events of the theme
    toggle are wrapped; [outlet] is the route's page and [overlays] the create dialog
    and the toaster. *)
Definition AppShell (active : NavItem → bool) (onTheme : theme_event → E) (theme : Theme) (year : Z)
    (me : SessionMe) (config : AppConfig) (outlet overlays : list (node E)) : node E :=
  El "div" [] []
    ([El "header" [] []
        [navMenu;
         BrandLockup config;
         El "nav" [("aria-label", AStr (js "Primary"))] []
           (map (λ item, El "NavLink" [("key", AStr (to item)); ("to", AStr (to item)); ("end", ABool (end_only item));
                                       ("className", navLinkClass (active item))] [] [Text (nav_label item)]) navItems);
         El "div" [] []
           [external (chatUrl me config) (js "Chat"); userMenu me; map_node onTheme (ThemeToggle theme)]];
      content outlet;
      SiteFooter config (Some (statusIndicator config)) year] ++ overlays).
End view.

(** ** ProviderChips.tsx *)

Inductive Glyph := GoogleGlyph | DexGlyph | ShieldGlyph.

(** The glyph of a provider, and whether it is a brand mark. *)
Definition resolveGlyph (label : jsstr) : Glyph * bool :=
  let l := to_lower (js_trim label) in
  if js_eqb l (js "google") then (GoogleGlyph, true)
  else if js_eqb l (js "dex") then (DexGlyph, true)
  else (ShieldGlyph, false).

Definition GoogleGlyph_svg {E} : node E :=
  El "svg" [("viewBox", AStr (js "-3 0 262 262")); ("aria-hidden", AStr (js "true"))] []
    [El "path" [("fill", AStr (js "#4285F4")); ("d", AStr (js "M255.878 133.451c0-10.734-.871-18.567-2.756-26.69H130.55v48.448h71.947c-1.45 12.04-9.283 30.172-26.69 42.356l-.244 1.622 38.755 30.023 2.685.268c24.659-22.774 38.875-56.282 38.875-96.027"))] [] [];
     El "path" [("fill", AStr (js "#34A853")); ("d", AStr (js "M130.55 261.1c35.248 0 64.839-11.605 86.453-31.622l-41.196-31.913c-11.024 7.688-25.82 13.055-45.257 13.055-34.523 0-63.824-22.773-74.269-54.25l-1.531.13-40.298 31.187-.527 1.465C35.393 231.798 79.49 261.1 130.55 261.1"))] [] [];
     El "path" [("fill", AStr (js "#FBBC05")); ("d", AStr (js "M56.281 156.37c-2.756-8.123-4.351-16.827-4.351-25.82 0-8.994 1.595-17.697 4.206-25.82l-.073-1.73L15.26 71.312l-1.335.635C5.077 89.644 0 109.517 0 130.55s5.077 40.905 13.925 58.602l42.356-32.782"))] [] [];
     El "path" [("fill", AStr (js "#EB4335")); ("d", AStr (js "M130.55 50.479c24.514 0 41.05 10.589 50.479 19.438l36.844-35.974C195.245 12.91 165.798 0 130.55 0 79.49 0 35.393 29.301 13.925 71.947l42.211 32.783c10.59-31.477 39.891-54.251 74.414-54.251"))] [] []].

Definition DexGlyph_svg {E} : node E :=
  El "svg" [("viewBox", AStr (js "0 0 112 109")); ("aria-hidden", AStr (js "true"))] []
    [El "path" [("fill", AStr (js "#449FD8")); ("d", AStr (js "M88.345,51.574c7.588-3.55,12.764-10.49,14.175-18.53C96.396,19.395,84.663,9.054,70.094,4.851c4.923,7.133,7.272,15.583,6.771,24.17C83.311,34.466,87.716,42.55,88.345,51.574z M27.27,38.542c-8.207-1.045-16.333,1.973-21.858,8.054C3.23,61.683,7.869,76.84,18.099,88.158c-0.527-8.64,1.856-17.306,6.831-24.483C22.19,55.048,23.32,45.944,27.27,38.542z M33.01,76.928c-2.997,8.079-1.755,17.193,3.642,24.215c12.155,4.943,26.051,5.146,38.643-0.035c-7.818-2.516-14.886-7.518-19.887-14.731C47.233,86.23,39.124,83.032,33.01,76.928z M63.122,22.202C61.615,14.044,56.069,6.819,47.892,3.47C33.778,5.711,20.745,13.966,12.76,26.631c8.115-2.487,16.74-2.178,24.529,0.639C44.816,22.008,54.043,20.144,63.122,22.202z M85.891,66.457c-3.086,7.399-8.722,13.188-15.678,16.61c6.194,5.604,14.805,7.758,22.852,5.834c9.054-9.587,13.884-22.198,13.9-35.009C101.549,60.198,94.131,64.67,85.891,66.457z"))] [] [];
     El "circle" [("fill", AStr (js "#F04D5C")); ("cx", AStr (js "56.035")); ("cy", AStr (js "53.892")); ("r", AStr (js "15.972"))] [] []].

Definition ShieldGlyph_svg {E} : node E :=
  El "svg" [("viewBox", AStr (js "0 0 24 24")); ("aria-hidden", AStr (js "true"))] []
    [El "path" [("d", AStr (js "M12 2 4 6v6c0 4.5 3.4 7.3 8 10 4.6-2.7 8-5.5 8-10V6z"))] [] []].

Definition glyph_node {E} (g : Glyph) : node E :=
  match g with GoogleGlyph => GoogleGlyph_svg | DexGlyph => DexGlyph_svg | ShieldGlyph => ShieldGlyph_svg end.

Definition ProviderChips {E} (providers : list ConfigProvider) : node E :=
  El "div" [] []
    [El "div" [] [] [Text (js "BACKED BY")];
     El "div" [] []
       (imap (λ i p,
          let '(glyph, brand) := resolveGlyph (label p) in
          El "span" [("key", AStr (label p ++ js "-" ++ Z_to_js (Z.of_nat i)))] []
            [El "span" [("className", cls [Some (if brand : bool then js "bg-surface-elevated" else js "bg-accent")])] []
               [glyph_node glyph];
             El "span" [] [] [Text (label p)]]) providers)].

(** ** Login.tsx *)

Definition SSO_LOGIN_URL : jsstr := js "/api/oauth/login?action=ui".

(** What a visitor can do: follow the sign-in link, or change the theme. *)
Inductive login_event := SignIn | Toggled (e : theme_event).

(** The page's state: whether the sign-in link was followed. *)
Definition login_step (pending : bool) (e : login_event) : bool :=
  match e with SignIn => true | Toggled _ => pending end.

Definition loginHeader (config : AppConfig) (theme : Theme) : node login_event :=
  El "header" [] []
    [El "div" [] []
       (BrandLockup config ::
        when (str_truthy (tagline config)) [El "span" [] [] [Text (tagline config)]]);
     El "nav" [("aria-label", AStr (js "Resources"))] []
       (for_some (link config (js "docs")) (λ u, [external u (js "Docs")]) ++
        for_some (link config (js "status")) (λ u, [external u (js "Status")]) ++
        for_some (link config (js "support")) (λ u, [external u (js "Support")]));
     map_node Toggled (ThemeToggle theme)].

(** The decorative command line. *)
Definition commandLine : node login_event :=
  El "div" [("aria-hidden", AStr (js "true"))] []
    [El "span" [] [] [Text (js "$")];
     El "span" [] [] [El "span" [] [] [Text (js "sign-in")]; Text (js " --sso --provider=openid")];
     El "span" [] [] []].

Definition sign_in_class (isPastel : bool) : aval :=
  cls [Some (js "w-full font-semibold");
       if isPastel then Some (js "border-0 bg-gradient-to-r from-fuchsia-300 via-violet-300 to-sky-300 text-violet-950 shadow-md shadow-violet-200/60 hover:from-fuchsia-400 hover:via-violet-400 hover:to-sky-400") else None].

(** The sign-in link. *)
Definition signIn_attrs (pending : bool) : list (string * aval) :=
  [("href", AStr SSO_LOGIN_URL); ("aria-busy", ABool pending);
   ("className", cls [if pending then Some (js "pointer-events-none") else None])].

Definition signInButton (isPastel pending : bool) : node login_event :=
  El "Button" [("asChild", ABool true); ("className", sign_in_class isPastel)] []
    [El "a" (signIn_attrs pending) [("onClick", SignIn)]
       [El (if pending then "Loader2" else "svg") [("aria-hidden", AStr (js "true"))] [] [];
        Text (js "Continue with SSO")]].

Definition loginStatus : node login_event :=
  El "div" [] []
    [El "span" [] [] [El "svg" [("aria-hidden", AStr (js "true"))] [] []; Text (js "no password stored here")];
     El "span" [("role", AStr (js "status")); ("aria-label", AStr (js "All systems operational"));
                ("title", AStr (js "All systems operational"))] []
       [El "span" [("aria-hidden", AStr (js "true"))] [] []; El "span" [] [] [Text (js "READY")]]].

Definition Login (config : AppConfig) (theme : Theme) (pending : bool) (year : Z) : node login_event :=
  let brandShort := str_or (Some (brand_short config)) (js "LiteLLM") in
  let isPastel := bool_decide (theme = pastel) in
  El "div" [("data-state", AStr (js "signin"))] []
    [loginHeader config theme;
     El "div" [] []
       [El "main" [("className", cls [Some (js "w-full max-w-[480px]"); Some (if isPastel
             then js "rounded-2xl border border-white/70 bg-white/70 shadow-[0_25px_70px_-20px_rgba(168,140,255,0.55)] ring-1 ring-violet-200/50 backdrop-blur-xl"
             else js "rounded-xl border border-border bg-card shadow-sm")])] []
          [El "div" [] []
             [BrandLockup config;
              El "h1" [] [] [Text (js "Sign in")];
              El "p" [] [] [Text (js "Authenticate to manage your"); Text (js " ");
                            El "span" [] [] [Text brandShort; Text (js " virtual keys")]; Text (js " ");
                            Text (js "— view, mint, and revoke. No password is handled here; sign-in is delegated to your SSO provider.")];
              commandLine];
           El "div" [] []
             [signInButton isPastel pending;
              El "p" [] [] [Text (js "Secure, seamless access powered by your identity provider.")];
              ProviderChips (providers config)];
           loginStatus]];
     SiteFooter config None year].
End shell.

(** ** Lemmas: the links of a tree *)

(** The anchors of a tree: target and attributes. *)
Definition anchors {E} (l : list (node E)) : list (jsstr * list (string * aval)) :=
  omap (λ '(_, a, _), match attribute "href" a with Some (AStr s) => Some (s, a) | _ => None end) (all_elements l).

(** An anchor that opens elsewhere and gives the opened page no handle on this one. *)
Definition safe_external (a : list (string * aval)) : Prop :=
  attribute "target" a = Some (AStr (js "_blank")) ∧ attribute "rel" a = Some (AStr (js "noopener noreferrer")).

Lemma anchors_app {E} (l1 l2 : list (node E)) : anchors (l1 ++ l2) = anchors l1 ++ anchors l2.
Proof. unfold anchors. by rewrite all_elements_app, omap_app. Qed.

Lemma anchors_cons {E} (n : node E) l : anchors (n :: l) = anchors [n] ++ anchors l.
Proof. change (n :: l) with ([n] ++ l). apply anchors_app. Qed.

Lemma anchors_El {E} t a (on : list (string * E)) l :
  anchors [El t a on l] =
  match attribute "href" a with Some (AStr s) => [(s, a)] | _ => [] end ++ anchors l.
Proof.
  unfold anchors, all_elements. cbn [flat_map elements]. rewrite app_nil_r. cbn [omap list_omap].
  by destruct (attribute "href" a) as [[s| | |]|].
Qed.

Lemma anchors_Text {E} s (l : list (node E)) : anchors (Text s :: l) = anchors l.
Proof. by rewrite anchors_cons. Qed.

Lemma anchors_map_node {A B} (f : A → B) (n : node A) : anchors [map_node f n] = anchors [n].
Proof.
  revert n. fix IH 1. intros [s|t a on l]; [done|]. cbn [map_node]. rewrite !anchors_El. f_equal.
  induction l as [|m l IHl]; [done|]. cbn [map]. rewrite (anchors_cons (map_node f m)), (anchors_cons m), IH. by f_equal.
Qed.

Lemma anchors_map {A E} (f : A → node E) (l : list A) :
  (∀ x, anchors [f x] = []) → anchors (map f l) = [].
Proof. intros Hf. induction l as [|x l IH]; [done|]. cbn [map]. by rewrite anchors_cons, Hf, IH. Qed.

Definition external_attrs (u : jsstr) : list (string * aval) :=
  [("href", AStr u); ("target", AStr (js "_blank")); ("rel", AStr (js "noopener noreferrer"))].

Lemma anchors_for_some {E} (o : option jsstr) (text : jsstr) :
  anchors (for_some o (λ u, [external (E := E) u text])) = (λ u, (u, external_attrs u)) <$> option_list o.
Proof. by destruct o. Qed.

Lemma anchors_brand {E} config : anchors [BrandLockup (E := E) config] = [].
Proof. unfold BrandLockup. by destruct (hasAccent config). Qed.

Definition external_all (o : option jsstr) : list (jsstr * list (string * aval)) :=
  (λ u, (u, external_attrs u)) <$> option_list o.

Lemma anchors_footer {E} config (slot : option (node E)) year :
  anchors [SiteFooter config slot year] =
  external_all (link config (js "privacy")) ++ external_all (link config (js "terms")) ++
  anchors (for_some slot (λ n, [n])).
Proof.
  unfold SiteFooter. rewrite anchors_El, anchors_cons, anchors_El. cbn [attribute List.find fmap option_fmap option_map].
  destruct (link config (js "privacy")), (link config (js "terms")), slot; try done;
    by rewrite anchors_El, !anchors_app, ?anchors_for_some.
Qed.

Lemma anchors_imap {A E} (f : nat → A → node E) (l : list A) :
  (∀ i x, anchors [f i x] = []) → anchors (imap f l) = [].
Proof.
  revert f. induction l as [|x l IH]; intros f Hf; [done|]. cbn [imap]. rewrite anchors_cons, Hf. apply (IH (f ∘ S)). intros. apply Hf.
Qed.

Lemma anchors_chips `{Unicode} {E} ps : anchors [ProviderChips (E := E) ps] = [].
Proof.
  unfold ProviderChips. rewrite anchors_El, anchors_cons, !anchors_El, anchors_imap; [done|]. intros i p. destruct (resolveGlyph (label p)) as [g b].
  by destruct g, b.
Qed.

Lemma anchors_toggle {E} (f : theme_event → E) theme : anchors [map_node f (ThemeToggle theme)] = [].
Proof. by rewrite anchors_map_node. Qed.

Lemma str_or_nonempty a b : b ≠ [] → str_or a b ≠ [].
Proof. by destruct a as [[]|]. Qed.

(** Unfold the anchors of a list of nodes, element by element. *)
Ltac anchors_of_cons :=
  match goal with
  | |- context [anchors (Text ?s :: ?l)] => rewrite (anchors_Text s l)
  | |- context [anchors (?n :: ?m :: ?l)] => rewrite (anchors_cons n (m :: l))
  end.

Ltac simpl_anchors :=
  repeat first [rewrite anchors_for_some | rewrite anchors_brand | rewrite anchors_footer | rewrite anchors_chips
    | rewrite anchors_toggle | rewrite anchors_app | rewrite anchors_El | rewrite anchors_Text];
  cbn [attribute List.find fmap option_fmap option_map app String.eqb Ascii.eqb Bool.eqb fst snd].

Lemma login_anchors `{Unicode} config theme pending year :
  anchors [Login config theme pending year] =
  external_all (link config (js "docs")) ++ external_all (link config (js "status")) ++
  external_all (link config (js "support")) ++ [(SSO_LOGIN_URL, signIn_attrs pending)] ++
  external_all (link config (js "privacy")) ++ external_all (link config (js "terms")).
Proof.
  unfold Login, loginHeader, commandLine, signInButton, loginStatus. simpl_anchors. repeat (anchors_of_cons; simpl_anchors).
  rewrite (anchors_cons (BrandLockup config)), anchors_brand.
  destruct (str_truthy (tagline config)); unfold external_all; cbn [when for_some]; by rewrite ?app_nil_r, <-?app_assoc.
Qed.

Lemma nav_anchors {E} (f : NavItem → node E) : (∀ i, anchors [f i] = []) → anchors (map f navItems) = [].
Proof. apply anchors_map. Qed.

Lemma status_anchors {E} config :
  anchors [statusIndicator (E := E) config] = external_all (link config (js "status")).
Proof. unfold statusIndicator. by destruct (link config (js "status")). Qed.

Lemma shell_anchors `{Unicode} {E} parse_url active (onTheme : theme_event → E) theme year me config outlet overlays :
  anchors [AppShell parse_url active onTheme theme year me config outlet overlays] =
  [(chatUrl parse_url me config, external_attrs (chatUrl parse_url me config));
   (js "/api/oauth/logout", [("href", AStr (js "/api/oauth/logout"))])] ++
  anchors outlet ++ external_all (link config (js "privacy")) ++ external_all (link config (js "terms")) ++
  external_all (link config (js "status")) ++ anchors overlays.
Proof.
  unfold AppShell, navMenu, userMenu, content. simpl_anchors. repeat (anchors_of_cons; simpl_anchors).
  rewrite !nav_anchors by done. cbn [for_some]. rewrite status_anchors.
  destruct (str_truthy (name me)); cbn [when]; simpl_anchors; by rewrite ?app_nil_r, <-?app_assoc.
Qed.

(** *** What the frame offers *)

Lemma brand_silent {E} config : enabled_events [BrandLockup (E := E) config] = [].
Proof. unfold BrandLockup. by destruct (hasAccent config). Qed.

Lemma status_silent {E} config : enabled_events [statusIndicator (E := E) config] = [].
Proof. unfold statusIndicator. by destruct (link config (js "status")). Qed.

Lemma footer_silent {E} config (slot : option (node E)) year : enabled_events (for_some slot (λ n, [n])) = [] →
  enabled_events [SiteFooter config slot year] = [].
Proof.
  intros Hs. unfold SiteFooter. split_events.
  destruct (link config (js "privacy")), (link config (js "terms")), slot; split_events; by rewrite ?Hs.
Qed.

Lemma chips_silent `{Unicode} {E} ps : enabled_events [ProviderChips (E := E) ps] = [].
Proof.
  unfold ProviderChips. split_events. apply elem_of_nil_inv. intros e He.
  apply elem_of_enabled_imap in He as (i & x & _ & He). destruct (resolveGlyph (label x)) as [g b].
  revert He. by destruct g; intros ?%elem_of_nil.
Qed.

(** The frame offers the theme toggle, and what its page and its overlays offer. *)
Lemma shell_offers `{Unicode} {E} parse_url active (onTheme : theme_event → E) theme year me config outlet overlays :
  enabled_events [AppShell parse_url active onTheme theme year me config outlet overlays] =
  onTheme Toggle :: enabled_events outlet ++ enabled_events overlays.
Proof.
  unfold AppShell, navMenu, userMenu, content. split_events. rewrite (enabled_events_cons (BrandLockup config)), brand_silent.
  rewrite (enabled_events_cons (SiteFooter _ _ _)), footer_silent by (cbn [for_some]; apply status_silent).
  destruct (str_truthy (name me)); cbn [when]; split_events; by rewrite ?app_nil_r.
Qed.

Lemma starts_with_app p s : starts_with p (p ++ s) = true.
Proof. apply starts_with_spec. by exists s. Qed.

(** Where the chat link goes: the configured address; without one, the [chat.] host
    beside the gateway's (in place of its [api.] label, if any); and when the gateway
    address does not parse, a placeholder host. *)
Inductive chat_target (parse_url : jsstr → option (jsstr * jsstr)) (me : SessionMe) (config : AppConfig) : jsstr → Prop :=
| chat_configured : chat_public_url config ≠ [] → chat_target parse_url me config (chat_public_url config)
| chat_sibling protocol host : chat_public_url config = [] →
    parse_url (endpoint me) = Some (protocol, js "api." ++ host) →
    chat_target parse_url me config (protocol ++ js "//chat." ++ host)
| chat_prefixed protocol host : chat_public_url config = [] →
    parse_url (endpoint me) = Some (protocol, host) → (∀ rest, host ≠ js "api." ++ rest) →
    chat_target parse_url me config (protocol ++ js "//chat." ++ host)
| chat_placeholder : chat_public_url config = [] → parse_url (endpoint me) = None →
    chat_target parse_url me config (js "https://chat.your-domain.example").

Lemma chatUrl_target parse_url me config : chat_target parse_url me config (chatUrl parse_url me config).
Proof.
  unfold chatUrl. destruct (chat_public_url config) as [|c s] eqn:Ec.
  2: { cbn [str_or]. rewrite <-Ec. apply chat_configured. by rewrite Ec. }
  cbn [str_or]. unfold deriveSubdomainUrl. cbn [default from_option id].
  destruct (parse_url (endpoint me)) as [[protocol host]|] eqn:Ep; [|by apply chat_placeholder].
  destruct (starts_with (js "api.") host) eqn:Es.
  - apply starts_with_spec in Es as [rest ->]. rewrite (drop_app_length' (js "api.") rest 4) by done.
    by apply chat_sibling.
  - apply chat_prefixed; [done..|]. intros rest ->. by rewrite starts_with_app in Es.
Qed.

(** The navigation links of a tree, by destination inside the application. *)
Definition nav_targets {E} (l : list (node E)) : list jsstr :=
  omap (λ '(t, a, _), if String.eqb t "NavLink"
                      then match attribute "to" a with Some (AStr s) => Some s | _ => None end else None)
    (all_elements l).

Lemma nav_targets_app {E} (l1 l2 : list (node E)) : nav_targets (l1 ++ l2) = nav_targets l1 ++ nav_targets l2.
Proof. unfold nav_targets. by rewrite all_elements_app, omap_app. Qed.

Lemma nav_targets_cons {E} (n : node E) l : nav_targets (n :: l) = nav_targets [n] ++ nav_targets l.
Proof. change (n :: l) with ([n] ++ l). apply nav_targets_app. Qed.

Lemma nav_targets_El {E} t a (on : list (string * E)) l :
  nav_targets [El t a on l] =
  (if String.eqb t "NavLink" then match attribute "to" a with Some (AStr s) => [s] | _ => [] end else []) ++ nav_targets l.
Proof.
  unfold nav_targets, all_elements. cbn [flat_map elements]. rewrite app_nil_r. cbn [omap list_omap].
  destruct (String.eqb t "NavLink"); [|done]. by destruct (attribute "to" a) as [[s| | |]|].
Qed.

Lemma nav_targets_map_node {A B} (f : A → B) (n : node A) : nav_targets [map_node f n] = nav_targets [n].
Proof.
  revert n. fix IH 1. intros [s|t a on l]; [done|]. cbn [map_node]. rewrite !nav_targets_El. f_equal.
  induction l as [|m l IHl]; [done|]. cbn [map]. rewrite (nav_targets_cons (map_node f m)), (nav_targets_cons m), IH. by f_equal.
Qed.

Lemma nav_targets_map {A E} (g : A → jsstr) (f : A → node E) (l : list A) :
  (∀ x, nav_targets [f x] = [g x]) → nav_targets (map f l) = map g l.
Proof. intros Hf. induction l as [|x l IH]; [done|]. cbn [map]. by rewrite nav_targets_cons, Hf, IH. Qed.

Lemma nav_targets_Text {E} s (l : list (node E)) : nav_targets (Text s :: l) = nav_targets l.
Proof. by rewrite nav_targets_cons. Qed.

Lemma nav_targets_imap {A E} (f : nat → A → node E) (l : list A) :
  (∀ i x, nav_targets [f i x] = []) → nav_targets (imap f l) = [].
Proof.
  revert f. induction l as [|x l IH]; intros f Hf; [done|]. cbn [imap]. rewrite nav_targets_cons, Hf. apply (IH (f ∘ S)). intros. apply Hf.
Qed.

Lemma nav_targets_external {E} (o : option jsstr) (text : jsstr) :
  nav_targets (for_some o (λ u, [external (E := E) u text])) = [].
Proof. by destruct o. Qed.

Lemma nav_targets_brand {E} config : nav_targets [BrandLockup (E := E) config] = [].
Proof. unfold BrandLockup. by destruct (hasAccent config). Qed.

Lemma nav_targets_toggle {E} (f : theme_event → E) theme : nav_targets [map_node f (ThemeToggle theme)] = [].
Proof. by rewrite nav_targets_map_node. Qed.

Lemma nav_targets_chips `{Unicode} {E} ps : nav_targets [ProviderChips (E := E) ps] = [].
Proof.
  unfold ProviderChips. rewrite nav_targets_El, nav_targets_cons, !nav_targets_El, nav_targets_imap; [done|].
  intros i p. destruct (resolveGlyph (label p)) as [g b]. by destruct g, b.
Qed.

Lemma nav_targets_footer {E} config (slot : option (node E)) year :
  nav_targets [SiteFooter config slot year] = nav_targets (for_some slot (λ n, [n])).
Proof.
  unfold SiteFooter. rewrite nav_targets_El, nav_targets_cons, nav_targets_El.
  destruct (link config (js "privacy")), (link config (js "terms")), slot; try done;
    by rewrite nav_targets_El, !nav_targets_app, ?nav_targets_external.
Qed.

Ltac simpl_navs :=
  repeat first [rewrite nav_targets_external | rewrite nav_targets_brand | rewrite nav_targets_footer
    | rewrite nav_targets_chips | rewrite nav_targets_toggle | rewrite nav_targets_app | rewrite nav_targets_El
    | rewrite nav_targets_Text
    | match goal with |- context [nav_targets (?n :: ?m :: ?l)] => rewrite (nav_targets_cons n (m :: l)) end];
  cbn [attribute List.find fmap option_fmap option_map app String.eqb Ascii.eqb Bool.eqb fst snd].

Lemma login_navs `{Unicode} config theme pending year : nav_targets [Login config theme pending year] = [].
Proof.
  unfold Login, loginHeader, commandLine, signInButton, loginStatus. repeat (progress simpl_navs).
  rewrite (nav_targets_cons (BrandLockup config)), nav_targets_brand. destruct pending, (str_truthy (tagline config)); done.
Qed.

Lemma shell_navs `{Unicode} {E} parse_url active (onTheme : theme_event → E) theme year me config outlet overlays :
  nav_targets [AppShell parse_url active onTheme theme year me config outlet overlays] =
  map to navItems ++ map to navItems ++ nav_targets outlet ++ nav_targets overlays.
Proof.
  unfold AppShell, navMenu, userMenu, content. repeat (progress simpl_navs).
  assert (nav_targets (for_some (Some (statusIndicator (E := E) config)) (λ n, [n])) = []) as ->
    by (cbn [for_some]; unfold statusIndicator; by destruct (link config (js "status"))).
  rewrite !(nav_targets_map to) by done. change (nav_targets []) with (@nil jsstr).
  change (nav_targets [external (chatUrl parse_url me config) (js "Chat")]) with (@nil jsstr).
  destruct (str_truthy (name me)); cbn [when]; repeat (progress simpl_navs); change (nav_targets []) with (@nil jsstr);
    by rewrite ?app_nil_r, <-?app_assoc.
Qed.

(** C40. Links.  The landing page has exactly these anchors: the documentation,
    status, support, privacy and terms links the server configured, each only when
    its target is set and not empty, and the sign-in link, whose target is a constant;
    it has no navigation link.  The authenticated frame adds to the anchors of its
    page and overlays only the chat link, the log-out link (a constant) and the
    configured privacy, terms and status links, and its navigation links, in the menu
    and in the bar, go to the six constant addresses.  The chat link is the
    configured address when there is one, else derived from the gateway's.  Every
    anchor that leaves the application opens elsewhere without a handle on this page,
    and none has an empty target. *)
Theorem links_allowed `{Unicode} {E : Type} (parse_url : jsstr → option (jsstr * jsstr)) (config : AppConfig)
    (me : SessionMe) (theme : Theme) (pending : bool) (year : Z) (active : NavItem → bool)
    (onTheme : theme_event → E) (outlet overlays : list (node E)) :
  let ext k := external_all (link config (js k)) in
  let frame := AppShell parse_url active onTheme theme year me config outlet overlays in
  let tabs := [js "/"; js "/models"; js "/mcp"; js "/a2a"; js "/stats"; js "/howto"] in
  (∃ sso, attribute "target" sso = None ∧
     anchors [Login config theme pending year] =
     ext "docs" ++ ext "status" ++ ext "support" ++ [(SSO_LOGIN_URL, sso)] ++ ext "privacy" ++ ext "terms") ∧
  nav_targets [Login config theme pending year] = [] ∧
  (∃ chat, chat_target parse_url me config chat ∧ chat ≠ [] ∧
     anchors [frame] =
     [(chat, external_attrs chat); (js "/api/oauth/logout", [("href", AStr (js "/api/oauth/logout"))])] ++
     anchors outlet ++ ext "privacy" ++ ext "terms" ++ ext "status" ++ anchors overlays) ∧
  nav_targets [frame] = tabs ++ tabs ++ nav_targets outlet ++ nav_targets overlays ∧
  (∀ u, safe_external (external_attrs u)) ∧
  (∀ k u, link config k = Some u ↔ links config !! k = Some u ∧ u ≠ []).
Proof.
  cbn zeta. split_and!.
  - exists (signIn_attrs pending). split; [done|].
    apply login_anchors.
  - apply login_navs.
  - exists (chatUrl parse_url me config). split; [apply chatUrl_target|]. split; [|apply shell_anchors].
    apply str_or_nonempty. unfold deriveSubdomainUrl. destruct (parse_url _) as [[p h]|]; [|done]. by destruct p.
  - apply shell_navs.
  - done.
  - intros k u. unfold link. destruct (links config !! k) as [[|c v]|]; split; try done; [by intros [[= <-] ?]|..].
    + by intros [= <-].
    + by intros [[= <-] ?].
    + by intros [??].
Qed.
End Frame.
