(* ===== verification/Gateways.v ===== *)
(** * MCP servers and A2A agents (src/ui/src/routes/Mcp.tsx, routes/A2a.tsx)

    The two catalogue pages of what the gateway can reach, each with a search box
    and its unavailable, empty and error states. *)

From Stdlib Require Import String.
From S2P Require Import Prelude JsNumber JsString JsText View Format ApiTypes Catalog.
Import Format TableSearch.

(** What a user can do on either page, and the one piece of state they share. *)
Inductive event := Search (typed : jsstr) | Retry.

Definition step (search : jsstr) (e : event) : jsstr :=
  match e with Search t => t | Retry => search end.

Definition run (es : list event) : jsstr := foldl step [] es.

(** A labelled chip, a centered state and the error card, the same on both pages. *)
Definition MetaChip (label value : jsstr) : node event :=
  El "span" [] [] [El "span" [] [] [Text label]; El "span" [] [] [Text value]].

Definition StateCard (heading body : jsstr) : node event :=
  El "div" [] [] [El "div" [] [] [Text heading]; El "div" [] [] [Text body]].

Definition error_card (heading body : jsstr) : node event :=
  El "div" [] []
    [El "div" [] [] [Text heading]; El "div" [] [] [Text body];
     El "button" [] [("onClick", Retry)] [Text (js "retry")]].

(** [value && <node>] for a string. *)
Definition if_text (s : option jsstr) (f : jsstr → list (node event)) : list (node event) :=
  match s with Some ((_ :: _) as s) => f s | _ => [] end.

(** [a ?? b ?? EM_DASH]. *)
Definition name_or_id (name id : option jsstr) : jsstr :=
  match name with Some n => n | None => match id with Some i => i | None => EM_DASH end end.

(** A chip per text. *)
Definition chips (l : list jsstr) : list (node event) :=
  map (λ t, El "span" [("key", AStr t)] [] [Text t]) l.

(** ** routes/Mcp.tsx *)

Module Mcp.
Section mcp.
Context `{Unicode}.

Definition PAGE_TITLE : jsstr := js "MCP".
Definition PAGE_SUB : jsstr :=
  js "Model Context Protocol servers wired into the gateway — the tools your models can call.".
Definition ERR_HEADING : jsstr := js "Couldn't load MCP servers".
Definition ERR_BODY : jsstr := js "We couldn't reach the MCP gateway. Check your connection and retry.".
Definition UNAVAIL_HEADING : jsstr := js "MCP gateway not enabled".
Definition UNAVAIL_BODY : jsstr :=
  js "This deployment has no MCP gateway configured. Once servers are added, they will appear here.".
Definition EMPTY_HEADING : jsstr := js "No MCP servers yet".
Definition EMPTY_BODY : jsstr :=
  js "The MCP gateway is enabled but no servers are configured for your access level.".

Definition StatusPill (status : option jsstr) : node event :=
  let s := to_lower (default (js "unknown") status) in
  let tone := if js_eqb s (js "healthy") then js "border-primary/40 bg-primary/10 text-primary"
    else if js_eqb s (js "unhealthy") then js "border-destructive/40 bg-destructive/10 text-destructive"
    else js "border-border bg-surface-elevated text-text-secondary" in
  let dot := if js_eqb s (js "healthy") then js "bg-primary"
    else if js_eqb s (js "unhealthy") then js "bg-destructive" else js "bg-text-tertiary" in
  El "span" [("className", cls [Some tone])] []
    [El "span" [("aria-hidden", AStr (js "true")); ("className", cls [Some dot])] [] [];
     Text (default (js "unknown") status)].

Definition isVirtualGroup (name : option jsstr) : bool :=
  match name with Some name => starts_with (js "vmcp-") name | None => false end.

Definition TOOLS_SHOWN : nat := 6.

(** The chips of the tools: at most six, and how many more there are. *)
Definition tool_chips (tools : list jsstr) : list (node event) :=
  match tools with
  | [] => []
  | _ =>
      [El "div" [] []
         (chips (take TOOLS_SHOWN tools) ++
          when (TOOLS_SHOWN <? length tools)%nat
            [El "span" [] [] [Text (js "+"); Text (Z_to_js (Z.of_nat (length tools) - 6)); Text (js " more")]])]
  end.

Definition access_chips (groups : list jsstr) : list (node event) :=
  match groups with
  | [] => []
  | _ => [El "div" [] [] (El "span" [] [] [Text (js "Access")] :: chips groups)]
  end.

Definition tool_count_chip (n : number) : node event :=
  El "span" [("className", cls [Some (if num_ltb num_zero n then js "border-primary/40 bg-primary/10 text-primary"
                                      else js "border-border text-text-secondary")])] []
    [Text (num_to_string n); Text (js " ");
     Text (if num_eqb n (num_of_Z 1) then js "tool" else js "tools")].

Definition ServerCard (server : McpServerRow) : node event :=
  El "div" [] []
    ([El "div" [] []
        [El "div" [] [] [El "span" [] [] [Text (name_or_id (mcp_name server) (mcp_id server))]];
         StatusPill (mcp_status server)]] ++
     if_text (mcp_description server) (λ d, [El "p" [] [] [Text d]]) ++
     if_text (mcp_url server) (λ u, [El "div" [] [] [Text u]]) ++
     [El "div" [] []
        (if_text (mcp_transport server) (λ t, [MetaChip (js "via") t]) ++
         if_text (mcp_auth_type server) (λ a,
           [El "span" [("title", AStr (js "Auth between the gateway and this server. Your gateway access is always key-authed."))] []
              [El "span" [] [] [Text (js "server auth")]; El "span" [] [] [Text a]]]) ++
         [tool_count_chip (tool_count server)])] ++
     tool_chips (tools server) ++ access_chips (mcp_access_groups server)).

Definition page_header : node event :=
  El "div" [] [] [El "h1" [] [] [Text PAGE_TITLE]; El "p" [] [] [Text PAGE_SUB]].

Definition visible (search : jsstr) (servers : list McpServerRow) : list McpServerRow :=
  List.filter (λ s, matchesSearch search [mcp_name s; mcp_description s]) servers.

(** The two sections, titled with their numbers of rows. *)
Definition sections (rows : list McpServerRow) : list (jsstr * list McpServerRow) :=
  [(js "Virtual groups", List.filter (λ s, isVirtualGroup (mcp_name s)) rows);
   (js "Servers", List.filter (λ s, negb (isVirtualGroup (mcp_name s))) rows)].

Definition section_node (section : jsstr * list McpServerRow) : list (node event) :=
  match section.2 with
  | [] => []
  | rows =>
      [El "section" [("key", AStr section.1); ("data-slot", AStr (js "mcp-section"))] []
         [El "h2" [] [] [Text section.1; Text (js " ("); Text (Z_to_js (Z.of_nat (length rows))); Text (js ")")];
          El "div" [] [] (map ServerCard rows)]]
  end.

Definition Mcp (query : query_state McpResponse) (typed search : jsstr) : node event :=
  match query with
  | Failed => El "div" [] [] [page_header; error_card ERR_HEADING ERR_BODY]
  | Pending => El "div" [] [] [page_header; El "div" [] [] [Skeleton SkCard 5; Skeleton SkCard 5]]
  | Loaded data =>
      El "div" [] []
        [page_header;
         if negb (mcp_available data) then StateCard UNAVAIL_HEADING UNAVAIL_BODY
         else match servers data with
              | [] => StateCard EMPTY_HEADING EMPTY_BODY
              | servers =>
                  El "div" [] []
                    (El "div" [] [] [TableSearch search (js "Search servers…") Search typed] ::
                     flat_map section_node (sections (visible search servers)))
              end]
  end.
End mcp.
End Mcp.

(** ** routes/A2a.tsx *)

Module A2a.
Section a2a.
Context `{Unicode}.

Definition FALLBACK_API_BASE : jsstr := js "https://api.your-domain.example".
Definition A2A_DOCS_URL : jsstr := js "https://docs.litellm.ai/docs/a2a_invoking_agents".
Definition PAGE_TITLE : jsstr := js "A2A".
Definition PAGE_SUB : jsstr :=
  js "Agent-to-Agent agents registered on the gateway — autonomous agents your apps can call.".
Definition ERR_HEADING : jsstr := js "Couldn't load A2A agents".
Definition ERR_BODY : jsstr := js "We couldn't reach the A2A gateway. Check your connection and retry.".
Definition UNAVAIL_HEADING : jsstr := js "A2A gateway not enabled".
Definition UNAVAIL_BODY : jsstr :=
  js "This deployment has no A2A gateway configured. Once agents are added, they will appear here.".
Definition EMPTY_HEADING : jsstr := js "No A2A agents yet".
Definition EMPTY_BODY : jsstr :=
  js "The A2A gateway is enabled but no agents are configured for your access level.".

Definition VersionPill (version : jsstr) : node event := El "span" [] [] [Text (js "v"); Text version].

(** [agent.name ?? agent.id], and the address built from it when it is not empty. *)
Definition slug (agent : A2aAgentRow) : option jsstr :=
  match a2a_name agent with Some n => Some n | None => a2a_id agent end.

Definition invokeUrl (agent : A2aAgentRow) (apiBase : jsstr) : option jsstr :=
  match slug agent with Some ((_ :: _) as s) => Some (apiBase ++ js "/a2a/" ++ s) | _ => None end.

Definition AgentCard (agent : A2aAgentRow) (apiBase : jsstr) : node event :=
  El "div" [] []
    ([El "div" [] []
        (El "div" [] [] [El "span" [] [] [Text (name_or_id (a2a_name agent) (a2a_id agent))]] ::
         if_text (version agent) (λ v, [VersionPill v]))] ++
     if_text (a2a_description agent) (λ d, [El "p" [] [] [Text d]]) ++
     if_text (invokeUrl agent apiBase) (λ u, [El "div" [] [] [Text u]]) ++
     [El "div" [] []
        (if_text (a2a_transport agent) (λ t, [MetaChip (js "via") t]) ++
         when (streaming agent) [MetaChip (js "stream") (js "yes")] ++
         [MetaChip (js "skills") (num_to_string (skill_count agent))])] ++
     match skills agent with [] => [] | l => [El "div" [] [] (chips l)] end).

Definition apiBase (endpoint : option jsstr) : jsstr := str_or endpoint FALLBACK_API_BASE.

Definition page_header : node event :=
  El "div" [] []
    [El "h1" [] [] [Text PAGE_TITLE]; El "p" [] [] [Text PAGE_SUB];
     El "a" [("href", AStr A2A_DOCS_URL); ("target", AStr (js "_blank")); ("rel", AStr (js "noopener noreferrer"))] []
       [Text (js "How to invoke A2A agents")]].

Definition visible (search : jsstr) (agents : list A2aAgentRow) : list A2aAgentRow :=
  List.filter (λ a, matchesSearch search [a2a_name a; a2a_description a]) agents.

Definition A2a (query : query_state A2aResponse) (endpoint : option jsstr) (typed search : jsstr) : node event :=
  match query with
  | Failed => El "div" [] [] [page_header; error_card ERR_HEADING ERR_BODY]
  | Pending => El "div" [] [] [page_header; El "div" [] [] [Skeleton SkCard 5; Skeleton SkCard 5]]
  | Loaded data =>
      El "div" [] []
        [page_header;
         if negb (a2a_available data) then StateCard UNAVAIL_HEADING UNAVAIL_BODY
         else match agents data with
              | [] => StateCard EMPTY_HEADING EMPTY_BODY
              | agents =>
                  El "div" [] []
                    [El "div" [] [] [TableSearch search (js "Search agents…") Search typed];
                     El "div" [] [] (map (λ a, AgentCard a (apiBase endpoint)) (visible search agents))]
              end]
  end.
End a2a.
End A2a.

(** ** Lemmas *)

(** The topmost parts of a tree with an attribute. *)
Fixpoint parts {E} (n : string) (v : aval → bool) (m : node E) : list (node E) :=
  match m with
  | Text _ => []
  | El t a on l =>
      if match attribute n a with Some x => v x | None => false end then [m] else flat_map (parts n v) l
  end.

Definition is_text (s : jsstr) (v : aval) : bool := match v with AStr s' => js_eqb s' s | _ => false end.

(** The sections of a page of servers. *)
Definition mcp_sections {E} (n : node E) : list (node E) := parts "data-slot" (is_text (js "mcp-section")) n.

(** What was typed last. *)
Definition typed_text (e : event) : option jsstr := match e with Search t => Some t | Retry => None end.

Section catalogues.
Context `{Unicode}.

Lemma search_run es : run es = default [] (last (omap typed_text es)).
Proof.
  induction es as [|e es IH] using rev_ind; [done|]. unfold run in *. rewrite foldl_app, omap_app, IH.
  destruct e; cbn; [by rewrite last_snoc|by rewrite app_nil_r].
Qed.

(** The sections are a partition of the servers that match. *)
Lemma sections_perm rows : flat_map snd (Mcp.sections rows) ≡ₚ rows.
Proof. simpl. rewrite app_nil_r. apply filter_negb_perm. Qed.

Lemma if_text_silent s f : (∀ t, enabled_events (f t) = []) → enabled_events (if_text s f) = [].
Proof. intros Hf. destruct s as [[|? ?]|]; [done|apply Hf|done]. Qed.

Lemma text_chips_silent l : enabled_events (chips l) = [].
Proof. unfold chips. apply enabled_events_silent. apply Forall_map, Forall_forall. done. Qed.

Lemma cards_silent {A} (f : A → node event) l : (∀ x, enabled_events [f x] = []) → enabled_events (map f l) = [].
Proof. intros Hf. apply enabled_events_silent, Forall_map, Forall_forall. auto. Qed.

Lemma tool_chips_silent l : enabled_events (Mcp.tool_chips l) = [].
Proof.
  unfold Mcp.tool_chips. destruct l as [|x l]; [done|]. rewrite enabled_events_plain, enabled_events_app, text_chips_silent.
  by destruct (_ <? _)%nat.
Qed.

Lemma access_chips_silent l : enabled_events (Mcp.access_chips l) = [].
Proof.
  unfold Mcp.access_chips. destruct l as [|x l]; [done|]. by rewrite enabled_events_plain, enabled_events_cons, text_chips_silent.
Qed.

Lemma server_card_silent s : enabled_events [Mcp.ServerCard s] = [].
Proof.
  unfold Mcp.ServerCard. split_events. by rewrite !if_text_silent, tool_chips_silent, access_chips_silent by done.
Qed.

Lemma agent_card_silent a b : enabled_events [A2a.AgentCard a b] = [].
Proof.
  unfold A2a.AgentCard. split_events. rewrite (enabled_events_cons (El "div" _ _ _)), !if_text_silent by done.
  destruct (streaming a), (skills a) as [|x l]; cbn [when]; rewrite ?enabled_events_plain, ?text_chips_silent; done.
Qed.

(** What each state of a page offers. *)
Definition offer (typed : jsstr) (q : query_state bool) : list event :=
  match q with Pending => [] | Failed => [Retry] | Loaded listing => if listing then [Search typed] else [] end.

Definition query_map {A B} (f : A → B) (q : query_state A) : query_state B :=
  match q with Pending => Pending | Failed => Failed | Loaded d => Loaded (f d) end.

Definition nonempty {A} (l : list A) : bool := match l with [] => false | _ => true end.

Lemma sections_silent l : enabled_events (flat_map Mcp.section_node l) = [].
Proof.
  induction l as [|[title [|r rows]] l IH]; [done|done|]. cbn [flat_map]. rewrite enabled_events_app, IH.
  unfold Mcp.section_node. cbn [snd]. rewrite enabled_events_plain, enabled_events_cons.
  rewrite (enabled_events_plain "div" []), (cards_silent _ _ server_card_silent). done.
Qed.

Lemma mcp_offers q typed search : enabled_events [Mcp.Mcp q typed search] =
  offer typed (query_map (λ d, mcp_available d && nonempty (servers d)) q).
Proof.
  destruct q as [| |d]; [done|done|]. unfold Mcp.Mcp. cbn [query_map offer].
  destruct (mcp_available d); [|done]. destruct (servers d) as [|s l]; [done|]. cbn [negb andb nonempty].
  rewrite enabled_events_plain, enabled_events_cons, enabled_events_plain, (enabled_events_cons (El "div" _ _ _)), sections_silent. done.
Qed.

Lemma a2a_offers q endpoint typed search : enabled_events [A2a.A2a q endpoint typed search] =
  offer typed (query_map (λ d, a2a_available d && nonempty (agents d)) q).
Proof.
  destruct q as [| |d]; [done|done|]. unfold A2a.A2a. cbn [query_map offer].
  destruct (a2a_available d); [|done]. destruct (agents d) as [|s l]; [done|]. cbn [negb andb nonempty].
  rewrite enabled_events_plain, enabled_events_cons, enabled_events_plain, (enabled_events_cons (El "div" _ _ _)).
  rewrite (enabled_events_plain "div" [] (map _ _)), cards_silent by (intros; apply agent_card_silent). done.
Qed.

Lemma mcp_sections_shown d typed search : mcp_available d = true →
  mcp_sections (Mcp.Mcp (Loaded d) typed search) =
  flat_map Mcp.section_node (Mcp.sections (Mcp.visible search (servers d))).
Proof.
  intros Ha. unfold Mcp.Mcp. rewrite Ha. destruct (servers d) as [|s l]; [done|]. generalize (Mcp.visible search (s :: l)). intros rows.
  transitivity (flat_map mcp_sections (flat_map Mcp.section_node (Mcp.sections rows))); [by unfold mcp_sections; cbn; rewrite app_nil_r|].
  generalize (Mcp.sections rows). clear. intros l. induction l as [|[title [|r rows]] l IH]; [done|done|].
  cbn [flat_map]. rewrite flat_map_app, IH. done.
Qed.

(** A section of the page: its rows in order under a heading that counts them. *)
Definition section_shows (n : node event) (g : jsstr * list McpServerRow) : Prop :=
  ∃ a h2, n = El "section" a [] [h2; El "div" [] [] (map Mcp.ServerCard g.2)] ∧
    text_content h2 = g.1 ++ js " (" ++ Z_to_js (Z.of_nat (length g.2)) ++ js ")" ∧ g.2 ≠ [].

Definition shown_sections (l : list (jsstr * list McpServerRow)) : list (jsstr * list McpServerRow) :=
  List.filter (λ g, nonempty g.2) l.

Lemma sections_show l : Forall2 section_shows (flat_map Mcp.section_node l) (shown_sections l).
Proof.
  induction l as [|[title [|r rows]] l IH]; [constructor|done|]. cbn. constructor; [|done].
  eexists _, _. split; [done|]. split; [|done]. cbn [text_content flat_map fst snd]. by rewrite app_nil_r.
Qed.

Lemma shown_sections_rows l : flat_map snd (shown_sections l) = flat_map snd l.
Proof. induction l as [|[title [|r rows]] l IH]; [done|done|]. cbn. by f_equal; f_equal. Qed.

(** The tools a card shows, and how many it does not. *)
Lemma tool_chips_split l : l = [] ∧ Mcp.tool_chips l = [] ∨
  ∃ shown hidden more, l = shown ++ hidden ∧ l ≠ [] ∧ (length shown ≤ 6)%nat ∧ (hidden ≠ [] → length shown = 6%nat) ∧
    Mcp.tool_chips l = [El "div" [] [] (chips shown ++ more)] ∧
    map text_content more = if nonempty hidden then [js "+" ++ Z_to_js (Z.of_nat (length hidden)) ++ js " more"] else [].
Proof.
  destruct l as [|t l]; [by left|right]. eexists (take 6 (t :: l)), (drop 6 (t :: l)), _.
  split; [by rewrite take_drop|]. split; [done|]. split; [rewrite length_take; lia|]. split.
  { intros Hd. rewrite length_take. destruct (decide (6 ≤ length (t :: l))%nat); [lia|]. by rewrite drop_ge in Hd by lia. }
  split; [reflexivity|]. unfold Mcp.TOOLS_SHOWN. destruct (6 <? length (t :: l))%nat eqn:Hl.
  - apply Nat.ltb_lt in Hl. destruct (drop 6 (t :: l)) as [|x d] eqn:Hd; [apply (f_equal length) in Hd; rewrite length_drop in Hd; cbn [length] in *; lia|].
    cbn [nonempty when map text_content flat_map]. rewrite <-Hd, length_drop, app_nil_r. do 3 f_equal. f_equal. f_equal. lia.
  - apply Nat.ltb_ge in Hl. by rewrite drop_ge by lia.
Qed.

(** Every part of a tree. *)
Fixpoint subtrees {E} (n : node E) : list (node E) :=
  n :: match n with Text _ => [] | El _ _ _ l => flat_map subtrees l end.

Lemma child_subtree {E} (x : node E) t a on l : x ∈ l → x ∈ subtrees (El t a on l).
Proof.
  intros Hx. cbn [subtrees]. right. induction Hx as [x l|x y l _ IH]; cbn [flat_map]; apply elem_of_app; [left|by right].
  destruct x; left.
Qed.

Lemma sections_titles rows : NoDup (map fst (shown_sections (Mcp.sections rows))).
Proof.
  unfold shown_sections, Mcp.sections. cbn [List.filter snd].
  destruct (nonempty _), (nonempty _); apply (bool_decide_eq_true_1 _); vm_compute; reflexivity.
Qed.

Lemma sections_kinds rows title l s : (title, l) ∈ shown_sections (Mcp.sections rows) → s ∈ l →
  title = if Mcp.isVirtualGroup (mcp_name s) then js "Virtual groups" else js "Servers".
Proof.
  intros [Hin _]%filter_elem Hs. apply elem_of_cons in Hin as [[= -> ->]|[[= -> ->]|[]%elem_of_nil]%elem_of_cons];
    apply filter_elem in Hs as [_ Hs]; [by rewrite Hs|by destruct (Mcp.isVirtualGroup _)].
Qed.

Lemma a2a_grid d endpoint typed search : a2a_available d = true → nonempty (agents d) = true →
  El "div" [] [] (map (λ a, A2a.AgentCard a (A2a.apiBase endpoint)) (A2a.visible search (agents d))) ∈
  subtrees (A2a.A2a (Loaded d) endpoint typed search).
Proof.
  intros Ha Hn. unfold A2a.A2a. rewrite Ha. destruct (agents d) as [|a l]; [done|]. cbn [negb].
  generalize (map (λ a, A2a.AgentCard a (A2a.apiBase endpoint)) (A2a.visible search (a :: l))). intros cards.
  cbn [subtrees flat_map]. right. apply elem_of_app. right. apply elem_of_app. left. right. apply elem_of_app. right.
  apply elem_of_app. left. left.
Qed.

End catalogues.

(** C21. The catalogues of MCP servers and of agents.  After any typing and retries
    the search is what was typed last; a page offers the retry when its query
    failed, the search box when it lists something, and nothing else.  The servers
    page shows exactly the servers that match, each in one section, the virtual
    groups apart from the others, every section under a heading with the number of
    its cards, and no section without one; the agents page shows a card for each
    agent that matches, in order.  A server's card names its first six tools and
    counts the rest. *)
Theorem gateways_listed `{Unicode} (es : list event) (typed : jsstr) : let search := run es in
  search = default [] (last (omap typed_text es)) ∧
  (∀ q, enabled_events [Mcp.Mcp q typed search] =
     offer typed (query_map (λ d, mcp_available d && nonempty (servers d)) q)) ∧
  (∀ q endpoint, enabled_events [A2a.A2a q endpoint typed search] =
     offer typed (query_map (λ d, a2a_available d && nonempty (agents d)) q)) ∧
  (∀ d, mcp_available d = true → ∃ groups,
     Forall2 section_shows (mcp_sections (Mcp.Mcp (Loaded d) typed search)) groups ∧
     flat_map snd groups ≡ₚ List.filter (λ s, matchesSearch search [mcp_name s; mcp_description s]) (servers d) ∧
     NoDup (map fst groups) ∧
     ∀ title rows s, (title, rows) ∈ groups → s ∈ rows →
       title = if Mcp.isVirtualGroup (mcp_name s) then js "Virtual groups" else js "Servers") ∧
  (∀ d endpoint, a2a_available d = true → nonempty (agents d) = true →
     El "div" [] [] (map (λ a, A2a.AgentCard a (A2a.apiBase endpoint))
       (List.filter (λ a, matchesSearch search [a2a_name a; a2a_description a]) (agents d))) ∈
     subtrees (A2a.A2a (Loaded d) endpoint typed search)) ∧
  (∀ s, tools s ≠ [] → ∃ shown hidden more, tools s = shown ++ hidden ∧ (length shown ≤ 6)%nat ∧
     (hidden ≠ [] → length shown = 6%nat) ∧ El "div" [] [] (chips shown ++ more) ∈ subtrees (Mcp.ServerCard s) ∧
     map text_content more = if nonempty hidden then [js "+" ++ Z_to_js (Z.of_nat (length hidden)) ++ js " more"] else []).
Proof.
  cbn zeta. split_and!.
  - apply search_run.
  - intros q. apply mcp_offers.
  - intros q endpoint. apply a2a_offers.
  - intros d Hd. exists (shown_sections (Mcp.sections (Mcp.visible (run es) (servers d)))).
    rewrite mcp_sections_shown by done. split_and!; [apply sections_show|by rewrite shown_sections_rows, sections_perm| |].
    + apply sections_titles.
    + apply sections_kinds.
  - intros d endpoint. apply a2a_grid.
  - intros s Hs. destruct (tool_chips_split (tools s)) as [[? _]|(shown & hidden & more & H1 & _ & H2 & H3 & H4 & H5)]; [done|].
    exists shown, hidden, more. split_and!; [done..| |done]. apply child_subtree. rewrite H4, !elem_of_app. right. right. right. right. left. left.
Qed.
