(* ===== verification/Dashboard.v ===== *)
(** * The dashboard (src/ui/src/routes/Dashboard.tsx)

    The landing page of a signed-in user: greeting, endpoint, headline cards over the
    month to date, budget, and the API keys with the dialog that revokes one.  The
    page owns the key to revoke: the table sets it, the dialog clears it. *)

From Stdlib Require Import String.
From S2P Require Import Prelude JsNumber JsString JsText JsDate View Presets Format Sort ApiTypes Keys Stores.
From S2P Require Import KeyHooks Modals Catalog Kpi.
Import Presets Format Sort Keys.

Module Dashboard.

(** ** EndpointChip and KeysGroupsTile *)

(** [endpoint && void copy(endpoint)]: nothing happens for an empty endpoint. *)
Definition EndpointChip {E} (endpoint : jsstr) (copied : bool) (onCopy : E) : node E :=
  El "div" [] []
    [El "div" [] [] [Text (js "endpoint")];
     El "div" [] [] [Text (str_or (Some endpoint) EM_DASH)];
     El "button" [("className", cls [Some (if copied then js "border-primary bg-primary/15 text-primary"
                     else js "border-border text-text-tertiary hover:border-primary hover:text-primary")])]
       [("onClick", onCopy)] [Text (if copied then js "copied!" else js "Copy")]].

Definition KeysGroupsTile {E} (keyRows : option (list KeyRow)) (accessGroups : list jsstr) (fallback : jsstr) : node E :=
  let active := List.filter (λ k, negb (isRevoked (Some k))) <$> keyRows in
  let count := match active with
    | Some l => formatInt (JNumber (num_of_Z (Z.of_nat (length l)))) | None => EM_DASH end in
  El "div" [] []
    [El "div" [] [] [El "div" [] [] [Text (js "KEYS & TEAMS")]];
     El "div" [] []
       (El "span" [] [] [Text count] ::
        for_some active (λ l, [El "span" [] [] [Text (if Nat.eqb (length l) 1 then js "key" else js "keys")]]));
     match accessGroups with
     | [] => El "div" [] [] [Text fallback]
     | _ => El "div" [] []
              (imap (λ i name, El "span" [("key", AStr name); ("data-slot", AStr (js "team-pill"))] []
                 [El "span" [("style.background", AStr (teamColorVar (Z.of_nat i))); ("aria-hidden", AStr (js "true"))] [] [];
                  Text name]) accessGroups)
     end].

(** ** The page *)

(** The page's state with that of the components below it: the revoke dialog and its
    target, the create dialog's store, the table's toggle and sort, the copy mark;
    what the two queries report; and the requests to disable or enable a key. *)
Record Page := {
  deleting : DeleteKeyModal.Modal;
  createOpen : bool;
  showExternal : bool;
  tableSort : option DataTableSort;
  copying : Copy.CopyState;
  keys : KeysTable.keys_query;
  stats : query_state StatsResponse;
  blocked : list (jsstr * bool)
}.

(** What a user does: the table, the dialog, the new-key button, the copy button.
    The rest happens: answers of the queries and of the mutations, the clipboard's
    answer, time. *)
Inductive event :=
| Table (e : KeysTable.keys_event)
| Delete (e : DeleteKeyModal.event)
| NewKey
| CopyEndpoint
| CopySettled (available accepted : bool) (now : Z)
| Elapsed (now : Z)
| KeysReport (q : KeysTable.keys_query)
| StatsReport (q : query_state StatsResponse).

Definition default_sort : option DataTableSort := Some (TableSort (js "created") Desc).

Definition initial : Page :=
  {| deleting := DeleteKeyModal.initial; createOpen := Fresh.initialCreateKeyModalState; showExternal := false;
     tableSort := default_sort; copying := Copy.initial; keys := KeysTable.Pending; stats := Pending; blocked := [] |}.

Definition with_deleting (m : DeleteKeyModal.Modal) (s : Page) : Page :=
  {| deleting := m; createOpen := createOpen s; showExternal := showExternal s; tableSort := tableSort s;
     copying := copying s; keys := keys s; stats := stats s; blocked := blocked s |}.

Definition with_table (ext : bool) (sort : option DataTableSort) (b : list (jsstr * bool)) (s : Page) : Page :=
  {| deleting := deleting s; createOpen := createOpen s; showExternal := ext; tableSort := sort;
     copying := copying s; keys := keys s; stats := stats s; blocked := b |}.

Definition with_copying (c : Copy.CopyState) (s : Page) : Page :=
  {| deleting := deleting s; createOpen := createOpen s; showExternal := showExternal s; tableSort := tableSort s;
     copying := c; keys := keys s; stats := stats s; blocked := blocked s |}.

(** The table's events: [onDelete] is the setter of the dialog's target. *)
Definition on_table (e : KeysTable.keys_event) (s : Page) : Page :=
  match e with
  | KeysTable.ToggleExternal => with_table (negb (showExternal s)) (tableSort s) (blocked s) s
  | KeysTable.SortBy k => with_table (showExternal s) (Some (toggleSort k (tableSort s))) (blocked s) s
  | KeysTable.ToggleBlock id b => with_table (showExternal s) (tableSort s) (blocked s ++ [(id, b)]) s
  | KeysTable.OnDelete row => with_deleting (DeleteKeyModal.step (deleting s) (DeleteKeyModal.Target row)) s
  end.

(** The table itself is not rendered while its query is pending or failed. *)
Definition on_keys (q : KeysTable.keys_query) (s : Page) : Page :=
  {| deleting := deleting s; createOpen := createOpen s; showExternal := showExternal s;
     tableSort := match q with KeysTable.Loaded _ => tableSort s | _ => default_sort end;
     copying := copying s; keys := q; stats := stats s; blocked := blocked s |}.

Definition step (s : Page) (e : event) : Page :=
  match e with
  | Table e => on_table e s
  | Delete e => with_deleting (DeleteKeyModal.step (deleting s) e) s
  | NewKey => {| deleting := deleting s; createOpen := Fresh.openModal (createOpen s); showExternal := showExternal s;
                 tableSort := tableSort s; copying := copying s; keys := keys s; stats := stats s; blocked := blocked s |}
  | CopyEndpoint => s
  | CopySettled av ac now => with_copying (Copy.step (copying s) (Copy.Settled av ac now)) s
  | Elapsed now => with_copying (Copy.step (copying s) (Copy.Elapsed now)) s
  | KeysReport q => on_keys q s
  | StatsReport q => {| deleting := deleting s; createOpen := createOpen s; showExternal := showExternal s;
                        tableSort := tableSort s; copying := copying s; keys := keys s; stats := q; blocked := blocked s |}
  end.

Definition run (es : list event) : Page := foldl step initial es.

(** The month to date, computed once when the page mounts. *)
Definition mtdRange (mounted : Z) : date_range := presetToRange (js "This month") (Some mounted).

Section view.
Context `{Engine} `{U : Unicode} (now : Z) (me : SessionMe).

Definition period_label (s : Page) : node event :=
  El "p" [("data-slot", AStr (js "kpi-period-label"))] []
    (Text (js "Month to date") ::
     match stats s with
     | Loaded d =>
         let r := ApiTypes.range d in
         [Text (js " (" ++ formatDate (Some (range_start r)) ++ js " – " ++ formatDate (Some (range_end r)) ++
                js ") · vs previous " ++ num_to_string (range_days r) ++ js " days")]
     | _ => []
     end).

Definition FALLBACK : jsstr := js "No access groups — ask an admin for access".

Definition tile (s : Page) : node event :=
  KeysGroupsTile (match keys s with KeysTable.Loaded rows => Some rows | _ => None end) (access_groups me) FALLBACK.

Definition kpi_row (s : Page) : node event :=
  match stats s with
  | Loaded d => KpiRow.KpiRow (Some (totals d)) (Some (series d)) (Some (tile s))
  | _ => KpiRow.KpiRow None None (Some (tile s))
  end.

Definition keys_section (s : Page) : node event :=
  El "div" [] []
    [El "div" [] []
       [El "div" [] [] [El "h1" [] [] [Text (js "API Keys")];
                        El "p" [] [] [Text (js "Create and manage your LiteLLM virtual keys.")]];
        El "button" [] [("onClick", NewKey)] [Text (js "+ New Key")]];
     map_node Table (KeysTable.KeysTable now (keys s) (showExternal s) (tableSort s))].

Definition Dashboard (s : Page) : node event :=
  El "div" [] []
    [El "div" [] []
       [El "div" [] [] [Text (js "Welcome back, "); El "span" [] [] [Text (str_or (Some (name me)) EM_DASH)]];
        EndpointChip (endpoint me) (Copy.copied (copying s)) CopyEndpoint];
     El "div" [] [] [period_label s; kpi_row s];
     Budget.BudgetBar now (limits me) (spend me);
     keys_section s;
     map_node Delete (DeleteKeyModal.DeleteKeyModal (deleting s))].
End view.

(** ** Lemmas: what the page offers *)

Section offers.
Context `{Engine} `{U : Unicode} (now : Z) (me : SessionMe).

Lemma elem_of_key_actions e row : e ∈ enabled_events (KeysTable.row_actions row) →
  e = KeysTable.ToggleBlock (default [] (k_id row)) (negb (flag (k_blocked row))) ∨
  (e = KeysTable.OnDelete row ∧ k_managed row ≠ Some false).
Proof.
  rewrite row_actions_events, elem_of_cons. destruct (decide _) as [|Hm].
  - by intros [->|?%elem_of_nil]; [left|].
  - rewrite list_elem_of_singleton. intros [->| ->]; [by left|by right].
Qed.

(** The keys table offers to act on a key only if it is listed. *)
Lemma keys_table_events q ext sort e : e ∈ enabled_events [KeysTable.KeysTable now q ext sort] →
  match e with
  | KeysTable.ToggleExternal | KeysTable.SortBy _ => True
  | KeysTable.ToggleBlock id b => ∃ rows row, q = KeysTable.Loaded rows ∧ row ∈ rows ∧
      id = default [] (k_id row) ∧ b = negb (flag (k_blocked row))
  | KeysTable.OnDelete row => ∃ rows, q = KeysTable.Loaded rows ∧ row ∈ rows ∧ k_managed row ≠ Some false
  end.
Proof.
  destruct q as [| |rows]; [by intros ?%elem_of_nil..|]. unfold KeysTable.KeysTable.
  rewrite enabled_events_El, enabled_events_cons. cbn [attribute List.find fmap option_fmap option_map map app].
  rewrite elem_of_app. intros [He|He].
  - apply DataTable_events in He. cbn [Sort.columns Sort.rows Sort.rowActions Sort.empty Sort.actionsHeader Sort.caption KeysTable.table_props] in He.
    destruct He as [(c & Hc & [->|He])|[(row & Hr & He)|[He|[He|He]]]]; [done| | |by apply elem_of_nil in He..].
    { rewrite (key_headers_silent now c Hc) in He. by apply elem_of_nil in He. }
    rewrite display_perm in Hr. cbn [Sort.rows KeysTable.table_props] in Hr.
    apply shown_rows_partition in Hr as [Hr _].
    destruct He as [(c & Hc & He)|(f & [= <-] & He)].
    { rewrite (key_cells_silent now c row Hc) in He. by apply elem_of_nil in He. }
    apply elem_of_key_actions in He as [->|[-> Hm]]; [by exists rows, row|by exists rows].
  - unfold when in He. destruct (0 <? _); [|by apply elem_of_nil in He]. simpl_events in He.
    rewrite elem_of_cons in He. destruct He as [->|He]; [done|]. revert He. by destruct ext; intros ?%elem_of_nil.
Qed.

Lemma spark_silent {E} data : enabled_events (KpiRow.Sparkline (E := E) data) = [].
Proof. unfold KpiRow.Sparkline. by repeat case_match. Qed.

Lemma chip_silent {E} pct inv : enabled_events (KpiRow.DeltaChip (E := E) pct inv) = [].
Proof. unfold KpiRow.DeltaChip. by repeat case_match. Qed.

Lemma card_silent {E} (c : KpiRow.Card (E := E)) : enabled_events (KpiRow.c_sub c) = [] →
  enabled_events [KpiRow.KpiCard c] = [].
Proof.
  intros Hs. unfold KpiRow.KpiCard. split_events. rewrite chip_silent.
  assert (enabled_events (for_some (KpiRow.c_spark c) (λ spark, when (1 <? length spark)%nat
    [El "div" [("data-slot", AStr (js "kpi-spark")); ("aria-hidden", AStr (js "true"))] []
       (KpiRow.Sparkline (E := E) spark)])) = []) as ->.
  { destruct (KpiRow.c_spark c) as [spark|]; [|done]. cbn [for_some]. destruct (1 <? length spark)%nat; [|done].
    cbn [when]. simpl_events. apply spark_silent. }
  rewrite app_nil_r. cbn [app]. rewrite (enabled_events_cons (El "span" _ _ _)).
  destruct (KpiRow.c_sub c) as [|n l]; [done|]. rewrite enabled_events_cons in Hs. apply app_nil in Hs as [Hn Hl].
  rewrite enabled_events_plain, enabled_events_plain.
  change (Text (js "(") :: n :: (l ++ [Text (js ")")])) with ([Text (js "(")] ++ [n] ++ l ++ [Text (E := E) (js ")")]).
  by rewrite !enabled_events_app, Hn, Hl.
Qed.

Lemma subs_silent {E} t series : Forall (λ c : KpiRow.Card (E := E), enabled_events (KpiRow.c_sub c) = []) (KpiRow.cards t series).
Proof.
  unfold KpiRow.cards. repeat apply List.Forall_cons; try apply List.Forall_nil; try reflexivity; cbn [KpiRow.c_sub].
  - unfold KpiRow.failed_sub. destruct t as [t|]; [|done]. cbn [for_some]. unfold when. by destruct (num_ltb _ _).
  - unfold KpiRow.tokens_sub. destruct t as [t|]; [|done]. cbn [for_some]. unfold when. by destruct (negb _).
Qed.

(** The headline row offers nothing of its own. *)
Lemma kpi_silent {E} t series (n : node E) : enabled_events [n] = [] →
  enabled_events [KpiRow.KpiRow t series (Some n)] = [].
Proof.
  intros Hn. unfold KpiRow.KpiRow. rewrite !enabled_events_plain, enabled_events_app. cbn [for_some]. rewrite Hn, app_nil_r.
  apply enabled_events_silent, Forall_fmap. eapply Forall_impl; [apply Forall_take, subs_silent|].
  intros c. apply card_silent.
Qed.

Lemma tile_silent {E} rows groups fallback : enabled_events [KeysGroupsTile (E := E) rows groups fallback] = [].
Proof.
  unfold KeysGroupsTile. split_events. rewrite (enabled_events_cons (El "span" _ _ _)), enabled_events_plain.
  assert (enabled_events match groups with [] => [El "div" [] [] [Text fallback]]
    | _ => [El "div" [] [] (imap (λ i name, El "span" [("key", AStr name); ("data-slot", AStr (js "team-pill"))] []
         [El "span" [("style.background", AStr (teamColorVar (Z.of_nat i))); ("aria-hidden", AStr (js "true"))] [] [];
          Text (E := E) name]) groups)] end = []) as Hg.
  { destruct groups as [|g gs]; [done|]. rewrite enabled_events_plain. apply elem_of_nil_inv. intros e He. by apply elem_of_enabled_imap in He as (i & x & _ & He%elem_of_nil). }
  by destruct groups, rows.
Qed.

Lemma bar_silent {E} limits spend : enabled_events [Budget.BudgetBar (E := E) now limits spend] = [].
Proof.
  assert (∀ a b d, enabled_events [Budget.BudgetMeter (E := E) now a b d] = []) as Hm.
  { intros a b d. unfold Budget.BudgetMeter. rewrite enabled_events_plain, enabled_events_app.
    destruct (Budget.projected_ratio now a b d); [|done]. cbn [fmap option_fmap option_map for_some]. unfold when.
    by destruct (num_ltb _ _). }
  assert (∀ a b d, enabled_events (Budget.budget_figures (E := E) now a b d) = []) as Hf.
  { intros a b d. unfold Budget.budget_figures, when. rewrite !enabled_events_app. by repeat case_match. }
  unfold Budget.BudgetBar. destruct (limits ≫= max_budget) as [m|]; [|done]. destruct (num_leb m num_zero); [done|].
  rewrite enabled_events_plain, enabled_events_cons, Hm, !enabled_events_plain, enabled_events_cons, !enabled_events_plain, Hf.
  done.
Qed.

Lemma dialog_events m e : e ∈ enabled_events [DeleteKeyModal.DeleteKeyModal m] →
  e = DeleteKeyModal.Dismiss ∨ e = DeleteKeyModal.Confirm.
Proof.
  unfold DeleteKeyModal.DeleteKeyModal, when. rewrite enabled_events_El, elem_of_app. cbn [attribute List.find fmap option_fmap option_map map snd].
  intros [He%list_elem_of_singleton|He]; [by left|].
  destruct (DeleteKeyModal.open m); [|by apply elem_of_nil in He].
  rewrite !enabled_events_app, !elem_of_app in He. destruct He as [He|[He|He]].
  - by apply elem_of_nil in He.
  - by destruct (DeleteKeyModal.error m) as [[]|]; apply elem_of_nil in He.
  - rewrite enabled_events_cons, !enabled_events_El in He. revert He.
    destruct (DeleteKeyModal.isPending m); cbn; rewrite ?elem_of_cons, elem_of_nil; tauto.
Qed.

Lemma page_offers s e : e ∈ enabled_events [Dashboard now me s] →
  match e with
  | Table e => e ∈ enabled_events [KeysTable.KeysTable now (keys s) (showExternal s) (tableSort s)]
  | Delete e => e = DeleteKeyModal.Dismiss ∨ e = DeleteKeyModal.Confirm
  | NewKey | CopyEndpoint => True
  | _ => False
  end.
Proof.
  unfold Dashboard. rewrite enabled_events_plain, elem_of_enabled, !Exists_cons, Exists_nil, bar_silent, enabled_events_map_node.
  intros [He|[He|[He|[He|[He|[]]]]]].
  - cbn in He. apply list_elem_of_singleton in He as ->. done.
  - rewrite enabled_events_plain, enabled_events_cons in He. unfold kpi_row, period_label in He.
    destruct (stats s); rewrite kpi_silent in He by apply tile_silent; by apply elem_of_nil in He.
  - by apply elem_of_nil in He.
  - unfold keys_section in He. rewrite enabled_events_plain, enabled_events_cons, enabled_events_map_node, elem_of_app in He.
    destruct He as [He|He]; [cbn in He; by apply list_elem_of_singleton in He as ->|].
    by apply list_elem_of_fmap in He as (x & -> & Hx).
  - apply list_elem_of_fmap in He as (x & -> & Hx). by apply dialog_events in Hx.
Qed.
End offers.

(** ** Runs of the rendered page *)

(** What happens without the user: answers, the clipboard, time. *)
Definition world (e : event) : Prop :=
  match e with
  | CopySettled _ _ _ | Elapsed _ | KeysReport _ | StatsReport _ => True
  | Delete (DeleteKeyModal.Settled _) => True
  | _ => False
  end.

(** A run in which the user raises only what the page, as rendered then, offers. *)
Inductive offered `{Engine} `{Unicode} (me : SessionMe) : list event → Prop :=
| offered_start : offered me []
| offered_user es now e : offered me es → e ∈ enabled_events [Dashboard now me (run es)] → offered me (es ++ [e])
| offered_world es e : offered me es → world e → offered me (es ++ [e]).

(** The row was in a list of keys the query reported. *)
Definition was_listed (es : list event) (row : KeyRow) : Prop :=
  ∃ rows, KeysReport (KeysTable.Loaded rows) ∈ es ∧ row ∈ rows.

Lemma was_listed_app es es' row : was_listed es row → was_listed (es ++ es') row.
Proof. intros (rows & Hr & Hin). exists rows. split; [|done]. apply elem_of_app. by left. Qed.

Lemma dashboard_run_snoc es e : run (es ++ [e]) = step (run es) e.
Proof. unfold run. by rewrite foldl_app. Qed.

(** The table's rows, the dialog's target and the ids of every request sent come from
    rows of a given kind. *)
Section listed.
Variable L : KeyRow → Prop.

Definition revocable (row : KeyRow) : Prop := L row ∧ k_managed row ≠ Some false.

Definition delete_listed (id : jsstr) : Prop := ∃ row, revocable row ∧ k_id row = Some id ∧ id ≠ [].

Definition block_listed (p : jsstr * bool) : Prop :=
  ∃ row, L row ∧ p = (default [] (k_id row), negb (flag (k_blocked row))).

Definition page_ok (s : Page) : Prop :=
  (∀ rows, keys s = KeysTable.Loaded rows → Forall L rows) ∧
  (∀ row, DeleteKeyModal.keyToDelete (deleting s) = Some row → revocable row) ∧
  Forall delete_listed (DeleteKeyModal.sent (deleting s)) ∧
  Forall block_listed (blocked s).

(** The dialog's own events keep the target's origin. *)
Lemma dialog_ok s e : page_ok s → (∀ row, e = DeleteKeyModal.Target row → revocable row) →
  page_ok (with_deleting (DeleteKeyModal.step (deleting s) e) s).
Proof.
  intros (H0 & H1 & H2 & H3) He. unfold page_ok. cbn [deleting blocked keys with_deleting]. split; [done|].
  destruct e as [row| | |o]; cbn [DeleteKeyModal.step].
  - destruct (DeleteKeyModal.open (deleting s)); [by split_and!|]. split_and!; [|done..].
    intros r [= <-]. by apply He.
  - destruct (DeleteKeyModal.open (deleting s) && _); by split_and!.
  - destruct (DeleteKeyModal.open (deleting s)); [|by split_and!]. unfold DeleteKeyModal.onConfirm.
    destruct (DeleteKeyModal.isPending (deleting s)); [by split_and!|].
    destruct (DeleteKeyModal.target_id (deleting s)) as [[|c id]|] eqn:Et; [by split_and!| |by split_and!].
    split_and!; [done| |done]. cbn [DeleteKeyModal.sent]. apply Forall_app. split; [done|]. constructor; [|done].
    unfold DeleteKeyModal.target_id in Et. destruct (DeleteKeyModal.keyToDelete (deleting s)) as [row|] eqn:Ek; [|done].
    exists row. split; [by apply H1|done].
  - unfold DeleteKeyModal.onSettled. destruct (DeleteKeyModal.inflight (deleting s)); [|by split_and!].
    by destruct o; split_and!.
Qed.

Lemma keys_ok s q : page_ok s → (∀ rows, q = KeysTable.Loaded rows → Forall L rows) → page_ok (on_keys q s).
Proof. intros (_ & H1 & H2 & H3) Hq. by split_and!. Qed.

(** What the rendered page offers, and what happens without the user. *)
Lemma step_page_ok `{Engine} `{Unicode} me s now e : page_ok s →
  e ∈ enabled_events [Dashboard now me s] ∨ world e →
  (∀ rows, e = KeysReport (KeysTable.Loaded rows) → Forall L rows) → page_ok (step s e).
Proof.
  intros Hp He Hrows. destruct e as [e|e| | | | |q|q]; try exact Hp; cbn [step].
  - destruct He as [He%page_offers%keys_table_events|[]]. destruct e as [|k|id b|row]; cbn [on_table]; try exact Hp.
    + destruct He as (rows & row & Hk & Hr & -> & ->). destruct Hp as (Hk0 & Hk1 & Hk2 & Hk3).
      split_and!; [done..|]. cbn [blocked with_table]. apply Forall_app. split; [done|]. constructor; [|done].
      exists row. split; [|done]. specialize (Hk0 _ Hk). rewrite Forall_forall in Hk0. by apply Hk0.
    + destruct He as (rows & Hk & Hr & Hm). apply dialog_ok; [done|]. intros r [= <-]. split; [|done].
      destruct Hp as (Hk0 & _). specialize (Hk0 _ Hk). rewrite Forall_forall in Hk0. by apply Hk0.
  - apply dialog_ok; [done|]. intros row ->. destruct He as [He%page_offers|[]]. by destruct He.
  - apply keys_ok; [done|]. intros rows ->. by apply Hrows.
Qed.
End listed.

Lemma page_ok_mono (L L' : KeyRow → Prop) s : (∀ row, L row → L' row) → page_ok L s → page_ok L' s.
Proof.
  intros HL (H0 & H1 & H2 & H3). unfold page_ok, revocable, delete_listed, block_listed in *. split_and!.
  - intros rows Hr. eapply Forall_impl; [by apply H0|done].
  - intros row Hr. destruct (H1 row Hr). split; auto.
  - eapply Forall_impl; [exact H2|]. intros id (row & [? ?] & ? & ?). exists row. split; [split; [by apply HL|done]|done].
  - eapply Forall_impl; [exact H3|]. intros q (row & ? & ?). exists row. auto.
Qed.

Lemma initial_page_ok L : page_ok L initial.
Proof. by split_and!. Qed.

(** C6. The dashboard revokes and disables only what it lists.  On every run in which
    the user raises only what the page offers as it is rendered at that moment, with
    the queries, the mutations, the clipboard and time answering in any order: the
    key named by the dialog, and the key of every revoke request sent, is a row the
    keys query reported and is not an external key; and every request to disable or
    enable a key is for a reported row and asks for the opposite of what the row
    says. *)
Theorem dashboard_revokes_listed `{Engine} `{Unicode} (me : SessionMe) (es : list event) : offered me es →
  (∀ row, DeleteKeyModal.keyToDelete (deleting (run es)) = Some row → was_listed es row ∧ k_managed row ≠ Some false) ∧
  (∀ id, id ∈ DeleteKeyModal.sent (deleting (run es)) →
     ∃ row, was_listed es row ∧ k_managed row ≠ Some false ∧ k_id row = Some id) ∧
  (∀ id b, (id, b) ∈ blocked (run es) →
     ∃ row, was_listed es row ∧ id = default [] (k_id row) ∧ b = negb (flag (k_blocked row))).
Proof.
  intros Ho. assert (page_ok (was_listed es) (run es)) as (_ & H1 & H2 & H3).
  { assert (∀ es e rows, e = KeysReport (KeysTable.Loaded rows) → Forall (was_listed (es ++ [e])) rows) as Hl.
    { clear. intros es e rows ->. apply Forall_forall. intros row Hr. exists rows. split; [|done].
      apply elem_of_app. right. by left. }
    assert (∀ es e row, was_listed es row → was_listed (es ++ [e]) row) as Hw by (intros; by apply was_listed_app).
    induction Ho as [|es now e _ IH He|es e _ IH He]; [apply initial_page_ok|..]; rewrite dashboard_run_snoc;
      apply (page_ok_mono _ _ _ (Hw es e)) in IH.
    - apply (step_page_ok _ me _ now); [done|by left|apply Hl].
    - apply (step_page_ok _ me _ 0); [done|by right|apply Hl]. }
  rewrite Forall_forall in H2. rewrite Forall_forall in H3. split_and!; [done| |].
  - intros id Hi. destruct (H2 id Hi) as (row & [? ?] & ? & _). by exists row.
  - intros id b Hi. destruct (H3 _ Hi) as (row & ? & [= -> ->]). by exists row.
Qed.

Definition sample_row (id : jsstr) (managed : option bool) : KeyRow :=
  {| k_id := Some id; k_key_alias := None; k_spend := num_zero; k_tpm_limit := None; k_rpm_limit := None;
     k_models := None; k_team_id := None; k_created_at := None; k_expires := None; k_last_used := None;
     k_managed := managed; k_revoked := None; k_blocked := None |}.

Definition sample_me : SessionMe :=
  {| email := js "a@b.c"; name := js "A"; team_id := []; access_groups := []; endpoint := js "https://api.b.c";
     limits := None; spend := {| current := num_zero; source := source_unknown |} |}.

(** A key is listed, revoked from its menu and confirmed. *)
Definition sample_run : list event :=
  [KeysReport (KeysTable.Loaded [sample_row (js "k1") None]);
   Table (KeysTable.OnDelete (sample_row (js "k1") None)); Delete DeleteKeyModal.Confirm].

Lemma dashboard_revokes_listed_witness :
  DeleteKeyModal.sent (deleting (run sample_run)) = [js "k1"] ∧
  ∃ row, was_listed sample_run row ∧ k_managed row ≠ Some false ∧ k_id row = Some (js "k1").
Proof.
  split; [vm_compute; reflexivity|].
  refine (proj1 (proj2 (dashboard_revokes_listed (H := utc_engine) (H0 := ascii_unicode) sample_me sample_run _)) _ _).
  - apply (offered_user (H := utc_engine) (H0 := ascii_unicode) sample_me [_; _] 0); [apply (offered_user (H := utc_engine) (H0 := ascii_unicode) sample_me [_] 0)|].
    + apply (offered_world (H := utc_engine) (H0 := ascii_unicode) sample_me []); [constructor|done].
    + apply (list_elem_of_lookup_2 _ 9). vm_compute. reflexivity.
    + apply (list_elem_of_lookup_2 _ 12). vm_compute. reflexivity.
  - left.
Defined.
End Dashboard.
