(* ===== verification/Console.v ===== *)
(** * The signed-in application (App.tsx, components/layout/AppShell.tsx, routes/Dashboard.tsx and the components they mount)

    The composition of the parts that share state: the shell decides whether the
    application is mounted; its frame mounts the create dialog and the toaster beside
    the page of the route; the dashboard mounts the keys table and the revoke dialog.
    The parts act on the backend through the mutation hooks, whose calls outlive the
    component that made them, and meet again in the stores: the session, the fresh
    secrets, the keys query, the toasts. *)

From Stdlib Require Import String.
From S2P Require Import Prelude JsNumber JsString Uri JsText JsDate View ApiTypes Keys Session Stores.
From S2P Require Import KeyHooks Modals Frame Dashboard Ui.
Import Session.Api KeyHooks.KeyHooks.

Module Console.

#[local] Existing Instance Session.ShellState_eq_dec.

(** ** Calls in flight *)

Inductive call :=
| CallCreate (b : CreateKeyBody)
| CallDelete (id : jsstr)
| CallBlock (id : jsstr) (blocked : bool).

(** The request of a call; [None] when its address cannot be built. *)
Definition call_request (c : call) : option request :=
  match c with
  | CallCreate b => create_request b
  | CallDelete id => delete_request id
  | CallBlock id blocked => block_request (id, blocked)
  end.

(** What [fetch] does for a call, by the kind of call. *)
Inductive reply :=
| ReplyCreate (o : fetch_outcome (payload CreateKeyResponse))
| ReplyDelete (o : fetch_outcome (payload DeleteKeyResponse))
| ReplyBlock (o : fetch_outcome (payload BlockKeyResponse)).

Definition server_of {T} (o : fetch_outcome (payload T)) (r : request) : promise (payload T) :=
  (apiFetch (req_url r) o).1.

(** Whether the wrapper reports a lost session for a call's answer. *)
Definition notified {T} (c : call) (o : fetch_outcome (payload T)) : bool :=
  match call_request c with Some r => (apiFetch (req_url r) o).2 | None => false end.

(** ** State *)

(** The session shell, the page of the address, the create dialog, the dashboard, the
    stores of the mutation hooks, the toasts; the calls in flight, each with whether
    the component that made it is still mounted; and the requests sent. *)
Record Console := {
  shell : Session.Shell;
  route : Session.page;
  createModal : CreateKeyModal.Modal;
  dashboard : Dashboard.Page;
  client : Client;
  toasts : Toast.ToastState;
  inflight : list (call * bool);
  sent : list request
}.

Section console.
Context `{U : Unicode}.

Definition initial (path : jsstr) : Console := {|
  shell := Session.initialShell; route := Session.makeRouter path;
  createModal := CreateKeyModal.initial; dashboard := Dashboard.initial;
  client := {| fresh := Stores.Fresh.initialFreshKeysState; stale := false; errors := [] |};
  toasts := Toast.initialToastState; inflight := []; sent := []
|}.

Definition with_shell (x : Session.Shell) (s : Console) : Console := {|
  shell := x; route := route s; createModal := createModal s; dashboard := dashboard s;
  client := client s; toasts := toasts s; inflight := inflight s; sent := sent s |}.

Definition with_route (x : Session.page) (s : Console) : Console := {|
  shell := shell s; route := x; createModal := createModal s; dashboard := dashboard s;
  client := client s; toasts := toasts s; inflight := inflight s; sent := sent s |}.

Definition with_parts (m : CreateKeyModal.Modal) (p : Dashboard.Page) (s : Console) : Console := {|
  shell := shell s; route := route s; createModal := m; dashboard := p;
  client := client s; toasts := toasts s; inflight := inflight s; sent := sent s |}.

Definition with_client (x : Client) (s : Console) : Console := {|
  shell := shell s; route := route s; createModal := createModal s; dashboard := dashboard s;
  client := x; toasts := toasts s; inflight := inflight s; sent := sent s |}.

Definition with_toasts (x : Toast.ToastState) (s : Console) : Console := {|
  shell := shell s; route := route s; createModal := createModal s; dashboard := dashboard s;
  client := client s; toasts := x; inflight := inflight s; sent := sent s |}.

Definition with_inflight (x : list (call * bool)) (s : Console) : Console := {|
  shell := shell s; route := route s; createModal := createModal s; dashboard := dashboard s;
  client := client s; toasts := toasts s; inflight := x; sent := sent s |}.

(** ** What is mounted *)

Definition in_app (s : Console) : bool :=
  match Session.App (shell s) with Session.AuthedRouter _ _ => true | _ => false end.

Definition on_dashboard (s : Console) : bool :=
  in_app s && match route s with Session.Dashboard => true | _ => false end.

(** A part mounted anew: its local state is gone; what the stores and the query cache
    hold (the open flag, the teams, the keys, the stats) is not. *)
Definition fresh_create (m : CreateKeyModal.Modal) : CreateKeyModal.Modal :=
  CreateKeyModal.default_team
    (CreateKeyModal.with_open (CreateKeyModal.open m)
      (CreateKeyModal.with_teams (CreateKeyModal.teams m) CreateKeyModal.initial)).

Definition fresh_dashboard (p : Dashboard.Page) : Dashboard.Page := {|
  Dashboard.deleting := DeleteKeyModal.initial; Dashboard.createOpen := Dashboard.createOpen p;
  Dashboard.showExternal := false; Dashboard.tableSort := Dashboard.default_sort;
  Dashboard.copying := Copy.initial; Dashboard.keys := Dashboard.keys p; Dashboard.stats := Dashboard.stats p;
  Dashboard.blocked := [] |}.

(** All of it unmounted, with every call going on without its component. *)
Definition unmounted (s : Console) : Console :=
  with_inflight ((λ '(c, _), (c, false)) <$> inflight s)
    (with_parts (fresh_create (createModal s)) (fresh_dashboard (dashboard s)) s).

(** The address changes.  One without a page matches only the route [*], beside the
    shell: the shell is unmounted, and mounted again when that route has navigated to
    [/]. *)
Definition navigate (path : jsstr) (s : Console) : Console :=
  let s := with_route (Session.makeRouter path) s in
  match Session.matchRoute path with Some _ => s | None => unmounted s end.

(** The open flag is one store, which the dashboard only sets. *)
Definition sync_open (b : bool) (p : Dashboard.Page) : Dashboard.Page := {|
  Dashboard.deleting := Dashboard.deleting p; Dashboard.createOpen := b;
  Dashboard.showExternal := Dashboard.showExternal p; Dashboard.tableSort := Dashboard.tableSort p;
  Dashboard.copying := Dashboard.copying p; Dashboard.keys := Dashboard.keys p; Dashboard.stats := Dashboard.stats p;
  Dashboard.blocked := Dashboard.blocked p |}.

(** The component that makes a call: the frame's dialog, or the dashboard. *)
Definition mounted (s : Console) (c : call) : bool :=
  match c with CallCreate _ => in_app s | CallDelete _ | CallBlock _ _ => on_dashboard s end.

(** After an event: what is no longer shown is unmounted, and its calls go on
    without it. *)
Definition tidy (s : Console) : Console :=
  let m := if in_app s then createModal s else fresh_create (createModal s) in
  let p := if on_dashboard s then dashboard s else fresh_dashboard (dashboard s) in
  with_inflight ((λ '(c, alive), (c, alive && mounted s c)) <$> inflight s)
    (with_parts m (sync_open (CreateKeyModal.open m) p) s).

(** ** What the parts send *)

(** The calls a part made between two states. *)
Definition create_calls (m m' : CreateKeyModal.Modal) : list call :=
  match CreateKeyModal.inflight m, CreateKeyModal.inflight m' with
  | None, Some b => [CallCreate b]
  | _, _ => []
  end.

Definition page_calls (p p' : Dashboard.Page) : list call :=
  (CallDelete <$> drop (length (DeleteKeyModal.sent (Dashboard.deleting p))) (DeleteKeyModal.sent (Dashboard.deleting p'))) ++
  ((λ '(id, b), CallBlock id b) <$> drop (length (Dashboard.blocked p)) (Dashboard.blocked p')).

(** The parts move on, and their new calls are under way. *)
Definition update (m : CreateKeyModal.Modal) (p : Dashboard.Page) (s : Console) : Console :=
  let calls := create_calls (createModal s) m ++ page_calls (dashboard s) p in
  {| shell := shell s; route := route s; createModal := m; dashboard := p;
     client := client s; toasts := toasts s;
     inflight := inflight s ++ ((λ c, (c, true)) <$> calls);
     sent := sent s ++ omap call_request calls |}.

(** ** Answers *)

Definition notify (b : bool) (s : Console) : Console :=
  if b then with_shell (Session.notifyUnauthorized (shell s)) s else s.

(** [toast({ message, variant })]. *)
Definition raise (msg : jsstr) (v : Toast.ToastVariant) (now : Z) (s : Console) : Console :=
  with_toasts (Toast.toast msg (Some v) None now (toasts s)) s.

(** The effects of a settled mutation; an error is a toast. *)
Definition apply_one (now : Z) (s : Console) (e : effect) : Console :=
  let s := with_client (apply_effect (client s) e) s in
  match e with ToastError msg => raise msg Toast.error now s | _ => s end.

Definition apply_all (now : Z) (l : list effect) (s : Console) : Console := foldl (apply_one now) s l.

(** What an answer means for its call: whether the wrapper reports a lost session, the
    hook's effects, the notice the component's continuation raises, and what the
    continuation does to the component. *)
Record settlement := {
  lost : bool;
  effects : list effect;
  notice : option jsstr;
  on_modal : CreateKeyModal.Modal → CreateKeyModal.Modal;
  on_page : Dashboard.Page → Dashboard.Page
}.

Definition settle_call (c : call) (r : reply) : option settlement :=
  match c, r with
  | CallCreate b, ReplyCreate o =>
      let '(out, l) := useCreateKey (server_of o) b in
      Some {| lost := notified c o; effects := l; notice := None;
              on_modal m := CreateKeyModal.step m (CreateKeyModal.Settled out); on_page p := p |}
  | CallDelete id, ReplyDelete o =>
      let '(out, l) := useDeleteKey (server_of o) id in
      Some {| lost := notified c o; effects := l;
              notice := match out with Fulfilled _ => Some DeleteKeyModal.DELETE_SUCCESS | Rejected _ => None end;
              on_modal m := m;
              on_page p := Dashboard.step p (Dashboard.Delete (DeleteKeyModal.Settled out)) |}
  | CallBlock id b, ReplyBlock o =>
      let '(_, l) := useToggleKeyBlock (server_of o) (id, b) in
      Some {| lost := notified c o; effects := l; notice := None; on_modal m := m; on_page p := p |}
  | _, _ => None
  end.

(** [fetch] ends for call [i]: the wrapper, the hook's effects, then the continuation
    of the component that made the call, whose state is gone if it is not mounted
    any more. *)
Definition answer (i : nat) (now : Z) (r : reply) (s : Console) : Console :=
  match inflight s !! i with
  | None => s
  | Some (c, alive) =>
      match settle_call c r with
      | None => s
      | Some x =>
          let s := notify (lost x) (with_inflight (delete i (inflight s)) s) in
          let s := apply_all now (effects x) s in
          let s := match notice x with Some msg => raise msg Toast.success now s | None => s end in
          if alive : bool then with_parts (on_modal x (createModal s)) (on_page x (dashboard s)) s else s
      end
  end.

(** An attempt of the keys query ends; [retries] is the query library's decision to
    try again after a failure. *)
Definition keys_answer (retries : bool) (o : fetch_outcome (option (list KeyRow))) (s : Console) : Console :=
  let '(p, n) := apiFetch KEYS_URL o in
  let s := notify n s in
  match useKeys_query p with
  | Data rows =>
      with_client {| fresh := fresh (client s); stale := false; errors := errors (client s) |}
        (with_parts (createModal s) (Dashboard.on_keys (KeysTable.Loaded rows) (dashboard s)) s)
  | Throws _ =>
      if retries then s else with_parts (createModal s) (Dashboard.on_keys KeysTable.Failed (dashboard s)) s
  | Cancelled => s
  end.

(** ** Events *)

(** The shell's events, the address bar, the create dialog, the dashboard, the
    toasts, the parts that touch none of this (theme, sign-in link, the other
    pages), and the answers of the backend. *)
Inductive event :=
| Boot (e : Session.event)
| Route (path : jsstr)
| Create (e : CreateKeyModal.event)
| Dash (e : Dashboard.event)
| Toasts (e : Toast.event)
| Elsewhere
| Answer (i : nat) (now : Z) (r : reply)
| KeysAnswer (retries : bool) (o : fetch_outcome (option (list KeyRow))).

(** The dialogs' answers are those of their calls, the keys query's reports those of
    its answers, and toasts are pushed by the code. *)
Definition dispatch (s : Console) (e : event) : Console :=
  match e with
  | Boot e => with_shell (Session.step (shell s) e) s
  | Route path => navigate path s
  | Create (CreateKeyModal.Settled _) => s
  | Create e => if in_app s then update (CreateKeyModal.step (createModal s) e) (dashboard s) s else s
  | Dash (Dashboard.Delete (DeleteKeyModal.Settled _)) => s
  | Dash (Dashboard.KeysReport (KeysTable.Loaded _ | KeysTable.Failed)) => s
  | Dash Dashboard.NewKey =>
      if on_dashboard s
      then update (CreateKeyModal.step (createModal s) CreateKeyModal.Open) (Dashboard.step (dashboard s) Dashboard.NewKey) s
      else s
  | Dash e => if on_dashboard s then update (createModal s) (Dashboard.step (dashboard s) e) s else s
  | Toasts (Toast.Push _ _ _ _) => s
  | Toasts e => with_toasts (Toast.step (toasts s) e) s
  | Elsewhere => s
  | Answer i now r => answer i now r s
  | KeysAnswer retries o => keys_answer retries o s
  end.

Definition step (s : Console) (e : event) : Console := tidy (dispatch s e).

Definition run (path : jsstr) (es : list event) : Console := foldl step (initial path) es.

(** ** main.tsx and lib/query-client.ts *)

(** The defaults of every query: how long an answer is fresh, how often a failed one
    is tried again, whether the window's focus fetches again. *)
Record QueryDefaults := { staleTime : Z; retry : nat; refetchOnWindowFocus : bool }.

Definition queryClient : QueryDefaults := {| staleTime := 30000; retry := 1; refetchOnWindowFocus := false |}.

(** The entry: [root] says whether the document has the root element; without it an
    error is thrown, with it the application is mounted (its mount effect runs). *)
Definition main (root : bool) (path : jsstr) : jsstr + Console :=
  if root then inr (step (initial path) (Boot Session.Mount)) else inl (js "Root element not found").

(** ** The page *)

(** What surrounds the modelled state: the clock, the theme, the router's active
    links, the address parser of the browser, and the pages of the other routes. *)
Record Surroundings := {
  now : Z;
  year : Z;
  theme : Theme.Theme;
  active : Frame.NavItem → bool;
  parse_url : jsstr → option (jsstr * jsstr);
  following : bool;
  others : Session.page → list (node unit)
}.

Context `{Eng : Engine}.

(** [App] around what the outlet holds, for any type of events the console's are
    among. *)
Definition frame {E} (lift : event → E) (w : Surroundings) (outlet : SessionMe → AppConfig → list (node E))
    (s : Console) : node E :=
  match Session.App (shell s) with
  | Session.LoadingCard => Frame.LoadingCard
  | Session.Login config => map_node (λ _, lift Elsewhere) (Frame.Login config (theme w) (following w) (year w))
  | Session.ErrorCard retrying => Frame.ErrorCard (lift (Boot Session.Retry)) retrying
  | Session.AuthedRouter me config =>
      Frame.AppShell (parse_url w) (active w) (λ _, lift Elsewhere) (theme w) (year w) me config (outlet me config)
        [map_node (λ e, lift (Create e)) (CreateKeyModal.CreateKeyModal (createModal s));
         map_node (λ e, lift (Toasts e)) (Toast.Toaster (toasts s))]
  end.

Definition outlet (w : Surroundings) (me : SessionMe) (s : Console) : list (node event) :=
  match route s with
  | Session.Dashboard => [map_node Dash (Dashboard.Dashboard (now w) me (dashboard s))]
  | p => map (map_node (λ _, Elsewhere)) (others w p)
  end.

Definition view (w : Surroundings) (s : Console) : node event :=
  frame id w (λ me _, outlet w me s) s.

(** A field's handler takes what was typed. *)
Definition typed (e e' : event) : Prop :=
  e' = e ∨
  match e, e' with
  | Create (CreateKeyModal.SetAlias _), Create (CreateKeyModal.SetAlias _)
  | Create (CreateKeyModal.SetDuration _), Create (CreateKeyModal.SetDuration _)
  | Create (CreateKeyModal.SetTeam _), Create (CreateKeyModal.SetTeam _) => True
  | _, _ => False
  end.

(** What happens without the user: mounts, answers, the address bar, time. *)
Definition world (e : event) : Prop :=
  match e with
  | Boot Session.Retry => False
  | Boot _ | Route _ | Answer _ _ _ | KeysAnswer _ _ => True
  | Create (CreateKeyModal.TeamsLoaded _ | CreateKeyModal.CopySettled _ _ _ | CreateKeyModal.Elapsed _) => True
  | Dash e => Dashboard.world e
  | Toasts (Toast.Elapse _) => True
  | _ => False
  end.

(** The runs on which the user raises only what is rendered at that moment. *)
Inductive offered (path : jsstr) : list event → Prop :=
| offered_start : offered path []
| offered_user es w e e' : offered path es → e ∈ enabled_events [view w (run path es)] → typed e e' →
    offered path (es ++ [e'])
| offered_world es e : offered path es → world e → offered path (es ++ [e]).

(** ** Lemmas: one event *)

Definition calls (s : Console) : list call := fst <$> inflight s.

Lemma console_run_snoc path es e : run path (es ++ [e]) = step (run path es) e.
Proof. unfold run. by rewrite foldl_app. Qed.

Lemma console_invariant path (P : list event → Console → Prop) : P [] (initial path) →
  (∀ es e, P es (run path es) → P (es ++ [e]) (step (run path es) e)) → ∀ es, P es (run path es).
Proof. intros H0 HS es. induction es as [|e es IH] using rev_ind; [done|]. rewrite console_run_snoc. by apply HS. Qed.

(** The toasts of a list of effects. *)
Definition raised (now : Z) (l : list effect) (t : Toast.ToastState) : Toast.ToastState :=
  foldl (λ t e, match e with ToastError msg => Toast.toast msg (Some Toast.error) None now t | _ => t end) t l.

Lemma apply_all_eq now l s :
  apply_all now l s = with_toasts (raised now l (toasts s)) (with_client (apply_effects l (client s)) s).
Proof.
  revert s. induction l as [|e l IH]; intros s; [by destruct s|].
  change (apply_all now (e :: l) s) with (apply_all now l (apply_one now s e)). rewrite IH. by destruct e.
Qed.

(** The toasts after a settlement. *)
Definition announced (now : Z) (x : settlement) (t : Toast.ToastState) : Toast.ToastState :=
  let t := raised now (effects x) t in
  match notice x with Some msg => Toast.toast msg (Some Toast.success) None now t | None => t end.

(** What an answer does: nothing, or one settlement. *)
Lemma answer_cases i now r s :
  (answer i now r s = s ∧ ∀ c (alive : bool), inflight s !! i = Some (c, alive) → settle_call c r = None) ∨
  ∃ c (alive : bool) x, inflight s !! i = Some (c, alive) ∧ settle_call c r = Some x ∧
    answer i now r s = {|
      shell := if lost x then Session.notifyUnauthorized (shell s) else shell s; route := route s;
      createModal := if alive then on_modal x (createModal s) else createModal s;
      dashboard := if alive then on_page x (dashboard s) else dashboard s;
      client := apply_effects (effects x) (client s); toasts := announced now x (toasts s);
      inflight := delete i (inflight s); sent := sent s |}.
Proof.
  unfold answer. destruct (inflight s !! i) as [[c alive]|]; [|by left].
  destruct (settle_call c r) as [x|] eqn:Hx; [|left; split; [done|by intros c' a' [= <- <-]]].
  right. exists c, alive, x. split; [done|]. split; [done|]. rewrite apply_all_eq. unfold announced.
  destruct (lost x), (notice x), alive; done.
Qed.

Lemma tidy_calls s : calls (tidy s) = calls s.
Proof. unfold calls, tidy. cbn [inflight with_inflight]. rewrite <-list_fmap_compose. apply list_fmap_ext. by intros i [c a] _. Qed.

(** A dialog mounted anew is empty and idle. *)
Lemma fresh_create_pristine m : CreateKeyModal.inflight (fresh_create m) = None ∧ CreateKeyModal.pristine (fresh_create m).
Proof.
  unfold fresh_create, CreateKeyModal.pristine.
  by destruct (CreateKeyModal.default_team_frame (CreateKeyModal.with_open (CreateKeyModal.open m)
    (CreateKeyModal.with_teams (CreateKeyModal.teams m) CreateKeyModal.initial)))
    as (_ & -> & -> & -> & -> & -> & -> & _ & ->).
Qed.

Lemma fresh_create_ok m : CreateKeyModal.modal_ok (fresh_create m).
Proof. unfold CreateKeyModal.modal_ok. by rewrite (proj1 (fresh_create_pristine m)). Qed.

(** *** A dialog's request is its call in flight *)

Definition create_of (p : call * bool) : option CreateKeyBody :=
  match p with (CallCreate b, true) => Some b | _ => None end.

Definition delete_of (p : call * bool) : option jsstr :=
  match p with (CallDelete id, true) => Some id | _ => None end.

Definition linked (s : Console) : Prop :=
  omap create_of (inflight s) = option_list (CreateKeyModal.inflight (createModal s)) ∧
  omap delete_of (inflight s) = option_list (DeleteKeyModal.inflight (Dashboard.deleting (dashboard s))).

Lemma omap_unmounted {A} (f : call * bool → option A) (g : call → bool) (l : list (call * bool)) b :
  (∀ c, f (c, false) = None) → (∀ c, f (c, true) ≠ None → g c = b) →
  omap f ((λ '(c, alive), (c, alive && g c)) <$> l) = if b then omap f l else [].
Proof.
  intros Hn Hg. induction l as [|[c []] l IH]; [by destruct b|..]; cbn [fmap list_fmap omap list_omap andb].
  - destruct (f (c, true)) as [y|] eqn:E.
    + rewrite (Hg c) by congruence. destruct b; [by rewrite E, IH|]. rewrite Hn. exact IH.
    + assert (f (c, g c) = None) as -> by (destruct (g c); [done|apply Hn]). rewrite IH. by destruct b.
  - rewrite Hn, IH. by destruct b.
Qed.

Lemma tidy_linked s : linked s → linked (tidy s).
Proof.
  intros [H1 H2]. unfold linked, tidy. cbn [inflight with_inflight createModal dashboard with_parts]. split.
  - rewrite (omap_unmounted create_of (mounted s) _ (in_app s)); [|by intros []|by intros []].
    rewrite H1. destruct (in_app s); [done|]. by rewrite (proj1 (fresh_create_pristine _)).
  - rewrite (omap_unmounted delete_of (mounted s) _ (on_dashboard s)); [|by intros []|by intros []].
    rewrite H2. by destruct (on_dashboard s).
Qed.

Lemma create_request_starts m e : (∀ o, e ≠ CreateKeyModal.Settled o) →
  CreateKeyModal.inflight (CreateKeyModal.step m e) = CreateKeyModal.inflight m ∨ CreateKeyModal.inflight m = None.
Proof.
  intros He. unfold CreateKeyModal.step.
  destruct (CreateKeyModal.default_team_frame (CreateKeyModal.handle m e)) as (_ & _ & _ & _ & _ & _ & _ & _ & ->).
  destruct e as [| | |v|v|v| | | |l|o]; cbn [CreateKeyModal.handle]; try (by left);
    try (left; by destruct (CreateKeyModal.form_shown m && negb (CreateKeyModal.submitting m))).
  - left. by destruct (CreateKeyModal.open m).
  - destruct (CreateKeyModal.form_shown m); [|by left]. unfold CreateKeyModal.onSubmit, CreateKeyModal.submitting.
    destruct (CreateKeyModal.inflight m) eqn:E; [by left|by right].
  - by destruct (He o).
Qed.

Lemma create_settles m o : CreateKeyModal.inflight (CreateKeyModal.step m (CreateKeyModal.Settled o)) = None.
Proof.
  unfold CreateKeyModal.step.
  destruct (CreateKeyModal.default_team_frame (CreateKeyModal.handle m (CreateKeyModal.Settled o))) as (_ & _ & _ & _ & _ & _ & _ & _ & ->).
  cbn [CreateKeyModal.handle]. unfold CreateKeyModal.onSettled. destruct (CreateKeyModal.inflight m) eqn:E; [|done].
  destruct o as [[]|e]; [done..|]. destruct (_ && _); [|done]. destruct (includes _ _); [done|]. by destruct (includes _ _).
Qed.

(** A delete starts, alone, or nothing does. *)
Lemma delete_request_starts m e : (∀ o, e ≠ DeleteKeyModal.Settled o) →
  let m' := DeleteKeyModal.step m e in
  (DeleteKeyModal.inflight m' = DeleteKeyModal.inflight m ∧ DeleteKeyModal.sent m' = DeleteKeyModal.sent m) ∨
  (DeleteKeyModal.inflight m = None ∧
   ∃ id, DeleteKeyModal.inflight m' = Some id ∧ DeleteKeyModal.sent m' = DeleteKeyModal.sent m ++ [id]).
Proof.
  intros He. destruct e as [row| | |o]; cbn [DeleteKeyModal.step].
  - left. by destruct (DeleteKeyModal.open m).
  - left. by destruct (DeleteKeyModal.open m && _).
  - destruct (DeleteKeyModal.open m); [|by left]. unfold DeleteKeyModal.onConfirm, DeleteKeyModal.isPending.
    destruct (DeleteKeyModal.inflight m) eqn:E; [by left|].
    destruct (DeleteKeyModal.target_id m) as [[|c id]|]; [by left| |by left]. right. split; [done|]. by exists (c :: id).
  - by destruct (He o).
Qed.

Lemma delete_settles m o : DeleteKeyModal.inflight (DeleteKeyModal.onSettled o m) = None ∧
  DeleteKeyModal.sent (DeleteKeyModal.onSettled o m) = DeleteKeyModal.sent m.
Proof. unfold DeleteKeyModal.onSettled. destruct (DeleteKeyModal.inflight m) eqn:E; [by destruct o|done]. Qed.

(** What a dashboard event starts: one delete, one block, or nothing. *)
Definition page_starts (p p' : Dashboard.Page) : Prop :=
  (DeleteKeyModal.inflight (Dashboard.deleting p') = DeleteKeyModal.inflight (Dashboard.deleting p) ∧
   DeleteKeyModal.sent (Dashboard.deleting p') = DeleteKeyModal.sent (Dashboard.deleting p) ∧
   (Dashboard.blocked p' = Dashboard.blocked p ∨ ∃ q, Dashboard.blocked p' = Dashboard.blocked p ++ [q])) ∨
  (DeleteKeyModal.inflight (Dashboard.deleting p) = None ∧ Dashboard.blocked p' = Dashboard.blocked p ∧
   ∃ id, DeleteKeyModal.inflight (Dashboard.deleting p') = Some id ∧
     DeleteKeyModal.sent (Dashboard.deleting p') = DeleteKeyModal.sent (Dashboard.deleting p) ++ [id]).

Lemma dashboard_starts p e : (∀ o, e ≠ Dashboard.Delete (DeleteKeyModal.Settled o)) →
  page_starts p (Dashboard.step p e).
Proof.
  intros He. unfold page_starts.
  assert (∀ e', (∀ o, e' ≠ DeleteKeyModal.Settled o) →
    page_starts p (Dashboard.with_deleting (DeleteKeyModal.step (Dashboard.deleting p) e') p)) as Hd.
  { intros e' He'. unfold page_starts. cbn [Dashboard.deleting Dashboard.blocked Dashboard.with_deleting].
    destruct (delete_request_starts (Dashboard.deleting p) e' He') as [[-> ->]|[-> Hi]]; [left; auto|by right]. }
  destruct e as [e|e| | | | |q|q]; cbn [Dashboard.step]; try (left; auto; fail).
  - destruct e as [|k|id b|row]; cbn [Dashboard.on_table]; [left; auto..| |by apply Hd].
    left. split_and!; [done..|]. right. by exists (id, b).
  - apply Hd. intros o ->. by destruct (He o).
Qed.

(** The new calls: at most one. *)
Lemma page_calls_spec p p' : page_starts p p' →
  page_calls p p' = [] ∧ DeleteKeyModal.inflight (Dashboard.deleting p') = DeleteKeyModal.inflight (Dashboard.deleting p) ∨
  (∃ id b, page_calls p p' = [CallBlock id b] ∧ (id, b) ∈ Dashboard.blocked p' ∧
     DeleteKeyModal.inflight (Dashboard.deleting p') = DeleteKeyModal.inflight (Dashboard.deleting p)) ∨
  (∃ id, page_calls p p' = [CallDelete id] ∧ id ∈ DeleteKeyModal.sent (Dashboard.deleting p') ∧
     DeleteKeyModal.inflight (Dashboard.deleting p) = None ∧ DeleteKeyModal.inflight (Dashboard.deleting p') = Some id).
Proof.
  unfold page_calls. intros [(Hi & Hs & [Hb|[[id b] Hb]])|(Hn & Hb & id & Hi & Hs)]; rewrite Hs, Hb, ?drop_app_length, ?drop_all.
  - by left.
  - right. left. exists id, b. split_and!; [done| |done]. apply elem_of_app. right. by left.
  - right. right. exists id. split_and!; [done| |done..]. apply elem_of_app. right. by left.
Qed.

(** What an event makes the parts of the page start: the create dialog, or the
    dashboard. *)
Definition starts (m : CreateKeyModal.Modal) (p : Dashboard.Page) (s : Console) : Prop :=
  (p = dashboard s ∧ (CreateKeyModal.inflight m = CreateKeyModal.inflight (createModal s) ∨
                      CreateKeyModal.inflight (createModal s) = None)) ∨
  (on_dashboard s = true ∧ CreateKeyModal.inflight m = CreateKeyModal.inflight (createModal s) ∧
   page_starts (dashboard s) p).

Definition new_calls (m : CreateKeyModal.Modal) (p : Dashboard.Page) (s : Console) : list call :=
  create_calls (createModal s) m ++ page_calls (dashboard s) p.

Lemma page_starts_refl p : page_starts p p.
Proof. left. auto. Qed.

Lemma new_calls_spec m p s : starts m p s →
  (new_calls m p s = [] ∧ CreateKeyModal.inflight m = CreateKeyModal.inflight (createModal s) ∧
   DeleteKeyModal.inflight (Dashboard.deleting p) = DeleteKeyModal.inflight (Dashboard.deleting (dashboard s))) ∨
  ∃ c, new_calls m p s = [c] ∧
    match c with
    | CallCreate b => CreateKeyModal.inflight m = Some b ∧ CreateKeyModal.inflight (createModal s) = None ∧
        DeleteKeyModal.inflight (Dashboard.deleting p) = DeleteKeyModal.inflight (Dashboard.deleting (dashboard s))
    | CallDelete id => CreateKeyModal.inflight m = CreateKeyModal.inflight (createModal s) ∧
        id ∈ DeleteKeyModal.sent (Dashboard.deleting p) ∧
        DeleteKeyModal.inflight (Dashboard.deleting (dashboard s)) = None ∧
        DeleteKeyModal.inflight (Dashboard.deleting p) = Some id
    | CallBlock id b => CreateKeyModal.inflight m = CreateKeyModal.inflight (createModal s) ∧
        (id, b) ∈ Dashboard.blocked p ∧
        DeleteKeyModal.inflight (Dashboard.deleting p) = DeleteKeyModal.inflight (Dashboard.deleting (dashboard s))
    end.
Proof.
  unfold new_calls. intros [[-> Hm]|(_ & Hm & Hp)].
  - destruct (page_calls_spec _ _ (page_starts_refl (dashboard s))) as [[-> _]|[(id & b & Hc & _)|(id & Hc & _)]];
      [|unfold page_calls in Hc; by rewrite !drop_all in Hc..].
    rewrite app_nil_r. unfold create_calls. destruct (CreateKeyModal.inflight (createModal s)) as [b|] eqn:E.
    + left. by destruct Hm as [->|].
    + destruct (CreateKeyModal.inflight m) as [b|]; [|by left]. right. by exists (CallCreate b).
  - assert (create_calls (createModal s) m = []) as ->.
    { unfold create_calls. rewrite Hm. by destruct (CreateKeyModal.inflight (createModal s)). }
    destruct (page_calls_spec _ _ Hp) as [[-> Hi]|[(id & b & -> & Hb & Hi)|(id & -> & Hs & Hn & Hi)]].
    + by left.
    + right. by exists (CallBlock id b).
    + right. by exists (CallDelete id).
Qed.

Lemma update_linked m p s : starts m p s → linked s → linked (update m p s).
Proof.
  intros Hs [H1 H2]. unfold linked, update. cbn [inflight createModal dashboard].
  fold (new_calls m p s). rewrite !omap_app, H1, H2.
  destruct (new_calls_spec m p s Hs) as [(-> & -> & ->)|([b|id|id b] & -> & Hc)]; cbn.
  - by rewrite !app_nil_r.
  - by destruct Hc as (-> & -> & ->); rewrite app_nil_r.
  - by destruct Hc as (-> & _ & -> & ->); rewrite app_nil_r.
  - by destruct Hc as (-> & _ & ->); rewrite !app_nil_r.
Qed.

(** Everything but the parts and their calls. *)
Definition quiet (s s' : Console) : Prop :=
  createModal s' = createModal s ∧ dashboard s' = dashboard s ∧ client s' = client s ∧
  inflight s' = inflight s ∧ sent s' = sent s.

Lemma navigate_keeps path s : let s' := navigate path s in
  shell s' = shell s ∧ client s' = client s ∧ toasts s' = toasts s ∧ sent s' = sent s ∧ in_app s' = in_app s ∧
  route s' = Session.makeRouter path.
Proof. cbn zeta. unfold navigate. by destruct (Session.matchRoute path). Qed.

Definition is_answer (e : event) : bool :=
  match e with Answer _ _ _ | KeysAnswer _ _ => true | _ => false end.

(** An event that is no answer from the backend does nothing to the parts, unmounts
    them, or makes a mounted part move on. *)
Definition moves (e : event) (s s' : Console) : Prop :=
  quiet s s' ∨
  (∃ path, e = Route path ∧ Session.matchRoute path = None ∧ s' = unmounted (with_route (Session.makeRouter path) s)) ∨
  ∃ m p, s' = update m p s ∧ in_app s = true ∧ starts m p s ∧
    (m = createModal s ∨ ∃ e', m = CreateKeyModal.step (createModal s) e' ∧ ∀ o, e' ≠ CreateKeyModal.Settled o) ∧
    (p = dashboard s ∨ ∃ e', e = Dash e' ∧ p = Dashboard.step (dashboard s) e' ∧
       (∀ rows, e' ≠ Dashboard.KeysReport (KeysTable.Loaded rows)) ∧ ∀ o, e' ≠ Dashboard.Delete (DeleteKeyModal.Settled o)).

Lemma quiet_refl s : quiet s s.
Proof. done. Qed.

Lemma create_moves e e' s : (∀ o, e' ≠ CreateKeyModal.Settled o) →
  moves e s (if in_app s then update (CreateKeyModal.step (createModal s) e') (dashboard s) s else s).
Proof.
  intros He'. destruct (in_app s) eqn:Ei; [|by left]. right. right. eexists _, _. split; [done|].
  split_and!; [done| |eauto..]. left. split; [done|]. by apply create_request_starts.
Qed.

Lemma dash_moves e m s : (∀ o, e ≠ Dashboard.Delete (DeleteKeyModal.Settled o)) →
  (∀ rows, e ≠ Dashboard.KeysReport (KeysTable.Loaded rows)) →
  CreateKeyModal.inflight m = CreateKeyModal.inflight (createModal s) →
  (m = createModal s ∨ ∃ e', m = CreateKeyModal.step (createModal s) e' ∧ ∀ o, e' ≠ CreateKeyModal.Settled o) →
  moves (Dash e) s (if on_dashboard s then update m (Dashboard.step (dashboard s) e) s else s).
Proof.
  intros He Hr Hm Hm'. destruct (on_dashboard s) eqn:Ei; [|by left]. right. right. eexists _, _. split; [done|].
  split_and!; [|right|done|right; by exists e].
  - unfold on_dashboard in Ei. by apply andb_true_iff in Ei as [? _].
  - split_and!; [done..|]. by apply dashboard_starts.
Qed.

Lemma opening_sends_nothing m : CreateKeyModal.inflight (CreateKeyModal.step m CreateKeyModal.Open) = CreateKeyModal.inflight m.
Proof.
  unfold CreateKeyModal.step.
  by destruct (CreateKeyModal.default_team_frame (CreateKeyModal.handle m CreateKeyModal.Open)) as (_ & _ & _ & _ & _ & _ & _ & _ & ->).
Qed.

Lemma dispatch_moves s e : is_answer e = false → moves e s (dispatch s e).
Proof.
  intros He. destruct e as [e|path|e|e|e| |i n r|rt o]; try done; try (by left); cbn [dispatch].
  - unfold navigate. destruct (Session.matchRoute path) eqn:Em; [by left|]. right. left. by exists path.
  - destruct e; try (by apply create_moves). by left.
  - destruct e as [e|[row| | |o]| | | | |[| |rows]|q]; try (by left);
      apply dash_moves; try done; try (by left); [apply opening_sends_nothing|right; by eexists].
  - by destruct e; left.
Qed.

(** What is unmounted is linked to no call and keeps the calls. *)
Lemma unmounted_calls s : calls (unmounted s) = calls s.
Proof. unfold calls, unmounted. cbn [inflight with_inflight]. rewrite <-list_fmap_compose. apply list_fmap_ext. by intros i [c a] _. Qed.

Lemma unmounted_linked s : linked (unmounted s).
Proof.
  assert (∀ A (f : call * bool → option A) (l : list (call * bool)), (∀ c, f (c, false) = None) →
    omap f ((λ '(c, _), (c, false)) <$> l) = []) as Hn.
  { intros A f l Hf. induction l as [|[c alive] l IH]; [done|]. cbn. by rewrite Hf. }
  unfold linked, unmounted. cbn [inflight with_inflight createModal dashboard with_parts].
  rewrite !Hn by (by intros []). by rewrite (proj1 (fresh_create_pristine _)).
Qed.

(** Taking the only element away. *)
Lemma option_list_middle {A} (o : option A) x (k l : list A) : k ++ x :: l = option_list o → k ++ l = [].
Proof. destruct o, k as [|? []]; try done. by intros [= _ ->]. Qed.

Lemma answer_linked i n r s : linked s → linked (answer i n r s).
Proof.
  intros [H1 H2]. destruct (answer_cases i n r s) as [[-> _]|(c & alive & x & Hi & Hx & ->)]; [done|]. unfold linked. cbn [inflight createModal dashboard].
  pose proof (delete_take_drop (inflight s) i) as Hd. pose proof (take_drop_middle _ _ _ Hi) as Hl.
  rewrite <-Hl, omap_app in H1. rewrite <-Hl, omap_app in H2. rewrite Hd, !omap_app. cbn [omap list_omap] in H1, H2.
  destruct c as [b|id|id b], r as [o|o|o]; try done; cbn [settle_call] in Hx;
    injection Hx as <-; destruct alive; cbn [create_of delete_of on_modal on_page] in *; try (split; assumption).
  - rewrite create_settles. split; [by eapply option_list_middle|done].
  - split; [done|]. cbn [Dashboard.step Dashboard.deleting Dashboard.with_deleting DeleteKeyModal.step].
    rewrite (proj1 (delete_settles _ _)). by eapply option_list_middle.
Qed.

Lemma keys_answer_quiet rt o s : let s' := keys_answer rt o s in
  createModal s' = createModal s ∧ Dashboard.deleting (dashboard s') = Dashboard.deleting (dashboard s) ∧
  Dashboard.blocked (dashboard s') = Dashboard.blocked (dashboard s) ∧
  fresh (client s') = fresh (client s) ∧ toasts s' = toasts s ∧ inflight s' = inflight s ∧ sent s' = sent s.
Proof.
  cbn zeta. unfold keys_answer. destruct (apiFetch KEYS_URL o) as [p n].
  destruct (useKeys_query p), rt, n; done.
Qed.

Lemma step_linked s e : linked s → linked (step s e).
Proof.
  intros Hs. apply tidy_linked. destruct (is_answer e) eqn:Ea.
  - destruct e as [| | | | | |i n r|rt o]; try done; cbn [dispatch]; [by apply answer_linked|].
    destruct (keys_answer_quiet rt o s) as (H1 & H2 & _ & _ & _ & H3 & _). unfold linked. by rewrite H1, H2, H3.
  - destruct (dispatch_moves s e Ea) as [(H1 & H2 & _ & H3 & _)|[(path & _ & _ & ->)|(m & p & -> & _ & H & _)]].
    + unfold linked. by rewrite H1, H2, H3.
    + apply unmounted_linked.
    + by apply update_linked.
Qed.

Lemma run_linked path es : linked (run path es).
Proof. apply (console_invariant path (λ _, linked)); [done|]. intros. by apply step_linked. Qed.

(** *** Where the calls come from *)

(** The call a part may make, when the rows it was shown are of a given kind. *)
Definition allowed (L : KeyRow → Prop) (c : call) : Prop :=
  match c with
  | CallCreate b => CreateKeyModal.body_ok b
  | CallDelete id => Dashboard.delete_listed L id
  | CallBlock id b => Dashboard.block_listed L (id, b)
  end.

Definition sent_for (L : KeyRow → Prop) (r : request) : Prop := ∃ c, call_request c = Some r ∧ allowed L c.

Definition traffic_ok (L : KeyRow → Prop) (s : Console) : Prop :=
  Dashboard.page_ok L (dashboard s) ∧ CreateKeyModal.modal_ok (createModal s) ∧
  Forall (allowed L ∘ fst) (inflight s) ∧ Forall (sent_for L) (sent s).

Lemma allowed_mono (L L' : KeyRow → Prop) c : (∀ row, L row → L' row) → allowed L c → allowed L' c.
Proof.
  intros HL. destruct c as [b|id|id b]; cbn; [done|..].
  - intros (row & [? ?] & ? & ?). exists row. split; [split; [by apply HL|done]|done].
  - intros (row & ? & ?). exists row. auto.
Qed.

Lemma traffic_mono (L L' : KeyRow → Prop) s : (∀ row, L row → L' row) → traffic_ok L s → traffic_ok L' s.
Proof.
  intros HL (H1 & H2 & H3 & H4). split_and!; [by eapply Dashboard.page_ok_mono|apply H2..| |].
  - eapply Forall_impl; [exact H3|]. intros c. by apply allowed_mono.
  - eapply Forall_impl; [exact H4|]. intros r (c & Hr & Hc). exists c. split; [done|]. by eapply allowed_mono.
Qed.

Lemma tidy_traffic L s : traffic_ok L s → traffic_ok L (tidy s).
Proof.
  intros ((K1 & K2 & K3 & K4) & H2 & H3 & H4). unfold traffic_ok, tidy.
  cbn [dashboard createModal inflight sent with_inflight with_parts].
  split; [by destruct (on_dashboard s)|]. split; [|split; [|done]].
  - destruct (in_app s); [done|apply fresh_create_ok].
  - apply Forall_fmap. eapply Forall_impl; [exact H3|]. by intros [c alive].
Qed.

Lemma unmounted_traffic L s : traffic_ok L s → traffic_ok L (unmounted s).
Proof.
  intros ((K1 & K2 & K3 & K4) & H2 & H3 & H4). unfold traffic_ok, unmounted.
  cbn [dashboard createModal inflight sent with_inflight with_parts].
  split; [done|]. split; [apply fresh_create_ok|]. split; [|done].
  apply Forall_fmap. eapply Forall_impl; [exact H3|]. by intros [c alive].
Qed.

Lemma answer_traffic L i n r s : traffic_ok L s → traffic_ok L (answer i n r s).
Proof.
  intros Hs. pose proof Hs as (H1 & H2 & H3 & H4). destruct (answer_cases i n r s) as [[-> _]|(c & alive & x & Hi & Hx & ->)]; [done|]. unfold traffic_ok. cbn [dashboard createModal inflight sent].
  assert (Forall (allowed L ∘ fst) (delete i (inflight s))) as Hd.
  { rewrite delete_take_drop. apply Forall_app. split; [by apply Forall_take|by apply Forall_drop]. }
  destruct alive; [|done].
  destruct c as [b|id|id b], r as [o|o|o]; try done; injection Hx as <-; cbn [on_modal on_page]; [| |done].
  - split; [done|]. split; [by apply CreateKeyModal.create_step_ok|done].
  - split; [|done]. by refine (Dashboard.dialog_ok L (dashboard s) (DeleteKeyModal.Settled _) H1 _).
Qed.

Lemma update_traffic L m p s : starts m p s → CreateKeyModal.modal_ok m → Dashboard.page_ok L p →
  traffic_ok L s → traffic_ok L (update m p s).
Proof.
  intros Hs Hm Hp (_ & _ & H3 & H4). unfold traffic_ok, update. cbn [dashboard createModal inflight sent].
  fold (new_calls m p s). assert (Forall (allowed L) (new_calls m p s)) as Hn.
  { destruct (new_calls_spec m p s Hs) as [[-> _]|(c & -> & Hc)]; [done|]. constructor; [|done].
    destruct Hp as (_ & _ & K3 & K4). rewrite Forall_forall in K3. rewrite Forall_forall in K4.
    destruct c as [b|id|id b]; cbn [allowed].
    - apply Hm, Hc.
    - apply K3, Hc.
    - by apply K4, Hc. }
  do 2 (split; [done|]). split; apply Forall_app; (split; [done|]).
  - by apply Forall_fmap.
  - apply Forall_forall. intros r (c & Hc & Hr)%list_elem_of_omap. rewrite Forall_forall in Hn. exists c. auto.
Qed.

Lemma step_traffic L me nw s e : traffic_ok L s →
  (∀ d, e = Dash d → d ∈ enabled_events [Dashboard.Dashboard nw me (dashboard s)] ∨ Dashboard.world d) →
  (∀ rt o rows, e = KeysAnswer rt o → useKeys_query (apiFetch KEYS_URL o).1 = Data rows → Forall L rows) →
  traffic_ok L (step s e).
Proof.
  intros Hs Hd Hk. apply tidy_traffic. pose proof Hs as (H1 & H2 & H3 & H4). destruct (is_answer e) eqn:Ea.
  - destruct e as [| | | | | |i n r|rt o]; try done; cbn [dispatch]; [by apply answer_traffic|].
    specialize (Hk rt o). unfold keys_answer. destruct (apiFetch KEYS_URL o) as [p b]. cbn [fst] in Hk.
    destruct (useKeys_query p) as [rows|tag|]; [| |by destruct b].
    + assert (Dashboard.page_ok L (Dashboard.on_keys (KeysTable.Loaded rows) (dashboard s))) as Hp.
      { apply Dashboard.keys_ok; [done|]. intros rows' [= <-]. by apply Hk. }
      by destruct b.
    + assert (Dashboard.page_ok L (Dashboard.on_keys KeysTable.Failed (dashboard s))) as Hp
        by (by apply Dashboard.keys_ok). by destruct b, rt.
  - destruct (dispatch_moves s e Ea) as [(K1 & K2 & _ & K3 & K4)|[(path & _ & _ & ->)|(m & p & -> & _ & Hst & Hm & Hp)]].
    + unfold traffic_ok. by rewrite K1, K2, K3, K4.
    + by apply unmounted_traffic.
    + apply update_traffic; [done| | |done].
      * destruct Hm as [->|(e' & -> & _)]; [done|by apply CreateKeyModal.create_step_ok].
      * destruct Hp as [->|(e' & He & -> & Hr & _)]; [done|]. eapply Dashboard.step_page_ok; [done|by apply Hd|].
        intros rows Hr'. by destruct (Hr rows).
Qed.

(** *** What the page offers *)

(** What the application offers around the outlet. *)
Definition chrome (w : Surroundings) (s : Console) (e : event) : Prop :=
  e ∈ enabled_events [frame id w (λ _ _, []) s].

Lemma map_lift {A B} (f : A → B) (l : list A) y : y ∈ map f l ↔ ∃ x, y = f x ∧ x ∈ l.
Proof. apply list_elem_of_fmap. Qed.

Lemma overlays_offer {E} (lift : event → E) s :
  enabled_events [map_node (λ e, lift (Create e)) (CreateKeyModal.CreateKeyModal (createModal s));
                  map_node (λ e, lift (Toasts e)) (Toast.Toaster (toasts s))] =
  map lift (map Create (enabled_events [CreateKeyModal.CreateKeyModal (createModal s)]) ++
            map Toasts (enabled_events [Toast.Toaster (toasts s)])).
Proof. by rewrite enabled_events_cons, !enabled_events_map_node, map_app, !map_map. Qed.

Lemma frame_offers {E} (lift : event → E) w o s e : e ∈ enabled_events [frame lift w o s] ↔
  (∃ x, e = lift x ∧ chrome w s x) ∨
  ∃ me config, Session.App (shell s) = Session.AuthedRouter me config ∧ e ∈ enabled_events (o me config).
Proof.
  unfold chrome, frame. destruct (Session.App (shell s)) as [|config|retrying|me config].
  - assert (∀ F, enabled_events [Frame.LoadingCard (E := F)] = []) as HL by done. rewrite !HL. split; [by intros ?%elem_of_nil|].
    by intros [(x & _ & ?%elem_of_nil)|(? & ? & [=] & _)].
  - rewrite !enabled_events_map_node, map_lift. setoid_rewrite map_lift. split.
    + intros (x & -> & Hx). left. eauto.
    + intros [(x & -> & y & -> & Hy)|(? & ? & [=] & _)]. eauto.
  - unfold Frame.ErrorCard. simpl_events. split.
    + intros He. left. exists (Boot Session.Retry). destruct retrying; [by apply elem_of_nil in He|].
      apply list_elem_of_singleton in He as ->. split; [done|by left].
    + intros [(x & -> & Hx)|(? & ? & [=] & _)]. destruct retrying; [by apply elem_of_nil in Hx|].
      apply list_elem_of_singleton in Hx as ->. by left.
  - rewrite !Frame.shell_offers, !overlays_offer, elem_of_cons, elem_of_app, map_lift. split.
    + intros [->|[He|(x & -> & Hx)]]; [|by right; eauto|]; left; eexists; (split; [done|]); apply elem_of_cons; [by left|right].
      rewrite list_fmap_id. by apply elem_of_app; right.
    + intros [(x & -> & Hx)|(me' & config' & [= <- <-] & He)]; [|by right; left]. revert Hx.
      rewrite list_fmap_id. intros [->|Hx]%elem_of_cons; [by left|right; right; by exists x].
Qed.

Lemma chrome_events w s e : chrome w s e →
  match e with
  | Boot e => e = Session.Retry
  | Elsewhere | Create _ | Toasts _ => True
  | _ => False
  end.
Proof.
  unfold chrome, frame. destruct (Session.App (shell s)) as [|config|retrying|me config].
  - by intros ?%elem_of_nil.
  - rewrite enabled_events_map_node. by intros (x & -> & _)%list_elem_of_fmap.
  - unfold Frame.ErrorCard. simpl_events. destruct retrying; [by intros ?%elem_of_nil|].
    by intros ->%list_elem_of_singleton.
  - rewrite Frame.shell_offers, elem_of_cons, elem_of_app, (enabled_events_cons (map_node _ _)), elem_of_app,
      !enabled_events_map_node.
    by intros [->|[?%elem_of_nil|[(x & -> & _)%list_elem_of_fmap|(x & -> & _)%list_elem_of_fmap]]].
Qed.

Lemma view_offers w s e : e ∈ enabled_events [view w s] →
  match e with
  | Boot e => e = Session.Retry
  | Elsewhere | Create _ | Toasts _ => True
  | Dash d => ∃ me, d ∈ enabled_events [Dashboard.Dashboard (now w) me (dashboard s)]
  | _ => False
  end.
Proof.
  unfold view. intros [(x & -> & Hx%chrome_events)|(me & config & _ & He)]%frame_offers; [by destruct x|].
  unfold outlet in He. destruct (route s).
  { rewrite enabled_events_map_node in He. apply list_elem_of_fmap in He as (x & -> & Hx). by exists me. }
  all: apply elem_of_enabled_map in He as (n & _ & He); rewrite enabled_events_map_node in He;
    by apply list_elem_of_fmap in He as (x & -> & _).
Qed.

(** The row was in an answer of the keys query. *)
Definition listed (es : list event) (row : KeyRow) : Prop :=
  ∃ rt o rows, KeysAnswer rt o ∈ es ∧ useKeys_query (apiFetch KEYS_URL o).1 = Data rows ∧ row ∈ rows.

Lemma listed_app es e row : listed es row → listed (es ++ [e]) row.
Proof. intros (rt & o & rows & Hin & H). exists rt, o, rows. split; [|done]. apply elem_of_app. by left. Qed.

Lemma run_traffic path es : offered path es → traffic_ok (listed es) (run path es).
Proof.
  assert (∀ es e rt o rows, e = KeysAnswer rt o → useKeys_query (apiFetch KEYS_URL o).1 = Data rows →
    Forall (listed (es ++ [e])) rows) as Hl.
  { clear. intros es e rt o rows -> Hq. apply Forall_forall. intros row Hr. exists rt, o, rows. split; [|done].
    apply elem_of_app. right. by left. }
  induction 1 as [|es w e e' _ IH He Ht|es e _ IH He].
  - split; [apply Dashboard.initial_page_ok|]. split; [|done]. by split.
  - rewrite console_run_snoc. apply (traffic_mono _ _ _ (listed_app es e')) in IH.
    assert (∀ d, e' = Dash d → ∃ me, d ∈ enabled_events [Dashboard.Dashboard (now w) me (dashboard (run path es))]) as Hd.
    { intros d ->. destruct Ht as [<-|Ht]; [by apply view_offers in He|]. by destruct e as [| |[]| | | | |]. }
    destruct e' as [| | |d| | | |];
      try (apply (step_traffic _ Dashboard.sample_me 0); [done|done|by intros; eapply Hl]; fail).
    destruct (Hd d eq_refl) as [me Hme]. apply (step_traffic _ me (now w)); [done| |by intros; eapply Hl].
    intros d' [= <-]. by left.
  - rewrite console_run_snoc. apply (traffic_mono _ _ _ (listed_app es e)) in IH.
    apply (step_traffic _ Dashboard.sample_me 0); [done| |by intros; eapply Hl].
    intros d ->. by right.
Qed.

Lemma answer_sent i n r s : sent (answer i n r s) = sent s.
Proof.
  by destruct (answer_cases i n r s) as [[-> _]|(c & alive & x & _ & _ & ->)].
Qed.

(** What an event sends, and the calls it opens. *)
Lemma step_sends s e : ∃ cs, (length cs ≤ 1)%nat ∧ sent (step s e) = sent s ++ omap call_request cs ∧
  (cs ≠ [] → in_app s = true) ∧ (is_answer e = false → calls (step s e) = calls s ++ cs).
Proof.
  unfold step. rewrite tidy_calls. change (sent (tidy ?s)) with (sent s). destruct (is_answer e) eqn:Ea.
  - exists []. rewrite app_nil_r. split_and!; [simpl; lia| |done..].
    destruct e as [| | | | | |i n r|rt o]; try done; cbn [dispatch]; [apply answer_sent|].
    by destruct (keys_answer_quiet rt o s) as (_ & _ & _ & _ & _ & _ & ->).
  - destruct (dispatch_moves s e Ea) as [(_ & _ & _ & Hi & ->)|[(path & _ & _ & ->)|(m & p & -> & Hin & Hst & _)]].
    + exists []. unfold calls. rewrite Hi, !app_nil_r. split_and!; [simpl; lia|done..].
    + exists []. rewrite unmounted_calls, !app_nil_r. split_and!; [simpl; lia|done..].
    + exists (new_calls m p s). split_and!; [|done..|].
      * destruct (new_calls_spec m p s Hst) as [[-> _]|(c & -> & _)]; simpl; lia.
      * intros _. unfold calls, update. cbn [inflight]. rewrite fmap_app, <-list_fmap_compose. by rewrite list_fmap_id.
Qed.

(** *** The ledger: what a client of the backend would write down *)

(** The body of a successful answer to a request that could be built. *)
Definition answered {T} (r : option request) (o : fetch_outcome (payload T)) : option (payload T) :=
  match r, o with
  | Some _, Responds st (Json (Some d)) => if st =? 200 then Some d else None
  | _, _ => None
  end.

Inductive verdict := Issued (id key : jsstr) | Removed (id : jsstr) | Accepted | Failed.

Definition verdict_of (c : call) (r : reply) : option verdict :=
  match c, r with
  | CallCreate _, ReplyCreate o =>
      Some (match answered (call_request c) o with
            | Some (inl d) => if str_truthy (created_id d) then Issued (created_id d) (created_key d) else Accepted
            | Some (inr _) => Accepted
            | None => Failed
            end)
  | CallDelete id, ReplyDelete o =>
      Some (match answered (call_request c) o with Some _ => Removed id | None => Failed end)
  | CallBlock _ _, ReplyBlock o =>
      Some (match answered (call_request c) o with Some _ => Accepted | None => Failed end)
  | _, _ => None
  end.

(** The calls not answered yet, the secrets to show, and whether the list of keys
    must be read again. *)
Record Ledger := { waiting : list call; secrets : Stores.Fresh.FreshKeys; refetch : bool }.

Definition ledger (s : Console) : Ledger :=
  {| waiting := calls s; secrets := fresh (client s); refetch := stale (client s) |}.

Definition opened (cs : list call) (l : Ledger) : Ledger :=
  {| waiting := waiting l ++ cs; secrets := secrets l; refetch := refetch l |}.

Definition settled (i : nat) (v : verdict) (l : Ledger) : Ledger := {|
  waiting := delete i (waiting l);
  secrets := match v with
    | Issued id key => <[id := key]> (secrets l)
    | Removed id => delete id (secrets l)
    | Accepted | Failed => secrets l
    end;
  refetch := match v with Failed => refetch l | _ => true end
|}.

Definition relisted (l : Ledger) : Ledger :=
  {| waiting := waiting l; secrets := secrets l; refetch := false |}.

(** The notice of a settled call. *)
Definition told (now : Z) (c : call) (v : verdict) (t : Toast.ToastState) : Toast.ToastState :=
  match c, v with
  | CallCreate _, Failed => Toast.toast (js "Could not create the key.") (Some Toast.error) None now t
  | CallDelete _, Failed => Toast.toast (js "Could not delete the key.") (Some Toast.error) None now t
  | CallBlock _ _, Failed => Toast.toast (js "Could not update the key.") (Some Toast.error) None now t
  | CallDelete _, _ => Toast.toast (js "Key revoked") (Some Toast.success) None now t
  | _, _ => t
  end.

Lemma mutation_answered {A T} (req : A → option request) tag (o : fetch_outcome (payload T)) args :
  match answered (req args) o with
  | Some d => mutationFn req tag (server_of o) args = Fulfilled d
  | None => ∃ e, mutationFn req tag (server_of o) args = Rejected e
  end.
Proof.
  unfold mutationFn, answered, server_of. destruct (req args) as [r|]; [|by eexists].
  destruct o as [st [[d|]|]|name]; cbn [apiFetch fst status data].
  - destruct (st =? 200); [done|by eexists].
  - destruct (st =? 200); by eexists.
  - destruct (st =? 200); by eexists.
  - destruct (bool_decide _); by eexists.
Qed.

(** A settlement as a verdict. *)
Lemma settle_verdict c r n t k :
  match settle_call c r with
  | Some x => ∃ v, verdict_of c r = Some v ∧ announced n x t = told n c v t ∧
      fresh (apply_effects (effects x) k) = secrets (settled 0 v {| waiting := []; secrets := fresh k; refetch := stale k |}) ∧
      stale (apply_effects (effects x) k) = refetch (settled 0 v {| waiting := []; secrets := fresh k; refetch := stale k |})
  | None => verdict_of c r = None
  end.
Proof.
  destruct c as [b|id|id b], r as [o|o|o]; try done; cbn [settle_call verdict_of call_request];
    unfold useCreateKey, useDeleteKey, useToggleKeyBlock, useKeyMutation, announced; cbn [effects notice].
  - pose proof (mutation_answered create_request (js "create-key-failed") o b) as H.
    destruct (answered (create_request b) o) as [[d|d]|]; [rewrite H..|destruct H as [e ->]]; (eexists; split; [done|]); cbn; [|done..].
    by destruct (created_id d).
  - pose proof (mutation_answered delete_request (js "delete-key-failed") o id) as H.
    destruct (answered (delete_request id) o) as [d|]; [rewrite H|destruct H as [e ->]]; (eexists; split; [done|]); cbn; [|done].
    split_and!; [done| |done]. apply map_eq. intros i. rewrite Stores.Fresh.lookup_dropFresh.
    case_decide as E; [subst; by rewrite lookup_delete_eq|by rewrite lookup_delete_ne].
  - pose proof (mutation_answered block_request (js "block-key-failed") o (id, b)) as H.
    destruct (answered (block_request (id, b)) o) as [d|]; [rewrite H|destruct H as [e ->]]; (eexists; split; [done|]); by cbn.
Qed.

Lemma calls_lookup s i : calls s !! i = fst <$> inflight s !! i.
Proof. unfold calls. apply list_lookup_fmap. Qed.

Lemma calls_delete s i : fst <$> delete i (inflight s) = delete i (calls s).
Proof. unfold calls. by rewrite !delete_take_drop, fmap_app, fmap_take, fmap_drop. Qed.

Lemma notify_same b s : client (notify b s) = client s ∧ inflight (notify b s) = inflight s ∧ toasts (notify b s) = toasts s.
Proof. by destruct b. Qed.

(** An answer settles its call, once. *)
Lemma answer_ledger i n r s : let s' := step s (Answer i n r) in
  match calls s !! i ≫= λ c, pair c <$> verdict_of c r with
  | Some (c, v) => ledger s' = settled i v (ledger s) ∧ toasts s' = told n c v (toasts s)
  | None => ledger s' = ledger s ∧ toasts s' = toasts s
  end.
Proof.
  cbn zeta. unfold ledger, step. rewrite tidy_calls. cbn [dispatch].
  change (client (tidy ?s)) with (client s). change (toasts (tidy ?s)) with (toasts s). rewrite calls_lookup.
  destruct (answer_cases i n r s) as [[-> Hn]|(c & alive & x & Hi & Hx & ->)].
  - destruct (inflight s !! i) as [[c alive]|]; [|done]. cbn.
    pose proof (settle_verdict c r n (toasts s) (client s)) as Hv. rewrite (Hn c alive eq_refl) in Hv. by rewrite Hv.
  - pose proof (settle_verdict c r n (toasts s) (client s)) as Hv. rewrite Hx in Hv.
    destruct Hv as (v & Hv & Ht & Hf & Hs). rewrite Hi. cbn [fmap option_fmap option_map mbind option_bind fst]. rewrite Hv.
    unfold calls at 1. cbn [client toasts inflight fmap option_fmap option_map]. split; [|done].
    unfold settled. cbn [waiting secrets refetch]. by rewrite calls_delete, Hf, Hs.
Qed.

Definition rows_of (o : fetch_outcome (option (list KeyRow))) : option (list KeyRow) :=
  match useKeys_query (apiFetch KEYS_URL o).1 with Data rows => Some rows | _ => None end.

Lemma keys_ledger rt o s :
  ledger (step s (KeysAnswer rt o)) = match rows_of o with Some _ => relisted (ledger s) | None => ledger s end ∧
  toasts (step s (KeysAnswer rt o)) = toasts s.
Proof.
  unfold ledger, step. rewrite tidy_calls. cbn [dispatch]. unfold rows_of, keys_answer.
  destruct (apiFetch KEYS_URL o) as [p b]. cbn [fst]. by destruct (useKeys_query p), b, rt.
Qed.

Lemma other_ledger s e : is_answer e = false → ∃ cs, (length cs ≤ 1)%nat ∧ ledger (step s e) = opened cs (ledger s).
Proof.
  intros He. destruct (step_sends s e) as (cs & Hl & _ & _ & Hc). exists cs. split; [done|].
  unfold ledger, opened. cbn [waiting secrets refetch]. rewrite (Hc He). unfold step. change (client (tidy ?s)) with (client s).
  destruct (dispatch_moves s e He) as [(_ & _ & -> & _)|[(path & _ & _ & ->)|(m & p & -> & _)]]; done.
Qed.

(** *** The dialogs follow the ledger *)

Lemma step_create_ok s e : CreateKeyModal.modal_ok (createModal s) → CreateKeyModal.modal_ok (createModal (step s e)).
Proof.
  intros Hs. unfold step, tidy. cbn [createModal with_inflight with_parts].
  destruct (in_app (dispatch s e)); [|apply fresh_create_ok]. destruct (is_answer e) eqn:Ea.
  - destruct e as [| | | | | |i n r|rt o]; try done; cbn [dispatch].
    + destruct (answer_cases i n r s) as [[-> _]|(c & alive & x & Hi & Hx & ->)]; [done|]. cbn [createModal].
      destruct alive; [|done]. destruct c, r; try done; injection Hx as <-; [|done..]. by apply CreateKeyModal.create_step_ok.
    + by destruct (keys_answer_quiet rt o s) as (-> & _).
  - destruct (dispatch_moves s e Ea) as [(-> & _)|[(path & _ & _ & ->)|(m & p & -> & _ & _ & Hm & _)]]; [done|apply fresh_create_ok|].
    destruct Hm as [->|(e' & -> & _)]; [done|by apply CreateKeyModal.create_step_ok].
Qed.

Lemma run_modal_ok path es : CreateKeyModal.modal_ok (createModal (run path es)).
Proof.
  apply (console_invariant path (λ _ s, CreateKeyModal.modal_ok (createModal s))); [by split|]. intros. by apply step_create_ok.
Qed.

(** What the create dialog and the revoke dialog make of the answer to their call. *)
Definition create_told (v : verdict) (m : CreateKeyModal.Modal) : Prop :=
  CreateKeyModal.inflight m = None ∧
  match v with
  | Issued id key => CreateKeyModal.result m =
      Some {| CreateKeyModal.result_id := Some id; CreateKeyModal.result_key := Some key |}
  | Failed => CreateKeyModal.result m = None ∧
      (CreateKeyModal.aliasError m ≠ None ∨ CreateKeyModal.durationError m ≠ None ∨ CreateKeyModal.formError m ≠ None)
  | _ => True
  end.

Definition delete_told (v : verdict) (old new : DeleteKeyModal.Modal) : Prop :=
  DeleteKeyModal.inflight new = None ∧
  match v with
  | Removed _ => DeleteKeyModal.open new = false
  | Failed => DeleteKeyModal.keyToDelete new = DeleteKeyModal.keyToDelete old ∧ DeleteKeyModal.error new ≠ None
  | _ => True
  end.

Lemma create_told_spec m b b' r x v : CreateKeyModal.modal_ok m → CreateKeyModal.inflight m = Some b' →
  settle_call (CallCreate b) r = Some x → verdict_of (CallCreate b) r = Some v → create_told v (on_modal x m).
Proof.
  intros [_ Hm] Hi Hx Hv. specialize (Hm ltac:(by rewrite Hi)). destruct r as [o|o|o]; try done.
  injection Hx as <-. cbn [on_modal]. split; [apply create_settles|].
  cbn [verdict_of call_request] in Hv.
  pose proof (mutation_answered create_request (js "create-key-failed") o b) as H.   unfold CreateKeyModal.step, CreateKeyModal.handle, CreateKeyModal.onSettled. rewrite Hi.
  set (out := mutationFn create_request _ _ _) in *.
  match goal with |- context [CreateKeyModal.default_team ?m'] =>
    destruct (CreateKeyModal.default_team_frame m') as (_ & _ & _ & -> & -> & -> & -> & _) end.
  destruct (answered _ o) as [[d|d]|].
  - injection Hv as <-. rewrite H. by destruct (str_truthy (created_id d)).
  - by injection Hv as <-.
  - injection Hv as <-. destruct H as [e ->]. rewrite Hm. destruct (_ && _) eqn:Ed; [|split; [done|]; right; by right].
    destruct (includes (js "alias") _); [by split; [|left]|].
    destruct (includes (js "duration") _); (split; [done|]); [right; by left|right; by right].
Qed.

Lemma delete_told_spec p id id' r x v : DeleteKeyModal.inflight (Dashboard.deleting p) = Some id' →
  settle_call (CallDelete id) r = Some x → verdict_of (CallDelete id) r = Some v →
  delete_told v (Dashboard.deleting p) (Dashboard.deleting (on_page x p)).
Proof.
  intros Hi Hx Hv. destruct r as [o|o|o]; try done. injection Hx as <-.
  cbn [verdict_of call_request] in Hv. cbn [on_page].
  cbn [Dashboard.step Dashboard.deleting Dashboard.with_deleting DeleteKeyModal.step]. split; [by apply delete_settles|].
  pose proof (mutation_answered delete_request (js "delete-key-failed") o id) as H. unfold DeleteKeyModal.onSettled. rewrite Hi.
  destruct (answered (delete_request id) o) as [d|]; [rewrite H|destruct H as [e ->]]; by injection Hv as <-.
Qed.

(** *** A lost session *)

Definition responds_401 {T} (o : fetch_outcome T) : bool :=
  match o with Responds st _ => st =? 401 | Rejects _ => false end.

Definition reply_401 (r : reply) : bool :=
  match r with ReplyCreate o => responds_401 o | ReplyDelete o => responds_401 o | ReplyBlock o => responds_401 o end.

(** A session endpoint answers 401: to a call, to the keys query, or to any other
    request of the page. *)
Definition unauthorized (s : Console) (e : event) : Prop :=
  match e with
  | Answer i _ r => reply_401 r = true ∧ ∃ c alive, inflight s !! i = Some (c, alive) ∧
      call_request c ≠ None ∧ settle_call c r ≠ None
  | KeysAnswer _ o => responds_401 o = true
  | Boot (Session.OtherArrives url o) => starts_with SESSION_PREFIX url = true ∧ responds_401 o = true
  | _ => False
  end.

(** The events that read the session again. *)
Definition reloads (e : event) : bool :=
  match e with Boot (Session.Mount | Session.Retry | Session.MeContinues) => true | _ => false end.

Definition lost_session (x : Session.Shell) : Prop :=
  Session.s_status (Session.session x) = Some 401 ∧ Session.s_hasLoaded (Session.session x) = true.

Lemma apiFetch_401 {T} url (o : fetch_outcome T) : starts_with SESSION_PREFIX url = true →
  (apiFetch url o).2 = responds_401 o.
Proof. intros Hu. destruct o as [st b|name]; cbn; [by rewrite Hu, andb_true_r|]. by destruct (bool_decide _). Qed.

Lemma call_url c r : call_request c = Some r → starts_with SESSION_PREFIX (req_url r) = true.
Proof.
  assert (∀ id suffix u, key_url id suffix = Some u → starts_with SESSION_PREFIX u = true) as Hk.
  { intros id suffix u. unfold key_url. destruct (encodeURIComponent id) as [x|]; [|done].
    cbn [fmap option_fmap option_map]. intros [= <-]. apply (Frame.starts_with_app SESSION_PREFIX (js "keys/" ++ x ++ suffix)). }
  destruct c as [b|id|id b]; cbn [call_request]; unfold create_request, delete_request, block_request;
    [by intros [= <-]|intros (u & Hu & ->)%fmap_Some; by eapply Hk..].
Qed.

Lemma settle_lost c r x : settle_call c r = Some x → call_request c ≠ None → lost x = reply_401 r.
Proof.
  intros Hx Hc. destruct (call_request c) as [q|] eqn:Eq; [|done]. pose proof (call_url c q Eq) as Hu.
  destruct c as [b|id|id b], r as [o|o|o]; try done; injection Hx as <-; cbn [lost reply_401];
    unfold notified; rewrite Eq; by apply apiFetch_401.
Qed.

Lemma verdict_401 c r v : reply_401 r = true → verdict_of c r = Some v → v = Failed.
Proof.
  assert (∀ T q (o : fetch_outcome (payload T)), responds_401 o = true → answered q o = None) as Ha.
  { intros T q [st [[d|]|]|name]; cbn; [|by destruct q..]. intros ->%Z.eqb_eq. by destruct q. }
  intros Hr. destruct c, r; try done; cbn [verdict_of reply_401] in *; rewrite Ha by done; by intros [= <-].
Qed.

Lemma notify_lost x : Session.handler x = true → Session.s_hasLoaded (Session.session x) = true →
  lost_session (Session.notifyUnauthorized x).
Proof. intros Hh Hl. unfold Session.notifyUnauthorized. rewrite Hh. unfold lost_session. cbn. unfold Session.markExpired. by rewrite Hl. Qed.

Lemma notify_stays_lost x : lost_session x → lost_session (Session.notifyUnauthorized x).
Proof. intros [H1 H2]. destruct (Session.notifyUnauthorized_cases x) as [->|[_ ->]]; by split. Qed.

Lemma shell_stays_lost x e : reloads (Boot e) = false → lost_session x → lost_session (Session.step x e).
Proof.
  intros He Hx. pose proof (notify_stays_lost x Hx) as Hn. destruct e as [| | |o| |o|url o|]; try done; cbn [Session.step].
  - unfold Session.me_arrives. destruct (Session.me_pending x); [done|]. by destruct (apiFetch _ o) as [[] []].
  - unfold Session.config_arrives. by destruct (Session.config_pending x).
  - unfold Session.other_arrives. by destruct (apiFetch url o).2.
  - unfold Session.commit. by destruct (decide _).
Qed.

(** What an event does to the shell. *)
Lemma step_shell s e : match e with
  | Boot e => shell (step s (Boot e)) = Session.step (shell s) e
  | _ => shell (step s e) = shell s ∨ shell (step s e) = Session.notifyUnauthorized (shell s)
  end.
Proof.
  destruct e as [e|path|e|e|e| |i n r|rt o]; try (by left); [done|..]; unfold step; change (shell (tidy ?s)) with (shell s).
  - left. by destruct (navigate_keeps path s) as [? _].
  - left. cbn [dispatch]. by destruct e, (in_app s).
  - left. cbn [dispatch]. by destruct e as [|[]| | | | |[]|], (on_dashboard s).
  - left. by destruct e.
  - cbn [dispatch]. destruct (answer_cases i n r s) as [[-> _]|(c & alive & x & _ & _ & ->)]; [by left|].
    cbn [shell]. destruct (lost x); [by right|by left].
  - cbn [dispatch]. unfold keys_answer. destruct (apiFetch KEYS_URL o) as [p b].
    destruct (useKeys_query p), b, rt; (by left) || by right.
Qed.

Lemma step_stays_lost s e : reloads e = false → lost_session (shell s) → lost_session (shell (step s e)).
Proof.
  intros He Hs. pose proof (step_shell s e) as H. pose proof (notify_stays_lost _ Hs) as Hn.
  destruct e as [e|path|e|e|e| |i n r|rt o]; [rewrite H; by apply shell_stays_lost|..]; by destruct H as [->| ->].
Qed.

Lemma step_shell_ok s e : Session.shell_ok (shell s) → Session.shell_ok (shell (step s e)).
Proof.
  intros Hs. pose proof (step_shell s e) as H. pose proof (Session.notifyUnauthorized_ok _ Hs) as Hn.
  destruct e as [e|path'|e|e|e| |i n r|rt o]; [rewrite H; by apply Session.shell_step_ok|..]; by destruct H as [->| ->].
Qed.

Lemma run_shell_ok path es : Session.shell_ok (shell (run path es)).
Proof.
  apply (console_invariant path (λ _ s, Session.shell_ok (shell s))); [apply Session.initial_ok|]. intros. by apply step_shell_ok.
Qed.

Lemma in_app_loaded path es : in_app (run path es) = true → Session.s_hasLoaded (Session.session (shell (run path es))) = true.
Proof.
  destruct (run_shell_ok path es) as [Hs _]. unfold in_app, Session.App. intros Hi. apply Hs. revert Hi.
  destruct (Session.view _); try done. by destruct (Session.s_me _).
Qed.

(** A 401 is noticed. *)
Lemma unauthorized_lost s e : Session.handler (shell s) = true →
  Session.s_hasLoaded (Session.session (shell s)) = true → unauthorized s e →
  shell (step s e) = Session.notifyUnauthorized (shell s) ∧ fresh (client (step s e)) = fresh (client s).
Proof.
  intros Hh Hl He. destruct e as [[| | | | | |url o|]|path|e|e|e| |i n r|rt o]; try done; unfold step;
    change (shell (tidy ?s)) with (shell s); change (client (tidy ?s)) with (client s); cbn [dispatch].
  - destruct He as [Hu Ho]. split; [|done]. cbn [shell with_shell Session.step]. unfold Session.other_arrives.
    by rewrite apiFetch_401, Ho.
  - destruct He as (Hr & c & alive & Hi & Hc & Hx).
    destruct (answer_cases i n r s) as [[_ Hn]|(c' & a' & x & Hi' & Hx' & ->)]; [by rewrite (Hn c alive Hi) in Hx|].
    rewrite Hi in Hi'. injection Hi' as <- <-. cbn [shell client]. rewrite (settle_lost c r x Hx' Hc), Hr. split; [done|].
    pose proof (settle_verdict c r n (toasts s) (client s)) as Hv. rewrite Hx' in Hv.
    destruct Hv as (v & Hv & _ & -> & _). by rewrite (verdict_401 c r v Hr Hv).
  - cbn in He. split; [|by destruct (keys_answer_quiet rt o s) as (_ & _ & _ & -> & _)].
    unfold keys_answer. pose proof (apiFetch_401 KEYS_URL o ltac:(done)) as H. rewrite He in H.
    destruct (apiFetch KEYS_URL o) as [p b]. cbn in H. subst b. by destruct (useKeys_query p), rt.
Qed.

Lemma lost_view s : lost_session (shell s) → Session.view (shell s) = Session.expired ∧
  Session.App (shell s) = Session.LoadingCard ∧ in_app s = false ∧ ∀ w, enabled_events [view w s] = [].
Proof.
  intros [H1 H2]. assert (Session.view (shell s) = Session.expired) as Hv
    by (unfold Session.view, Session.resolveState; by rewrite H1, H2).
  assert (Session.App (shell s) = Session.LoadingCard) as Ha by (unfold Session.App; by rewrite Hv).
  split_and!; [done|done|unfold in_app; by rewrite Ha|]. intros w. unfold view, frame. by rewrite Ha.
Qed.

(** ** Properties *)

(** C2. What the signed-in application sends.  On every run in which the user raises
    only what is rendered at that moment (with any text typed into a field that
    takes input), while the backend answers the calls and the keys query in any
    order and the address, the session and time change in any way: every request
    sent creates a key with members that pass the form's validation, or deletes,
    disables or enables a key, and then a key of a row that an answer of the backend
    listed, a managed row for a delete, and the opposite of what the row says for
    the other two; an event sends one request at most, and none unless the
    application is shown; and each mounted dialog has at most one call under way,
    the one it shows as pending. *)
Theorem console_traffic path es : offered path es →
  let s := run path es in
  (∀ r, r ∈ sent s → ∃ c, call_request c = Some r ∧
     match c with
     | CallCreate b => CreateKeyModal.body_ok b
     | CallDelete id => id ≠ [] ∧ ∃ row, listed es row ∧ k_managed row ≠ Some false ∧ k_id row = Some id
     | CallBlock id b => ∃ row, listed es row ∧ id = default [] (k_id row) ∧ b = negb (Keys.flag (k_blocked row))
     end) ∧
  (∀ e, ∃ rs, sent (step s e) = sent s ++ rs ∧ (length rs ≤ 1)%nat ∧ (rs ≠ [] → in_app s = true)) ∧
  omap create_of (inflight s) = option_list (CreateKeyModal.inflight (createModal s)) ∧
  omap delete_of (inflight s) = option_list (DeleteKeyModal.inflight (Dashboard.deleting (dashboard s))).
Proof.
  intros Ho s. destruct (run_traffic path es Ho) as (_ & _ & _ & Hs). rewrite Forall_forall in Hs.
  split; [|split; [|apply run_linked]].
  - intros r Hr. destruct (Hs r Hr) as (c & Hc & Ha). exists c. split; [done|].
    destruct c as [b|id|id b]; [done| |].
    + destruct Ha as (row & [? ?] & ? & ?). split; [done|]. by exists row.
    + destruct Ha as (row & ? & [= -> ->]). by exists row.
  - intros e. destruct (step_sends s e) as (cs & Hl & Hsent & Happ & _). exists (omap call_request cs).
    split; [done|]. destruct cs as [|c [|]]; [by split; [simpl; lia|]| |simpl in Hl; lia].
    split; [simpl; destruct (call_request c); simpl; lia|]. intros _. by apply Happ.
Qed.

(** C8. The application refines a ledger of calls, secrets and whether to read the
    keys again.  On every run: whatever the user or the world does opens at most one
    call and changes nothing else in it; an answer settles one call, and only once,
    also when the dialog or the page that made the call is gone, with the secret it
    issued stored, the one it removed dropped, a re-read owed on success, and one
    notice on failure or removal; a new list discharges the re-read.  The dialogs
    follow it: the one whose call was answered is idle again and shows the issued
    secret, or its error over the same input, or has closed; an answer to a call
    whose dialog is gone changes no dialog. *)
Theorem console_ledger path es : let s := run path es in
  (∀ i n r, let s' := step s (Answer i n r) in
     match calls s !! i ≫= λ c, pair c <$> verdict_of c r with
     | Some (c, v) => ledger s' = settled i v (ledger s) ∧ toasts s' = told n c v (toasts s)
     | None => ledger s' = ledger s ∧ toasts s' = toasts s
     end) ∧
  (∀ rt o, ledger (step s (KeysAnswer rt o)) =
     match rows_of o with Some _ => relisted (ledger s) | None => ledger s end) ∧
  (∀ e, is_answer e = false → ∃ cs, (length cs ≤ 1)%nat ∧ ledger (step s e) = opened cs (ledger s)) ∧
  ∀ i n r c alive v, inflight s !! i = Some (c, alive) → verdict_of c r = Some v →
    let s' := step s (Answer i n r) in
    (in_app s' = true →
       match c, alive with
       | CallCreate _, true => create_told v (createModal s')
       | _, _ => createModal s' = createModal s
       end) ∧
    (on_dashboard s' = true →
       match c, alive with
       | CallDelete _, true => delete_told v (Dashboard.deleting (dashboard s)) (Dashboard.deleting (dashboard s'))
       | _, _ => Dashboard.deleting (dashboard s') = Dashboard.deleting (dashboard s)
       end).
Proof.
  intros s. split; [intros; apply answer_ledger|]. split; [intros; apply keys_ledger|].
  split; [intros; by apply other_ledger|]. intros i n r c alive v Hi Hv. cbn zeta.
  pose proof (settle_verdict c r n (toasts s) (client s)) as Hx.
  change (in_app (step s (Answer i n r))) with (in_app (answer i n r s)).
  change (on_dashboard (step s (Answer i n r))) with (on_dashboard (answer i n r s)).
  unfold step, tidy. cbn [dispatch createModal dashboard with_inflight with_parts].
  destruct (run_linked path es) as [L1 L2]. fold s in L1, L2. pose proof (run_modal_ok path es) as Hok. fold s in Hok.
  assert (∀ (f : call * bool → option CreateKeyBody) b, f (c, alive) = Some b → b ∈ omap f (inflight s)) as Hf
    by (intros f b Hb; apply list_elem_of_omap; exists (c, alive); split; [by eapply list_elem_of_lookup_2|done]).
  assert (∀ (f : call * bool → option jsstr) b, f (c, alive) = Some b → b ∈ omap f (inflight s)) as Hg
    by (intros f b Hb; apply list_elem_of_omap; exists (c, alive); split; [by eapply list_elem_of_lookup_2|done]).
  destruct (answer_cases i n r s) as [[_ Hn]|(c' & a' & x & Hi' & Hs & ->)].
  { rewrite (Hn c alive Hi) in Hx. congruence. }
  rewrite Hi in Hi'. injection Hi' as <- <-. cbn [createModal dashboard]. split; intros ->.
  - destruct c as [b|id|id b], r as [o|o|o], alive; try done; try (injection Hs as <-; done).
    specialize (Hf create_of b eq_refl). rewrite L1 in Hf.
    destruct (CreateKeyModal.inflight (createModal s)) as [b'|] eqn:Eb; [|by apply elem_of_nil in Hf].
    by eapply create_told_spec.
  - destruct c as [b|id|id b], r as [o|o|o], alive; try done; try (injection Hs as <-; done).
    specialize (Hg delete_of id eq_refl). rewrite L2 in Hg.
    destruct (DeleteKeyModal.inflight (Dashboard.deleting (dashboard s))) as [b'|] eqn:Eb; [|by apply elem_of_nil in Hg].
    by eapply delete_told_spec.
Qed.

Lemma not_in_app_tidied s : in_app s = false → let s' := tidy s in
  CreateKeyModal.inflight (createModal s') = None ∧ CreateKeyModal.pristine (createModal s') ∧
  Dashboard.deleting (dashboard s') = DeleteKeyModal.initial ∧ Forall (λ p, p.2 = false) (inflight s').
Proof.
  intros Hs. assert (on_dashboard s = false) as Hd by (unfold on_dashboard; by rewrite Hs).
  unfold tidy. cbn [createModal dashboard inflight with_inflight with_parts]. rewrite Hs, Hd.
  destruct (fresh_create_pristine (createModal s)) as [H1 H2]. split; [done|]. split; [done|]. split; [done|].
  apply Forall_fmap, Forall_forall. intros [c alive] _. cbn. rewrite andb_false_iff. right.
  unfold mounted. by rewrite Hs, Hd; destruct c.
Qed.

(** C17. A session lost while working.  On every run, when the application is shown and
    listens, and any session endpoint answers 401 (to a key operation, to the keys
    query, or to another request of a page): in that step the application is gone
    and nothing can be clicked; the create dialog keeps no input, result or error,
    the revoke dialog no target; every call still under way is without a component;
    no secret is lost and nothing is sent.  The next commit goes to the login
    address, once.  And it stays so: whatever answers, arrives or elapses, until the
    session is read again nothing is offered and nothing is sent. *)
Theorem console_expiry path es e : let s := run path es in
  in_app s = true → Session.handler (shell s) = true → unauthorized s e →
  let s' := step s e in
  Session.App (shell s') = Session.LoadingCard ∧
  CreateKeyModal.inflight (createModal s') = None ∧ CreateKeyModal.pristine (createModal s') ∧
  Dashboard.deleting (dashboard s') = DeleteKeyModal.initial ∧ Forall (λ p, p.2 = false) (inflight s') ∧
  fresh (client s') = fresh (client s) ∧
  Session.redirects (shell (step s' (Boot Session.Commit))) = Session.redirects (shell s) ++
    (if decide (Session.committed (shell s) = Some Session.expired) then [] else [Session.EXPIRED_REDIRECT_URL]) ∧
  ∀ es', Forall (λ e, reloads e = false) es' → let s'' := foldl step s' es' in
    Session.view (shell s'') = Session.expired ∧ (∀ w, enabled_events [view w s''] = []) ∧ sent s'' = sent s.
Proof.
  intros s Hi Hh He s'. pose proof (in_app_loaded path es Hi) as Hl. fold s in Hl.
  destruct (unauthorized_lost s e Hh Hl He) as [Hs Hf]. fold s' in Hs, Hf.
  assert (lost_session (shell s')) as Hlost by (rewrite Hs; by apply notify_lost).
  destruct (lost_view s' Hlost) as (Hv & Ha & Hn & _).
  destruct (not_in_app_tidied (dispatch s e) Hn) as (H1 & H2 & H3 & H4).
  split; [done|]. split; [exact H1|]. split; [exact H2|]. split; [exact H3|]. split; [exact H4|]. split; [done|]. split.
  - change (shell (step s' (Boot Session.Commit))) with (Session.commit (shell s')).
    assert (Session.redirects (shell s') = Session.redirects (shell s) ∧ Session.committed (shell s') = Session.committed (shell s))
      as [<- <-] by (rewrite Hs; by destruct (Session.notifyUnauthorized_cases (shell s)) as [->|[_ ->]]).
    unfold Session.commit. rewrite Hv. destruct (decide _); [by rewrite app_nil_r|done].
  - intros es' Hes'. cbn zeta. assert (∀ t, lost_session (shell t) → lost_session (shell (foldl step t es')) ∧ sent (foldl step t es') = sent t) as Hstay.
    { clear -Hes' Eng. induction Hes' as [|e es' He' _ IH]; intros t Ht; [done|]. cbn [foldl].
      destruct (IH (step t e) (step_stays_lost t e He' Ht)) as [? ->]. split; [done|].
      destruct (step_sends t e) as (cs & _ & -> & Hin & _). destruct cs; [by rewrite app_nil_r|].
      destruct (lost_view t Ht) as (_ & _ & Hn & _). by rewrite Hin in Hn by done. }
    destruct (Hstay s' Hlost) as [Hend ->]. destruct (lost_view _ Hend) as (? & _ & _ & ?). split_and!; [done..|].
    unfold s', step. change (sent (tidy ?s)) with (sent s).
    destruct e as [[| | | | | |url o|]|path'|e|e|e| |i n r|rt o]; try done; [apply answer_sent|].
    cbn [dispatch]. by destruct (keys_answer_quiet rt o s) as (_ & _ & _ & _ & _ & _ & ->).
Qed.

(** *** Well-formed states *)

Record wf (s : Console) : Prop := {
  wf_shell : Session.shell_ok (shell s);
  wf_create : CreateKeyModal.modal_ok (createModal s);
  wf_delete : DeleteKeyModal.modal_ok (Dashboard.deleting (dashboard s));
  wf_linked : linked s;
  wf_toasts : Toast.toasts_ok (toasts s);
  wf_open : Dashboard.createOpen (dashboard s) = CreateKeyModal.open (createModal s);
  wf_alive : Forall (λ p, p.2 = true → mounted s p.1 = true) (inflight s);
  wf_frame : in_app s = false →
    CreateKeyModal.inflight (createModal s) = None ∧ CreateKeyModal.pristine (createModal s);
  wf_page : on_dashboard s = false →
    Dashboard.deleting (dashboard s) = DeleteKeyModal.initial ∧ Dashboard.blocked (dashboard s) = [] ∧
    Dashboard.showExternal (dashboard s) = false ∧ Dashboard.tableSort (dashboard s) = Dashboard.default_sort
}.

Lemma dashboard_deleting p e : Dashboard.deleting (Dashboard.step p e) = Dashboard.deleting p ∨
  ∃ e', Dashboard.deleting (Dashboard.step p e) = DeleteKeyModal.step (Dashboard.deleting p) e' ∧
    ∀ o, e' = DeleteKeyModal.Settled o → e = Dashboard.Delete (DeleteKeyModal.Settled o).
Proof. destruct e as [[| | |row]|e| | | | | |]; try (by left); right; eexists; (split; [done|congruence]). Qed.

Lemma initial_delete_ok : DeleteKeyModal.modal_ok DeleteKeyModal.initial.
Proof. by split. Qed.

Lemma step_delete_ok s e : DeleteKeyModal.modal_ok (Dashboard.deleting (dashboard s)) →
  DeleteKeyModal.modal_ok (Dashboard.deleting (dashboard (step s e))).
Proof.
  intros Hs. unfold step, tidy. cbn [dashboard with_inflight with_parts sync_open Dashboard.deleting].
  destruct (on_dashboard (dispatch s e)); [|apply initial_delete_ok].
  assert (∀ p', DeleteKeyModal.modal_ok (Dashboard.deleting (Dashboard.step (dashboard s) p'))) as Hstep.
  { intros p'. destruct (dashboard_deleting (dashboard s) p') as [->|(e' & -> & _)]; [done|by apply DeleteKeyModal.delete_step_ok]. }
  destruct (is_answer e) eqn:Ea.
  - destruct e as [| | | | | |i n r|rt o]; try done; cbn [dispatch].
    + destruct (answer_cases i n r s) as [[-> _]|(c & alive & x & Hi & Hx & ->)]; [done|]. cbn [dashboard].
      destruct alive; [|done]. destruct c, r; try done; injection Hx as <-; cbn [on_page]; [done| |done].
      refine (Hstep (Dashboard.Delete (DeleteKeyModal.Settled _))).
    + by destruct (keys_answer_quiet rt o s) as (_ & -> & _).
  - destruct (dispatch_moves s e Ea) as [(_ & -> & _)|[(path & _ & _ & ->)|(m & p & -> & _ & _ & _ & Hp)]]; [done|apply initial_delete_ok|].
    cbn [dashboard update]. destruct Hp as [->|(e' & _ & -> & _)]; [done|apply Hstep].
Qed.

Lemma raised_ok n l t : Toast.toasts_ok t → Toast.toasts_ok (raised n l t).
Proof.
  revert t. induction l as [|e l IH]; intros t Ht; [done|]. cbn. apply IH. destruct e as [| | |msg]; try done.
  by apply (Toast.toast_step_ok t (Toast.Push msg (Some Toast.error) None n)).
Qed.

Lemma step_toasts_ok s e : Toast.toasts_ok (toasts s) → Toast.toasts_ok (toasts (step s e)).
Proof.
  intros Hs. unfold step. change (toasts (tidy ?s)) with (toasts s).
  destruct e as [e|path|e|e|e| |i n r|rt o]; try exact Hs; cbn [dispatch].
  - by destruct (navigate_keeps path s) as (_ & _ & -> & _).
  - by destruct e, (in_app s).
  - by destruct e as [|[]| | | | |[]|], (on_dashboard s).
  - destruct e as [msg v d n|id| |n]; try exact Hs; cbn [toasts with_toasts]; by apply Toast.toast_step_ok.
  - destruct (answer_cases i n r s) as [[-> _]|(c & alive & x & _ & _ & ->)]; [done|]. cbn [toasts]. unfold announced.
    pose proof (raised_ok n (effects x) _ Hs) as Hr. destruct (notice x) as [msg|]; [|done].
    by apply (Toast.toast_step_ok _ (Toast.Push msg (Some Toast.success) None n)).
  - by destruct (keys_answer_quiet rt o s) as (_ & _ & _ & _ & -> & _).
Qed.

(** C18. The application starts in a well-formed state, and every event keeps it so:
    the session is known only after it loaded, both dialogs' own invariants hold,
    each has under way exactly the call it shows as pending, every toast has its
    timer, the open flag has one value, a call counts a component only while that
    component is mounted, and what is not mounted keeps no input, secret, target,
    request or table setting. *)
Theorem console_well_formed path :
  wf (initial path) ∧ (∀ s e, wf s → wf (step s e)) ∧ ∃ s, main true path = inr s ∧ wf s.
Proof.
  assert (wf (initial path) ∧ ∀ s e, wf s → wf (step s e)) as [H0 HS];
    [|split; [exact H0|split; [exact HS|eexists; split; [done|by apply HS]]]].
  split.
  - split; [apply Session.initial_ok|by split|by split|by split| |done..].
    split; [done|]. split; [apply NoDup_nil_2|]. by split.
  - intros s e [H1 H2 H3 H4 H5 _ _ _ _]. split;
      [by apply step_shell_ok|by apply step_create_ok|by apply step_delete_ok|by apply step_linked|by apply step_toasts_ok|done|..].
    + unfold step. generalize (dispatch s e). intros t. unfold tidy. cbn [inflight with_inflight]. apply Forall_fmap, Forall_forall.
      intros [c alive] _. cbn. by intros [_ ?]%andb_true_iff.
    + intros Hn. by destruct (not_in_app_tidied (dispatch s e) Hn) as (? & ? & _).
    + intros Hn. unfold step in *. revert Hn. generalize (dispatch s e). intros t Hn.
      change (on_dashboard (tidy t)) with (on_dashboard t) in Hn. unfold tidy.
      cbn [dashboard with_inflight with_parts]. by rewrite Hn.
Qed.

(** *** What is rendered *)

(** The values a variant of a component may take. *)
Definition variant_values (c : Ui.cva_config) : list jsstr :=
  map (λ p, js p.1) (default [] (snd <$> List.find (λ p, String.eqb p.1 "variant") (Ui.cva_variants c))).

(** A button that asks for a variant asks for one there is. *)
Definition variant_ok {E} (x : string * list (string * aval) * list (string * E)) : Prop :=
  x.1.1 = "Button" → ∀ v, Ui.str_prop "variant" x.1.2 = Some v → v ∈ variant_values Ui.buttonVariants_config.

Definition variants_ok {E} (l : list (node E)) : Prop := Forall variant_ok (all_elements l).

Lemma variants_app {E} (l1 l2 : list (node E)) : variants_ok (l1 ++ l2) ↔ variants_ok l1 ∧ variants_ok l2.
Proof. unfold variants_ok. rewrite all_elements_app. apply Forall_app. Qed.

Lemma variants_cons {E} (n : node E) l : variants_ok (n :: l) ↔ variants_ok [n] ∧ variants_ok l.
Proof. apply (variants_app [n]). Qed.

Lemma variants_nil {E} : variants_ok (@nil (node E)).
Proof. by constructor. Qed.

Lemma variants_Text {E} s : variants_ok [Text (E := E) s].
Proof. by constructor. Qed.

Lemma variants_El {E} t a (on : list (string * E)) l : variants_ok [El t a on l] ↔ variant_ok (t, a, on) ∧ variants_ok l.
Proof. unfold variants_ok, all_elements. cbn [flat_map elements]. rewrite app_nil_r. apply Forall_cons. Qed.

Lemma not_button {E} t a (on : list (string * E)) : String.eqb t "Button" = false → variant_ok (t, a, on).
Proof. intros Ht He. cbn in He. by rewrite He in Ht. Qed.

Lemma button_variant {E} v a (on : list (string * E)) : v ∈ variant_values Ui.buttonVariants_config →
  variant_ok ("Button", ("variant", AStr v) :: a, on).
Proof. intros Hv _ w. cbn. by intros [= <-]. Qed.

Lemma button_plain {E} a (on : list (string * E)) : attribute "variant" a = None → variant_ok ("Button", a, on).
Proof. intros Ha _ w. unfold Ui.str_prop. cbn [fst snd]. by rewrite Ha. Qed.

Lemma button_variants : js "destructive" ∈ variant_values Ui.buttonVariants_config ∧
  js "outline" ∈ variant_values Ui.buttonVariants_config.
Proof. split; apply (bool_decide_eq_true_1 _); vm_compute; reflexivity. Qed.

Ltac variants :=
  repeat match goal with
  | |- variants_ok [] => apply variants_nil
  | |- variants_ok [Text _] => apply variants_Text
  | |- variants_ok [El _ _ _ _] => apply variants_El; split
  | |- variants_ok (_ :: _ :: _) => apply variants_cons; split
  | |- variants_ok (_ ++ _) => apply variants_app; split
  | |- variant_ok ("Button", ("variant", _) :: _, _) => apply button_variant; apply button_variants
  | |- variant_ok ("Button", _, _) => by apply button_plain
  | |- variant_ok _ => by apply not_button
  end.

Lemma error_text_variants e : variants_ok (CreateKeyModal.error_text e).
Proof. unfold CreateKeyModal.error_text. destruct e as [[|c s]|]; variants. Qed.

Lemma field_variants id lbl ph v hint err m change : variants_ok [CreateKeyModal.field id lbl ph v hint err m change].
Proof. unfold CreateKeyModal.field. variants. apply error_text_variants. Qed.

Lemma create_variants m : variants_ok [CreateKeyModal.CreateKeyModal m].
Proof.
  unfold CreateKeyModal.CreateKeyModal, when. variants. destruct (CreateKeyModal.open m); [|variants].
  destruct (CreateKeyModal.result m) as [r|].
  - unfold CreateKeyModal.result_view. variants; [by destruct (Copy.copied _); apply not_button|].
    destruct (CreateKeyModal.result_key r); cbn [for_some]; variants.
  - unfold CreateKeyModal.form_view, when. variants; try apply field_variants; try apply error_text_variants.
    destruct (1 <? _)%nat; variants. induction (CreateKeyModal.teams m) as [|x l IH]; cbn [map]; [variants|].
    apply variants_cons. split; [variants|exact IH].
Qed.

Lemma delete_variants m : variants_ok [DeleteKeyModal.DeleteKeyModal m].
Proof.
  unfold DeleteKeyModal.DeleteKeyModal, when. variants. destruct (DeleteKeyModal.open m); [|variants].
  variants. destruct (DeleteKeyModal.error m) as [[|c s]|]; variants.
Qed.

(** C13. What is rendered is what the models say.  Whatever the class-name libraries
    compute, rendering the application's tree down through the styling components
    leaves what the user can do, read and follow as it is; each component passes on
    every prop it does not consume, together with the handlers, to one element; and
    the variants asked for, by the dialogs, the error card and the status of a key,
    are among those the components define. *)
Theorem rendered_faithful clsx twMerge cva w s :
  let lower := Ui.lower clsx twMerge cva in
  enabled_events [lower (view w s)] = enabled_events [view w s] ∧
  text_content (lower (view w s)) = text_content (view w s) ∧
  hrefs [lower (view w s)] = hrefs [view w s] ∧
  (∀ (t : string) (c : Ui.component event) k v a on l,
     Ui.ui clsx twMerge cva t = Some c → k ∉ Ui.OWN → attribute k a = Some v →
     ∃ t' b, (t', b, on) ∈ elements (c a on l) ∧ attribute k b = Some v) ∧
  variants_ok [CreateKeyModal.CreateKeyModal (createModal s)] ∧
  variants_ok [DeleteKeyModal.DeleteKeyModal (Dashboard.deleting (dashboard s))] ∧
  (∀ retrying, variants_ok [Frame.ErrorCard (Boot Session.Retry) retrying]) ∧
  (∀ row n, (KeysTable.statusFor row n).2 ∈ variant_values Ui.badgeVariants_config).
Proof.
  cbn zeta. split; [apply Ui.lower_events|]. split; [apply Ui.lower_text|]. split; [apply Ui.lower_links|].
  split; [|split; [apply create_variants|split; [apply delete_variants|split]]].
  - intros t c k v a on l Hc. pose proof (Ui.ui_transparent _ _ _ t c Hc). apply Ui.tr_props.
  - intros retrying. unfold Frame.ErrorCard. variants.
  - assert (Forall (λ v, v ∈ variant_values Ui.badgeVariants_config) [js "destructive"; js "secondary"; js "outline"; js "default"]) as Hv.
    { repeat apply Forall_cons_2; try apply Forall_nil_2; apply (bool_decide_eq_true_1 _); vm_compute; reflexivity. }
    rewrite Forall_forall in Hv. intros row n. unfold KeysTable.statusFor.
    destruct (Keys.flag _); [apply Hv; left|]. destruct (Keys.isBlocked _); [apply Hv; right; left|].
    destruct (Keys.isExpired _ _); apply Hv; right; right; [left|right; left].
Qed.

(** *** The parts on their own *)

(** What a part is told over a run: what each event tells it, in the state the event
    finds. *)
Fixpoint history {X} (hears : Console → event → list X) (s : Console) (es : list event) : list X :=
  match es with [] => [] | e :: es => hears s e ++ history hears (step s e) es end.

Lemma history_snoc {X} (hears : Console → event → list X) s es e :
  history hears s (es ++ [e]) = history hears s es ++ hears (foldl step s es) e.
Proof.
  revert s. induction es as [|e' es IH]; intros s; cbn; [by rewrite app_nil_r|]. by rewrite IH, app_assoc.
Qed.

(** A part follows its history if it does so at every event. *)
Lemma follows {X P} (hears : Console → event → list X) (tell : P → X → P) (part : Console → P) path es :
  (∀ s e, part (step s e) = foldl tell (part s) (hears s e)) →
  part (run path es) = foldl tell (part (initial path)) (history hears (initial path) es).
Proof.
  intros Hs. induction es as [|e es IH] using rev_ind; [done|].
  by rewrite console_run_snoc, history_snoc, Hs, foldl_app, IH.
Qed.

(** A component is told of an event, or is mounted anew. *)
Inductive heard (E : Type) := Hears (e : E) | Remounted.
Arguments Hears {_} _. Arguments Remounted {_}.

(** The reply is one to the call. *)
Definition replies_to (c : call) (r : reply) : bool :=
  match c, r with
  | CallCreate _, ReplyCreate _ | CallDelete _, ReplyDelete _ | CallBlock _ _, ReplyBlock _ => true
  | _, _ => false
  end.

(** Another request of the session answered 401. *)
Definition lost_event : Session.event := Session.OtherArrives KEYS_URL (Responds 401 JsonThrows).

(** The shell: its own events, and a 401 to a call under way that was really sent, or
    to the keys query. *)
Definition shell_hears (s : Console) (e : event) : list Session.event :=
  match e with
  | Boot e => [e]
  | Answer i _ r =>
      match inflight s !! i with
      | Some (c, _) =>
          if replies_to c r && bool_decide (is_Some (call_request c)) && reply_401 r then [lost_event] else []
      | None => []
      end
  | KeysAnswer _ o => if responds_401 o then [lost_event] else []
  | _ => []
  end.

(** The notices of a settled call. *)
Definition notices (now : Z) (c : call) (v : verdict) : list Toast.event :=
  match c, v with
  | CallCreate _, Failed => [Toast.Push (js "Could not create the key.") (Some Toast.error) None now]
  | CallDelete _, Failed => [Toast.Push (js "Could not delete the key.") (Some Toast.error) None now]
  | CallBlock _ _, Failed => [Toast.Push (js "Could not update the key.") (Some Toast.error) None now]
  | CallDelete _, _ => [Toast.Push (js "Key revoked") (Some Toast.success) None now]
  | _, _ => []
  end.

(** The toasts: the user's dismissals, the timers, and the notices of the calls. *)
Definition toasts_hear (s : Console) (e : event) : list Toast.event :=
  match e with
  | Toasts (Toast.Push _ _ _ _) => []
  | Toasts e => [e]
  | Answer i now r =>
      match calls s !! i ≫= λ c, pair c <$> verdict_of c r with Some (c, v) => notices now c v | None => [] end
  | _ => []
  end.

(** The address has a page inside the shell. *)
Definition inside (e : event) : bool :=
  match e with Route path => bool_decide (is_Some (Session.matchRoute path)) | _ => true end.

Definition remounts {E} (stays : bool) : list (heard E) := if stays then [] else [Remounted].

(** The create dialog: the user's events and its own while it is shown, the button of
    the dashboard, and the outcome of the call it made and is still there for. *)
Definition create_hears (s : Console) (e : event) : list (heard CreateKeyModal.event) :=
  match e with
  | Create (CreateKeyModal.Settled _) => []
  | Create e => if in_app s then [Hears e] else []
  | Dash Dashboard.NewKey => if on_dashboard s then [Hears CreateKeyModal.Open] else []
  | Answer i _ (ReplyCreate o) =>
      match inflight s !! i with
      | Some (CallCreate b, true) => [Hears (CreateKeyModal.Settled (useCreateKey (server_of o) b).1)]
      | _ => []
      end
  | _ => []
  end ++ remounts (in_app (step s e) && inside e).

(** Mounted anew, it is as after being opened, if it was open, and told the teams. *)
Definition create_tell (m : CreateKeyModal.Modal) (h : heard CreateKeyModal.event) : CreateKeyModal.Modal :=
  match h with
  | Hears e => CreateKeyModal.step m e
  | Remounted =>
      CreateKeyModal.run ((if CreateKeyModal.open m then [CreateKeyModal.Open] else []) ++
                          [CreateKeyModal.TeamsLoaded (CreateKeyModal.teams m)]) CreateKeyModal.initial
  end.

(** The dashboard, with its revoke dialog: the same, and the reports of its queries. *)
Definition page_hears (s : Console) (e : event) : list (heard Dashboard.event) :=
  match e with
  | Dash (Dashboard.Delete (DeleteKeyModal.Settled _) | Dashboard.KeysReport (KeysTable.Loaded _ | KeysTable.Failed)) => []
  | Dash e => if on_dashboard s then [Hears e] else []
  | Answer i _ (ReplyDelete o) =>
      match inflight s !! i with
      | Some (CallDelete id, true) =>
          [Hears (Dashboard.Delete (DeleteKeyModal.Settled (useDeleteKey (server_of o) id).1))]
      | _ => []
      end
  | KeysAnswer retries o =>
      match useKeys_query (apiFetch KEYS_URL o).1 with
      | Data rows => [Hears (Dashboard.KeysReport (KeysTable.Loaded rows))]
      | Throws _ => if retries then [] else [Hears (Dashboard.KeysReport KeysTable.Failed)]
      | Cancelled => []
      end
  | _ => []
  end ++ remounts (on_dashboard (step s e) && inside e).

(** The open flag, a store of its own, is left out. *)
Definition closed (p : Dashboard.Page) : Dashboard.Page := sync_open false p.

Definition page_tell (p : Dashboard.Page) (h : heard Dashboard.event) : Dashboard.Page :=
  closed match h with Hears e => Dashboard.step p e | Remounted => fresh_dashboard p end.

(** The address. *)
Definition address (e : event) : option jsstr := match e with Route path => Some path | _ => None end.

Lemma settled_lost c r x : settle_call c r = Some x →
  lost x = replies_to c r && bool_decide (is_Some (call_request c)) && reply_401 r.
Proof.
  intros Hx. assert (replies_to c r = true) as -> by (by destruct c, r).
  destruct (call_request c) as [q|] eqn:Eq; [by rewrite (settle_lost c r x Hx) by (by rewrite Eq)|].
  destruct c as [b|id|id b], r as [o|o|o]; try done; injection Hx as <-; cbn [lost]; unfold notified; by rewrite Eq.
Qed.

Lemma unsettled c r : settle_call c r = None → replies_to c r = false.
Proof. by destruct c, r. Qed.

Lemma lost_step x : Session.step x lost_event = Session.notifyUnauthorized x.
Proof. reflexivity. Qed.

Lemma shell_follows s e : shell (step s e) = foldl Session.step (shell s) (shell_hears s e).
Proof.
  unfold step. change (shell (tidy ?s)) with (shell s).
  destruct e as [e|path|e|e|e| |i n r|rt o]; try done; cbn [dispatch shell_hears].
  - by destruct (navigate_keeps path s) as [? _].
  - by destruct e, (in_app s).
  - by destruct e as [|[]| | | | |[]|], (on_dashboard s).
  - by destruct e.
  - destruct (answer_cases i n r s) as [[-> Hn]|(c & alive & x & Hi & Hx & ->)].
    + destruct (inflight s !! i) as [[c alive]|]; [|done]. by rewrite (unsettled c r (Hn c alive eq_refl)).
    + rewrite Hi, <-(settled_lost c r x Hx). cbn [shell]. by destruct (lost x).
  - unfold keys_answer. pose proof (apiFetch_401 KEYS_URL o ltac:(done)) as H.
    destruct (apiFetch KEYS_URL o) as [p b]. cbn in H. subst b. by destruct (useKeys_query p), rt, (responds_401 o).
Qed.

Lemma told_notices n c v t : told n c v t = foldl Toast.step t (notices n c v).
Proof. by destruct c, v. Qed.

Lemma toasts_follow s e : toasts (step s e) = foldl Toast.step (toasts s) (toasts_hear s e).
Proof.
  destruct e as [e|path|e|e|e| |i n r|rt o]; try done; cbn [toasts_hear].
  - unfold step. change (toasts (tidy ?s)) with (toasts s). cbn [dispatch]. by destruct (navigate_keeps path s) as (_ & _ & -> & _).
  - unfold step. change (toasts (tidy ?s)) with (toasts s). cbn [dispatch]. by destruct e, (in_app s).
  - unfold step. change (toasts (tidy ?s)) with (toasts s). cbn [dispatch].
    by destruct e as [|[]| | | | |[]|], (on_dashboard s).
  - by destruct e.
  - pose proof (answer_ledger i n r s) as H. cbn zeta in H.
    destruct (calls s !! i ≫= _) as [[c v]|]; destruct H as [_ ->]; [apply told_notices|done].
  - by destruct (keys_ledger rt o s) as [_ ->].
Qed.

(** A dialog mounted anew is as [create_tell] says. *)
Lemma fresh_create_told m : fresh_create m = create_tell m Remounted.
Proof. by destruct m as [[] ? ? ? ? ? ? ? ? ? ?]. Qed.

Lemma fresh_create_idem m : fresh_create (fresh_create m) = fresh_create m.
Proof.
  rewrite (fresh_create_told m). unfold create_tell.
  assert (∀ b l, fresh_create (CreateKeyModal.run ((if b : bool then [CreateKeyModal.Open] else []) ++ [CreateKeyModal.TeamsLoaded l])
    CreateKeyModal.initial) = CreateKeyModal.run ((if b then [CreateKeyModal.Open] else []) ++ [CreateKeyModal.TeamsLoaded l])
    CreateKeyModal.initial) as H by (by intros [] [|t l]). apply H.
Qed.

(** The create dialog after the event, before what is not shown is unmounted. *)
Lemma dispatch_create s e : inside e = true →
  createModal (dispatch s e) = foldl create_tell (createModal s)
    match e with
    | Create (CreateKeyModal.Settled _) => []
    | Create e => if in_app s then [Hears e] else []
    | Dash Dashboard.NewKey => if on_dashboard s then [Hears CreateKeyModal.Open] else []
    | Answer i _ (ReplyCreate o) =>
        match inflight s !! i with
        | Some (CallCreate b, true) => [Hears (CreateKeyModal.Settled (useCreateKey (server_of o) b).1)]
        | _ => []
        end
    | _ => []
    end.
Proof.
  destruct e as [e|path|e|e|e| |i n r|rt o]; try done; cbn [dispatch inside].
  - intros [p Hp]%bool_decide_eq_true. unfold navigate. by rewrite Hp.
  - intros _. by destruct e, (in_app s).
  - intros _. by destruct e as [|[]| | | | |[]|], (on_dashboard s).
  - intros _. by destruct e.
  - intros _. destruct (answer_cases i n r s) as [[-> Hn]|(c & alive & x & Hi & Hx & ->)].
    + destruct r as [o|o|o]; try done. destruct (inflight s !! i) as [[[b| |] []]|] eqn:Ei; try done.
      by specialize (Hn _ _ eq_refl).
    + rewrite Hi. cbn [createModal]. by destruct c, r, alive; try done; injection Hx as <-.
  - intros _. by destruct (keys_answer_quiet rt o s) as (-> & _).
Qed.

Lemma create_follows s e : createModal (step s e) = foldl create_tell (createModal s) (create_hears s e).
Proof.
  unfold create_hears. rewrite foldl_app. change (in_app (step s e)) with (in_app (dispatch s e)).
  unfold step, tidy. cbn [createModal with_inflight with_parts].
  destruct (inside e) eqn:Ei.
  - rewrite <-(dispatch_create s e Ei), andb_true_r. destruct (in_app (dispatch s e)); [done|]. apply fresh_create_told.
  - destruct e as [|path| | | | | |]; try done. rewrite andb_false_r. cbn [remounts foldl]. rewrite <-fresh_create_told.
    cbn [dispatch inside] in *. apply bool_decide_eq_false in Ei. unfold navigate.
    destruct (Session.matchRoute path) as [p|]; [by destruct Ei|].
    cbn [unmounted createModal with_inflight with_parts with_route]. destruct (in_app _); [done|]. apply fresh_create_idem.
Qed.

Lemma closed_step p e : closed (Dashboard.step p e) = closed (Dashboard.step (closed p) e).
Proof. by destruct e as [[]| | | | | | |]. Qed.

Lemma dispatch_page s e : inside e = true →
  closed (dashboard (dispatch s e)) = foldl page_tell (closed (dashboard s))
    match e with
    | Dash (Dashboard.Delete (DeleteKeyModal.Settled _) | Dashboard.KeysReport (KeysTable.Loaded _ | KeysTable.Failed)) => []
    | Dash e => if on_dashboard s then [Hears e] else []
    | Answer i _ (ReplyDelete o) =>
        match inflight s !! i with
        | Some (CallDelete id, true) =>
            [Hears (Dashboard.Delete (DeleteKeyModal.Settled (useDeleteKey (server_of o) id).1))]
        | _ => []
        end
    | KeysAnswer retries o =>
        match useKeys_query (apiFetch KEYS_URL o).1 with
        | Data rows => [Hears (Dashboard.KeysReport (KeysTable.Loaded rows))]
        | Throws _ => if retries then [] else [Hears (Dashboard.KeysReport KeysTable.Failed)]
        | Cancelled => []
        end
    | _ => []
    end.
Proof.
  destruct e as [e|path|e|e|e| |i n r|rt o]; try done; cbn [dispatch inside].
  - intros [p Hp]%bool_decide_eq_true. unfold navigate. by rewrite Hp.
  - intros _. by destruct e, (in_app s).
  - intros _. destruct e as [e|[]| | | | |[]|]; destruct (on_dashboard s); try done; cbn [foldl page_tell dashboard update]; apply closed_step.
  - intros _. by destruct e.
  - intros _. destruct (answer_cases i n r s) as [[-> Hn]|(c & alive & x & Hi & Hx & ->)].
    + destruct r as [o|o|o]; try done. destruct (inflight s !! i) as [[[|id|] []]|] eqn:Ei; try done.
      by specialize (Hn _ _ eq_refl).
    + rewrite Hi. cbn [dashboard]. destruct c, r, alive; try done; injection Hx as <-; try done.
  - intros _. unfold keys_answer. destruct (apiFetch KEYS_URL o) as [p b]. cbn [fst]. by destruct (useKeys_query p), b, rt.
Qed.

Lemma page_follows s e : closed (dashboard (step s e)) = foldl page_tell (closed (dashboard s)) (page_hears s e).
Proof.
  unfold page_hears. rewrite foldl_app. change (on_dashboard (step s e)) with (on_dashboard (dispatch s e)).
  unfold step, tidy. cbn [dashboard with_inflight with_parts].
  change (closed (sync_open ?b ?p)) with (closed p).
  destruct (inside e) eqn:Ei.
  - rewrite <-(dispatch_page s e Ei), andb_true_r. by destruct (on_dashboard (dispatch s e)).
  - destruct e as [|path| | | | | |]; try done. rewrite andb_false_r. cbn [dispatch inside] in *.
    apply bool_decide_eq_false in Ei. unfold navigate. destruct (Session.matchRoute path) as [p|]; [by destruct Ei|].
    by destruct (on_dashboard _).
Qed.

Lemma route_follows path es : route (run path es) = Session.makeRouter (default path (last (omap address es))).
Proof.
  induction es as [|e es IH] using rev_ind; [done|]. rewrite console_run_snoc, omap_app. revert IH. generalize (run path es). intros s IH.
  unfold step. change (route (tidy ?s)) with (route s).
  destruct e as [e|path'|e|e|e| |i n r|rt o]; cbn [omap list_omap address]; rewrite ?app_nil_r, ?last_snoc; cbn [dispatch].
  - done.
  - by destruct (navigate_keeps path' s) as (_ & _ & _ & _ & _ & ->).
  - by destruct e, (in_app s).
  - by destruct e as [|[]| | | | |[]|], (on_dashboard s).
  - by destruct e.
  - done.
  - by destruct (answer_cases i n r s) as [[-> _]|(c & alive & x & _ & _ & ->)].
  - rewrite <-IH. unfold keys_answer. destruct (apiFetch KEYS_URL o) as [p b]. by destruct (useKeys_query p), b, rt.
Qed.

(** What the dashboard keeps to itself, when it is new. *)
Definition page_new (p : Dashboard.Page) : Prop :=
  Dashboard.deleting p = DeleteKeyModal.initial ∧ Dashboard.blocked p = [] ∧ Dashboard.showExternal p = false ∧
  Dashboard.tableSort p = Dashboard.default_sort ∧ Dashboard.copying p = Copy.initial.

Lemma hidden_new path es : on_dashboard (run path es) = false → page_new (dashboard (run path es)).
Proof.
  destruct es as [|e es _] using rev_ind; [done|]. rewrite console_run_snoc. unfold step. generalize (dispatch (run path es) e).
  intros t Hn. change (on_dashboard (tidy t)) with (on_dashboard t) in Hn. unfold tidy.
  cbn [dashboard with_inflight with_parts]. by rewrite Hn.
Qed.

(** After an address without a page everything of the shell is new, and the calls go
    on alone. *)
Lemma unknown_address s path : Session.matchRoute path = None → let s' := step s (Route path) in
  page_new (dashboard s') ∧ CreateKeyModal.inflight (createModal s') = None ∧ CreateKeyModal.pristine (createModal s') ∧
  CreateKeyModal.open (createModal s') = CreateKeyModal.open (createModal s) ∧
  calls s' = calls s ∧ Forall (λ p, p.2 = false) (inflight s').
Proof.
  intros Hp. cbn zeta. assert (createModal (step s (Route path)) = fresh_create (createModal s)) as Hc.
  { unfold step, tidy. cbn [createModal with_inflight with_parts dispatch]. unfold navigate. rewrite Hp.
    cbn [unmounted createModal with_inflight with_parts with_route]. destruct (in_app _); [done|apply fresh_create_idem]. }
  split; [|split; [|split; [|split; [|split]]]].
  - unfold step, tidy. cbn [dashboard with_inflight with_parts dispatch]. unfold navigate. rewrite Hp. by destruct (on_dashboard _).
  - by rewrite Hc, (proj1 (fresh_create_pristine _)).
  - rewrite Hc. apply fresh_create_pristine.
  - rewrite Hc. unfold fresh_create.
    by destruct (CreateKeyModal.default_team_frame (CreateKeyModal.with_open (CreateKeyModal.open (createModal s))
      (CreateKeyModal.with_teams (CreateKeyModal.teams (createModal s)) CreateKeyModal.initial))) as (-> & _).
  - unfold step. rewrite tidy_calls. cbn [dispatch]. unfold navigate. rewrite Hp. apply (unmounted_calls (with_route _ s)).
  - unfold step, tidy. cbn [inflight with_inflight with_parts dispatch]. unfold navigate. rewrite Hp. cbn [unmounted inflight with_inflight].
    apply Forall_fmap, Forall_fmap, Forall_forall. by intros [c alive] _.
Qed.

(** C4. The whole refines its parts.  On every run of the application each part is in
    exactly the state it reaches alone on what it is told, and it is told this and no
    more: the shell its own events, and a 401 only when the answer to a call under way
    that was really sent, or to the keys query, is one; the toasts the user's
    dismissals, their timers, and for a settled call its notice (an error for each
    kind of failure, a success for a removal); the create dialog and the dashboard the
    user's events while they are shown, the outcome of a call they made themselves and
    are still there for, and the answers of the keys query.  A component not shown
    after an event, or whose address had no page, is mounted anew; the open flag is
    one for both; and the route is that of the last address.  So what holds of every
    run of a part alone holds of it inside the application. *)
Theorem console_projects path es :
  let s := run path es in
  let told {X} (hears : Console → event → list X) := history hears (initial path) es in
  shell s = Session.run (told shell_hears) Session.initialShell ∧
  toasts s = Toast.run (told toasts_hear) ∧
  createModal s = foldl create_tell CreateKeyModal.initial (told create_hears) ∧
  closed (dashboard s) = foldl page_tell (closed Dashboard.initial) (told page_hears) ∧
  Dashboard.createOpen (dashboard s) = CreateKeyModal.open (createModal s) ∧
  route s = Session.makeRouter (default path (last (omap address es))).
Proof.
  cbn zeta. split_and!.
  - apply (follows shell_hears Session.step shell), shell_follows.
  - apply (follows toasts_hear Toast.step toasts), toasts_follow.
  - apply (follows create_hears create_tell createModal), create_follows.
  - apply (follows page_hears page_tell (λ s, closed (dashboard s))), page_follows.
  - by destruct es as [|e es _] using rev_ind; [|rewrite console_run_snoc].
  - apply route_follows.
Qed.

End console.

(** ** A session *)

#[local] Existing Instance ascii_unicode.
#[local] Existing Instance utc_engine.

(** Sign in, list one key, revoke it from its menu and confirm. *)
Definition signed_in : list event :=
  [Boot Session.Mount; Boot (Session.MeArrives (Responds 200 (Json (Some Dashboard.sample_me)))); Boot Session.MeContinues;
   KeysAnswer true (Responds 200 (Json (Some (Some [Dashboard.sample_row (js "k1") None]))))].

Definition revoking : list event := signed_in ++
  [Dash (Dashboard.Table (KeysTable.OnDelete (Dashboard.sample_row (js "k1") None)));
   Dash (Dashboard.Delete DeleteKeyModal.Confirm)].

Definition plain_page : Surroundings := {|
  now := 0; year := 2026; theme := Theme.dark; active := λ _, false; parse_url := λ _, None;
  following := false; others := λ _, [] |}.

Lemma console_traffic_witness : let s := run (js "/") revoking in
  sent s = [del (js "/api/session/keys/k1")] ∧
  ∃ c, call_request c = Some (del (js "/api/session/keys/k1")) ∧
    match c with
    | CallCreate b => CreateKeyModal.body_ok b
    | CallDelete id => id ≠ [] ∧ ∃ row, listed revoking row ∧ k_managed row ≠ Some false ∧ k_id row = Some id
    | CallBlock id b => ∃ row, listed revoking row ∧ id = default [] (k_id row) ∧ b = negb (Keys.flag (k_blocked row))
    end.
Proof.
  assert (sent (run (js "/") revoking) = [del (js "/api/session/keys/k1")]) as Hs by (vm_compute; reflexivity).
  split; [exact Hs|].
  refine (proj1 (console_traffic (js "/") revoking _) _ _).
  - apply (offered_user _ [_; _; _; _; _] plain_page (Dash (Dashboard.Delete DeleteKeyModal.Confirm)));
      [|apply (list_elem_of_lookup_2 _ 13); vm_compute; reflexivity|by left].
    apply (offered_user _ [_; _; _; _] plain_page (Dash (Dashboard.Table (KeysTable.OnDelete (Dashboard.sample_row (js "k1") None)))));
      [|apply (list_elem_of_lookup_2 _ 10); vm_compute; reflexivity|by left].
    apply (offered_world _ [_; _; _]); [|done]. apply (offered_world _ [_; _]); [|done].
    apply (offered_world _ [_]); [|done]. apply (offered_world _ []); [constructor|done].
  - rewrite Hs. left.
Defined.

(** The server answers the delete with 401. *)
Lemma console_expiry_witness : let s := run (js "/") revoking in
  Session.App (shell (step s (Answer 0 0 (ReplyDelete (Responds 401 JsonThrows))))) = Session.LoadingCard ∧
  in_app s = true.
Proof.
  assert (in_app (run (js "/") revoking) = true) as Hi by (vm_compute; reflexivity).
  split; [|exact Hi].
  refine (proj1 (console_expiry (js "/") revoking _ Hi _ _)).
  - vm_compute. reflexivity.
  - split; [reflexivity|]. exists (CallDelete (js "k1")), true. split; [vm_compute; reflexivity|]. split; vm_compute; discriminate.
Defined.
End Console.
