(* ===== verification/Json.v ===== *)
(** * Template literals and JSON documents

    The value of a template literal with its substitutions, and a reader for JSON
    documents whose strings need no escapes: what the snippets of the how-to page
    (HowTo.v) are written with and checked against.  Reading an expanded template is
    reading the template and expanding its strings ([read_expand]). *)

From Stdlib Require Import String.
From S2P Require Import Prelude JsString.

(** ** Template literals *)

Module Template.

(** The quotation mark is written [^] in the texts of this file. *)
Definition quotes (s : jsstr) : jsstr := map (λ c, if c =? chr "^" then 34 else c) s.

Definition tx (s : string) : jsstr := quotes (js s).

(** A text with several lines. *)
Definition lines (l : list jsstr) : jsstr := js_join [10] l.

(** What the templates substitute. *)
Definition HOLES : list jsstr :=
  map js ["${apiBase}"; "${mcpUrl}"; "${pickedModel}"; "${AUTH_HEADER}"; "${KEY_PLACEHOLDER}"; "${MODEL_PLACEHOLDER}";
          "${config.provider_name}"; "${config.brand_short}"; "${window.location.origin}"]%string.

(** The first substitution the text starts with, and the text after it. *)
Fixpoint hole_at (i : Z) (holes : list jsstr) (s : jsstr) : option (Z * jsstr) :=
  match holes with
  | [] => None
  | h :: holes => if starts_with h s then Some (i, drop (length h) s) else hole_at (i - 1) holes s
  end.

(** A template with each substitution replaced by a negative number, its place in
    [HOLES] counted from -1; [fuel] is the length of the text. *)
Fixpoint scan (fuel : nat) (s : jsstr) : list Z :=
  match fuel with
  | O => []
  | S fuel =>
      match s with
      | [] => []
      | c :: r => match hole_at (-1) HOLES s with
                  | Some (i, rest) => i :: scan fuel rest
                  | None => c :: scan fuel r
                  end
      end
  end.

(** The values of the substitutions. *)
Record Env := {
  apiBase : jsstr;
  mcpUrl : jsstr;
  pickedModel : jsstr;
  AUTH_HEADER : jsstr;
  KEY_PLACEHOLDER : jsstr;
  MODEL_PLACEHOLDER : jsstr;
  provider_name : jsstr;
  brand_short : jsstr;
  origin : jsstr
}.

Definition hole_value (env : Env) (i : Z) : jsstr :=
  default [] ([apiBase env; mcpUrl env; pickedModel env; AUTH_HEADER env; KEY_PLACEHOLDER env; MODEL_PLACEHOLDER env;
               provider_name env; brand_short env; origin env] !! Z.to_nat (- i - 1)).

Definition expand (env : Env) (s : list Z) : jsstr :=
  flat_map (λ c, if c <? 0 then hole_value env c else [c]) s.

(** The value of a template literal. *)
Definition template (env : Env) (l : list string) : jsstr :=
  let s := lines (map tx l) in expand env (scan (length s) s).

Lemma expand_app env s t : expand env (s ++ t) = expand env s ++ expand env t.
Proof. apply flat_map_app. Qed.

Lemma expand_cons env c s : expand env (c :: s) = (if c <? 0 then hole_value env c else [c]) ++ expand env s.
Proof. done. Qed.
End Template.
Import Template.

(** ** A JSON reader, for documents whose strings need no escapes *)

Module Json.

Inductive token := TOpen | TClose | TListOpen | TListClose | TColon | TComma | TString (s : list Z) | TWord (s : list Z).

(** Between tokens, inside a string, inside a word (a number, [true], [false],
    [null]); what was read, last character first. *)
Inductive mode := Between | InString (cur : list Z) | InWord (cur : list Z).

Definition punctuation (c : Z) : option token :=
  if c =? chr "{" then Some TOpen else if c =? chr "}" then Some TClose
  else if c =? chr "[" then Some TListOpen else if c =? chr "]" then Some TListClose
  else if c =? chr ":" then Some TColon else if c =? chr "," then Some TComma else None.

Definition blank (c : Z) : bool := (c =? 32) || (c =? 10) || (c =? 13) || (c =? 9).

Definition word_char (c : Z) : bool :=
  is_digit c || ((97 <=? c) && (c <=? 122)) || (c =? chr "-") || (c =? chr "+") || (c =? chr ".").

(** A character a string holds as it is. *)
Definition plain_char (c : Z) : bool := negb ((c =? 34) || (c =? 92) || ((0 <=? c) && (c <? 32))).

(** A character outside strings, after the tokens [toks] (last first). *)
Definition outside (toks : list token) (c : Z) : option (list token * mode) :=
  match punctuation c with
  | Some t => Some (t :: toks, Between)
  | None => if blank c then Some (toks, Between)
            else if c =? 34 then Some (toks, InString [])
            else if word_char c then Some (toks, InWord [c]) else None
  end.

Definition lex_step (st : option (list token * mode)) (c : Z) : option (list token * mode) :=
  match st with
  | Some (toks, InString cur) =>
      if c =? 34 then Some (TString (rev cur) :: toks, Between)
      else if plain_char c then Some (toks, InString (c :: cur)) else None
  | Some (toks, InWord cur) =>
      if word_char c then Some (toks, InWord (c :: cur)) else outside (TWord (rev cur) :: toks) c
  | Some (toks, Between) => outside toks c
  | None => None
  end.

Definition lex (s : list Z) : option (list token) :=
  match foldl lex_step (Some ([], Between)) s with
  | Some (toks, Between) => Some (rev toks)
  | Some (toks, InWord cur) => Some (rev (TWord (rev cur) :: toks))
  | _ => None
  end.

#[warnings="-register-all"]
Inductive json :=
| JObject (fields : list (list Z * json))
| JArray (items : list json)
| JText (s : list Z)
| JWord (s : list Z).

(** A literal name, or an integer. *)
Definition good_word (s : list Z) : bool :=
  bool_decide (s ∈ [js "true"; js "false"; js "null"; js "0"]) ||
  match s with c :: r => (49 <=? c) && (c <=? 57) && forallb is_digit r | [] => false end.

Fixpoint value (fuel : nat) (toks : list token) : option (json * list token) :=
  match fuel with
  | O => None
  | S fuel =>
      match toks with
      | TString s :: r => Some (JText s, r)
      | TWord s :: r => if good_word s then Some (JWord s, r) else None
      | TOpen :: TClose :: r => Some (JObject [], r)
      | TOpen :: r => '(l, r) ← members fuel r; Some (JObject l, r)
      | TListOpen :: TListClose :: r => Some (JArray [], r)
      | TListOpen :: r => '(l, r) ← items fuel r; Some (JArray l, r)
      | _ => None
      end
  end
with members (fuel : nat) (toks : list token) : option (list (list Z * json) * list token) :=
  match fuel with
  | O => None
  | S fuel =>
      match toks with
      | TString k :: TColon :: r =>
          '(v, r) ← value fuel r;
          match r with
          | TComma :: r => '(l, r) ← members fuel r; Some ((k, v) :: l, r)
          | TClose :: r => Some ([(k, v)], r)
          | _ => None
          end
      | _ => None
      end
  end
with items (fuel : nat) (toks : list token) : option (list json * list token) :=
  match fuel with
  | O => None
  | S fuel =>
      '(v, r) ← value fuel toks;
      match r with
      | TComma :: r => '(l, r) ← items fuel r; Some (v :: l, r)
      | TListClose :: r => Some ([v], r)
      | _ => None
      end
  end.

(** The document a text is, if it is one. *)
Definition read (s : list Z) : option json :=
  toks ← lex s;
  '(v, r) ← value (2 * length toks) toks;
  match r with [] => Some v | _ => None end.

(** The member reached by a path of names. *)
Fixpoint json_at (path : list jsstr) (j : json) : option json :=
  match path with
  | [] => Some j
  | k :: path =>
      match j with
      | JObject l => match List.find (λ f, js_eqb f.1 k) l with Some (_, v) => json_at path v | None => None end
      | _ => None
      end
  end.

(** *** Reading a template with its substitutions in place *)

Definition token_map (f : list Z → list Z) (t : token) : token :=
  match t with TString s => TString (f s) | _ => t end.

Fixpoint json_map (f : list Z → list Z) (j : json) : json :=
  match j with
  | JObject l => JObject (map (λ '(k, v), (f k, json_map f v)) l)
  | JArray l => JArray (map (json_map f) l)
  | JText s => JText (f s)
  | JWord s => JWord s
  end.

Definition plain (s : jsstr) : Prop := Forall (λ c, 0 ≤ c ∧ plain_char c = true) s.

Definition mode_map (env : Env) (m : mode) : mode :=
  match m with InString cur => InString (rev (expand env (rev cur))) | _ => m end.

Definition state_map (env : Env) (st : list token * mode) : list token * mode :=
  (map (token_map (expand env)) st.1, mode_map env st.2).

(** A plain text inside a string is taken as it is. *)
Lemma lex_plain s toks cur : plain s →
  foldl lex_step (Some (toks, InString cur)) s = Some (toks, InString (rev s ++ cur)).
Proof.
  intros Hs. revert cur. induction Hs as [|c s [Hc Hp] _ IH]; intros cur; [done|]. cbn [foldl lex_step].
  destruct (c =? 34) eqn:E; [by unfold plain_char in Hp; rewrite E in Hp|]. rewrite Hp, IH. simpl. by rewrite <-app_assoc.
Qed.

Lemma lex_none s : foldl lex_step None s = None.
Proof. by induction s. Qed.

Lemma outside_map env toks c : 0 ≤ c →
  outside (map (token_map (expand env)) toks) c = state_map env <$> outside toks c.
Proof. intros Hc. unfold outside. destruct (punctuation c) eqn:E; [|by repeat case_match].
  unfold punctuation in E. by repeat case_match; simplify_eq. Qed.

(** No token begins or continues with a substitution, outside strings. *)
Lemma hole_tests c : c < 0 → punctuation c = None ∧ blank c = false ∧ (c =? 34) = false ∧ word_char c = false.
Proof.
  intros Hc. assert (∀ n, 0 ≤ n → (c =? n) = false) as He by lia.
  unfold punctuation, blank, word_char, is_digit. rewrite !He by (by vm_compute).
  replace (48 <=? c) with false by lia. replace (97 <=? c) with false by lia. done.
Qed.

Lemma outside_hole toks c : c < 0 → outside toks c = None.
Proof. intros Hc. destruct (hole_tests c Hc) as (E1 & E2 & E3 & E4). unfold outside. by rewrite E1, E2, E3, E4. Qed.

Lemma lex_step_hole st c : c < 0 → lex_step (Some st) c =
  match st with (toks, InString cur) => Some (toks, InString (c :: cur)) | _ => None end.
Proof.
  intros Hc. destruct (hole_tests c Hc) as (_ & _ & E3 & E4). destruct st as [toks [|cur|cur]]; cbn [lex_step].
  - by apply outside_hole.
  - rewrite E3. unfold plain_char. rewrite E3. replace (c =? 92) with false by lia.
    by replace (0 <=? c) with false by lia.
  - rewrite E4. by apply outside_hole.
Qed.

Lemma expand_snoc env cur c : expand env (rev (c :: cur)) = expand env (rev cur) ++ if c <? 0 then hole_value env c else [c].
Proof. cbn [rev]. rewrite expand_app. f_equal. unfold expand. cbn [flat_map]. by rewrite app_nil_r. Qed.

Lemma lex_step_map env st c : 0 ≤ c → lex_step (Some (state_map env st)) c = state_map env <$> lex_step (Some st) c.
Proof.
  intros Hc. assert ((c <? 0) = false) as Hn by lia.
  destruct st as [toks [|cur|cur]]; unfold state_map; cbn [fst snd mode_map lex_step].
  - by apply outside_map.
  - destruct (c =? 34) eqn:E; [cbn; by rewrite rev_involutive|].
    destruct (plain_char c); [|done]. unfold fmap, option_fmap, option_map, state_map. cbn [fst snd mode_map].
    rewrite expand_snoc, Hn, rev_app_distr. done.
  - destruct (word_char c); [done|]. by apply (outside_map env (TWord (rev cur) :: toks)).
Qed.

(** Reading the expansion of a template follows reading the template. *)
Lemma lex_expand env s st st' : (∀ c, c ∈ s → c < 0 → plain (hole_value env c)) →
  foldl lex_step (Some st) s = Some st' → foldl lex_step (Some (state_map env st)) (expand env s) = Some (state_map env st').
Proof.
  revert st. induction s as [|c s IH]; intros st Hh; [by intros [= ->]|]. intros H.
  assert (∃ st1, lex_step (Some st) c = Some st1) as [st1 E].
  { cbn [foldl] in H. destruct (lex_step (Some st) c); [by eexists|by rewrite lex_none in H]. }
  cbn [foldl] in H. rewrite E in H. apply IH in H; [|set_solver]. rewrite expand_cons, foldl_app.
  destruct (c <? 0) eqn:Hc.
  - rewrite lex_step_hole in E by lia. destruct st as [toks [|cur|cur]]; [done| |done]. injection E as <-.
    unfold state_map in H |- *. cbn [fst snd mode_map] in H |- *. rewrite lex_plain by (apply Hh; [left|lia]).
    rewrite <-H. do 4 f_equal. by rewrite expand_snoc, Hc, rev_app_distr.
  - cbn [foldl]. rewrite lex_step_map by lia. by rewrite E.
Qed.

Definition result_map {A} (g : A → A) (f : list Z → list Z) (r : A * list token) : A * list token :=
  (g r.1, map (token_map f) r.2).

(** The grammar does not look inside strings. *)
Lemma value_map f fuel :
  (∀ toks, value fuel (map (token_map f) toks) = result_map (json_map f) f <$> value fuel toks) ∧
  (∀ toks, members fuel (map (token_map f) toks) = result_map (map (λ '(k, v), (f k, json_map f v))) f <$> members fuel toks) ∧
  (∀ toks, items fuel (map (token_map f) toks) = result_map (map (json_map f)) f <$> items fuel toks).
Proof.
  induction fuel as [|fuel (IHv & IHm & IHi)]; [done|]. split_and!; intros toks.
  - destruct toks as [|[] toks]; try done; cbn [value map token_map].
    + pose proof (IHm toks) as H. destruct toks as [|[] toks]; cbn [map token_map] in H |- *;
        try reflexivity; rewrite H at 1; by match goal with |- context [result_map _ _ <$> members fuel ?l] => destruct (members fuel l) as [[]|] end.
    + pose proof (IHi toks) as H. destruct toks as [|[] toks]; cbn [map token_map] in H |- *;
        try reflexivity; rewrite H at 1; by match goal with |- context [result_map _ _ <$> items fuel ?l] => destruct (items fuel l) as [[]|] end.
    + by destruct (good_word s).
  - destruct toks as [|[] toks]; try done; cbn [members map token_map].
    destruct toks as [|[] toks]; try done; cbn [map token_map]. rewrite IHv.
    destruct (value fuel toks) as [[v r]|]; [|done]. cbn [fmap option_fmap option_map mbind option_bind result_map fst snd].
    destruct r as [|[] r]; try done; cbn [map token_map]. rewrite IHm. by destruct (members fuel r) as [[]|].
  - cbn [items]. rewrite IHv.
    destruct (value fuel toks) as [[v r]|]; [|done]. cbn [fmap option_fmap option_map mbind option_bind result_map fst snd].
    destruct r as [|[] r]; try done; cbn [map token_map]. rewrite IHi. by destruct (items fuel r) as [[]|].
Qed.

Theorem read_expand env s v : (∀ c, c ∈ s → c < 0 → plain (hole_value env c)) →
  read s = Some v → read (expand env s) = Some (json_map (expand env) v).
Proof.
  intros Hh H. unfold read in H. destruct (lex s) as [toks|] eqn:El; [|done].
  cbn [mbind option_bind] in H. destruct (value (2 * length toks) toks) as [[w r]|] eqn:Ev; [|done].
  assert (lex (expand env s) = Some (map (token_map (expand env)) toks)) as El'.
  { unfold lex in El |- *. destruct (foldl lex_step (Some ([], Between)) s) as [[l m]|] eqn:E; [|done].
    apply (lex_expand env) in E; [|done]. change (state_map env ([], Between)) with (([] : list token), Between) in E.
    rewrite E. unfold state_map. cbn [fst snd]. destruct m; cbn [mode_map]; [|done|]; simplify_eq;
      by rewrite map_rev. }
  unfold read. rewrite El'. cbn [mbind option_bind]. rewrite length_map.
  destruct (value_map (expand env) (2 * length toks)) as (Hv & _). rewrite Hv.
  rewrite Ev. unfold result_map. cbn [fmap option_fmap option_map fst snd]. destruct r; by simplify_eq/=.
Qed.
End Json.
