(* ===== verification/HowTo.v ===== *)
(** * The how-to page (src/ui/src/routes/HowTo.tsx)

    The onboarding guide: snippets personalised with the gateway's address and the
    picked model, in tabs.  Snippets are kept as the template literals of the source,
    with their substitutions, and expanded; those that are JSON documents are read
    back (Json.v). *)

From Stdlib Require Import String.
From S2P Require Import Prelude JsNumber JsString View Format ApiTypes Json.
Import Format Template Json.

(** ** The page *)

Module HowTo.

Definition KEY_PLACEHOLDER : jsstr := js "sk-...".
Definition MODEL_PLACEHOLDER : jsstr := js "<model>".
Definition AUTH_HEADER : jsstr := js "x-litellm-api-key".
Definition FALLBACK_API_BASE : jsstr := js "https://api.your-domain.example".

Definition TOC : list (jsstr * jsstr) :=
  [(js "quickstart", js "Quickstart"); (js "tools", js "Editors & CLIs"); (js "mcp", js "MCP servers");
   (js "chat", js "No terminal?"); (js "troubleshooting", js "Troubleshooting")].

(** *** Tools *)

Record Caveat := { c_note : jsstr; c_caption : jsstr; c_code : jsstr }.

Record ToolVariant := {
  v_id : jsstr;
  subLabel : option jsstr;
  ready : bool;
  code : jsstr;
  caption : option jsstr;
  note : option jsstr;
  guide : option (jsstr * jsstr);
  caveat : option Caveat
}.

(** [enabled] is present and [false] for a family that is hidden. *)
Record ToolGroup := { g_id : jsstr; g_label : jsstr; enabled : option bool; variants : list ToolVariant }.

Section snippets.
Context (env : Env).

(** **** Quickstart *)

Definition curlSnippet : jsstr := template env
  ["curl ${apiBase}/v1/chat/completions \";
   "  -H ^${AUTH_HEADER}: Bearer ${KEY_PLACEHOLDER}^ \";
   "  -H ^Content-Type: application/json^ \";
   "  -d '{";
   "    ^model^: ^${pickedModel}^,";
   "    ^messages^: [{ ^role^: ^user^, ^content^: ^Hello!^ }]";
   "  }'"]%string.

Definition pySnippet : jsstr := template env
  ["from openai import OpenAI";
   EmptyString;
   "client = OpenAI(api_key=^${KEY_PLACEHOLDER}^, base_url=^${apiBase}/v1^)";
   EmptyString;
   "resp = client.chat.completions.create(";
   "    model=^${pickedModel}^,";
   "    messages=[{^role^: ^user^, ^content^: ^Hello!^}],";
   ")";
   "print(resp.choices[0].message.content)"]%string.

Definition tsSnippet : jsstr := template env
  ["import OpenAI from ^openai^;";
   EmptyString;
   "const client = new OpenAI({";
   "  apiKey: ^${KEY_PLACEHOLDER}^,";
   "  baseURL: ^${apiBase}/v1^,";
   "});";
   EmptyString;
   "const resp = await client.chat.completions.create({";
   "  model: ^${pickedModel}^,";
   "  messages: [{ role: ^user^, content: ^Hello!^ }],";
   "});";
   "console.log(resp.choices[0].message.content);"]%string.

Definition expectedResponse : jsstr := template env
  ["{";
   "  ^choices^: [";
   "    { ^message^: { ^role^: ^assistant^, ^content^: ^Hello!^ } }";
   "  ]";
   "}"]%string.

(** **** The MCP gateway *)

Definition mcpConfig : jsstr := template env
  ["{";
   "  ^mcpServers^: {";
   "    ^litellm^: {";
   "      ^url^: ^${mcpUrl}^,";
   "      ^headers^: {";
   "        ^${AUTH_HEADER}^: ^Bearer ${KEY_PLACEHOLDER}^";
   "      }";
   "    }";
   "  }";
   "}"]%string.

Definition mcpFilteredConfig : jsstr := template env
  ["{";
   "  ^mcpServers^: {";
   "    ^litellm^: {";
   "      ^url^: ^${mcpUrl}^,";
   "      ^headers^: {";
   "        ^${AUTH_HEADER}^: ^Bearer ${KEY_PLACEHOLDER}^,";
   "        ^x-mcp-servers^: ^Zapier_Gmail,dev-group^";
   "      }";
   "    }";
   "  }";
   "}"]%string.

Definition mcpCurl : jsstr := template env
  ["# List the MCP tools you can access";
   "curl -s ${apiBase}/mcp-rest/tools/list \";
   "  -H ^${AUTH_HEADER}: Bearer ${KEY_PLACEHOLDER}^ | jq .";
   EmptyString;
   "# Call a tool (server_id + tool name + arguments)";
   "curl -s -X POST ${apiBase}/mcp-rest/tools/call \";
   "  -H ^${AUTH_HEADER}: Bearer ${KEY_PLACEHOLDER}^ \";
   "  -H ^Content-Type: application/json^ \";
   "  -d '{";
   "    ^server_id^: ^Zapier_Gmail^,";
   "    ^name^: ^getProfile^,";
   "    ^arguments^: {}";
   "  }' | jq ."]%string.

(** **** Editors and command-line tools *)

Definition opencode_plugin_code : jsstr := template env
  ["opencode auth login ${window.location.origin}";
   "opencode auth login -p ${config.provider_name}   # opencode v2: opencode auth login ${config.provider_name}"]%string.

Definition opencode_plugin : ToolVariant :=
  {| v_id := js "opencode-plugin"; subLabel := Some (js "SSO plugin"); ready := true; code := opencode_plugin_code;
     caption := Some (js "terminal (once)");
     note := Some (tx "Restart OpenCode afterwards. Models appear under the provider shown above; MCP servers appear disabled (enable one in opencode.json, then `opencode mcp auth <name>`). Unset OPENCODE_MODELS_URL and any exported key for this provider.");
     guide := None;
     caveat := None |}.

Definition opencode_gemini_code : jsstr := template env
  ["{";
   "  ^$schema^: ^https://opencode.ai/config.json^,";
   "  ^enabled_providers^: [^google^],";
   "  ^provider^: {";
   "    ^google^: {";
   "      ^options^: {";
   "        ^baseURL^: ^${apiBase}/gemini/v1beta^,";
   "        ^apiKey^: ^{env:LITELLM_API_KEY}^,";
   "        ^timeout^: 600000";
   "      }";
   "    }";
   "  },";
   "  ^model^: ^google/gemini-flash-latest^,";
   "  ^small_model^: ^google/gemini-flash-lite-latest^";
   "}"]%string.

Definition opencode_gemini : ToolVariant :=
  {| v_id := js "opencode-gemini"; subLabel := Some (js "Gemini"); ready := true; code := opencode_gemini_code;
     caption := Some (js "~/.config/opencode/opencode.json");
     note := Some (tx "Export the key referenced by `{env:LITELLM_API_KEY}` first: `export LITELLM_API_KEY=^sk-...^`, then run `opencode`. Model names must match the Gemini models your gateway exposes.");
     guide := Some (js "https://docs.litellm.ai/docs/tutorials/opencode_integration", js "OpenCode + LiteLLM guide");
     caveat := None |}.

Definition opencode_openai_code : jsstr := template env
  ["{";
   "  ^$schema^: ^https://opencode.ai/config.json^,";
   "  ^provider^: {";
   "    ^litellm^: {";
   "      ^npm^: ^@ai-sdk/openai-compatible^,";
   "      ^name^: ^LiteLLM^,";
   "      ^options^: {";
   "        ^baseURL^: ^${apiBase}/v1^,";
   "        ^apiKey^: ^{env:LITELLM_API_KEY}^";
   "      },";
   "      ^models^: {";
   "        ^${MODEL_PLACEHOLDER}^: { ^name^: ^${MODEL_PLACEHOLDER}^ }";
   "      }";
   "    }";
   "  }";
   "}"]%string.

Definition opencode_openai : ToolVariant :=
  {| v_id := js "opencode-openai"; subLabel := Some (js "API key"); ready := true; code := opencode_openai_code;
     caption := Some (js "~/.config/opencode/opencode.json");
     note := Some (tx "Export the key referenced by `{env:LITELLM_API_KEY}` first: `export LITELLM_API_KEY=^sk-...^`, then run `opencode` and pick a LiteLLM model with `/models`. Replace <model> with a model from the Models tab.");
     guide := Some (js "https://docs.litellm.ai/docs/tutorials/opencode_integration", js "OpenCode + LiteLLM guide");
     caveat := None |}.

Definition pi_code : jsstr := template env
  ["{";
   "  ^providers^: {";
   "    ^google^: {";
   "      ^api^: ^google-generative-ai^,";
   "      ^baseUrl^: ^${apiBase}/v1beta^,";
   "      ^apiKey^: ^$LITELLM_API_KEY^";
   "    },";
   "    ^litellm^: {";
   "      ^api^: ^openai-completions^,";
   "      ^baseUrl^: ^${apiBase}/v1^,";
   "      ^apiKey^: ^$LITELLM_API_KEY^,";
   "      ^models^: [";
   "        {";
   "          ^id^: ^${MODEL_PLACEHOLDER}^,";
   "          ^name^: ^${MODEL_PLACEHOLDER}^,";
   "          ^reasoning^: true,";
   "          ^input^: [^text^, ^image^]";
   "        },";
   "        {";
   "          ^id^: ^gemini-flash-latest^,";
   "          ^name^: ^Gemini Flash Latest^,";
   "          ^reasoning^: true,";
   "          ^input^: [^text^, ^image^]";
   "        }";
   "      ]";
   "    }";
   "  }";
   "}"]%string.

Definition pi_settings_code : jsstr := template env
  ["{";
   "  ^defaultProvider^: ^litellm^,";
   "  ^defaultModel^: ^${MODEL_PLACEHOLDER}^,";
   "  ^enabledModels^: [";
   "    ^litellm/${MODEL_PLACEHOLDER}^,";
   "    ^litellm/gemini-flash-latest^,";
   "    ^google/gemini-flash-latest^";
   "  ]";
   "}"]%string.

Definition pi : ToolVariant :=
  {| v_id := js "pi"; subLabel := None; ready := true; code := pi_code;
     caption := Some (js "~/.pi/agent/models.json");
     note := Some (tx "Install with npm install -g --ignore-scripts @earendil-works/pi-coding-agent (or curl -fsSL https://pi.dev/install.sh | sh), export the key pi interpolates — export LITELLM_API_KEY=^sk-...^ — then run pi. An openai-completions provider needs an explicit models array: pi ships no catalog for custom gateways, so add one entry per alias you use. The google provider needs no list — it reuses pi’s built-in Gemini catalog against the gateway.");
     guide := Some (js "https://github.com/earendil-works/pi/blob/main/packages/coding-agent/docs/providers.md", js "Pi providers doc");
     caveat := Some {| c_note := tx "Pick the default and which models show up in the model picker. Entries in enabledModels are namespaced provider/model-id:";
     c_caption := js "~/.pi/agent/settings.json"; c_code := pi_settings_code |} |}.

Definition claude_api_code : jsstr := template env
  ["# Claude Code → LiteLLM";
   "export ANTHROPIC_BASE_URL=^${apiBase}^";
   "export ANTHROPIC_AUTH_TOKEN=${KEY_PLACEHOLDER}";
   "export ANTHROPIC_MODEL=^${MODEL_PLACEHOLDER}^";
   "export ANTHROPIC_DEFAULT_OPUS_MODEL=^${MODEL_PLACEHOLDER}^";
   "export ANTHROPIC_DEFAULT_SONNET_MODEL=^${MODEL_PLACEHOLDER}^";
   "export ANTHROPIC_DEFAULT_HAIKU_MODEL=^${MODEL_PLACEHOLDER}^";
   "export CLAUDE_CODE_SUBAGENT_MODEL=^${MODEL_PLACEHOLDER}^";
   EmptyString;
   "claude"]%string.

Definition websearch_code : jsstr := template env
  ["{";
   "  ^permissions^: {";
   "    ^deny^: [^WebSearch^]";
   "  }";
   "}"]%string.

Definition claude_api : ToolVariant :=
  {| v_id := js "claude-api"; subLabel := Some (js "API"); ready := true; code := claude_api_code;
     caption := None;
     note := Some (tx "Bills against your gateway key — no Claude subscription required. Models are LiteLLM aliases.");
     guide := Some (js "https://docs.litellm.ai/docs/anthropic_completion", js "Claude Code + LiteLLM guide");
     caveat := Some {| c_note := tx "WebSearch is an Anthropic server-side tool — it only runs on Anthropic's own API, so through the gateway it fails. You don't lose web search, though: plug in an external search MCP server (see the MCP servers section below) to add it back. Disable the built-in tool in Claude Code settings (~/.claude/settings.json for all projects, or .claude/settings.json in a project); add WebFetch too if it also errors:";
     c_caption := js "~/.claude/settings.json"; c_code := websearch_code |} |}.

Definition claude_sub_code : jsstr := template env
  ["# Claude Code → LiteLLM (MAX/Pro subscription)";
   "export ANTHROPIC_API_KEY=^^";
   "export ANTHROPIC_BASE_URL=^${apiBase}^";
   "export ANTHROPIC_CUSTOM_HEADERS=^${AUTH_HEADER}: Bearer ${KEY_PLACEHOLDER}^";
   "export ANTHROPIC_MODEL=^claude-opus-4-8^";
   EmptyString;
   "claude"]%string.

Definition claude_sub : ToolVariant :=
  {| v_id := js "claude-sub"; subLabel := Some (js "Pro/Max"); ready := true; code := claude_sub_code;
     caption := None;
     note := Some (tx "Uses your Claude MAX/Pro subscription, not an API key. On first run pick ^Claude account with subscription^ and authorize in the browser — Claude Code sends its OAuth token, while the gateway key only tracks budget/limits.");
     guide := Some (js "https://docs.litellm.ai/docs/tutorials/claude_code_max_subscription", js "Claude Code subscription + LiteLLM guide");
     caveat := None |}.

Definition codex_code : jsstr := template env
  ["model = ^${MODEL_PLACEHOLDER}^";
   "model_provider = ^litellm^";
   "model_reasoning_effort = ^medium^";
   EmptyString;
   "[model_providers.litellm]";
   "name = ^${config.brand_short}^";
   "base_url = ^${apiBase}/v1^";
   "env_key = ^LITELLM_API_KEY^";
   "wire_api = ^responses^";
   "supports_websockets = false"]%string.

Definition codex : ToolVariant :=
  {| v_id := js "codex"; subLabel := None; ready := true; code := codex_code;
     caption := Some (js "~/.codex/config.toml");
     note := Some (tx "Export the key named by env_key first: `export LITELLM_API_KEY=^sk-...^`, then run `codex`. Fallback (no config file): `export OPENAI_API_KEY=… OPENAI_BASE_URL=…/v1` then `codex --model …`.");
     guide := Some (js "https://openrouter.ai/docs/cookbook/coding-agents/codex-cli", js "Codex CLI provider config");
     caveat := None |}.

Definition qwen_code : jsstr := template env
  ["# Qwen Code CLI → LiteLLM (OpenAI-compatible)";
   "export OPENAI_BASE_URL=^${apiBase}/v1^";
   "export OPENAI_API_KEY=^${KEY_PLACEHOLDER}^";
   "export OPENAI_MODEL=^${MODEL_PLACEHOLDER}^";
   EmptyString;
   "qwen"]%string.

Definition qwen : ToolVariant :=
  {| v_id := js "qwen"; subLabel := None; ready := true; code := qwen_code;
     caption := None;
     note := None;
     guide := Some (js "https://docs.litellm.ai/docs/tutorials/litellm_qwen_code_cli", js "Qwen Code + LiteLLM guide");
     caveat := None |}.

Definition gemini_code : jsstr := template env
  ["# Gemini CLI → LiteLLM";
   "export GOOGLE_GEMINI_BASE_URL=${apiBase}/gemini";
   "export GEMINI_BASE_URL=${apiBase}/gemini/v1beta";
   "export GEMINI_API_KEY=${KEY_PLACEHOLDER}";
   EmptyString;
   "gemini"]%string.

Definition gemini : ToolVariant :=
  {| v_id := js "gemini"; subLabel := None; ready := true; code := gemini_code;
     caption := None;
     note := None;
     guide := None;
     caveat := None |}.

Definition copilot_code : jsstr := template env
  ["{";
   "  ^github.copilot.advanced^: {";
   "    ^debug.overrideProxyUrl^: ^${apiBase}^,";
   "    ^debug.testOverrideProxyUrl^: ^${apiBase}^";
   "  }";
   "}"]%string.

Definition copilot : ToolVariant :=
  {| v_id := js "copilot"; subLabel := None; ready := true; code := copilot_code;
     caption := Some (js "VS Code settings.json");
     note := Some (tx "Reload VS Code after saving. Authenticate with your gateway key when prompted — see the guide for model + auth details.");
     guide := Some (js "https://docs.litellm.ai/docs/tutorials/github_copilot_integration", js "GitHub Copilot + LiteLLM guide");
     caveat := None |}.

Definition TOOL_GROUPS : list ToolGroup :=
  [{| g_id := js "opencode"; g_label := js "OpenCode"; enabled := None;
      variants := [opencode_plugin; opencode_gemini; opencode_openai] |};
   {| g_id := js "pi"; g_label := js "Pi agent"; enabled := None; variants := [pi] |};
   {| g_id := js "claude"; g_label := js "Claude Code"; enabled := None; variants := [claude_api; claude_sub] |};
   {| g_id := js "codex"; g_label := js "Codex"; enabled := None; variants := [codex] |};
   {| g_id := js "qwen"; g_label := js "Qwen Code"; enabled := None; variants := [qwen] |};
   {| g_id := js "gemini"; g_label := js "Gemini CLI"; enabled := Some false; variants := [gemini] |};
   {| g_id := js "copilot"; g_label := js "GitHub Copilot"; enabled := Some false; variants := [copilot] |}].

(** [enabled !== false]. *)
Definition VISIBLE_TOOLS : list ToolGroup :=
  List.filter (λ g, match enabled g with Some false => false | _ => true end) TOOL_GROUPS.
End snippets.

(** *** State *)

(** What a user does.  A tabs element calls its [onValueChange] with the value of the
    trigger that was chosen. *)
Inductive event :=
| Scroll (id : jsstr)
| Navigate (path : jsstr)
| Pick (model : jsstr)
| Tool (group : jsstr)
| Variant (group variant : jsstr)
| McpTab (tab : jsstr)
| CopyCode (text : jsstr).

(** What leaves the page. *)
Inductive output := ScrolledTo (id : jsstr) | NavigatedTo (path : jsstr) | Copied (text : jsstr).

Record State := {
  picked : jsstr;
  toolGroup : jsstr;
  toolVariant : gmap (list Z) jsstr;
  mcpTab : jsstr;
  out : list output
}.

(** The first variant of each family. *)
Definition first_variants (env : Env) : gmap (list Z) jsstr :=
  list_to_map (omap (λ g, match variants g with v :: _ => Some (g_id g, v_id v) | [] => None end) (TOOL_GROUPS env)).

Definition initial (env : Env) : State :=
  {| picked := MODEL_PLACEHOLDER; toolGroup := js "opencode"; toolVariant := first_variants env;
     mcpTab := js "access"; out := [] |}.

Definition emit (o : output) (s : State) : State :=
  {| picked := picked s; toolGroup := toolGroup s; toolVariant := toolVariant s; mcpTab := mcpTab s; out := out s ++ [o] |}.

Definition step (s : State) (e : event) : State :=
  match e with
  | Scroll id => emit (ScrolledTo id) s
  | Navigate path => emit (NavigatedTo path) s
  | CopyCode text => emit (Copied text) s
  | Pick m => {| picked := m; toolGroup := toolGroup s; toolVariant := toolVariant s; mcpTab := mcpTab s; out := out s |}
  | Tool g => {| picked := picked s; toolGroup := g; toolVariant := toolVariant s; mcpTab := mcpTab s; out := out s |}
  | Variant g v => {| picked := picked s; toolGroup := toolGroup s; toolVariant := <[g := v]> (toolVariant s);
                      mcpTab := mcpTab s; out := out s |}
  | McpTab t => {| picked := picked s; toolGroup := toolGroup s; toolVariant := toolVariant s; mcpTab := t; out := out s |}
  end.

(** *** View *)

Section view.
Context (parse_url : jsstr → option (jsstr * jsstr)).

(** [me?.endpoint || FALLBACK_API_BASE]. *)
Definition api_base (me : option SessionMe) : jsstr := str_or (endpoint <$> me) FALLBACK_API_BASE.

Definition chatUrl (me : option SessionMe) (config : AppConfig) : jsstr :=
  str_or (Some (chat_public_url config)) (deriveSubdomainUrl parse_url (endpoint <$> me) (js "chat")).

Definition brandShort (config : AppConfig) : jsstr := str_or (Some (ApiTypes.brand_short config)) (js "LiteLLM").

Definition page_env (me : option SessionMe) (config : AppConfig) (origin picked : jsstr) : Env :=
  {| apiBase := api_base me; mcpUrl := api_base me ++ js "/mcp"; pickedModel := picked;
     Template.AUTH_HEADER := AUTH_HEADER; Template.KEY_PLACEHOLDER := KEY_PLACEHOLDER;
     Template.MODEL_PLACEHOLDER := MODEL_PLACEHOLDER; provider_name := ApiTypes.provider_name config;
     brand_short := ApiTypes.brand_short config; origin := origin |}.

Definition catalogAliases (data : option ModelsResponse) : list jsstr :=
  List.filter str_truthy (omap mr_name (match data with Some d => models d | None => [] end)).

(** [Array.from(new Set(l))]. *)
Definition distinct (l : list jsstr) : list jsstr :=
  foldl (λ acc x, if bool_decide (x ∈ acc) then acc else acc ++ [x]) [] l.

Definition modelOptions (picked : jsstr) (data : option ModelsResponse) : list jsstr :=
  distinct (picked :: catalogAliases data).

Definition CodeBlock (code : jsstr) (caption : option jsstr) (copied : bool) : node event :=
  El "div" [] []
    [El "div" [] []
       [El "span" [] [] [Text (default (js "shell") caption)];
        El "button" [("className", cls [Some (if copied then js "border-primary bg-primary/15 text-primary"
                        else js "border-border text-text-tertiary hover:border-primary hover:text-primary")])]
          [("onClick", CopyCode code)]
          [El (if copied then "Check" else "Copy") [("aria-hidden", AStr (js "true"))] [] [];
           Text (if copied then js "copied!" else js "copy")]];
     El "pre" [] [] [El "code" [] [] [Text code]]].

Definition Section_ (id title sub : jsstr) (children : list (node event)) : node event :=
  El "section" [("id", AStr id)] []
    [El "div" [] [] [El "h2" [] [] [Text title]]; El "p" [] [] [Text sub]; El "div" [] [] children].

Definition StepBadge (n : Z) : node event := El "span" [] [] [Text (Z_to_js n)].

(** A tab, controlled when it raises an event. *)
Definition tab (value label : jsstr) (e : option event) : node event :=
  El "TabsTrigger" [("value", AStr value)] (match e with Some e => [("onValueChange", e)] | None => [] end) [Text label].

Definition tab_content (value : jsstr) (children : list (node event)) : node event :=
  El "TabsContent" [("value", AStr value)] [] children.

(** An anchor that leaves the application. *)
Definition outer_link (href : jsstr) (children : list (node event)) : node event :=
  El "a" [("href", AStr href); ("target", AStr (js "_blank")); ("rel", AStr (js "noopener noreferrer"))] [] children.

Definition mono (s : jsstr) : node event := El "span" [] [] [Text s].

(** [copied] is the copy mark of the code box with a caption and a text: each box
    has one of its own (Stores.Copy). *)
Context (copied : jsstr * jsstr → bool).

Definition box (code caption : jsstr) : node event := CodeBlock code (Some caption) (copied (caption, code)).

Definition tool_caption (v : ToolVariant) (groupLabel : jsstr) : jsstr :=
  match caption v with
  | Some c => c
  | None => groupLabel ++ match subLabel v with Some ((_ :: _) as l) => js " · " ++ l | _ => [] end ++ js " · setup"
  end.

Definition renderToolBody (v : ToolVariant) (groupLabel : jsstr) : list (node event) :=
  [box (code v) (tool_caption v groupLabel)] ++
  match note v with Some ((_ :: _) as n) => [El "p" [] [] [Text n]] | _ => [] end ++
  for_some (guide v) (λ '(url, label), [outer_link url [Text label]]) ++
  for_some (caveat v) (λ c, [El "div" [] [] [El "p" [] [] [Text (c_note c)]; box (c_code c) (c_caption c)]]) ++
  when (negb (ready v))
    [El "p" [] [] [Text (js "Placeholder — tested "); Text (default groupLabel (subLabel v)); Text (js " values land here soon.")]].

(** **** The sections

    The picker's [onChange] is called with the value of the option chosen: each option
    raises its own event. *)

Definition quickstart (env : Env) (options : list jsstr) : node event :=
  Section_ (js "quickstart") (js "Quickstart") (js "Two steps to your first response: mint a key, then call the gateway.")
    [El "div" [] []
       [El "div" [] []
          [StepBadge 1;
           El "div" [] []
             [El "div" [] [] [Text (js "Mint a virtual key")];
              El "p" [] []
                [Text (js "Create one on the"); Text (js " ");
                 El "button" [] [("onClick", Navigate (js "/keys"))] [Text (js "Keys")]; Text (js " ");
                 Text (js "tab. The"); Text (js " "); mono (js "sk-"); Text (js " value is shown "); mono (js "once");
                 Text (js ", at creation — copy it then; it is never displayed again.")]]];
        El "div" [] []
          [StepBadge 2;
           El "div" [] []
             [El "div" [] [] [Text (js "Call the gateway")];
              El "p" [] []
                [Text (js "Swap"); Text (js " "); mono KEY_PLACEHOLDER; Text (js " ");
                 Text (js "for your key and run it. The endpoint is OpenAI-compatible —"); Text (js " ");
                 mono (pickedModel env); Text (js " "); Text (js "is a standard model alias.")];
              El "label" [] []
                [Text (js "Model");
                 El "select" [("aria-label", AStr (js "Model")); ("value", AStr (pickedModel env))] []
                   (map (λ alias, El "option" [("key", AStr alias); ("value", AStr alias)] [("onChange", Pick alias)] [Text alias]) options)];
              El "Tabs" [("defaultValue", AStr (js "curl"))] []
                [El "TabsList" [("variant", AStr (js "line"))] [] [tab (js "curl") (js "cURL") None; tab (js "python") (js "Python") None;
                                      tab (js "typescript") (js "TypeScript") None];
                 tab_content (js "curl") [box (curlSnippet env) (js "curl")];
                 tab_content (js "python") [box (pySnippet env) (js "python")];
                 tab_content (js "typescript") [box (tsSnippet env) (js "typescript")]];
              El "p" [] [] [Text (js "A successful call returns:")];
              box (expectedResponse env) (js "200 OK")]]]].

(** A family of tools: with pill tabs when it has several variants. *)
Definition tool_tab (s : State) (g : ToolGroup) : node event :=
  tab_content (g_id g)
    (match variants g with
     | [] => []
     | [v] => renderToolBody v (g_label g)
     | vs =>
         [El "Tabs" (attr_some "value" (AStr <$> toolVariant s !! g_id g)) []
            (El "TabsList" [] [] (map (λ v, tab (v_id v) (default [] (subLabel v)) (Some (Variant (g_id g) (v_id v)))) vs) ::
             map (λ v, tab_content (v_id v) (renderToolBody v (g_label g))) vs)]
     end).

Definition tools (env : Env) (s : State) : node event :=
  Section_ (js "tools") (js "Editors & CLIs")
    (js "Point your AI coding tool at the gateway. Export the variables, then run the tool as usual.")
    [El "Tabs" [("value", AStr (toolGroup s))] []
       (El "TabsList" [("variant", AStr (js "line"))] [] (map (λ g, tab (g_id g) (g_label g) (Some (Tool (g_id g)))) (VISIBLE_TOOLS env)) ::
        map (tool_tab s) (VISIBLE_TOOLS env));
     El "p" [] [] [Text (js "Swap "); Text KEY_PLACEHOLDER;
                   Text (js " for your key (mint it on the Keys tab). The base URL is your live gateway; only the key differs per user.")];
     El "p" [] [] [Text (js "Tools that read OpenAI's env vars work too:"); Text (js " ");
                   mono (js "export OPENAI_API_KEY=$LITELLM_API_KEY"); Text (js " "); Text (js "and ");
                   El "span" [] [] [Text (js "export OPENAI_BASE_URL="); Text (apiBase env ++ js "/v1")]; Text (js ".")]].

Definition MCP_TABS : list (jsstr * jsstr) :=
  [(js "access", js "MCP Access"); (js "group", js "MCP Group access"); (js "curl", js "Try with curl")].

(** The clients of the first tab, with the file each reads. *)
Definition MCP_CLIENTS : list (jsstr * jsstr * jsstr) :=
  [(js "cursor", js "Cursor", js "~/.cursor/mcp.json");
   (js "claude", js "Claude Desktop", js "~/Library/Application Support/Claude/claude_desktop_config.json");
   (js "vscode", js "VS Code", js ".vscode/mcp.json (workspace)");
   (js "generic", js "Generic JSON", js "your client's MCP config")].

Definition mcp (env : Env) (s : State) : node event :=
  Section_ (js "mcp") (js "MCP servers")
    (js "Give MCP-capable clients (Cursor, Claude Desktop, …) access to the gateway's tool servers. The MCP endpoint lives on the same gateway host, under /mcp, and uses your same virtual key.")
    [El "Tabs" [("value", AStr (mcpTab s))] []
       [El "TabsList" [("variant", AStr (js "line"))] []
          (map (λ '(v, l), tab v l (Some (McpTab v))) MCP_TABS);
        tab_content (js "access")
          [El "p" [] [] [Text (js "Every tool you can reach. URL"); Text (js " "); mono (mcpUrl env); Text (js ", auth header");
                         Text (js " "); mono AUTH_HEADER; Text (js " "); Text (js "(the same Bearer key as chat).")];
           El "Tabs" [("defaultValue", AStr (js "cursor"))] []
             (El "TabsList" [] [] (map (λ '(id, label, _), tab id label None) MCP_CLIENTS) ::
              map (λ '(id, _, path), tab_content id [box (mcpConfig env) path]) MCP_CLIENTS)];
        tab_content (js "group")
          [El "p" [] [] [Text (js "Scope to specific servers and/or groups with the"); Text (js " "); mono (js "x-mcp-servers");
                         Text (js " "); Text (js "header (comma-separated) — or target a group straight from the URL,");
                         Text (js " "); mono (mcpUrl env ++ js "/dev-group"); Text (js ".")];
           box (mcpFilteredConfig env) (js "MCP client config · scoped")];
        tab_content (js "curl")
          [El "p" [] [] [Text (js "List and call tools directly over the MCP REST API — no client, no LLM. Swap"); Text (js " ");
                         mono KEY_PLACEHOLDER; Text (js " "); Text (js "for your key and the server/tool names for real ones.")];
           box (mcpCurl env) (js "curl")]];
     outer_link (js "https://docs.litellm.ai/docs/mcp") [Text (js "LiteLLM MCP gateway guide")]].

Definition chat (env : Env) (chatUrl brandShort : jsstr) : node event :=
  Section_ (js "chat") (js "No terminal?")
    (js "Prefer a chat window over a shell? Use a browser UI — paste your key once and start chatting.")
    [El "div" [] []
       [outer_link chatUrl
          [El "span" [] [] [Text brandShort; Text (js " Chat")];
           El "p" [] [] [Text (js "Hosted chat UI, ready to use — sign in and pick"); Text (js " "); mono MODEL_PLACEHOLDER;
                         Text (js ". Nothing to install.")];
           mono chatUrl];
        outer_link (js "https://github.com/different-ai/openwork")
          [El "span" [] [] [Text (js "OpenWork (desktop)")];
           El "p" [] [] [Text (js "Settings → organization server:"); Text (js " "); mono (origin env);
                         Text (js ", then sign in. Install the OpenCode plugin (above) for models and MCP servers.")];
           mono (js "github.com/different-ai/openwork")]]].

Definition TROUBLES : list (jsstr * jsstr) :=
  [(js "401 Unauthorized", js "Your API key is missing, invalid, expired, or copied incorrectly. Mint a fresh key on the Keys tab.");
   (js "404 Model not found", js "The model alias is not enabled for your team or does not exist. Check the Models tab for available aliases.");
   (js "429 Rate limited", js "Your key, team, or the upstream provider hit a rate limit. Retry with backoff or check your limits.");
   (js "MCP: no tools discovered", js "The MCP server is reachable but returned no tools. Check the server health and your access group on the MCP tab.");
   (js "MCP: authentication failed", js "Confirm your MCP client sends the " ++ AUTH_HEADER ++ js " header with a Bearer key.")].

Definition troubleshooting : node event :=
  Section_ (js "troubleshooting") (js "Troubleshooting") (js "The most common onboarding errors and what they mean.")
    [El "div" [] []
       (map (λ '(code, body), El "div" [("key", AStr code)] [] [El "div" [] [] [Text code]; El "p" [] [] [Text body]]) TROUBLES)].

Definition page_header (brandShort : jsstr) : node event :=
  El "div" [] []
    [El "h1" [] [] [Text (js "How-to")];
     El "p" [] [] [Text (js "You have a key — here is how to make your first call to"); Text (js " "); mono brandShort;
                   Text (js ", wire up your editor, or skip the terminal entirely.")]].

Definition page_toc : node event :=
  El "aside" [] []
    [El "nav" [("aria-label", AStr (js "On this page"))] []
       (El "div" [] [] [Text (js "On this page")] ::
        map (λ '(id, label), El "button" [("key", AStr id)] [("onClick", Scroll id)] [Text label]) TOC)].

Definition HowTo (me : option SessionMe) (config : AppConfig) (origin : jsstr) (data : option ModelsResponse) (s : State) : node event :=
  let env := page_env me config origin (picked s) in
  El "div" [] []
    [page_header (brandShort config);
     El "div" [] []
       [page_toc;
        El "div" [] []
          [quickstart env (modelOptions (picked s) data); tools env s; mcp env s;
           chat env (chatUrl me config) (brandShort config); troubleshooting]]].
End view.

(** *** What the page offers and shows *)

(** The texts shown in code boxes, and those its buttons copy, in document order. *)
Fixpoint code_texts {E} (n : node E) : list jsstr :=
  match n with
  | Text _ => []
  | El t _ _ l => (if String.eqb t "code" then [flat_map text_content l] else []) ++ flat_map code_texts l
  end.

Definition copy_text (e : event) : option jsstr := match e with CopyCode t => Some t | _ => None end.

Definition copies (n : node event) : list jsstr := omap copy_text (enabled_events [n]).

(** The families on the page with their variants. *)
Definition tool_ids (env : Env) : list (jsstr * list jsstr) :=
  map (λ g, (g_id g, map v_id (variants g))) (VISIBLE_TOOLS env).

(** What the page lets a user do. *)
Definition allowed (env : Env) (options : list jsstr) (e : event) : Prop :=
  match e with
  | Scroll id => id ∈ map fst TOC
  | Navigate path => path = js "/keys"
  | Pick m => m ∈ options
  | Tool g => g ∈ map fst (tool_ids env)
  | Variant g v => ∃ vs, (g, vs) ∈ tool_ids env ∧ v ∈ vs
  | McpTab t => t ∈ map fst MCP_TABS
  | CopyCode _ => True
  end.

Section offers.
Context (env : Env) (options : list jsstr).

Definition sound (n : node event) : Prop :=
  Forall (allowed env options) (enabled_events [n]) ∧ copies n = code_texts n.

Lemma sound_events l : Forall sound l →
  Forall (allowed env options) (enabled_events l) ∧ omap copy_text (enabled_events l) = flat_map code_texts l.
Proof.
  induction 1 as [|n l [H1 H2] _ [IH1 IH2]]; [done|]. rewrite enabled_events_cons, omap_app. split; [by apply Forall_app|].
  cbn [flat_map]. by rewrite IH2, <-H2.
Qed.

Lemma sound_Text s : sound (Text s).
Proof. by split; [apply Forall_nil_2|]. Qed.

Lemma sound_plain t a l : String.eqb t "code" = false → Forall sound l → sound (El t a [] l).
Proof.
  intros Ht [H1 H2]%sound_events. unfold sound, copies. rewrite enabled_events_plain, H2. cbn [code_texts]. by rewrite Ht.
Qed.

(** An element with one handler, which copies nothing. *)
Lemma sound_on t a n e l : String.eqb t "code" = false → attribute "disabled" a = None → copy_text e = None →
  allowed env options e → Forall sound l → sound (El t a [(n, e)] l).
Proof.
  intros Ht Ha Hc He [H1 H2]%sound_events. unfold sound, copies. rewrite enabled_events_El, Ha. cbn [map snd app].
  split; [by apply Forall_cons|]. cbn [omap list_omap code_texts]. rewrite Hc, Ht. exact H2.
Qed.

Lemma sound_map {A} (f : A → node event) l : (∀ x, x ∈ l → sound (f x)) → Forall sound (map f l).
Proof. intros H. apply Forall_forall. intros n (x & -> & Hx)%list_elem_of_fmap. by apply H. Qed.

(** A code box copies what it shows. *)
Lemma sound_CodeBlock code caption copied : sound (CodeBlock code caption copied).
Proof.
  assert (enabled_events [CodeBlock code caption copied] = [CopyCode code]) as E by (unfold CodeBlock; by split_events).
  unfold sound, copies. rewrite E. split; [by apply Forall_singleton|].
  assert (code_texts (CodeBlock code caption copied) = [code ++ []]) as -> by (by destruct copied). by rewrite app_nil_r.
Qed.
End offers.

(** Go through a tree. *)
Ltac sound_tree :=
  repeat match goal with
  | |- Forall _ [] => apply Forall_nil_2
  | |- Forall _ (_ :: _) => apply Forall_cons_2
  | |- Forall _ (_ ++ _) => apply Forall_app_2
  | |- Forall _ (map _ _) => apply sound_map
  | |- sound _ _ (Text _) => apply sound_Text
  | |- sound _ _ (CodeBlock _ _ _) => apply sound_CodeBlock
  | |- sound _ _ (El _ _ [] _) => apply sound_plain; [reflexivity|]
  | |- sound _ _ (El _ _ [_] _) => apply sound_on; [reflexivity|reflexivity|reflexivity| |]
  end.

Section page.
Context (parse_url : jsstr → option (jsstr * jsstr)) (copied : jsstr * jsstr → bool).

Lemma renderToolBody_sound env options v label : Forall (sound env options) (renderToolBody copied v label).
Proof.
  unfold renderToolBody, for_some, when, outer_link, box. sound_tree.
  - destruct (note v) as [[|c n]|]; sound_tree.
  - destruct (guide v) as [[url l]|]; sound_tree.
  - destruct (caveat v) as [c|]; sound_tree.
  - destruct (negb (ready v)); sound_tree.
Qed.

Lemma tool_tab_sound env options s g : g ∈ VISIBLE_TOOLS env → sound env options (tool_tab copied s g).
Proof.
  intros Hg. unfold tool_tab, tab_content, tab. apply sound_plain; [done|].
  destruct (variants g) as [|v [|w vs]] eqn:E; [apply Forall_nil_2|apply renderToolBody_sound|]. rewrite <-E.
  assert ((g_id g, map v_id (variants g)) ∈ tool_ids env) as Hi
    by exact (list_elem_of_fmap_2 (λ g, (g_id g, map v_id (variants g))) _ _ Hg).
  sound_tree; intros x Hx; sound_tree.
  - exists (map v_id (variants g)). split; [done|by apply list_elem_of_fmap_2].
  - apply renderToolBody_sound.
Qed.

Lemma tool_group_listed env g : g ∈ VISIBLE_TOOLS env → g_id g ∈ map fst (tool_ids env).
Proof.
  intros Hg. unfold tool_ids. rewrite map_map. exact (list_elem_of_fmap_2 g_id _ _ Hg).
Qed.

Lemma page_sound me config origin data s :
  sound (page_env me config origin (picked s)) (modelOptions (picked s) data) (HowTo parse_url copied me config origin data s).
Proof.
  unfold HowTo, page_header, page_toc, quickstart, tools, mcp, chat, troubleshooting, Section_, StepBadge, tab, tab_content, outer_link, mono, box.
  sound_tree.
  - intros [id label] Hx. sound_tree. exact (list_elem_of_fmap_2 fst _ _ Hx).
  - done.
  - intros x Hx. by sound_tree.
  - intros g Hg. sound_tree. by apply tool_group_listed.
  - intros g Hg. by apply tool_tab_sound.
  - intros [v l] Hx. sound_tree. exact (list_elem_of_fmap_2 fst _ _ Hx).
  - intros [[id label] path] _. sound_tree.
  - intros [[id label] path] _. sound_tree.
  - intros [c body] _. sound_tree.
Qed.
End page.

Lemma distinct_go l acc : NoDup acc →
  let r := foldl (λ acc x, if bool_decide (x ∈ acc) then acc else acc ++ [x]) acc l in
  NoDup r ∧ ∀ x : jsstr, x ∈ r ↔ x ∈ acc ∨ x ∈ l.
Proof.
  revert acc. induction l as [|y l IH]; intros acc Hn; cbn [foldl].
  { split; [done|]. intros x. rewrite elem_of_nil. tauto. }
  destruct (bool_decide_reflect (y ∈ acc)) as [Hy|Hy].
  - destruct (IH acc Hn) as [H1 H2]. split; [done|]. intros x. rewrite H2, elem_of_cons. split; [tauto|].
    by intros [?|[->|?]]; [left|left|right].
  - destruct (IH (acc ++ [y])) as [H1 H2].
    { apply NoDup_app. split; [done|]. split; [|apply NoDup_singleton]. by intros x Hx ->%list_elem_of_singleton. }
    split; [done|]. intros x. rewrite H2, elem_of_app, list_elem_of_singleton, elem_of_cons. tauto.
Qed.

(** The options of the picker: the picked model and the aliases of the catalogue,
    each once. *)
Lemma modelOptions_spec picked data :
  NoDup (modelOptions picked data) ∧ ∀ m, m ∈ modelOptions picked data ↔ m = picked ∨ m ∈ catalogAliases data.
Proof.
  destruct (distinct_go (picked :: catalogAliases data) [] (NoDup_nil_2)) as [H1 H2]. split; [done|].
  intros m. unfold modelOptions, distinct. rewrite H2, elem_of_nil, elem_of_cons. tauto.
Qed.

(** *** Runs on which the user does only what the page offers *)

(** What the page is rendered with besides its own state; the copy marks are those of
    its code boxes. *)
Record Inputs := {
  i_me : option SessionMe;
  i_config : AppConfig;
  i_origin : jsstr;
  i_data : option ModelsResponse;
  i_copied : jsstr * jsstr → bool
}.

Section runs.
Context (parse_url : jsstr → option (jsstr * jsstr)).

Definition rendered (i : Inputs) (s : State) : node event :=
  HowTo parse_url (i_copied i) (i_me i) (i_config i) (i_origin i) (i_data i) s.

Definition env_of (i : Inputs) (picked : jsstr) : Env := page_env (i_me i) (i_config i) (i_origin i) picked.

(** The page mounted with [i0], then events it offered as it was rendered. *)
Inductive reached (i0 : Inputs) : list Inputs → State → Prop :=
| reached_start : reached i0 [] (initial (env_of i0 MODEL_PLACEHOLDER))
| reached_step seen s i e : reached i0 seen s → e ∈ enabled_events [rendered i s] →
    reached i0 (seen ++ [i]) (step s e).

(** The tabs show something, and the picker holds a model the catalogue reported. *)
Definition page_ok (env : Env) (seen : list Inputs) (s : State) : Prop :=
  toolGroup s ∈ map fst (tool_ids env) ∧
  (∀ g vs, (g, vs) ∈ tool_ids env → ∃ v, toolVariant s !! g = Some v ∧ v ∈ vs) ∧
  mcpTab s ∈ map fst MCP_TABS ∧
  (picked s = MODEL_PLACEHOLDER ∨ ∃ i, i ∈ seen ∧ picked s ∈ catalogAliases (i_data i)).

(** The families do not depend on the address, the model or the configuration. *)
Lemma tool_ids_const env env' : tool_ids env = tool_ids env'.
Proof. reflexivity. Qed.

Lemma tool_ids_fun env g vs ws : (g, vs) ∈ tool_ids env → (g, ws) ∈ tool_ids env → vs = ws.
Proof.
  assert (NoDup (tool_ids env).*1) as Hn.
  { rewrite (tool_ids_const env (page_env None (Build_AppConfig [] [] [] [] [] [] [] [] ∅) [] [])).
    apply (bool_decide_eq_true_1 _). vm_compute. reflexivity. }
  intros H1 H2. apply (elem_of_list_to_map (M := gmap (list Z)) _ _ _ Hn) in H1, H2. congruence.
Qed.

Lemma howto_initial_ok env env' : page_ok env [] (initial env').
Proof.
  unfold page_ok. split_and!; [| | |by left].
  - apply (bool_decide_eq_true_1 _). vm_compute. reflexivity.
  - assert (Forall (λ '(g, vs), ∃ v, first_variants env' !! g = Some v ∧ v ∈ vs) (tool_ids env)) as H.
    { apply (Forall_impl (λ '(g, vs), bool_decide (default [] (first_variants env' !! g) ∈ vs) && bool_decide (is_Some (first_variants env' !! g)))).
      - apply (bool_decide_eq_true_1 _). vm_compute. reflexivity.
      - intros [g vs] [H1%bool_decide_unpack [v Hv]%bool_decide_unpack]%andb_prop_elim. exists v.
        by rewrite Hv in H1. }
    intros g vs Hg. by apply (proj1 (Forall_forall _ _) H (g, vs)).
  - apply (bool_decide_eq_true_1 _). vm_compute. reflexivity.
Qed.

Lemma step_ok env seen i s e : page_ok env seen s → e ∈ enabled_events [rendered i s] → page_ok env (seen ++ [i]) (step s e).
Proof.
  intros (H1 & H2 & H3 & H4) He.
  destruct (page_sound parse_url (i_copied i) (i_me i) (i_config i) (i_origin i) (i_data i) s) as [Ha _].
  pose proof (proj1 (Forall_forall _ _) Ha e He) as Hal. clear Ha He.
  assert (picked s = MODEL_PLACEHOLDER ∨ ∃ j, j ∈ seen ++ [i] ∧ picked s ∈ catalogAliases (i_data j)) as H4'.
  { destruct H4 as [?|(j & ? & ?)]; [by left|right]. exists j. split; [by apply elem_of_app; left|done]. }
  destruct e as [id|path|m|g|g v|t|t]; unfold page_ok; cbn [step emit picked toolGroup toolVariant mcpTab] in *;
    split_and!; try done.
  - cbn [allowed] in Hal. apply modelOptions_spec in Hal as [->|Hm]; [done|right]. exists i. split; [|done].
    apply elem_of_app. right. by left.
  - cbn [allowed] in Hal. destruct Hal as (vs & Hv & Hin). intros g' ws Hg'.
    destruct (decide (g = g')) as [->|Hne].
    + exists v. rewrite lookup_insert_eq. split; [done|]. by rewrite (tool_ids_fun _ _ _ _ Hg' Hv).
    + rewrite lookup_insert_ne by done. by apply H2.
Qed.

Lemma reached_ok env i0 seen s : reached i0 seen s → page_ok env seen s.
Proof. induction 1; [apply howto_initial_ok|by apply step_ok]. Qed.
End runs.

(** *** The two theorems *)

(** A snippet is a JSON document with these texts at these places. *)
Definition configures (code : jsstr) (l : list (list jsstr * jsstr)) : Prop :=
  ∃ doc, read code = Some doc ∧ Forall (λ '(path, v), json_at path doc = Some (JText v)) l.

(** The substitutions of the JSON snippets. *)
Definition JSON_HOLES : list Z := [-1; -2; -3; -4; -5; -6].

Lemma template_configures env (l : list string) doc places :
  (∀ i, i ∈ JSON_HOLES → plain (hole_value env i)) →
  let s := lines (map tx l) in let t := scan (length s) s in
  forallb (λ c, (0 <=? c) || bool_decide (c ∈ JSON_HOLES)) t = true →
  read t = Some doc →
  Forall (λ '(path, v), json_at path (json_map (expand env) doc) = Some (JText v)) places →
  configures (template env l) places.
Proof.
  intros Hp s t Ht Hr Hl. exists (json_map (expand env) doc). split; [|done].
  apply (read_expand env t doc); [|done]. intros c Hc Hneg. apply Hp.
  pose proof (proj1 (forallb_forall _ _) Ht c (proj1 (list_elem_of_In _ _) Hc)) as H.
  apply orb_true_iff in H as [H%Z.leb_le|H%bool_decide_eq_true_1]; [lia|done].
Qed.

Lemma page_env_plain me config origin picked : plain (api_base me) → plain picked →
  ∀ i, i ∈ JSON_HOLES → plain (hole_value (page_env me config origin picked) i).
Proof.
  intros Hb Hp i Hi. assert (plain (js "/mcp") ∧ plain AUTH_HEADER ∧ plain KEY_PLACEHOLDER ∧ plain MODEL_PLACEHOLDER) as (H1 & H2 & H3 & H4).
  { unfold plain. split_and!; apply (bool_decide_eq_true_1 _); vm_compute; reflexivity. }
  unfold JSON_HOLES in Hi. rewrite !elem_of_cons, elem_of_nil in Hi.
  destruct Hi as [->|[->|[->|[->|[->|[->|[]]]]]]]; try done. by apply Forall_app_2.
Qed.

(** The body of the request of the quickstart. *)
Definition curl_head : list string :=
  ["curl ${apiBase}/v1/chat/completions \";
   "  -H ^${AUTH_HEADER}: Bearer ${KEY_PLACEHOLDER}^ \";
   "  -H ^Content-Type: application/json^ \";
   "  -d "]%string.
Definition curl_body : list string :=
  ["{"; "    ^model^: ^${pickedModel}^,"; "    ^messages^: [{ ^role^: ^user^, ^content^: ^Hello!^ }]"; "  }"]%string.

Lemma curl_split env : curlSnippet env = template env curl_head ++ js "'" ++ template env curl_body ++ js "'".
Proof.
  unfold curlSnippet, template. cbn zeta. change (js "'") with (expand env (js "'")). by rewrite <-!expand_app.
Qed.

Lemma curl_body_chars env c : c ∈ template env curl_body → c = chr "'" → c ∈ pickedModel env.
Proof.
  intros Hc ->. unfold template in Hc. cbn zeta in Hc. apply list_elem_of_In, in_flat_map in Hc as (d & Hd%list_elem_of_In & Hc).
  set (t := scan _ _) in Hd. assert (forallb (λ d, if d <? 0 then d =? -3 else negb (d =? chr "'")) t = true) as Ht
    by (vm_compute; reflexivity).
  pose proof (proj1 (forallb_forall _ _) Ht d (proj1 (list_elem_of_In _ _) Hd)) as H. cbn beta in H.
  destruct (d <? 0).
  - apply Z.eqb_eq in H as ->. by apply list_elem_of_In.
  - destruct Hc as [->|[]]. vm_compute in H. discriminate H.
Qed.

Ltac configure := eapply template_configures;
  [by apply page_env_plain|vm_compute; reflexivity|vm_compute; reflexivity
  |repeat apply Forall_cons_2; try apply Forall_nil_2;
   first [vm_compute; reflexivity
         |etransitivity; [|exact (f_equal (λ s, Some (JText s)) (app_nil_r _))]; vm_compute; reflexivity]].

(** C30. The configuration snippets, for a gateway address and a picked model that
    need no escaping in a JSON string (no quotation mark, backslash or control
    character): every snippet that is a JSON document parses, and configures the
    gateway the session names (under /mcp for MCP clients, /v1, /v1beta or
    /gemini/v1beta for tools) with the key left as the placeholder or as the tool's
    own environment reference, never a value; the two settings snippets and the
    expected response parse too; and the quickstart's request is the curl command
    line with, between single quotes, a JSON body that asks the picked model, and the
    body has no single quote unless the model's name has one. *)
Theorem howto_configs (me : option SessionMe) (config : AppConfig) (origin picked : jsstr) :
  plain (api_base me) → plain picked →
  let base := api_base me in
  let env := page_env me config origin picked in
  let own := js "{env:LITELLM_API_KEY}" in
  let bearer := js "Bearer sk-..." in
  Forall (λ code, configures code
    [([js "mcpServers"; js "litellm"; js "url"], base ++ js "/mcp");
     ([js "mcpServers"; js "litellm"; js "headers"; js "x-litellm-api-key"], bearer)])
    [mcpConfig env; mcpFilteredConfig env] ∧
  configures (opencode_gemini_code env)
    [([js "provider"; js "google"; js "options"; js "baseURL"], base ++ js "/gemini/v1beta");
     ([js "provider"; js "google"; js "options"; js "apiKey"], own)] ∧
  configures (opencode_openai_code env)
    [([js "provider"; js "litellm"; js "options"; js "baseURL"], base ++ js "/v1");
     ([js "provider"; js "litellm"; js "options"; js "apiKey"], own);
     ([js "provider"; js "litellm"; js "models"; MODEL_PLACEHOLDER; js "name"], MODEL_PLACEHOLDER)] ∧
  configures (pi_code env)
    [([js "providers"; js "google"; js "baseUrl"], base ++ js "/v1beta");
     ([js "providers"; js "google"; js "apiKey"], js "$LITELLM_API_KEY");
     ([js "providers"; js "litellm"; js "baseUrl"], base ++ js "/v1");
     ([js "providers"; js "litellm"; js "apiKey"], js "$LITELLM_API_KEY")] ∧
  configures (copilot_code env)
    [([js "github.copilot.advanced"; js "debug.overrideProxyUrl"], base);
     ([js "github.copilot.advanced"; js "debug.testOverrideProxyUrl"], base)] ∧
  configures (pi_settings_code env) [([js "defaultModel"], MODEL_PLACEHOLDER)] ∧
  configures (websearch_code env) [] ∧ configures (expectedResponse env) [] ∧
  ∃ head body, curlSnippet env = head ++ js "'" ++ body ++ js "'" ∧ configures body [([js "model"], picked)] ∧
    (chr "'" ∉ picked → chr "'" ∉ body).
Proof.
  intros Hb Hp base env own bearer. split_and!; [|configure..|].
  - apply Forall_cons_2; [configure|]. apply Forall_cons_2; [configure|]. apply Forall_nil_2.
  - exists (template env curl_head), (template env curl_body). split_and!; [apply curl_split|configure|].
    intros Hn H. by apply Hn, (curl_body_chars _ _ H).
Qed.

Theorem howto_configs_witness :
  plain (api_base None) ∧ plain (js "gpt-4o") ∧
  configures (mcpConfig (page_env None (Build_AppConfig [] [] [] [] [] [] [] [] ∅) [] (js "gpt-4o")))
    [([js "mcpServers"; js "litellm"; js "url"], js "https://api.your-domain.example/mcp");
     ([js "mcpServers"; js "litellm"; js "headers"; js "x-litellm-api-key"], js "Bearer sk-...")].
Proof.
  assert (plain (api_base None) ∧ plain (js "gpt-4o")) as [H1 H2].
  { unfold plain. split; apply (bool_decide_eq_true_1 _); vm_compute; reflexivity. }
  split_and!; [done..|].
  destruct (howto_configs None (Build_AppConfig [] [] [] [] [] [] [] [] ∅) [] (js "gpt-4o") H1 H2) as [H _].
  exact (Forall_inv H).
Defined.

(** The text of a copy button is shown where the button was. *)
Lemma copied_shown parse_url i0 seen s t : reached parse_url i0 seen s → Copied t ∈ out s →
  ∃ seen' i s', reached parse_url i0 seen' s' ∧ t ∈ code_texts (rendered parse_url i s').
Proof.
  induction 1 as [|seen s i e Hr IH He]; [by intros ?%elem_of_nil|]. intros Ht.
  assert (Copied t ∈ out s ∨ e = CopyCode t) as [Hs| ->]; [|by apply IH|].
  { destruct e; cbn [step emit out] in Ht; rewrite ?elem_of_app, ?list_elem_of_singleton in Ht; try (by left);
      (destruct Ht as [?|Ht]; [by left|by simplify_eq; right]). }
  exists seen, i, s. split; [done|].
  destruct (page_sound parse_url (i_copied i) (i_me i) (i_config i) (i_origin i) (i_data i) s) as [_ E].
  unfold rendered in He |- *. rewrite <-E. apply list_elem_of_omap. by exists (CopyCode t).
Qed.

(** C26. The how-to page, mounted and then used only through what it offers as it is
    rendered, while the session, the configuration and the catalogue may change in
    between: the copy buttons copy exactly the texts of the code boxes, in their
    order, and whatever was copied was shown; the selected family is one of the
    families on the page and each family's selected variant is one of its variants,
    so some tab is always open; and the picker offers each model once, the picked one
    among them, which is the placeholder or an alias the catalogue reported. *)
Theorem howto_page (parse_url : jsstr → option (jsstr * jsstr)) (i0 : Inputs)
    (seen : list Inputs) (s : State) (i : Inputs) : reached parse_url i0 seen s →
  let page := rendered parse_url i s in
  let families := VISIBLE_TOOLS (env_of i (picked s)) in
  copies page = code_texts page ∧
  (∀ t, Copied t ∈ out s → ∃ seen' j s', reached parse_url i0 seen' s' ∧
     t ∈ code_texts (rendered parse_url j s')) ∧
  (∃ g, g ∈ families ∧ g_id g = toolGroup s) ∧
  (∀ g, g ∈ families → ∃ v, v ∈ variants g ∧ toolVariant s !! g_id g = Some (v_id v)) ∧
  mcpTab s ∈ map fst MCP_TABS ∧
  NoDup (modelOptions (picked s) (i_data i)) ∧ picked s ∈ modelOptions (picked s) (i_data i) ∧
  (picked s = MODEL_PLACEHOLDER ∨ ∃ j, j ∈ seen ∧ picked s ∈ catalogAliases (i_data j)).
Proof.
  intros Hr page families. destruct (modelOptions_spec (picked s) (i_data i)) as [Hn Hm].
  destruct (reached_ok parse_url (env_of i (picked s)) i0 seen s Hr) as (H1 & H2 & H3 & H4). split_and!; try done.
  - apply page_sound.
  - intros t Ht. by apply (copied_shown _ _ _ _ _ Hr).
  - unfold tool_ids in H1. rewrite map_map in H1. apply list_elem_of_fmap in H1 as (g & -> & Hg). by exists g.
  - intros g Hg. destruct (H2 (g_id g) (map v_id (variants g))) as (v & Hv & Hin).
    { exact (list_elem_of_fmap_2 (λ g, (g_id g, map v_id (variants g))) _ _ Hg). }
    apply list_elem_of_fmap in Hin as (w & -> & Hw). by exists w.
  - apply Hm. by left.
Qed.

Theorem howto_page_witness :
  let i := {| i_me := None; i_config := Build_AppConfig [] [] [] [] [] [] [] [] ∅; i_origin := js "https://host";
              i_data := None; i_copied := λ _, false |} in
  let s := step (initial (env_of i MODEL_PLACEHOLDER)) (Scroll (js "quickstart")) in
  reached (λ _, None) i [i] s ∧ picked s ∈ modelOptions (picked s) None.
Proof.
  intros i s. assert (reached (λ _, None) i [i] s) as H.
  { apply (reached_step _ _ [] (initial (env_of i MODEL_PLACEHOLDER)) i); [apply reached_start|].
    vm_compute. apply list_elem_of_here. }
  split; [exact H|]. apply (howto_page (λ _, None) i [i] s i H).
Defined.
End HowTo.
