(* ===== verification/Site.v ===== *)
(** * All the pages (App.tsx and routes/): the outlet of the signed-in application

    The console with the page its outlet shows.  A page lives from the moment the
    route brings it up until the route or the session takes it away; what it keeps is
    its own.  The console is part of the state as it is in Console.v, and the pages
    act on it only through the router. *)

From Stdlib Require Import String.
From S2P Require Import Prelude JsNumber JsString JsText JsDate View ApiTypes Session Stores.
From S2P Require Import Catalog Stats Gateways HowTo Frame Modals Dashboard Console.
Import Session.Api.

Module Site.
Section site.
Context `{U : Unicode} `{Eng : Engine} (parse_url : jsstr → option (jsstr * jsstr)).

(** ** State *)

(** What the outlet holds, with the state of the page; the dashboard's is the
    console's. *)
Inductive Page :=
| NoPage
| DashboardPage
| StatsPage (p : Stats.Page)
| ModelsPage (s : Models.State)
| McpPage (search : jsstr)
| A2aPage (search : jsstr)
| HowToPage (s : HowTo.State).

Record Site := { console : Console.Console; page : Page }.

(** What surrounds the state at one moment: the clock, the theme, the router's active
    links, the address of the page, the query cache, the text in a search box being
    typed into, and the copy marks. *)
Record Moment := {
  now : Z;
  year : Z;
  theme : Theme.Theme;
  active : Frame.NavItem → bool;
  following : bool;
  origin : jsstr;
  stats_queries : Stats.Queries;
  models_query : query_state ModelsResponse;
  models_data : option ModelsResponse;
  mcp_query : query_state McpResponse;
  a2a_query : query_state A2aResponse;
  typing : jsstr;
  curl_copied : ModelRow → bool;
  code_copied : jsstr * jsstr → bool
}.

Definition surroundings (m : Moment) : Console.Surroundings := {|
  Console.now := now m; Console.year := year m; Console.theme := theme m; Console.active := active m;
  Console.parse_url := parse_url; Console.following := following m; Console.others := λ _, [] |}.

(** ** Mounting *)

Definition kind (p : Page) : option Session.page :=
  match p with
  | NoPage => None
  | DashboardPage => Some Session.Dashboard
  | StatsPage _ => Some Session.Stats
  | ModelsPage _ => Some Session.Models
  | McpPage _ => Some Session.Mcp
  | A2aPage _ => Some Session.A2a
  | HowToPage _ => Some Session.HowTo
  end.

#[export] Instance route_eq_dec : EqDecision Session.page.
Proof. solve_decision. Defined.

(** What the how-to page reads besides its own state. *)
Definition inputs (m : Moment) (me : SessionMe) (config : AppConfig) : HowTo.Inputs := {|
  HowTo.i_me := Some me; HowTo.i_config := config; HowTo.i_origin := origin m;
  HowTo.i_data := models_data m; HowTo.i_copied := code_copied m |}.

(** The first state of the page of a route. *)
Definition fresh (m : Moment) (me : SessionMe) (config : AppConfig) (r : Session.page) : Page :=
  match r with
  | Session.Dashboard => DashboardPage
  | Session.Stats => StatsPage (Stats.initial (now m) (stats_queries m))
  | Session.Models => ModelsPage Models.initial
  | Session.Mcp => McpPage []
  | Session.A2a => A2aPage []
  | Session.HowTo => HowToPage (HowTo.initial (HowTo.env_of (inputs m me config) HowTo.MODEL_PLACEHOLDER))
  end.

(** What the console has the outlet show: a page that is shown already stays. *)
Definition mount (m : Moment) (c : Console.Console) (p : Page) : Page :=
  match Session.App (Console.shell c) with
  | Session.AuthedRouter me config =>
      if decide (kind p = Some (Console.route c)) then p else fresh m me config (Console.route c)
  | _ => NoPage
  end.

(** ** Events *)

Inductive event :=
| Base (e : Console.event)
| OnStats (e : Stats.event)
| OnModels (e : Models.event)
| OnMcp (e : Gateways.event)
| OnA2a (e : Gateways.event)
| OnHowTo (e : HowTo.event).

(** An event reaches the page it is of, if that is shown. *)
Definition on_page (p : Page) (e : event) : Page :=
  match e, p with
  | OnStats e, StatsPage p => StatsPage (Stats.step p e)
  | OnModels e, ModelsPage s => ModelsPage (Models.step s e)
  | OnMcp e, McpPage search => McpPage (Gateways.step search e)
  | OnA2a e, A2aPage search => A2aPage (Gateways.step search e)
  | OnHowTo e, HowToPage s => HowToPage (HowTo.step s e)
  | _, _ => p
  end.

(** What it is to the console: [navigate(path)] of the how-to page goes to the
    router, everything else of a page stays in it. *)
Definition console_event (p : Page) (e : event) : option Console.event :=
  match e, p with
  | Base e, _ => Some e
  | OnHowTo (HowTo.Navigate path), HowToPage _ => Some (Console.Route path)
  | _, _ => None
  end.

Definition step (m : Moment) (s : Site) (e : event) : Site :=
  let c := from_option (Console.step (console s)) (console s) (console_event (page s) e) in
  {| console := c; page := mount m c (on_page (page s) e) |}.

Definition initial (path : jsstr) : Site := {| console := Console.initial path; page := NoPage |}.

Definition run (path : jsstr) (es : list (Moment * event)) : Site := foldl (λ s x, step x.1 s x.2) (initial path) es.

(** ** The page *)

Definition catalogue_query (q : query_state ModelsResponse) : query_state (list ModelRow) :=
  match q with Pending => Pending | Failed => Failed | Loaded d => Loaded (models d) end.

Definition outlet (m : Moment) (s : Site) (me : SessionMe) (config : AppConfig) : list (node event) :=
  match page s with
  | NoPage => []
  | DashboardPage => [map_node (λ e, Base (Console.Dash e)) (Dashboard.Dashboard (now m) me (Console.dashboard (console s)))]
  | StatsPage p => [map_node OnStats (Stats.Stats (now m) (typing m) p)]
  | ModelsPage p =>
      [map_node OnModels (Models.Models (catalogue_query (models_query m)) (Some (endpoint me)) (curl_copied m) (typing m) p)]
  | McpPage search => [map_node OnMcp (Mcp.Mcp (mcp_query m) (typing m) search)]
  | A2aPage search => [map_node OnA2a (A2a.A2a (a2a_query m) (Some (endpoint me)) (typing m) search)]
  | HowToPage p => [map_node OnHowTo (HowTo.rendered parse_url (inputs m me config) p)]
  end.

Definition view (m : Moment) (s : Site) : node event :=
  Console.frame Base (surroundings m) (outlet m s) (console s).

(** A field's handler takes what was typed. *)
Definition typed (e e' : event) : Prop :=
  match e, e' with
  | Base b, Base b' => Console.typed b b'
  | _, _ => e' = e
  end.

Definition world (e : event) : Prop :=
  match e with
  | Base e => Console.world e
  | OnStats (Stats.Report _) => True
  | _ => False
  end.

(** The runs on which the user raises only what is rendered at that moment. *)
Inductive offered (path : jsstr) : list (Moment * event) → Prop :=
| offered_start : offered path []
| offered_user es m m' e e' : offered path es → e ∈ enabled_events [view m (run path es)] → typed e e' →
    offered path (es ++ [(m', e')])
| offered_world es m e : offered path es → world e → offered path (es ++ [(m, e)]).

(** What a run is to the console. *)
Fixpoint projection_from (s : Site) (es : list (Moment * event)) : list Console.event :=
  match es with
  | [] => []
  | (m, e) :: es => option_list (console_event (page s) e) ++ projection_from (step m s e) es
  end.

Definition projection (path : jsstr) (es : list (Moment * event)) : list Console.event := projection_from (initial path) es.

(** ** Lemmas *)

Lemma run_snoc path es m e : run path (es ++ [(m, e)]) = step m (run path es) e.
Proof. unfold run. by rewrite foldl_app. Qed.

Lemma projection_snoc path es m e :
  projection path (es ++ [(m, e)]) = projection path es ++ option_list (console_event (page (run path es)) e).
Proof.
  unfold projection, run. generalize (initial path). induction es as [|[m' e'] es IH]; intros s; cbn; [by rewrite app_nil_r|].
  by rewrite IH, app_assoc.
Qed.

Lemma projection_run path es : console (run path es) = Console.run path (projection path es).
Proof.
  induction es as [|[m e] es IH] using rev_ind; [done|]. rewrite run_snoc, projection_snoc. unfold step. cbn [console].
  rewrite IH. destruct (console_event (page (run path es)) e); cbn; [by rewrite Console.console_run_snoc|by rewrite app_nil_r].
Qed.

Lemma fresh_kind m me config r : kind (fresh m me config r) = Some r.
Proof. by destruct r. Qed.

Lemma on_page_kind p e : kind (on_page p e) = kind p.
Proof. by destruct e, p. Qed.

Definition shown (c : Console.Console) : option Session.page := if Console.in_app c then Some (Console.route c) else None.

Lemma mount_kind m c p : kind (mount m c p) = shown c.
Proof.
  unfold mount, shown, Console.in_app. destruct (Session.App (Console.shell c)) as [| | |me config]; try done.
  case_decide; [done|apply fresh_kind].
Qed.

Lemma step_kind m s e : kind (page (step m s e)) = shown (console (step m s e)).
Proof. apply mount_kind. Qed.

Lemma run_kind path es : kind (page (run path es)) = shown (console (run path es)).
Proof. destruct es as [|[m e] es _] using rev_ind; [done|]. rewrite run_snoc. apply step_kind. Qed.

(** What the outlet offers is of the page it holds. *)
Definition of_page (m : Moment) (me : SessionMe) (config : AppConfig) (s : Site) (e : event) : Prop :=
  match e, page s with
  | Base (Console.Dash d), DashboardPage => d ∈ enabled_events [Dashboard.Dashboard (now m) me (Console.dashboard (console s))]
  | OnStats e, StatsPage p => e ∈ enabled_events [Stats.Stats (now m) (typing m) p]
  | OnModels e, ModelsPage p =>
      e ∈ enabled_events [Models.Models (catalogue_query (models_query m)) (Some (endpoint me)) (curl_copied m) (typing m) p]
  | OnMcp e, McpPage search => e ∈ enabled_events [Mcp.Mcp (mcp_query m) (typing m) search]
  | OnA2a e, A2aPage search => e ∈ enabled_events [A2a.A2a (a2a_query m) (Some (endpoint me)) (typing m) search]
  | OnHowTo e, HowToPage p => e ∈ enabled_events [HowTo.rendered parse_url (inputs m me config) p]
  | _, _ => False
  end.

Lemma outlet_offers m s me config e : e ∈ enabled_events (outlet m s me config) → of_page m me config s e.
Proof.
  unfold outlet, of_page. destruct (page s); [by intros ?%elem_of_nil|..];
    rewrite enabled_events_map_node; by intros (x & -> & Hx)%list_elem_of_fmap.
Qed.

Lemma site_offers m s e : e ∈ enabled_events [view m s] →
  (∃ b, e = Base b ∧ Console.chrome (surroundings m) (console s) b) ∨
  ∃ me config, Session.App (Console.shell (console s)) = Session.AuthedRouter me config ∧ of_page m me config s e.
Proof.
  unfold view. intros [(b & -> & Hb)|(me & config & Ha & He)]%Console.frame_offers; [left; eauto|right].
  exists me, config. split; [done|]. by apply outlet_offers.
Qed.

(** What it offers of the console, the console offers. *)
Lemma base_offered m s b : kind (page s) = shown (console s) → Base b ∈ enabled_events [view m s] →
  b ∈ enabled_events [Console.view (surroundings m) (console s)].
Proof.
  intros Hk [(b' & [= <-] & Hb)|(me & config & Ha & He)]%site_offers; apply Console.frame_offers; [left; eauto|right].
  exists me, config. split; [done|]. unfold of_page in He. destruct b as [| | |d| | | |]; try done. destruct (page s); try done.
  unfold shown, Console.in_app in Hk. rewrite Ha in Hk. injection Hk as Hr. unfold Console.outlet. rewrite <-Hr.
  rewrite enabled_events_map_node. by apply (list_elem_of_fmap_2 Console.Dash).
Qed.

(** A run the site offers is one the console offers. *)
Lemma offered_projects path es : offered path es → Console.offered path (projection path es).
Proof.
  induction 1 as [|es m m' e e' _ IH He Ht|es m e _ IH Hw]; [constructor| |]; rewrite projection_snoc.
  - destruct (console_event (page (run path es)) e') as [c|] eqn:Hc; cbn [option_list]; [|by rewrite app_nil_r].
    destruct e'; try done.
    + injection Hc as <-. destruct e; try done. apply base_offered in He; [|apply run_kind].
      rewrite projection_run in He. by eapply Console.offered_user.
    + cbn in Hc. destruct e0, (page (run path es)); try done. injection Hc as <-. by apply Console.offered_world.
  - destruct e; try done. by apply Console.offered_world. cbn. by rewrite app_nil_r.
Qed.

(** *** A page's life *)

Lemma mount_keeps m c p : kind p = shown c → mount m c p = p.
Proof.
  unfold mount, shown, Console.in_app. destruct (Session.App (Console.shell c)) as [| | |me config]; intros Hk.
  1-3: by destruct p.
  by rewrite decide_True.
Qed.

Lemma mount_fresh m c p : kind p ≠ shown c → mount m c p = NoPage ∨
  ∃ me config, Session.App (Console.shell c) = Session.AuthedRouter me config ∧ mount m c p = fresh m me config (Console.route c).
Proof.
  unfold mount, shown, Console.in_app. destruct (Session.App (Console.shell c)) as [| | |me config]; intros Hk; [by left..|].
  right. exists me, config. by rewrite decide_False.
Qed.

Lemma prefix_snoc_cases {A} (k l : list A) x : k `prefix_of` l ++ [x] → k = l ++ [x] ∨ k `prefix_of` l.
Proof.
  intros [j Hj]. destruct j as [|y j _] using rev_ind; [left; by rewrite app_nil_r in Hj|right].
  rewrite (assoc_L (++)) in Hj. apply app_inj_tail in Hj as [-> _]. by exists j.
Qed.

(** The page of a run is what its own events, since the event that brought it up,
    make of a fresh page; it has been shown since. *)
Definition lives (path : jsstr) (es : list (Moment * event)) : Prop :=
  page (run path es) = NoPage ∨
  ∃ es1 m e es2 me config, es = es1 ++ (m, e) :: es2 ∧
    kind (page (run path es1)) ≠ kind (page (run path es)) ∧
    (∀ es3, es3 `prefix_of` es2 → kind (page (run path (es1 ++ (m, e) :: es3))) = kind (page (run path es))) ∧
    Session.App (Console.shell (console (run path (es1 ++ [(m, e)])))) = Session.AuthedRouter me config ∧
    page (run path es) =
      foldl (λ p x, on_page p x.2) (fresh m me config (Console.route (console (run path es)))) es2.

Lemma step_life m s e : kind (page s) = shown (console s) →
  (kind (page (step m s e)) = kind (page s) → page (step m s e) = on_page (page s) e) ∧
  (kind (page (step m s e)) ≠ kind (page s) → page (step m s e) = NoPage ∨
    ∃ me config, Session.App (Console.shell (console (step m s e))) = Session.AuthedRouter me config ∧
      page (step m s e) = fresh m me config (Console.route (console (step m s e)))).
Proof.
  intros Hs. rewrite step_kind. split; intros Hk; unfold step at 1; cbn [page].
  - apply mount_keeps. by rewrite on_page_kind.
  - apply mount_fresh. rewrite on_page_kind. intros Heq. by apply Hk.
Qed.

Lemma kind_none p : kind p = None → p = NoPage.
Proof. by destruct p. Qed.

Lemma shown_route c c' : shown c = shown c' → shown c ≠ None → Console.route c = Console.route c'.
Proof. unfold shown. destruct (Console.in_app c), (Console.in_app c'); congruence. Qed.

Lemma run_lives path es : lives path es.
Proof.
  induction es as [|[m e] es IH] using rev_ind; [by left|]. destruct (decide (kind (page (run path (es ++ [(m, e)]))) = None)) as [Hn|Hn].
  { left. by apply kind_none. }
  rewrite run_snoc in Hn. destruct (step_life m (run path es) e (run_kind path es)) as [Hkeep Hnew].
  destruct (decide (kind (page (step m (run path es) e)) = kind (page (run path es)))) as [Hk|Hk].
  - destruct IH as [IH|(es1 & m1 & e1 & es2 & me & config & -> & H1 & H2 & H3 & H4)]; [by rewrite Hk, IH in Hn|].
    right. exists es1, m1, e1, (es2 ++ [(m, e)]), me, config. rewrite run_snoc.
    set (s := run path (es1 ++ (m1, e1) :: es2)) in *. split_and!; [by rewrite <-(assoc_L (++))|by rewrite Hk| |done|].
    + intros es3 [->|Hp]%prefix_snoc_cases; [|rewrite Hk; by apply H2].
      change ((m1, e1) :: es2 ++ [(m, e)]) with (((m1, e1) :: es2) ++ [(m, e)]). by rewrite (assoc_L (++)), run_snoc.
    + rewrite (Hkeep Hk), foldl_app, <-(shown_route (console s) (console (step m s e))), <-H4; [done| |].
      * rewrite <-step_kind, Hk. unfold s. by rewrite run_kind.
      * rewrite Hk in Hn. unfold s. by rewrite <-run_kind.
  - destruct (Hnew Hk) as [Hp|(me & config & Ha & Hp)]; [by rewrite Hp in Hn|]. right.
    exists es, m, e, [], me, config. rewrite run_snoc. split_and!; [done|by intros Heq|intros es3 ->%prefix_nil_inv|done..].
    by rewrite run_snoc.
Qed.

(** *** The how-to page *)

Definition howto_ok (p : Page) : Prop :=
  match p with HowToPage st => ∃ i0 seen, HowTo.reached parse_url i0 seen st | _ => True end.

Lemma mount_howto m c p : howto_ok p → howto_ok (mount m c p).
Proof.
  intros Hp. unfold mount. destruct (Session.App (Console.shell c)) as [| | |me config]; [done..|]. case_decide; [done|].
  destruct (Console.route c); try done. exists (inputs m me config), []. apply HowTo.reached_start.
Qed.

Lemma run_howto path es : offered path es → howto_ok (page (run path es)).
Proof.
  induction 1 as [|es m m' e e' _ IH He Ht|es m e _ IH Hw]; [done| |]; rewrite run_snoc; apply mount_howto.
  - destruct e'; cbn [on_page]; try done; try by destruct (page (run path es)).
    destruct e; try done. injection Ht as ->. apply site_offers in He as [(b & [=] & _)|(me & config & _ & He)].
    unfold of_page in He. destruct (page (run path es)) as [| | | | | |st]; try done. destruct IH as (i0 & seen & IH).
    exists i0, (seen ++ [inputs m me config]). by apply HowTo.reached_step.
  - by destruct e, (page (run path es)).
Qed.

(** *** Going places *)

Lemma route_in_app c path : Console.in_app (Console.step c (Console.Route path)) = Console.in_app c.
Proof.
  change (Console.in_app (Console.step c (Console.Route path))) with (Console.in_app (Console.navigate path c)).
  by destruct (Console.navigate_keeps path c) as (_ & _ & _ & _ & -> & _).
Qed.

Lemma route_route c path : Console.route (Console.step c (Console.Route path)) = Session.makeRouter path.
Proof.
  change (Console.route (Console.step c (Console.Route path))) with (Console.route (Console.navigate path c)).
  by destruct (Console.navigate_keeps path c) as (_ & _ & _ & _ & _ & ->).
Qed.

Lemma goes m s e path : console_event (page s) e = Some (Console.Route path) → Console.in_app (console s) = true →
  kind (page (step m s e)) = Some (Session.makeRouter path).
Proof. intros He Ha. rewrite step_kind. unfold step, shown. cbn [console]. rewrite He. cbn [from_option]. by rewrite route_in_app, route_route, Ha. Qed.

Lemma offered_navigation m s st path : page s = HowToPage st → OnHowTo (HowTo.Navigate path) ∈ enabled_events [view m s] →
  path = js "/keys" ∧ Console.in_app (console s) = true.
Proof.
  intros Hp [(b & [=] & _)|(me & config & Ha & He)]%site_offers. unfold of_page in He. rewrite Hp in He. split.
  - destruct (HowTo.page_sound parse_url (code_copied m) (Some me) config (origin m) (models_data m) st) as [H _].
    exact (proj1 (Forall_forall _ _) H _ He).
  - unfold Console.in_app. by rewrite Ha.
Qed.

(** ** Properties *)

(** C19. The whole site refines the console.  Every run of the site on which the user
    does only what is rendered is, page events left out and the how-to page's
    navigation read as a change of the address, a run of the console on which the
    user does only what the console renders, and ends in the same console.  So what
    is proved of those (C2, C6, C8, C17, C18) holds with every page in place: the
    other pages send no request about keys, open no dialog and raise no toast. *)
Theorem site_refines_console path es : offered path es →
  Console.offered path (projection path es) ∧
  console (run path es) = Console.run path (projection path es) ∧
  (∀ m e, projection path (es ++ [(m, e)]) = projection path es ∨
     ∃ c, projection path (es ++ [(m, e)]) = projection path es ++ [c] ∧
       (e = Base c ∨ ∃ to, e = OnHowTo (HowTo.Navigate to) ∧ c = Console.Route to)).
Proof.
  intros He. split_and!; [by apply offered_projects|apply projection_run|]. intros m e. rewrite projection_snoc.
  destruct (console_event (page (run path es)) e) as [c|] eqn:Hc; cbn [option_list]; [right|left; apply app_nil_r].
  exists c. split; [done|]. destruct e; try done; cbn in Hc; [left; congruence|right].
  destruct e, (page (run path es)); try done. injection Hc as <-. by eexists.
Qed.

(** The pages by address. *)
Definition sitemap : list (jsstr * Session.page) :=
  [(js "/", Session.Dashboard); (js "/stats", Session.Stats); (js "/models", Session.Models);
   (js "/mcp", Session.Mcp); (js "/a2a", Session.A2a); (js "/howto", Session.HowTo)].

Lemma matchRoute_sitemap addr : Session.matchRoute addr = snd <$> List.find (λ p, js_eqb addr p.1) sitemap.
Proof.
  unfold Session.matchRoute, sitemap. cbn [List.find fst].
  repeat (match goal with |- context [js_eqb addr ?x] => destruct (js_eqb addr x) end; [done|]). done.
Qed.


End site.

(** ** A visit *)

#[local] Existing Instance ascii_unicode.
#[local] Existing Instance utc_engine.

Definition noon : Moment := {|
  now := 1700000000000; year := 2023; theme := Theme.dark; active := λ _, false; following := false;
  origin := js "https://console.example.com";
  stats_queries := {| Stats.stats_query := λ _, Pending; Stats.latency_query := λ _, Pending; Stats.keys_data := None |};
  models_query := Pending; models_data := None; mcp_query := Pending; a2a_query := Pending; typing := [];
  curl_copied := λ _, false; code_copied := λ _, false |}.

(** Sign in, open the how-to page, and follow its Keys button. *)
Definition to_howto : list (Moment * event) :=
  [(noon, Base (Console.Boot Session.Mount));
   (noon, Base (Console.Boot (Session.MeArrives (Responds 200 (Json (Some Dashboard.sample_me))))));
   (noon, Base (Console.Boot Session.MeContinues)); (noon, Base (Console.Route (js "/howto")))].

Definition visit : list (Moment * event) := to_howto ++ [(noon, OnHowTo (HowTo.Navigate (js "/keys")))].

Lemma to_howto_offered : offered (λ _, None) (js "/") to_howto.
Proof.
  apply (offered_world _ _ [_; _; _]); [|done]. apply (offered_world _ _ [_; _]); [|done].
  apply (offered_world _ _ [_]); [|done]. apply (offered_world _ _ []); [constructor|done].
Qed.

Lemma keys_button_offered : OnHowTo (HowTo.Navigate (js "/keys")) ∈ enabled_events [view (λ _, None) noon (run (js "/") to_howto)].
Proof. apply (list_elem_of_lookup_2 _ 6). vm_compute. reflexivity. Qed.

Lemma visit_offered : offered (λ _, None) (js "/") visit.
Proof. apply (offered_user _ _ to_howto noon noon _ _ to_howto_offered keys_button_offered). done. Qed.

Lemma site_refines_console_witness :
  projection (js "/") visit = [Console.Boot Session.Mount;
    Console.Boot (Session.MeArrives (Responds 200 (Json (Some Dashboard.sample_me)))); Console.Boot Session.MeContinues;
    Console.Route (js "/howto"); Console.Route (js "/keys")] ∧
  Console.offered (js "/") (projection (js "/") visit).
Proof.
  split; [vm_compute; reflexivity|].
  exact (proj1 (site_refines_console (λ _, None) (js "/") visit visit_offered)).
Defined.

End Site.
